(* ===== verification/_CoqProject ===== *)
-Q . S2P
Prelude.v
Errors.v
Types.v
Crypto.v
Concrete.v
Jwt.v
Redis.v
RedisSession.v
SessionSpec.v
RedisRefine.v
RefineRevoke.v
RefineListing.v
SessionStore.v
Lineage.v
RedisLife.v
RedisStores.v
StoreClaims.v
MfaStore.v
RedisContract.v
Engine.v
Repository.v
Password.v
Totp.v
SideStores.v
OtpService.v
TokenManager.v
TokenVerify.v
TokenRotate.v
RotationClaims.v
EngineLife.v
AccessClaims.v
Sessions.v
SessionClaims.v
EngineSample.v
AuthCore.v
IssueServed.v
Login.v
LoginSound.v
LoginLockout.v
SessionOps.v
PasswordReset.v
ResetOrder.v
Account.v
MfaService.v
MfaSound.v
Platform.v
OAuth.v
Invitation.v
UrlText.v
Config.v
Validate.v
Builder.v
Facade.v
InMemory.v
InMemoryClaims.v
Net.v
Http.v
ClientIp.v
Delivery.v
Bodies.v
Guards.v
Edge.v
Routes.v
RouteClaims.v
Utf8.v
Client.v
ClientClaims.v
ApiKey.v
CommonPassword.v
Providers.v
EdgeJwt.v
Mail.v
InMemoryRepository.v
HostSample.v
FlowSample.v
PeerSample.v
ConfigSample.v
HttpSample.v
ClientSample.v
PrimitiveSample.v
