(* ===== verification/Prelude.v ===== *)
(** * Verification of the bymax-auth engine

    bymax-auth is an authentication library in Rust.  Its engine
    ([crates/bymax-auth-core]) runs the flows an application exposes (sign-in,
    sign-out, refresh, registration, e-mail verification and change, password
    reset and change, a second factor, invitations, sign-in through an identity
    provider, and a separate plane for platform administrators).  They issue
    short-lived signed access tokens and long-lived opaque refresh tokens, and
    keep sessions, codes, counters and locks in stores behind traits.  The store
    that ships with it is Redis ([crates/bymax-auth-redis], with eleven Lua
    scripts); the token codec is [crates/bymax-auth-jwt]; passwords, TOTP and
    encryption at rest are [crates/bymax-auth-crypto]; the shared data is
    [crates/bymax-auth-types]; the HTTP adapter is [crates/bymax-auth-axum], the
    HTTP client [crates/bymax-auth-client], and [bindings/bymax-auth-wasm]
    verifies tokens at an edge without the stores.
    Accounts belong to the host application, which implements the repository,
    hook and e-mail traits.

    ** How the parts are modelled

    Rust code is embedded shallowly.  A pure function is a Rocq function; a
    method that borrows a store is a function of the monad [M] below, which
    threads the store and returns a [result], so an error keeps the writes made
    before it as [?] does.  Integers are [Z] with the width's wrap or
    saturation written out where the code depends on it.

    - Data.  [Errors] (types/src/error.rs), [Types] (domain, claims, results,
      store records, the millisecond timestamps), [Crypto] (core
      services/mod.rs, crypto compare.rs and token.rs: hexadecimal, opaque
      token shapes, tenant-scoped subjects).
    - Cryptography.  [Jwt] is jwt/src/hs256.rs, signing and verification;
      [Password] is crypto/src/password and core services/password.rs; [Totp] is
      crypto/src/totp.rs and aead.rs.
    - Redis.  [Redis] is the database: typed values with expiries, a clock, a
      connection that can fail, and the commands the stores use.
      [RedisSession] is stores/session.rs, session_listing.rs and their six
      scripts; [RedisStores] is every other store and the other five scripts.
      A script runs as one step; a store method is the sequence of its
      commands.
    - Interfaces.  [SessionStore] and [MfaStore] are the traits as type
      classes, with their laws stated against [SessionSpec], an executable
      abstract store of sessions, families, recovery pointers and indexes;
      [SideStores] holds the traits of the other stores, whose law is that they
      leave that abstract store alone.  [Repository] holds the traits the host
      implements, which act on the host's own state and of which nothing is
      assumed.
    - Services.  [Engine] is what a service runs in (stores, host state, clock
      readings, random draws, fired hooks and detached tasks in order);
      [TokenManager] is services/token_manager.rs, [Sessions] services/session.rs,
      [OtpService] services/otp.rs.
    - Flows.  [AuthCore] is the assembled engine and the gates the flows share
      (blocked status, tenant binding, lockout, normalisation); [Login] is
      services/auth/login.rs, session_ops.rs and detached.rs; [PasswordReset] is
      password_reset.rs; [Account] is register.rs, email_verification.rs and
      email_change.rs; [MfaService] is services/mfa; [Platform] is
      services/platform.rs; [OAuth] is services/oauth.rs; [Invitation] is
      services/auth/invitation.rs and invitation/supersede.rs.
    - Deployment.  [Config] is config/mod.rs, the settings and their defaults;
      [UrlText] and [Validate] are config/validate.rs and cookie_prefix.rs;
      [Builder] is engine/builder.rs, which wires a validated configuration and
      the host's collaborators into the services above; [Facade] is
      services/adapter_api.rs, verifier.rs and rate_limit.rs, what an adapter
      calls.
    - HTTP (axum/src).  [Net] is the standard library's addresses, with their
      text; [Http] is response.rs and transport.rs; [ClientIp] is
      client_ip.rs; [Delivery] is delivery.rs, every cookie and the body of each
      answer; [Bodies] is validation.rs, dto.rs and dto/; [Guards]
      is extractors/ and ws.rs; [Edge] is trusted_origin.rs, encoding_policy.rs,
      shared_limit.rs, rate_limit.rs and the order of the layers in
      middleware.rs; [Routes] is routes/, every handler and the table of routes.
      A guard and a handler run on a connection: the engine's world, the claims
      verified so far and the cookie jar.  [Routes.serve] is the whole service,
      from a request to the answer that leaves.
    - Client.  [Client] is client/src/lib.rs: an operation is a program over the
      steps other tasks can come between (reading or writing the held pair, the
      refresh lock, a request), with a step relation of many on one client.
      [Utf8] is the standard library's reading of bytes as text.
    - Collaborators that ship with the engine.  [CommonPassword] is
      traits/common_password.rs; [Providers] is traits/http.rs, traits/breach.rs
      and providers/google.rs; [Mail] is traits/default_email.rs and its
      catalogue; [ApiKey] is crypto/src/api_key.rs; [EdgeJwt] is the edge
      verifier, jwt_edge.rs and the entry points of its lib.rs.
    - Test doubles (core testing/).  [InMemory] is every store trait over maps,
      with the failures a test can arm; [InMemoryRepository] is both account
      repositories, the fixed HTTP client and the canned identity provider.

    ** What is proved

    - Refinement.  [RedisRefine], [RefineRevoke] and
      [RefineListing] relate a well-formed database to an abstract store;
      [SessionStore] and [RedisContract] conclude that all eighteen methods of
      the Redis store implement the contract and keep it well-formed, and
      likewise for the MFA marker.
    - Lives.  [Lineage] is the step relation of the contract with its
      invariants by rule induction: index and family cover every live session
      and pointer.  [RedisLife] transports it to databases (signing out
      everywhere, a dead family stays dead, a consumed token is detected);
      [EngineLife] to runs of the token manager.
    - Tokens.  [TokenVerify], [TokenRotate], [RotationClaims] and [AccessClaims]: what verification accepts under
      rotating keys, that an issued session is served, what a refresh preserves,
      refuses and detects, the absolute lifetime, the epoch and the denylist.
      They are proved for any store with the laws, so for Redis in particular.
    - Sessions.  [SessionClaims]: the cap, first-in first-out eviction, and
      signing out other devices.
    - Other stores.  [StoreClaims]: bounded guesses,
      fixed windows, single redemption, mutual exclusion.
    - Primitives.  [Password]: a fresh hash verifies and is not stale; [Totp]:
      the drift window accepts exactly the codes of its steps, and what is
      sealed opens; [OtpService]: digits are the accepted bytes in order.
    - Flows.  [AuthCore] and [IssueServed] hold the two ways the flows are
      reasoned about (a call that leaves the sessions alone; a successful run
      read backwards).  [Login], [LoginSound] and [LoginLockout]: login
      lets in only who proved the password, serves who did, refuses uniformly
      and locks.  [SessionOps]: what sign-out ends, and what
      a refresh re-reads of the account.  [PasswordReset] and [ResetOrder]: a
      completed reset signs out everywhere, a refused one spends nothing, asking
      for one answers alike for any address, and a change of password keeps only
      the device it was made on.  [MfaSound]: a challenge is
      passed only with a second factor, and changing it signs out everywhere.
      [Platform], [OAuth] and [Invitation] end with the same for administrators,
      for the binding of a callback to its start, and for the rank of an
      inviter.
    - Deployment.  [Validate]: the startup rules accept exactly the
      configurations one declarative condition describes.  [Builder]: an
      engine that was built is fit for the flows, sends nobody off its own
      origins, and keeps a revocation for as long as the tokens it revokes.
      [Facade]: whose claims a verified token or a ticket answers.
    - HTTP.  [ClientIp] ends with the attribution of a request and the budgets of
      addresses; [Delivery]: the cookies a sign-in plants are protected and
      a sign-out takes them all back; [RouteClaims]: another site's request
      changes nothing, a limit holds, no credential reaches the host's hooks,
      which routes answer a stranger, and that the guards of a
      handler speak of one account; [Bodies]: the bounds of what is accepted,
      and that the engine's own codes are.
    - Client.  [ClientClaims]: reads that share a client refresh one after
      another, and once for a burst.
    - Collaborators.  [CommonPassword]: exactly what the screen refuses, and that
      decoration does not hide a word; [Providers]: what a breach query gives
      away, and that Google reads the parameters that were meant; [Mail]: no
      value put into a message adds markup or a header; [ApiKey]: the grammar of a
      key and that an issued one verifies; [EdgeJwt]: the edge accepts what the
      server's codec does, within five minutes.
    - Test doubles.  [InMemoryClaims]: a relation between the maps and the
      session contract, preserved by each of the eighteen calls, so that what a
      test is told is what the Redis store answers, with the two cases where it
      is not; [InMemoryRepository]: a created account replaces none, and a scoped
      write stays in its tenant.
    - [RedisContract], [EngineSample], [HostSample], [FlowSample], [PeerSample],
      [ConfigSample], [HttpSample], [ClientSample] and [PrimitiveSample] run the
      models on concrete databases, worlds, a concrete host, a built engine and
      requests to it, clients and messages, with the parameters of [Concrete].

    ** Parameters

    Code outside the repository is a parameter with its documented behaviour as
    laws: digests and random bytes ([Crypto], [CryptoLaws], [Host]), base64 and
    base32 ([Base64], [Base64Std], [Base32]), serialization ([HeaderJson],
    [ClaimsJson], [SessionJson], [MfaJson], each with its round trip), password
    derivation and the PHC text ([PasswordHashLib]), AES-256-GCM ([Aes256Gcm]),
    the Unicode tables ([UnicodeText], [UnicodeChars]), the thread pool that runs
    derivations ([KdfRuntime]) and the traits of [Repository].  The startup
    rules take the platform's logarithm and the order of a hash map
    ([EntropyPlatform]) and the base64 engines ([Base64Variants]).  The HTTP
    adapter takes the header map and methods ([HttpLib]), the cookie jar
    ([CookieLib], [CookieLaws]), the two field rules it does not write itself
    ([GardeLib], [GardeLaws]), the derived readers of bodies and queries
    ([JsonBody], [QueryText], [JsonText]), the in-process limiter, the declared
    length the body limit looks at, the reading of a request's jar and the answer
    to a path no route has.  The client takes its JSON package ([ClientJson]); the
    password screen the classes of letters ([UnicodeLetters],
    [UnicodeLettersLaws]); the breach query SHA-1 and the transport ([Sha1],
    [HttpClient]); the Google provider its derived readers ([GoogleJson]); the
    edge verifier a JSON document and the tag each reader checks ([JsonView],
    [TaggedClaims]); mail the calendar and the channel ([Calendar],
    [AuthEmailSink]); the test doubles the order a hash set or map is walked in
    ([HashOrder], [RowOrder]).  No collision-freedom is assumed unless a theorem
    states it as a hypothesis.

    ** Bounds and fuel

    Every loop of the code but one runs over a list or a fixed count, and the
    models recurse on it ([claim_slot] makes the three attempts the code makes).
    The exception is [draw_digit], which redraws a rejected random byte until one
    is accepted: its fuel is [redraws] of [DigitSource], a bound on consecutive
    rejected bytes, and [otp_generate_filters] shows that with it the loop ends
    with every digit drawn.  The database's clock moves only
    between calls, by an explicit amount; every clock reading a service takes is
    a separate entry of its world.  Tokens, key names and
    records are unbounded strings.  Epochs and attempt counts are mathematical
    integers printed in decimal, as Redis stores them.

    ** Not modelled

    The transport behind [HttpClient] (reqwest) and the one-line wrappers of the
    digest packages; the facade crate, which re-exports; the exchange of values
    between WebAssembly and JavaScript; what a test arranges to run when the
    in-memory store grants a second-factor lock; the connection
    pool and script cache; log lines, CORS and header redaction of the adapter,
    and the sweeper of its idle limiter keys.  The router's own matching
    of paths is axum's: a request comes with the pattern it matched.  A detached
    task is recorded when it is spawned and its body is not scheduled, except that
    [FlowSample] interleaves one rehash with a password change.  Concurrency
    inside one store method is not considered beyond the atomicity of a script:
    on the server the interleavings are those of whole calls, in the client those
    of the steps of its operations. *)

From stdpp Require Export base tactics option list strings gmap numbers.
From Stdlib Require Export Ascii.
From Stdlib Require Import DecimalString DecimalZ.

#[global] Set Default Goal Selector "!".
#[global] Open Scope Z_scope.

Declare Scope auth_scope.
Delimit Scope auth_scope with auth.

(** ** Fallible results

    [result E A] is Rust's [Result<A, E>]. *)

Inductive result (E A : Type) : Type :=
| Ok (a : A)
| Err (e : E).
Arguments Ok {E A} a.
Arguments Err {E A} e.

#[export] Instance result_eq_dec {E A} `{EqDecision E, EqDecision A} :
  EqDecision (result E A).
Proof. solve_decision. Defined.

Definition result_map {E A B} (f : A -> B) (r : result E A) : result E B :=
  match r with Ok a => Ok (f a) | Err e => Err e end.

Definition map_err {E F A} (f : E -> F) (r : result E A) : result F A :=
  match r with Ok a => Ok a | Err e => Err (f e) end.

Definition ok_or {E A} (e : E) (o : option A) : result E A :=
  match o with Some a => Ok a | None => Err e end.

Definition is_ok {E A} (r : result E A) : bool :=
  match r with Ok _ => true | Err _ => false end.

(** ** The state and error monad

    A method that borrows a shared store and may fail is [M S E A]: it
    takes the store and returns a result together with the store as the
    method left it.  An error keeps every write made before it, exactly as
    the early return of [?] does. *)

Definition M (S E A : Type) : Type := S -> result E A * S.

#[export] Instance M_ret {S E} : MRet (M S E) := fun _ a s => (Ok a, s).

#[export] Instance M_bind {S E} : MBind (M S E) :=
  fun _ _ f m s => match m s with
                   | (Ok a, s') => f a s'
                   | (Err e, s') => (Err e, s')
                   end.

#[export] Instance M_fmap {S E} : FMap (M S E) :=
  fun _ _ f m s => let '(r, s') := m s in (result_map f r, s').

Definition throw {S E A} (e : E) : M S E A := fun s => (Err e, s).
Definition gets {S E A} (f : S -> A) : M S E A := fun s => (Ok (f s), s).
Definition modify {S E} (f : S -> S) : M S E unit := fun s => (Ok tt, f s).
Definition lift {S E A} (r : result E A) : M S E A := fun s => (r, s).

(** [e.map_err(f)] on a stateful computation. *)
Definition catch_map {S E F A} (f : E -> F) (m : M S E A) : M S F A :=
  fun s => let '(r, s') := m s in (map_err f r, s').

(** Run a computation and hand its [Result] to the caller, who decides
    whether to propagate it: Rust code that binds a [Result] without [?]. *)
Definition attempt {S E A} (m : M S E A) : M S E (result E A) :=
  fun s => let '(r, s') := m s in (Ok r, s').

Lemma bind_run {S E A B} (m : M S E A) (f : A -> M S E B) (s : S) :
  (m ≫= f) s = match m s with
               | (Ok a, s') => f a s'
               | (Err e, s') => (Err e, s')
               end.
Proof. reflexivity. Qed.

Lemma bind_ok {S E A B} (m : M S E A) (f : A -> M S E B) (s s' : S) (a : A) :
  m s = (Ok a, s') -> (m ≫= f) s = f a s'.
Proof. intros Hm. by rewrite bind_run, Hm. Qed.

Lemma bind_err {S E A B} (m : M S E A) (f : A -> M S E B) (s s' : S) (e : E) :
  m s = (Err e, s') -> (m ≫= f) s = (Err e, s').
Proof. intros Hm. by rewrite bind_run, Hm. Qed.

Lemma bind_ok_inv {S E A B} (m : M S E A) (f : A -> M S E B) (s s' : S) (b : B) :
  (m ≫= f) s = (Ok b, s') -> exists a s1, m s = (Ok a, s1) /\ f a s1 = (Ok b, s').
Proof. rewrite bind_run. destruct (m s) as [[a|e] s1]; [eauto | done]. Qed.

Lemma ret_run {S E A} (a : A) (s : S) : (mret a : M S E A) s = (Ok a, s).
Proof. reflexivity. Qed.

Lemma bind_assoc {S E A B C} (m : M S E A) (f : A -> M S E B) (g : B -> M S E C) (s : S) :
  ((m ≫= f) ≫= g) s = (m ≫= (fun a => f a ≫= g)) s.
Proof. rewrite !bind_run. by destruct (m s) as [[a|e] s1]. Qed.

(** [mrun] unfolds one layer of the monad's plumbing wherever it occurs. *)
Ltac mrun :=
  cbv [mret mbind M_ret M_bind throw gets modify lift attempt catch_map] in *.

(** [split_matches] cases on every stuck [match] and [if] of the goal. *)
Ltac split_matches :=
  repeat (case_match; simplify_eq/=; try done).

Create HintDb auth discriminated.
#[export] Hint Resolve bind_ok bind_err : auth.

(** ** Strings

    A Rust [String] is its UTF-8 bytes, and so is a [string]: one [ascii]
    per byte, so [String.length] is [str::len()]. *)

Fixpoint strip_prefix (p s : string) : option string :=
  match p, s with
  | EmptyString, _ => Some s
  | String a p', String b s' => if decide (a = b) then strip_prefix p' s' else None
  | String _ _, EmptyString => None
  end.

Definition starts_with (p s : string) : bool :=
  match strip_prefix p s with Some _ => true | None => false end.

(** [s.split_once(c)]: the parts before and after the first [c]. *)
Fixpoint split_once (c : ascii) (s : string) : option (string * string) :=
  match s with
  | EmptyString => None
  | String a s' =>
      if decide (a = c) then Some (EmptyString, s')
      else match split_once c s' with
           | Some (l, r) => Some (String a l, r)
           | None => None
           end
  end.

(** [s.split(c)]: every maximal run between separators, empty runs kept. *)
Fixpoint split_on (c : ascii) (s : string) : list string :=
  match s with
  | EmptyString => [EmptyString]
  | String a s' =>
      if decide (a = c) then EmptyString :: split_on c s'
      else match split_on c s' with
           | w :: ws => String a w :: ws
           | [] => [String a EmptyString]
           end
  end.

Fixpoint string_all (f : ascii -> bool) (s : string) : bool :=
  match s with
  | EmptyString => true
  | String a s' => f a && string_all f s'
  end.

Definition string_is_empty (s : string) : bool :=
  match s with EmptyString => true | _ => false end.

Definition contains_char (c : ascii) (s : string) : bool :=
  negb (string_all (fun a => negb (bool_decide (a = c))) s).

Lemma string_app_assoc (a b c : string) : (a +:+ b) +:+ c = a +:+ (b +:+ c).
Proof. induction a as [|x a IH]; [done|]. change (String x ((a +:+ b) +:+ c) = String x (a +:+ (b +:+ c))). by rewrite IH. Qed.

Lemma string_app_nil_r (a : string) : a +:+ "" = a.
Proof. induction a as [|x a IH]; [done|]. change (String x (a +:+ "") = String x a). by rewrite IH. Qed.

Lemma string_app_cons (x : ascii) (a b : string) : String x a +:+ b = String x (a +:+ b).
Proof. reflexivity. Qed.

Lemma string_app_nil_l (a : string) : "" +:+ a = a.
Proof. reflexivity. Qed.

Lemma string_length_app (a b : string) :
  String.length (a +:+ b) = (String.length a + String.length b)%nat.
Proof. induction a as [|x a IH]; [done|]. rewrite string_app_cons. simpl. by rewrite IH. Qed.

Lemma strip_prefix_app (p s : string) : strip_prefix p (p +:+ s) = Some s.
Proof. induction p as [|a p IH]; [done|]. rewrite string_app_cons. simpl. by rewrite decide_True. Qed.

Lemma strip_prefix_Some (p s r : string) : strip_prefix p s = Some r <-> s = p +:+ r.
Proof.
  split; [|intros ->; apply strip_prefix_app].
  revert s. induction p as [|a p IH]; intros s Hs.
  - simpl in Hs. by simplify_eq.
  - destruct s as [|b s]; simpl in Hs; [done|]. case_decide; [|done]. subst b.
    rewrite string_app_cons. f_equal. by apply IH.
Qed.

Lemma string_app_inj_l (p a b : string) : p +:+ a = p +:+ b -> a = b.
Proof. induction p as [|x p IH]; [done|]. rewrite !string_app_cons. intros [= H]. by apply IH. Qed.

Lemma string_all_app (f : ascii -> bool) (a b : string) : string_all f (a +:+ b) = string_all f a && string_all f b.
Proof. induction a as [|x a IH]; [done|]. rewrite string_app_cons. cbn. rewrite IH. by destruct (f x). Qed.

(** Splitting undoes joining at a separator the first part does not contain. *)
Lemma split_once_app (c : ascii) (a b : string) :
  contains_char c a = false -> split_once c (a +:+ String c b) = Some (a, b).
Proof.
  unfold contains_char. rewrite negb_false_iff.
  induction a as [|x a IH]; simpl; intros Ha.
  - by rewrite decide_True.
  - apply andb_true_iff in Ha as [Hx Ha].
    rewrite negb_true_iff, bool_decide_eq_false in Hx.
    rewrite decide_False by done. by rewrite IH.
Qed.

Lemma split_once_Some (c : ascii) (s a b : string) :
  split_once c s = Some (a, b) -> s = a +:+ String c b.
Proof.
  revert a b. induction s as [|x s IH]; intros a b Hs; simpl in Hs; [done|].
  case_decide; [by simplify_eq|].
  destruct (split_once c s) as [[l r]|] eqn:E; simplify_eq. rewrite string_app_cons. f_equal. eauto.
Qed.

(** Two strings joined at a separator neither first part contains have the
    same parts: how a namespaced key is read back unambiguously. *)
Lemma join_inj (c : ascii) (a a' b b' : string) :
  contains_char c a = false -> contains_char c a' = false ->
  a +:+ String c b = a' +:+ String c b' -> a = a' /\ b = b'.
Proof.
  intros Ha Ha' H. apply (f_equal (split_once c)) in H.
  rewrite !split_once_app in H by done. by simplify_eq.
Qed.

(** Splitting a joined compact token gives its three segments back. *)
Lemma split_on_no_sep (c : ascii) (a : string) : contains_char c a = false -> split_on c a = [a].
Proof.
  unfold contains_char. rewrite negb_false_iff. induction a as [|x a IH]; [done|]. simpl.
  intros [Hx Ha]%andb_true_iff. rewrite negb_true_iff, bool_decide_eq_false in Hx.
  rewrite decide_False by done. by rewrite IH.
Qed.

Lemma split_on_app (c : ascii) (a b : string) :
  contains_char c a = false -> split_on c (a +:+ String c b) = a :: split_on c b.
Proof.
  unfold contains_char. rewrite negb_false_iff. induction a as [|x a IH]; simpl.
  - by rewrite decide_True.
  - intros [Hx Ha]%andb_true_iff. rewrite negb_true_iff, bool_decide_eq_false in Hx.
    rewrite decide_False by done. by rewrite IH.
Qed.

(** ** Decimal integers, as Redis stores a counter *)

Definition z_to_string (z : Z) : string := NilZero.string_of_int (Z.to_int z).
Definition string_to_z (s : string) : option Z := Z.of_int <$> NilZero.int_of_string s.

Lemma z_to_string_to_z (z : Z) : string_to_z (z_to_string z) = Some z.
Proof.
  unfold string_to_z, z_to_string. rewrite NilZero.isi.
  - simpl. by rewrite DecimalZ.of_to.
  - intros H. apply (f_equal Z.of_int) in H as Hz. rewrite DecimalZ.of_to in Hz.
    simpl in Hz. subst z. done.
  - intros H. apply (f_equal Z.of_int) in H as Hz. rewrite DecimalZ.of_to in Hz.
    simpl in Hz. subst z. done.
Qed.

Lemma z_to_string_inj (x y : Z) : z_to_string x = z_to_string y -> x = y.
Proof. intros H. apply (f_equal string_to_z) in H. rewrite !z_to_string_to_z in H. by simplify_eq. Qed.

Lemma uint_string_no_colon (d : Decimal.uint) :
  contains_char ":" (NilEmpty.string_of_uint d) = false.
Proof.
  unfold contains_char. rewrite negb_false_iff. by induction d.
Qed.

Lemma z_to_string_no_colon (z : Z) : contains_char ":" (z_to_string z) = false.
Proof.
  unfold z_to_string, NilZero.string_of_int.
  assert (Hu : forall d, contains_char ":" (NilZero.string_of_uint d) = false)
    by (intros []; try apply (uint_string_no_colon (_ _)); done).
  destruct (Z.to_int z) as [d|d]; [apply Hu|].
  specialize (Hu d). unfold contains_char in *. rewrite negb_false_iff in *. simpl. done.
Qed.

(** Equal concatenations of equally long first parts have equal parts. *)
Lemma string_app_inj_len (a a' b b' : string) :
  String.length a = String.length a' -> a +:+ b = a' +:+ b' -> a = a' /\ b = b'.
Proof.
  revert a'. induction a as [|x a IH]; intros [|y a'] Hlen H; simpl in *; try done.
  injection H as -> H. destruct (IH a') as [-> ->]; auto.
Qed.

(** ** Machine integers *)

Definition u64_max : Z := 18446744073709551615.
Definition u32_max : Z := 4294967295.
Definition i64_max : Z := 9223372036854775807.
Definition i64_min : Z := -9223372036854775808.

(** [i64::saturating_add]. *)
Definition sat_add (a b : Z) : Z := Z.max i64_min (Z.min i64_max (a + b)).

(** [x.min(i64::MAX as u64) as i64]. *)
Definition u64_to_i64_sat (x : Z) : Z := Z.min x i64_max.

Lemma sat_add_exact (a b : Z) : i64_min <= a + b <= i64_max -> sat_add a b = a + b.
Proof. unfold sat_add. lia. Qed.

Lemma sat_add_range (a b : Z) : i64_min <= sat_add a b <= i64_max.
Proof. unfold sat_add, i64_min, i64_max. lia. Qed.
