(* ===== verification/Errors.v ===== *)
(** * The error catalogue

    Models [crates/bymax-auth-types/src/error.rs]: the stable error codes with
    their wire strings, HTTP statuses and client messages, the typed
    [AuthError] the services return, and the projection onto the wire that
    collapses the internal-only codes. *)

From S2P Require Import Prelude.

Module Code.

(** The stable error codes. *)
Inductive AuthErrorCode : Set :=
| InvalidCredentials
| AccountLocked
| AccountInactive
| AccountSuspended
| AccountBanned
| PendingApproval
| TokenExpired
| TokenRevoked
| TokenInvalid
| RefreshTokenInvalid
| SessionNotFound
| TokenMissing
| EmailAlreadyExists
| EmailNotVerified
| EmailChangeTokenInvalid
| MfaRequired
| MfaInvalidCode
| MfaAlreadyEnabled
| MfaNotEnabled
| MfaSetupRequired
| MfaTempTokenInvalid
| MfaStateConflict
| PasswordCompromised
| PasswordResetTokenInvalid
| OtpInvalid
| OtpExpired
| OtpMaxAttempts
| InsufficientRole
| Forbidden
| UntrustedOrigin
| ReauthenticationRequired
| InvalidInvitationToken
| OauthFailed
| OauthEmailMismatch
| PlatformAuthRequired
| ApiKeyInvalid
| ApiKeyScopeInsufficient
| ApiKeyNotFound
| Validation
| TooManyRequests
| Internal.

#[export] Instance AuthErrorCode_eq_dec : EqDecision AuthErrorCode.
Proof. solve_decision. Defined.

(** The wire string each variant serializes to. *)
Definition wire_string (c : AuthErrorCode) : string :=
  match c with
  | InvalidCredentials => "auth.invalid_credentials"
  | AccountLocked => "auth.account_locked"
  | AccountInactive => "auth.account_inactive"
  | AccountSuspended => "auth.account_suspended"
  | AccountBanned => "auth.account_banned"
  | PendingApproval => "auth.pending_approval"
  | TokenExpired => "auth.token_expired"
  | TokenRevoked => "auth.token_revoked"
  | TokenInvalid => "auth.token_invalid"
  | RefreshTokenInvalid => "auth.refresh_token_invalid"
  | SessionNotFound => "auth.session_not_found"
  | TokenMissing => "auth.token_missing"
  | EmailAlreadyExists => "auth.email_already_exists"
  | EmailNotVerified => "auth.email_not_verified"
  | EmailChangeTokenInvalid => "auth.email_change_token_invalid"
  | MfaRequired => "auth.mfa_required"
  | MfaInvalidCode => "auth.mfa_invalid_code"
  | MfaAlreadyEnabled => "auth.mfa_already_enabled"
  | MfaNotEnabled => "auth.mfa_not_enabled"
  | MfaSetupRequired => "auth.mfa_setup_required"
  | MfaTempTokenInvalid => "auth.mfa_temp_token_invalid"
  | MfaStateConflict => "auth.mfa_state_conflict"
  | PasswordCompromised => "auth.password_compromised"
  | PasswordResetTokenInvalid => "auth.password_reset_token_invalid"
  | OtpInvalid => "auth.otp_invalid"
  | OtpExpired => "auth.otp_expired"
  | OtpMaxAttempts => "auth.otp_max_attempts"
  | InsufficientRole => "auth.insufficient_role"
  | Forbidden => "auth.forbidden"
  | UntrustedOrigin => "auth.untrusted_origin"
  | ReauthenticationRequired => "auth.reauthentication_required"
  | InvalidInvitationToken => "auth.invalid_invitation_token"
  | OauthFailed => "auth.oauth_failed"
  | OauthEmailMismatch => "auth.oauth_email_mismatch"
  | PlatformAuthRequired => "auth.platform_auth_required"
  | ApiKeyInvalid => "auth.api_key_invalid"
  | ApiKeyScopeInsufficient => "auth.api_key_scope_insufficient"
  | ApiKeyNotFound => "auth.api_key_not_found"
  | Validation => "auth.validation"
  | TooManyRequests => "auth.too_many_requests"
  | Internal => "auth.internal"
  end.

Definition http_status (c : AuthErrorCode) : Z :=
  match c with
  | InvalidCredentials | TokenExpired | TokenRevoked | TokenInvalid | RefreshTokenInvalid | TokenMissing | MfaInvalidCode | MfaTempTokenInvalid | OtpInvalid | OtpExpired | OauthFailed | PlatformAuthRequired | ApiKeyInvalid => 401
  | AccountInactive | AccountSuspended | AccountBanned | PendingApproval | EmailNotVerified | MfaRequired | InsufficientRole | Forbidden | UntrustedOrigin | ReauthenticationRequired | ApiKeyScopeInsufficient => 403
  | SessionNotFound | ApiKeyNotFound => 404
  | EmailAlreadyExists | MfaAlreadyEnabled | MfaStateConflict | OauthEmailMismatch => 409
  | EmailChangeTokenInvalid | MfaNotEnabled | MfaSetupRequired | PasswordCompromised | PasswordResetTokenInvalid | InvalidInvitationToken | Validation => 400
  | AccountLocked | OtpMaxAttempts | TooManyRequests => 429
  | Internal => 500
  end.

Definition client_message (c : AuthErrorCode) : string :=
  match c with
  | InvalidCredentials => "Invalid email or password"
  | AccountLocked => "Account temporarily locked. Please try again in a few minutes."
  | AccountInactive => "Account inactive"
  | AccountSuspended => "Account suspended"
  | AccountBanned => "Account banned"
  | PendingApproval => "Account pending approval"
  | TokenExpired => "Token expired"
  | TokenRevoked => "Token revoked"
  | TokenInvalid => "Invalid token"
  | RefreshTokenInvalid => "Invalid or expired refresh token"
  | SessionNotFound => "Session not found"
  | TokenMissing => "Token missing"
  | EmailAlreadyExists => "Email already registered"
  | EmailNotVerified => "Email not verified"
  | EmailChangeTokenInvalid => "Invalid or expired email change link"
  | MfaRequired => "Two-factor authentication required"
  | MfaInvalidCode => "Invalid MFA code"
  | MfaAlreadyEnabled => "MFA is already enabled"
  | MfaNotEnabled => "MFA is not enabled"
  | MfaSetupRequired => "MFA setup required"
  | MfaTempTokenInvalid => "Invalid or expired temporary MFA token"
  | MfaStateConflict => "Another MFA change is in progress. Please try again."
  | PasswordCompromised => "This password has appeared in a data breach. Please choose a different one."
  | PasswordResetTokenInvalid => "Invalid password reset token"
  | OtpInvalid => "Invalid OTP code"
  | OtpExpired => "Expired OTP code"
  | OtpMaxAttempts => "Maximum number of attempts exceeded"
  | InsufficientRole => "Insufficient permission"
  | Forbidden => "Access denied"
  | UntrustedOrigin => "Request origin not allowed"
  | ReauthenticationRequired => "Please sign in again to change your security settings."
  | InvalidInvitationToken => "Invalid or expired invitation token"
  | OauthFailed => "OAuth authentication failed"
  | OauthEmailMismatch => "OAuth email does not match"
  | PlatformAuthRequired => "Platform authentication required"
  | ApiKeyInvalid => "Invalid API key"
  | ApiKeyScopeInsufficient => "API key lacks the required scope"
  | ApiKeyNotFound => "API key not found"
  | Validation => "Validation failed"
  | TooManyRequests => "Too many requests. Please slow down and try again shortly."
  | Internal => "Internal server error"
  end.

(** Collapse the internal-only codes onto the public one of their family. *)
Definition to_wire (c : AuthErrorCode) : AuthErrorCode :=
  match c with
  | TokenExpired | TokenRevoked | TokenMissing => TokenInvalid
  | OtpExpired | OtpMaxAttempts => OtpInvalid
  | other => other
  end.

Definition is_internal_only (c : AuthErrorCode) : bool :=
  negb (bool_decide (to_wire c = c)).

Lemma to_wire_idemp (c : AuthErrorCode) : to_wire (to_wire c) = to_wire c.
Proof. by destruct c. Qed.

Lemma to_wire_public (c : AuthErrorCode) : is_internal_only (to_wire c) = false.
Proof. by destruct c. Qed.

End Code.

(** One field failure of a validation error. *)
Record FieldError : Set := { fe_field : string; fe_message : string }.

#[export] Instance FieldError_eq_dec : EqDecision FieldError.
Proof. solve_decision. Defined.

(** The typed error.  [Internal] keeps the label of its boxed cause, which
    only logs read. *)
Inductive AuthError : Set :=
| InvalidCredentials
| AccountLocked (retry_after_seconds : option Z)
| AccountInactive
| AccountSuspended
| AccountBanned
| PendingApproval
| TokenExpired
| TokenRevoked
| TokenInvalid
| RefreshTokenInvalid
| SessionNotFound
| TokenMissing
| EmailAlreadyExists
| EmailNotVerified
| EmailChangeTokenInvalid
| MfaRequired
| MfaInvalidCode
| MfaAlreadyEnabled
| MfaNotEnabled
| MfaSetupRequired
| MfaTempTokenInvalid
| MfaStateConflict
| PasswordCompromised
| PasswordResetTokenInvalid
| OtpInvalid
| OtpExpired
| OtpMaxAttempts
| InsufficientRole
| Forbidden
| UntrustedOrigin
| ReauthenticationRequired
| InvalidInvitationToken
| OauthFailed
| OauthEmailMismatch
| PlatformAuthRequired
| ApiKeyInvalid
| ApiKeyScopeInsufficient
| ApiKeyNotFound
| Validation (details : list FieldError)
| TooManyRequests (retry_after_seconds : option Z)
| Internal (cause : string).

#[export] Instance AuthError_eq_dec : EqDecision AuthError.
Proof. solve_decision. Defined.

Module Error.

Definition code (e : AuthError) : Code.AuthErrorCode :=
  match e with
  | InvalidCredentials => Code.InvalidCredentials
  | AccountLocked _ => Code.AccountLocked
  | AccountInactive => Code.AccountInactive
  | AccountSuspended => Code.AccountSuspended
  | AccountBanned => Code.AccountBanned
  | PendingApproval => Code.PendingApproval
  | TokenExpired => Code.TokenExpired
  | TokenRevoked => Code.TokenRevoked
  | TokenInvalid => Code.TokenInvalid
  | RefreshTokenInvalid => Code.RefreshTokenInvalid
  | SessionNotFound => Code.SessionNotFound
  | TokenMissing => Code.TokenMissing
  | EmailAlreadyExists => Code.EmailAlreadyExists
  | EmailNotVerified => Code.EmailNotVerified
  | EmailChangeTokenInvalid => Code.EmailChangeTokenInvalid
  | MfaRequired => Code.MfaRequired
  | MfaInvalidCode => Code.MfaInvalidCode
  | MfaAlreadyEnabled => Code.MfaAlreadyEnabled
  | MfaNotEnabled => Code.MfaNotEnabled
  | MfaSetupRequired => Code.MfaSetupRequired
  | MfaTempTokenInvalid => Code.MfaTempTokenInvalid
  | MfaStateConflict => Code.MfaStateConflict
  | PasswordCompromised => Code.PasswordCompromised
  | PasswordResetTokenInvalid => Code.PasswordResetTokenInvalid
  | OtpInvalid => Code.OtpInvalid
  | OtpExpired => Code.OtpExpired
  | OtpMaxAttempts => Code.OtpMaxAttempts
  | InsufficientRole => Code.InsufficientRole
  | Forbidden => Code.Forbidden
  | UntrustedOrigin => Code.UntrustedOrigin
  | ReauthenticationRequired => Code.ReauthenticationRequired
  | InvalidInvitationToken => Code.InvalidInvitationToken
  | OauthFailed => Code.OauthFailed
  | OauthEmailMismatch => Code.OauthEmailMismatch
  | PlatformAuthRequired => Code.PlatformAuthRequired
  | ApiKeyInvalid => Code.ApiKeyInvalid
  | ApiKeyScopeInsufficient => Code.ApiKeyScopeInsufficient
  | ApiKeyNotFound => Code.ApiKeyNotFound
  | Validation _ => Code.Validation
  | TooManyRequests _ => Code.TooManyRequests
  | Internal _ => Code.Internal
  end.

Definition http_status (e : AuthError) : Z :=
  Code.http_status (Code.to_wire (code e)).

Definition client_message (e : AuthError) : string :=
  Code.client_message (Code.to_wire (code e)).

Definition is_internal_only (e : AuthError) : bool := Code.is_internal_only (code e).

(** The structured [details] value of the envelope. *)
Inductive Details : Set :=
| RetryAfterSeconds (secs : Z)
| FieldErrors (fields : list FieldError).

Definition details (e : AuthError) : option Details :=
  match e with
  | AccountLocked retry | TooManyRequests retry => RetryAfterSeconds <$> retry
  | Validation fields => Some (FieldErrors fields)
  | _ => None
  end.

Record AuthErrorResponse : Set := { resp_code : Code.AuthErrorCode; resp_message : string }.

Definition to_response (e : AuthError) : AuthErrorResponse :=
  let c := Code.to_wire (code e) in
  {| resp_code := c; resp_message := Code.client_message c |}.

Record AuthErrorBody : Set :=
  { body_code : Code.AuthErrorCode; body_message : string; body_details : option Details }.

Record AuthErrorEnvelope : Set := { env_error : AuthErrorBody }.

Definition to_envelope (e : AuthError) : AuthErrorEnvelope :=
  let c := Code.to_wire (code e) in
  {| env_error := {| body_code := c; body_message := Code.client_message c;
                     body_details := details e |} |}.

(** What a client can observe of a failure: the status and the envelope. *)
Definition observation (e : AuthError) : Z * AuthErrorEnvelope := (http_status e, to_envelope e).

Lemma details_internal_only (e : AuthError) : is_internal_only e = true -> details e = None.
Proof. by destruct e. Qed.

Lemma observation_of_code (e e' : AuthError) :
  Code.to_wire (code e) = Code.to_wire (code e') -> details e = details e' ->
  observation e = observation e'.
Proof. unfold observation, http_status, to_envelope. by intros -> ->. Qed.

End Error.

(** An internal-only failure is indistinguishable on the wire: the code
    that leaves the process is never internal-only, and two failures whose
    codes collapse to the same public code, one of them internal-only and
    neither carrying details, show a client the same status, code, message
    and details.  So an expired, a revoked and a missing token all look like
    an invalid one, and an expired or exhausted one-time code looks like a
    wrong one. *)
Theorem wire_hides_internal_codes (e e' : AuthError) :
  Code.to_wire (Error.code e) = Code.to_wire (Error.code e') ->
  Error.details e' = None -> Error.is_internal_only e = true ->
  Error.observation e = Error.observation e' /\
  Code.is_internal_only (Error.body_code (Error.env_error (Error.to_envelope e))) = false.
Proof.
  intros Hcode Hd' Hint. split.
  - apply Error.observation_of_code; [done|]. by rewrite (Error.details_internal_only e).
  - apply Code.to_wire_public.
Qed.

Lemma wire_hides_internal_codes_witness :
  Error.observation TokenRevoked = Error.observation TokenInvalid /\
  Code.is_internal_only (Error.body_code (Error.env_error (Error.to_envelope TokenRevoked))) = false.
Proof. apply (wire_hides_internal_codes TokenRevoked TokenInvalid); reflexivity. Defined.
