(* ===== verification/Types.v ===== *)
(** * Domain data

    Models the data of [crates/bymax-auth-types] (users, claims, results) and
    of [crates/bymax-auth-core/src/traits/store.rs] (planes, session records,
    rotations), with the two timestamp conversions the records go through.

    An [OffsetDateTime] is its count of nanoseconds since the Unix epoch. *)

From S2P Require Import Prelude.

Abbreviation OffsetDateTime := Z (only parsing).

(** ** Planes *)

Inductive SessionKind : Set := SkDashboard | SkPlatform.
Inductive MfaContext : Set := McDashboard | McPlatform.
Inductive OtpPurpose : Set := PasswordReset | EmailVerification.

#[export] Instance SessionKind_eq_dec : EqDecision SessionKind.
Proof. solve_decision. Defined.
#[export] Instance MfaContext_eq_dec : EqDecision MfaContext.
Proof. solve_decision. Defined.
#[export] Instance OtpPurpose_eq_dec : EqDecision OtpPurpose.
Proof. solve_decision. Defined.

Definition plane (k : SessionKind) : MfaContext :=
  match k with SkDashboard => McDashboard | SkPlatform => McPlatform end.

Definition context_as_str (c : MfaContext) : string :=
  match c with McDashboard => "dashboard" | McPlatform => "platform" end.

Definition otp_purpose_as_str (p : OtpPurpose) : string :=
  match p with PasswordReset => "password_reset" | EmailVerification => "email_verification" end.

(** ** Users *)

Record AuthUser : Set := {
  au_id : string;
  au_email : string;
  au_name : string;
  au_password_hash : option string;
  au_role : string;
  au_status : string;
  au_tenant_id : string;
  au_email_verified : bool;
  au_mfa_enabled : bool;
  au_mfa_secret : option string;
  au_mfa_recovery_codes : option (list string);
  au_oauth_provider : option string;
  au_oauth_provider_id : option string;
  au_last_login_at : option OffsetDateTime;
  au_created_at : OffsetDateTime;
}.

Record SafeAuthUser : Set := {
  su_id : string;
  su_email : string;
  su_name : string;
  su_role : string;
  su_status : string;
  su_tenant_id : string;
  su_email_verified : bool;
  su_mfa_enabled : bool;
  su_oauth_provider : option string;
  su_oauth_provider_id : option string;
  su_last_login_at : option OffsetDateTime;
  su_created_at : OffsetDateTime;
}.

Definition safe_user (u : AuthUser) : SafeAuthUser := {|
  su_id := au_id u;
  su_email := au_email u;
  su_name := au_name u;
  su_role := au_role u;
  su_status := au_status u;
  su_tenant_id := au_tenant_id u;
  su_email_verified := au_email_verified u;
  su_mfa_enabled := au_mfa_enabled u;
  su_oauth_provider := au_oauth_provider u;
  su_oauth_provider_id := au_oauth_provider_id u;
  su_last_login_at := au_last_login_at u;
  su_created_at := au_created_at u;
|}.

Record AuthPlatformUser : Set := {
  ap_id : string;
  ap_email : string;
  ap_name : string;
  ap_password_hash : string;
  ap_role : string;
  ap_status : string;
  ap_mfa_enabled : bool;
  ap_mfa_secret : option string;
  ap_mfa_recovery_codes : option (list string);
  ap_platform_id : option string;
  ap_last_login_at : option OffsetDateTime;
  ap_updated_at : OffsetDateTime;
  ap_created_at : OffsetDateTime;
}.

Record SafeAuthPlatformUser : Set := {
  sp_id : string;
  sp_email : string;
  sp_name : string;
  sp_role : string;
  sp_status : string;
  sp_mfa_enabled : bool;
  sp_platform_id : option string;
  sp_last_login_at : option OffsetDateTime;
  sp_updated_at : OffsetDateTime;
  sp_created_at : OffsetDateTime;
}.

Definition safe_platform_user (a : AuthPlatformUser) : SafeAuthPlatformUser := {|
  sp_id := ap_id a;
  sp_email := ap_email a;
  sp_name := ap_name a;
  sp_role := ap_role a;
  sp_status := ap_status a;
  sp_mfa_enabled := ap_mfa_enabled a;
  sp_platform_id := ap_platform_id a;
  sp_last_login_at := ap_last_login_at a;
  sp_updated_at := ap_updated_at a;
  sp_created_at := ap_created_at a;
|}.

(** ** Claims

    The [type] discriminator of each shape has one value, so it is carried by
    the Rocq type itself: a payload whose discriminator differs does not
    decode. *)

Record DashboardClaims : Set := {
  dc_sub : string;
  dc_jti : string;
  dc_tenant_id : string;
  dc_role : string;
  dc_status : string;
  dc_mfa_enabled : bool;
  dc_mfa_verified : bool;
  dc_iat : Z;
  dc_exp : Z;
  dc_epoch : Z;
  dc_iss : option string;
  dc_aud : option string;
}.

Record PlatformClaims : Set := {
  pc_sub : string;
  pc_jti : string;
  pc_role : string;
  pc_mfa_enabled : bool;
  pc_mfa_verified : bool;
  pc_iat : Z;
  pc_exp : Z;
  pc_epoch : Z;
  pc_iss : option string;
  pc_aud : option string;
}.

Record MfaTempClaims : Set := {
  mc_sub : string;
  mc_jti : string;
  mc_context : MfaContext;
  mc_tenant_id : option string;
  mc_epoch : Z;
  mc_iat : Z;
  mc_exp : Z;
  mc_iss : option string;
  mc_aud : option string;
}.

#[export] Instance DashboardClaims_eq_dec : EqDecision DashboardClaims.
Proof. solve_decision. Defined.
#[export] Instance PlatformClaims_eq_dec : EqDecision PlatformClaims.
Proof. solve_decision. Defined.
#[export] Instance MfaTempClaims_eq_dec : EqDecision MfaTempClaims.
Proof. solve_decision. Defined.

(** ** Results *)

Record AuthResult : Set := {
  ar_user : SafeAuthUser;
  ar_access_token : string;
  ar_refresh_token : string;
}.

Record PlatformAuthResult : Set := {
  pr_admin : SafeAuthPlatformUser;
  pr_access_token : string;
  pr_refresh_token : string;
}.

Record MfaChallengeResult : Set := { ch_mfa_required : bool; ch_mfa_temp_token : string }.

Inductive LoginResult : Set :=
| LoginSuccess (r : AuthResult)
| LoginMfaChallenge (c : MfaChallengeResult).

Inductive PlatformLoginResult : Set :=
| PlatformLoginSuccess (r : PlatformAuthResult)
| PlatformLoginMfaChallenge (c : MfaChallengeResult).

Record RotatedTokens : Set := { rt_access_token : string; rt_refresh_token : string }.

(** ** Sessions *)

Record SessionRecord : Set := {
  sr_user_id : string;
  sr_tenant_id : option string;
  sr_role : string;
  sr_device : string;
  sr_ip : string;
  sr_created_at : OffsetDateTime;
  sr_mfa_enabled : bool;
  sr_mfa_verified : bool;
  sr_family_id : string;
  sr_family_created_at : option OffsetDateTime;
}.

#[export] Instance SessionRecord_eq_dec : EqDecision SessionRecord.
Proof. solve_decision. Defined.

Record SessionDetail : Set := {
  sd_session_hash : string;
  sd_device : string;
  sd_ip : string;
  sd_created_at : OffsetDateTime;
  sd_last_activity_at : OffsetDateTime;
}.

#[export] Instance SessionDetail_eq_dec : EqDecision SessionDetail.
Proof. solve_decision. Defined.

Record SessionEntry : Set := {
  se_session_hash : string;
  se_detail : option SessionDetail;
}.

#[export] Instance SessionEntry_eq_dec : EqDecision SessionEntry.
Proof. solve_decision. Defined.

Record SessionRotation : Set := {
  ro_old_hash : string;
  ro_new_hash : string;
  ro_new_raw : string;
  ro_new_record : SessionRecord;
  ro_subject_hash : string;
  ro_refresh_ttl : Z;
  ro_grace_ttl : Z;
}.

Inductive RotateOutcome : Set :=
| Rotated (old : SessionRecord)
| Grace (recovered : SessionRecord)
| Reused (family : string)
| Invalid.

#[export] Instance RotateOutcome_eq_dec : EqDecision RotateOutcome.
Proof. solve_decision. Defined.

(** How long a bumped epoch must stay readable: thirty days, in seconds. *)
Definition TOKEN_EPOCH_RETENTION_SECS : Z := 30 * 24 * 60 * 60.

(** ** Timestamps on the wire *)

Module UnixMillis.

Definition NANOS_PER_MILLI : Z := 1000000.

(** The nanosecond range [OffsetDateTime] can represent: years -9999 to 9999. *)
Definition odt_min : Z := -377705116800 * 1000000000.
Definition odt_max : Z := 253402300799999999999.

Definition serialize (value : OffsetDateTime) : Z :=
  Z.max i64_min (Z.min i64_max (Z.quot value NANOS_PER_MILLI)).

Definition deserialize (millis : Z) : option OffsetDateTime :=
  let nanos := millis * NANOS_PER_MILLI in
  if bool_decide (odt_min <= nanos <= odt_max) then Some nanos else None.

(** Writing never saturates for a representable instant, and reading back
    loses exactly the sub-millisecond part, truncated toward the epoch. *)
Lemma deserialize_serialize (t : OffsetDateTime) :
  odt_min <= t <= odt_max ->
  deserialize (serialize t) = Some (Z.quot t NANOS_PER_MILLI * NANOS_PER_MILLI).
Proof.
  intros Ht. unfold deserialize, serialize, NANOS_PER_MILLI, odt_min, odt_max, i64_min, i64_max in *.
  assert (Hq : odt_min <= Z.quot t 1000000 * 1000000 <= odt_max)
    by (unfold odt_min, odt_max; Z.to_euclidean_division_equations; lia).
  unfold odt_min, odt_max in Hq.
  rewrite Z.min_r, Z.max_r by lia. by rewrite bool_decide_eq_true_2 by lia.
Qed.

(** A stored instant reads back as itself from then on. *)
Lemma serialize_deserialize (millis t : Z) :
  i64_min <= millis <= i64_max -> deserialize millis = Some t -> serialize t = millis.
Proof.
  unfold deserialize, serialize, NANOS_PER_MILLI. intros Hm Ht. case_bool_decide; simplify_eq.
  rewrite Z.quot_mul by lia. unfold i64_min, i64_max in *. lia.
Qed.

End UnixMillis.
