(* ===== verification/Crypto.v ===== *)
(** * Primitives, identifiers and derived keys

    Models the parts of [crates/bymax-auth-crypto] and of
    [crates/bymax-auth-core/src/services/mod.rs] that are this repository's own
    code: hex encoding, secure tokens, UUIDs, and the account subject every
    per-account store key derives from.

    The digests come from the RustCrypto packages, so they are the operations
    of the class [Crypto], with their documented output widths as the laws of
    [CryptoLaws].  The operating system supplies entropy and the clock through
    the class [Host]. *)

From S2P Require Import Prelude Types.

(** ** Parameters *)

Class Crypto : Type := {
  sha256 : string -> string;
  hmac_sha256 : string -> string -> string;
  hmac_sha1 : string -> string -> string;
}.

Class CryptoLaws `{Crypto} : Prop := {
  sha256_length (input : string) : String.length (sha256 input) = 32%nat;
  hmac_sha256_length (key input : string) : String.length (hmac_sha256 key input) = 32%nat;
  hmac_sha1_length (key input : string) : String.length (hmac_sha1 key input) = 20%nat;
}.

(** [entropy i n] is what the [i]-th draw of [n] bytes from the CSPRNG yields;
    [clock i] is the [i]-th reading of the system clock, in nanoseconds. *)
Class Host : Type := {
  entropy : nat -> nat -> string;
  clock : nat -> Z;
}.

Class HostLaws `{Host} : Prop := {
  entropy_length (i n : nat) : String.length (entropy i n) = n;
}.

(** ** Comparison and hexadecimal *)

(** [subtle]'s comparison: length mismatch is inequality. *)
Definition constant_time_eq (a b : string) : bool := bool_decide (a = b).

Definition byte_z (c : ascii) : Z := Z.of_N (N_of_ascii c).
Definition z_byte (z : Z) : ascii := ascii_of_N (Z.to_N z).

Definition HEX_ALPHABET : string := "0123456789abcdef".

Definition hex_digit (nibble : Z) : ascii :=
  default "0"%char (String.get (Z.to_nat nibble) HEX_ALPHABET).

Fixpoint to_hex (bytes : string) : string :=
  match bytes with
  | EmptyString => EmptyString
  | String byte rest =>
      String (hex_digit (Z.shiftr (byte_z byte) 4))
        (String (hex_digit (Z.land (byte_z byte) 15)) (to_hex rest))
  end.

Definition is_ascii_digit (c : ascii) : bool := bool_decide (48 <= byte_z c <= 57).

Definition is_lower_hex (c : ascii) : bool :=
  is_ascii_digit c || bool_decide (97 <= byte_z c <= 102).

Definition is_hex_token_shape (raw : string) : bool :=
  Nat.eqb (String.length raw) 64 && string_all is_lower_hex raw.

Definition is_refresh_token_shape (raw : string) : bool := is_hex_token_shape raw.

Lemma to_hex_byte_lower (b : ascii) :
  is_lower_hex (hex_digit (Z.shiftr (byte_z b) 4)) = true /\
  is_lower_hex (hex_digit (Z.land (byte_z b) 15)) = true.
Proof. destruct b as [[] [] [] [] [] [] [] []]; by vm_compute. Qed.

Lemma to_hex_byte_inj (b b' : ascii) :
  hex_digit (Z.shiftr (byte_z b) 4) = hex_digit (Z.shiftr (byte_z b') 4) ->
  hex_digit (Z.land (byte_z b) 15) = hex_digit (Z.land (byte_z b') 15) -> b = b'.
Proof.
  assert (Hdec : forall c : ascii,
    c = z_byte (Z.of_nat (default 0%nat (String.index 0 (String (hex_digit (Z.shiftr (byte_z c) 4)) "") HEX_ALPHABET)) * 16
              + Z.of_nat (default 0%nat (String.index 0 (String (hex_digit (Z.land (byte_z c) 15)) "") HEX_ALPHABET))))
    by (intros [[] [] [] [] [] [] [] []]; by vm_compute).
  intros H1 H2. by rewrite (Hdec b), (Hdec b'), H1, H2.
Qed.

Lemma to_hex_length (s : string) : String.length (to_hex s) = (2 * String.length s)%nat.
Proof. induction s as [|b s IH]; simpl; lia. Qed.

Lemma to_hex_lower (s : string) : string_all is_lower_hex (to_hex s) = true.
Proof.
  induction s as [|b s IH]; [done|]. cbn [to_hex string_all].
  destruct (to_hex_byte_lower b) as [-> ->]. done.
Qed.

Lemma to_hex_inj (a b : string) : to_hex a = to_hex b -> a = b.
Proof.
  revert b. induction a as [|x a IH]; intros [|y b]; cbn [to_hex]; intros H; try done.
  injection H as H1 H2 H3. f_equal; [by apply to_hex_byte_inj | by apply IH].
Qed.

(** The separator of a store key never occurs in a hex digest. *)
Lemma lower_hex_lacks (c : ascii) (s : string) :
  string_all is_lower_hex s = true -> is_lower_hex c = false -> contains_char c s = false.
Proof.
  intros Hs Hc. unfold contains_char. rewrite negb_false_iff. induction s as [|b s IH]; [done|].
  cbn [string_all] in *. apply andb_true_iff in Hs as [Hb Hs]. rewrite IH by done. rewrite andb_true_r.
  rewrite negb_true_iff, bool_decide_eq_false. intros ->. congruence.
Qed.

Lemma lower_hex_no_colon (s : string) : string_all is_lower_hex s = true -> contains_char ":" s = false.
Proof. intros Hs. by apply lower_hex_lacks. Qed.

Lemma to_hex_no_colon (s : string) : contains_char ":" (to_hex s) = false.
Proof. apply lower_hex_no_colon, to_hex_lower. Qed.

#[export] Hint Resolve to_hex_lower to_hex_no_colon lower_hex_no_colon : auth.

(** ** Secure tokens and UUIDs *)

Definition REFRESH_TOKEN_BYTES : nat := 32.

Definition generate_secure_token `{Host} (draw byte_len : nat) : string :=
  to_hex (entropy draw byte_len).

Lemma generate_secure_token_shape `{HostLaws} (draw : nat) :
  is_refresh_token_shape (generate_secure_token draw REFRESH_TOKEN_BYTES) = true.
Proof.
  unfold is_refresh_token_shape, is_hex_token_shape, generate_secure_token.
  rewrite to_hex_length, entropy_length, to_hex_lower. done.
Qed.

(** [RawRefreshToken::redis_hash]. *)
Definition redis_hash `{Crypto} (raw : string) : string := to_hex (sha256 raw).

Lemma redis_hash_shape `{CryptoLaws} (raw : string) : is_hex_token_shape (redis_hash raw) = true.
Proof.
  unfold is_hex_token_shape, redis_hash. by rewrite to_hex_length, sha256_length, to_hex_lower.
Qed.

Definition update_byte (i : nat) (f : Z -> Z) (s : string) : string :=
  String.string_of_list_ascii
    (alter (fun c => z_byte (f (byte_z c))) i (String.list_ascii_of_string s)).

(** Version 4 in the high nibble of byte 6, RFC 4122 variant in byte 8. *)
Definition new_uuid_v4 `{Host} (draw : nat) : string :=
  let b := entropy draw 16 in
  let b := update_byte 6 (fun x => Z.lor (Z.land x 15) 64) b in
  let b := update_byte 8 (fun x => Z.lor (Z.land x 63) 128) b in
  let hex := to_hex b in
  String.substring 0 8 hex +:+ "-" +:+ String.substring 8 4 hex +:+ "-" +:+
  String.substring 12 4 hex +:+ "-" +:+ String.substring 16 4 hex +:+ "-" +:+
  String.substring 20 12 hex.

(** ** The account subject *)

Definition user_subject (p : MfaContext) (tenant_id : option string) (user_id : string) : string :=
  match p, tenant_id with
  | McDashboard, Some tenant =>
      context_as_str p +:+ ":" +:+ z_to_string (Z.of_nat (String.length tenant)) +:+ ":" +:+
      tenant +:+ ":" +:+ user_id
  | _, _ => context_as_str p +:+ ":" +:+ user_id
  end.

Definition user_subject_hash `{Crypto} (identifier_key : string) (p : MfaContext)
    (tenant_id : option string) (user_id : string) : string :=
  to_hex (hmac_sha256 identifier_key (user_subject p tenant_id user_id)).

Definition session_subject_hash `{Crypto} (identifier_key : string) (kind : SessionKind)
    (tenant_id : option string) (user_id : string) : string :=
  user_subject_hash identifier_key (plane kind) tenant_id user_id.

(** The tenant a subject is scoped by: none on the platform plane, whatever
    the caller passed. *)
Definition subject_scope (p : MfaContext) (tenant_id : option string) : option string :=
  match p with McDashboard => tenant_id | McPlatform => None end.

(** Whether the scope is known: always on the platform plane, and on the
    dashboard plane when a tenant was supplied. *)
Definition subject_scoped (p : MfaContext) (tenant_id : option string) : bool :=
  match p with McDashboard => bool_decide (is_Some tenant_id) | McPlatform => true end.

(** The account subject is unambiguous: two scoped accounts have the same
    subject only when the plane, the tenant and the user id are all the same,
    whatever characters (separators included) the tenant and user ids hold.
    So no store key derived from a subject is shared by two tenants. *)
Theorem user_subject_inj (p p' : MfaContext) (t t' : option string) (u u' : string) :
  subject_scoped p t = true -> subject_scoped p' t' = true ->
  user_subject p t u = user_subject p' t' u' ->
  p = p' /\ subject_scope p t = subject_scope p' t' /\ u = u'.
Proof.
  destruct p, p'; simpl; rewrite ?bool_decide_eq_true.
  - intros [x ->] [y ->] H. simpl in H. injection H as H.
    apply join_inj in H as [Hl H]; try apply z_to_string_no_colon.
    apply z_to_string_inj, Nat2Z.inj in Hl.
    apply string_app_inj_len in H as [-> H]; try done.
    change (":" +:+ u = ":" +:+ u') in H. apply string_app_inj_l in H. by subst.
  - intros [x ->] _ H. done.
  - intros _ [y ->] H. done.
  - intros _ _ H. by injection H as H.
Qed.

Lemma user_subject_inj_witness :
  McPlatform = McPlatform /\
  subject_scope McPlatform (Some "acme") = subject_scope McPlatform None /\ "u1" = "u1".
Proof.
  exact (user_subject_inj McPlatform McPlatform (Some "acme") None "u1" "u1" eq_refl eq_refl eq_refl).
Defined.

(** The pair of accounts a subject without the length prefix would confuse. *)
Example user_subject_separates :
  user_subject McDashboard (Some "acme:prod") "u1" = "dashboard:9:acme:prod:u1" /\
  user_subject McDashboard (Some "acme") "prod:u1" = "dashboard:4:acme:prod:u1".
Proof. split; reflexivity. Qed.
