(* ===== verification/Concrete.v ===== *)
(** * Concrete parameters

    A closed, computable choice for each third-party operation the model is
    parametric in, satisfying the laws the theorems assume of it.  They are
    what the witnesses evaluate: they show the hypotheses can hold together,
    and are not meant as implementations. *)

From S2P Require Import Prelude Types Crypto.

Module Concrete.

(** ** Bytes of a fixed width *)

Fixpoint fit (n : nat) (s : string) : string :=
  match n, s with
  | O, _ => EmptyString
  | S n', EmptyString => String "0" (fit n' EmptyString)
  | S n', String c s' => String c (fit n' s')
  end.

Lemma fit_length (n : nat) (s : string) : String.length (fit n s) = n.
Proof. revert s. induction n as [|n IH]; intros [|c s]; simpl; auto. Qed.

(** A cheap mixing digest: every byte moves an accumulator, whose decimal
    expansion is padded to the digest's width. *)
Fixpoint mix (acc : Z) (s : string) : Z :=
  match s with
  | EmptyString => acc
  | String c s' => mix ((acc * 257 + byte_z c + 1) mod 1000000007) s'
  end.

#[export] Instance crypto : Crypto := {|
  sha256 input := fit 32 (z_to_string (mix 7 input));
  hmac_sha256 key input := fit 32 (z_to_string (mix (mix 11 key) input));
  hmac_sha1 key input := fit 20 (z_to_string (mix (mix 13 key) input));
|}.

#[export] Instance crypto_laws : CryptoLaws.
Proof. split; intros; apply fit_length. Qed.

(** Draw [i] yields the bytes of [i] in decimal, padded; the clock reads
    [base + i] seconds. *)
Definition host_at (base : Z) : Host := {|
  entropy i n := fit n (z_to_string (Z.of_nat i + 1));
  clock i := (base + Z.of_nat i) * 1000000000;
|}.

Lemma host_at_laws (base : Z) : @HostLaws (host_at base).
Proof. split. intros. apply fit_length. Qed.

(** ** A text codec

    Fields are written one after the other: a string with its length before it,
    a number with a mark after it, a choice as one letter. *)

Class Text (A : Type) : Type := {
  put_text : A -> string;
  take_text : string -> option (A * string);
  take_put (a : A) (rest : string) : take_text (put_text a +:+ rest) = Some (a, rest);
}.

#[export] Instance Z_text : Text Z.
Proof.
  refine {| put_text z := z_to_string z +:+ ":";
            take_text s := match split_once ":" s with
                           | Some (d, rest) => match string_to_z d with Some z => Some (z, rest) | None => None end
                           | None => None
                           end |}.
  intros z rest. rewrite string_app_assoc. change (":" +:+ rest) with (String ":" rest).
  rewrite split_once_app by apply z_to_string_no_colon. by rewrite z_to_string_to_z.
Defined.

Fixpoint cut (n : nat) (s : string) : option (string * string) :=
  match n, s with
  | O, _ => Some (EmptyString, s)
  | S n', String c s' => match cut n' s' with Some (a, b) => Some (String c a, b) | None => None end
  | S _, EmptyString => None
  end.

Lemma cut_app (a b : string) : cut (String.length a) (a +:+ b) = Some (a, b).
Proof. induction a as [|c a IH]; [done|]. rewrite string_app_cons. simpl. by rewrite IH. Qed.

#[export] Instance string_text : Text string.
Proof.
  refine {| put_text s := put_text (Z.of_nat (String.length s)) +:+ s;
            take_text s := match take_text (A := Z) s with Some (n, rest) => cut (Z.to_nat n) rest | None => None end |}.
  intros s rest. rewrite string_app_assoc, take_put, Nat2Z.id. apply cut_app.
Defined.

#[export] Instance bool_text : Text bool.
Proof.
  refine {| put_text (b : bool) := if b then "t" else "f";
            take_text s := match s with
                           | String "t" rest => Some (true, rest)
                           | String "f" rest => Some (false, rest)
                           | _ => None
                           end |}.
  by intros [].
Defined.

#[export] Instance option_text {A} `{Text A} : Text (option A).
Proof.
  refine {| put_text o := match o with Some a => "s" +:+ put_text a | None => "n" end;
            take_text s := match s with
                           | String "s" rest => match take_text rest with Some (a, rest') => Some (Some a, rest') | None => None end
                           | String "n" rest => Some (None, rest)
                           | _ => None
                           end |}.
  intros [a|] rest; [|done]. rewrite string_app_assoc, string_app_cons, string_app_nil_l. cbv beta iota. by rewrite take_put.
Defined.

#[export] Instance prod_text {A B} `{Text A, Text B} : Text (A * B).
Proof.
  refine {| put_text p := put_text p.1 +:+ put_text p.2;
            take_text s := match take_text s with
                           | Some (a, rest) => match take_text rest with Some (b, rest') => Some ((a, b), rest') | None => None end
                           | None => None
                           end |}.
  intros [a b] rest. simpl. by rewrite string_app_assoc, !take_put.
Defined.

(** A type whose values are tuples of fields. *)
Definition text_via {A B} `{Text A} (f : B -> A) (g : A -> B) (gf : forall b, g (f b) = b) : Text B.
Proof.
  refine {| put_text b := put_text (f b);
            take_text s := match take_text s with Some (a, rest) => Some (g a, rest) | None => None end |}.
  intros b rest. by rewrite take_put, gf.
Defined.

(** The text is braced like a JSON object, so it never starts with a tag. *)
Definition to_text {A} `{Text A} (a : A) : string := "{" +:+ put_text a.

Definition of_text {A} `{Text A} (s : string) : option A :=
  match strip_prefix "{" s with
  | Some fields => match take_text fields with Some (a, EmptyString) => Some a | _ => None end
  | None => None
  end.

Lemma of_to_text {A} `{Text A} (a : A) : of_text (to_text a) = Some a.
Proof.
  unfold of_text, to_text. rewrite strip_prefix_app, <-(string_app_nil_r (put_text a)), take_put. done.
Qed.

(** ** Text without dots *)

Fixpoint hide_dots (s : string) : string :=
  match s with
  | EmptyString => EmptyString
  | String c s' =>
      if decide (c = "."%char) then String "~" (String "d" (hide_dots s'))
      else if decide (c = "~"%char) then String "~" (String "~" (hide_dots s'))
      else String c (hide_dots s')
  end.

Fixpoint show_dots (s : string) : option string :=
  match s with
  | EmptyString => Some EmptyString
  | String "~" (String "d" s') => String "." <$> show_dots s'
  | String "~" (String "~" s') => String "~" <$> show_dots s'
  | String "~" _ => None
  | String c s' => String c <$> show_dots s'
  end.

Lemma show_hide_dots (s : string) : show_dots (hide_dots s) = Some s.
Proof.
  induction s as [|c s IH]; [done|]. cbn [hide_dots]. destruct (decide (c = "."%char)) as [->|Hd]; [cbn; by rewrite IH|].
  destruct (decide (c = "~"%char)) as [->|Ht]; [cbn; by rewrite IH|].
  assert (Hs : show_dots (String c (hide_dots s)) = String c <$> show_dots (hide_dots s)).
  { destruct c as [[] [] [] [] [] [] [] []]; try done; by destruct Ht. }
  by rewrite Hs, IH.
Qed.

Lemma hide_dots_no_dot (s : string) : contains_char "." (hide_dots s) = false.
Proof.
  unfold contains_char. rewrite negb_false_iff. induction s as [|c s IH]; [done|]. cbn [hide_dots].
  destruct (decide (c = "."%char)); [done|]. destruct (decide (c = "~"%char)); [done|]. cbn.
  rewrite IH, andb_true_r. by rewrite bool_decide_eq_false_2.
Qed.

End Concrete.
