(* ===== verification/Jwt.v ===== *)
(** * The HS256 codec

    Models [crates/bymax-auth-jwt/src/hs256.rs] and [keys.rs]: signing,
    verification under a pinned algorithm, the temporal and binding checks,
    and the unverified decode.  Base64url and JSON are third-party packages:
    the operations of [Base64] and [ClaimsJson], with the round trips they
    document as laws. *)

From S2P Require Import Prelude Types Crypto Concrete.

Inductive JwtError : Set := Malformed | UnsupportedAlg | BadSignature | Expired | Decode.

#[export] Instance JwtError_eq_dec : EqDecision JwtError.
Proof. solve_decision. Defined.

(** ** Parameters *)

Class Base64 : Type := {
  b64_encode : string -> string;
  b64_decode : string -> option string;
}.

Class Base64Laws `{Base64} : Prop := {
  b64_decode_encode (s : string) : b64_decode (b64_encode s) = Some s;
  b64_encode_no_dot (s : string) : contains_char "." (b64_encode s) = false;
}.

(** The temporal and binding claims [verify] reads. *)
Class JwtClaims (C : Type) : Type := {
  cl_exp : C -> Z;
  cl_iat : C -> Z;
  cl_iss : C -> option string;
  cl_aud : C -> option string;
}.

#[export] Instance DashboardClaims_jwt : JwtClaims DashboardClaims :=
  {| cl_exp := dc_exp; cl_iat := dc_iat; cl_iss := dc_iss; cl_aud := dc_aud |}.
#[export] Instance PlatformClaims_jwt : JwtClaims PlatformClaims :=
  {| cl_exp := pc_exp; cl_iat := pc_iat; cl_iss := pc_iss; cl_aud := pc_aud |}.
#[export] Instance MfaTempClaims_jwt : JwtClaims MfaTempClaims :=
  {| cl_exp := mc_exp; cl_iat := mc_iat; cl_iss := mc_iss; cl_aud := mc_aud |}.

(** [serde_json] on one claim shape, and on the minimal header view. *)
Class ClaimsJson (C : Type) : Type := {
  to_vec : C -> option string;
  from_slice : string -> option C;
}.

Class ClaimsJsonLaws (C : Type) `{ClaimsJson C} : Prop := {
  from_slice_to_vec (c : C) (j : string) : to_vec c = Some j -> from_slice j = Some c;
}.

Class HeaderJson : Type := {
  header_alg : string -> option string;
}.

(** A doubled quote has no literal form in a string notation, so the header
    bytes are spelled with [Q]. *)
Definition Q : string := String (ascii_of_N 34) EmptyString.

Definition HEADER_JSON : string :=
  "{" +:+ Q +:+ "alg" +:+ Q +:+ ":" +:+ Q +:+ "HS256" +:+ Q +:+ "," +:+
  Q +:+ "typ" +:+ Q +:+ ":" +:+ Q +:+ "JWT" +:+ Q +:+ "}".

Definition HS256 : string := "HS256".

Class HeaderJsonLaws `{HeaderJson} : Prop := {
  header_alg_HEADER_JSON : header_alg HEADER_JSON = Some HS256;
}.

(** ** Options *)

Record VerifyOptions : Set := {
  leeway_secs : Z;
  validate_exp : bool;
  validate_iat : bool;
  now_unix : option Z;
  expected_iss : option string;
  expected_aud : option string;
}.

Definition default_options : VerifyOptions := {|
  leeway_secs := 0;
  validate_exp := true;
  validate_iat := true;
  now_unix := None;
  expected_iss := None;
  expected_aud := None;
|}.

(** [system_now_unix]: whole seconds, clamped to zero before the epoch. *)
Definition system_now_unix (clock_nanos : Z) : Z :=
  Z.max 0 (Z.min i64_max (clock_nanos / 1000000000)).

Definition resolve_now (opts : VerifyOptions) (clock_nanos : Z) : Z :=
  match now_unix opts with Some now => now | None => system_now_unix clock_nanos end.

Section codec.
Context `{Crypto, Base64, HeaderJson}.

Definition split_segments (token : string) : result JwtError (string * string * string) :=
  match split_on "." token with
  | [header; payload; signature] => Ok (header, payload, signature)
  | _ => Err Malformed
  end.

Definition validate_temporal {C} `{JwtClaims C} (claims : C) (opts : VerifyOptions)
    (clock_nanos : Z) : result JwtError unit :=
  let leeway := u64_to_i64_sat (leeway_secs opts) in
  let now := resolve_now opts clock_nanos in
  if validate_exp opts && bool_decide (sat_add (cl_exp claims) leeway <= now) then Err Expired
  else if validate_iat opts && bool_decide (sat_add now leeway < cl_iat claims) then Err Malformed
  else Ok tt.

Definition validate_binding {C} `{JwtClaims C} (claims : C) (opts : VerifyOptions) :
    result JwtError unit :=
  let issuer_ok := match expected_iss opts with
                   | Some expected => bool_decide (cl_iss claims = Some expected)
                   | None => true
                   end in
  let audience_ok := match expected_aud opts with
                     | Some expected => bool_decide (cl_aud claims = Some expected)
                     | None => true
                     end in
  if issuer_ok && audience_ok then Ok tt else Err Malformed.

Definition sign {C} `{ClaimsJson C} (claims : C) (key : string) : result JwtError string :=
  match to_vec claims with
  | None => Err Decode
  | Some payload_json =>
      let header_b64 := b64_encode HEADER_JSON in
      let payload_b64 := b64_encode payload_json in
      let signing_input := header_b64 +:+ "." +:+ payload_b64 in
      let signature := hmac_sha256 key signing_input in
      Ok (signing_input +:+ "." +:+ b64_encode signature)
  end.

Definition verify {C} `{JwtClaims C, ClaimsJson C} (token key : string) (opts : VerifyOptions)
    (clock_nanos : Z) : result JwtError C :=
  match split_segments token with
  | Err e => Err e
  | Ok (header_b64, payload_b64, signature_b64) =>
      match b64_decode header_b64 with
      | None => Err Malformed
      | Some header_bytes =>
          match header_alg header_bytes with
          | None => Err Malformed
          | Some alg =>
              if negb (bool_decide (alg = HS256)) then Err UnsupportedAlg else
              let signing_input := header_b64 +:+ "." +:+ payload_b64 in
              let expected := hmac_sha256 key signing_input in
              match b64_decode signature_b64 with
              | None => Err Malformed
              | Some provided =>
                  if negb (constant_time_eq expected provided) then Err BadSignature else
                  match b64_decode payload_b64 with
                  | None => Err Malformed
                  | Some payload_bytes =>
                      match from_slice payload_bytes with
                      | None => Err Decode
                      | Some claims =>
                          match validate_temporal claims opts clock_nanos with
                          | Err e => Err e
                          | Ok _ =>
                              match validate_binding claims opts with
                              | Err e => Err e
                              | Ok _ => Ok claims
                              end
                          end
                      end
                  end
              end
          end
      end
  end.

Definition decode_unverified {C} `{ClaimsJson C} (token : string) : result JwtError C :=
  match split_segments token with
  | Err e => Err e
  | Ok (_, payload_b64, _) =>
      match b64_decode payload_b64 with
      | None => Err Malformed
      | Some payload_bytes => ok_or Decode (from_slice payload_bytes)
      end
  end.

End codec.

(** ** What an accepted token satisfies *)

(** The check [opts] makes of the clock: not expired, not issued in the future. *)
Definition timely {C} `{JwtClaims C} (claims : C) (opts : VerifyOptions) (clock_nanos : Z) : Prop :=
  let leeway := u64_to_i64_sat (leeway_secs opts) in
  let now := resolve_now opts clock_nanos in
  (validate_exp opts = true -> now < sat_add (cl_exp claims) leeway) /\
  (validate_iat opts = true -> cl_iat claims <= sat_add now leeway).

(** The binding [opts] requires: a configured issuer or audience is present
    and equal. *)
Definition bound_to {C} `{JwtClaims C} (claims : C) (opts : VerifyOptions) : Prop :=
  (forall i, expected_iss opts = Some i -> cl_iss claims = Some i) /\
  (forall a, expected_aud opts = Some a -> cl_aud claims = Some a).

(** The token is a compact JWS carrying [claims] under [key]: its header names
    HS256 and its tag is the HMAC of its first two segments. *)
Definition authentic `{Crypto, Base64, HeaderJson} {C} `{ClaimsJson C}
    (token key : string) (claims : C) : Prop :=
  exists h p s hb pb,
    split_on "." token = [h; p; s] /\ b64_decode h = Some hb /\ header_alg hb = Some HS256 /\
    b64_decode s = Some (hmac_sha256 key (h +:+ "." +:+ p)) /\
    b64_decode p = Some pb /\ from_slice pb = Some claims.

Section correctness.
Context `{Crypto, Base64, HeaderJson} {C : Type} `{JwtClaims C, ClaimsJson C}.

Lemma split_segments_join (a b c : string) :
  contains_char "." a = false -> contains_char "." b = false -> contains_char "." c = false ->
  split_on "." ((a +:+ "." +:+ b) +:+ "." +:+ c) = [a; b; c].
Proof.
  intros Ha Hb Hc. rewrite !string_app_assoc. etrans; [exact (split_on_app "." a _ Ha)|]. f_equal.
  etrans; [exact (split_on_app "." b _ Hb)|]. f_equal. by apply split_on_no_sep.
Qed.

Lemma validate_temporal_ok (claims : C) (opts : VerifyOptions) (t : Z) :
  validate_temporal claims opts t = Ok tt <-> timely claims opts t.
Proof.
  unfold validate_temporal, timely. cbv zeta.
  destruct (validate_exp opts), (validate_iat opts); simpl; repeat case_bool_decide;
    (split; [intros; simplify_eq; split; intros; try done; lia
            | intros [He Hi]; try specialize (He eq_refl); try specialize (Hi eq_refl); try lia; done]).
Qed.

Lemma validate_binding_ok (claims : C) (opts : VerifyOptions) :
  validate_binding claims opts = Ok tt <-> bound_to claims opts.
Proof.
  unfold validate_binding, bound_to.
  destruct (expected_iss opts), (expected_aud opts); simpl; repeat case_bool_decide;
    (split; [intros; simplify_eq; split; intros; by simplify_eq | intros [Hi Ha]; try done]);
    exfalso; naive_solver.
Qed.

Lemma verify_ok_iff (token key : string) (opts : VerifyOptions) (t : Z) (claims : C) :
  verify token key opts t = Ok claims <->
  authentic token key claims /\ timely claims opts t /\ bound_to claims opts.
Proof.
  rewrite <-validate_temporal_ok, <-validate_binding_ok. unfold verify, authentic, split_segments.
  split.
  - intros Hv. repeat case_match; simplify_eq/=.
    rename select (negb (constant_time_eq _ _) = false) into Hc.
    rename select (negb (bool_decide _) = false) into Ha.
    rewrite negb_false_iff in Hc, Ha. apply bool_decide_eq_true in Ha. unfold constant_time_eq in Hc.
    apply bool_decide_eq_true in Hc. subst.
    repeat match goal with u : unit |- _ => destruct u end. split_and!; [naive_solver | done..].
  - intros [(h & p & s & hb & pb & Hs & Hh & Ha & Hsig & Hp & Hc) [Ht Hb]].
    rewrite Hs, Hh, Ha. rewrite bool_decide_eq_true_2 by done. simpl. rewrite Hsig.
    unfold constant_time_eq. rewrite bool_decide_eq_true_2 by done. simpl. by rewrite Hp, Hc, Ht, Hb.
Qed.
End correctness.

(** Signing and verifying round trip: a token [sign] produced for some
    claims verifies under the same key to exactly those claims, for any
    options whose clock and binding the claims satisfy. *)
Theorem verify_sign `{Crypto, Base64Laws, HeaderJsonLaws} {C : Type} `{JwtClaims C, ClaimsJsonLaws C}
    (claims : C) (key token : string) (opts : VerifyOptions) (t : Z) :
  sign claims key = Ok token -> timely claims opts t -> bound_to claims opts ->
  verify token key opts t = Ok claims.
Proof.
  intros Hs Ht Hb. apply verify_ok_iff. split_and!; [|done..].
  unfold sign in Hs. case_match; simplify_eq.
  do 5 eexists. split_and!.
  - apply split_segments_join; apply b64_encode_no_dot.
  - apply b64_decode_encode.
  - apply header_alg_HEADER_JSON.
  - apply b64_decode_encode.
  - apply b64_decode_encode.
  - by apply from_slice_to_vec.
Qed.

(** ** A closed instance *)

Module JwtConcrete.
Import Concrete.

#[export] Instance DashboardClaims_text : Text DashboardClaims.
Proof.
  apply (text_via
    (fun c => ((dc_sub c, dc_jti c, dc_tenant_id c, dc_role c), (dc_status c, dc_mfa_enabled c, dc_mfa_verified c),
               (dc_iat c, dc_exp c, dc_epoch c), (dc_iss c, dc_aud c)))
    (fun '((a, b, c, d), (e, f, g), (h, i, j), (k, l)) => Build_DashboardClaims a b c d e f g h i j k l)).
  by intros [].
Defined.

#[export] Instance base64 : Base64 :=
  {| b64_encode := hide_dots; b64_decode := show_dots |}.
#[export] Instance base64_laws : Base64Laws.
Proof. split; [apply show_hide_dots | apply hide_dots_no_dot]. Qed.

#[export] Instance claims_json {C} `{Text C} : ClaimsJson C :=
  {| to_vec c := Some (to_text c); from_slice := of_text |}.
#[export] Instance claims_json_laws {C} `{Text C} : ClaimsJsonLaws C.
Proof. split. intros c j. simpl. intros [= <-]. apply of_to_text. Qed.

#[export] Instance header_json : HeaderJson :=
  {| header_alg j := if bool_decide (j = HEADER_JSON) then Some HS256 else None |}.
#[export] Instance header_json_laws : HeaderJsonLaws.
Proof. by split. Qed.

Definition sample_claims : DashboardClaims := {|
  dc_sub := "u1"; dc_jti := "j1"; dc_tenant_id := "acme"; dc_role := "USER"; dc_status := "active";
  dc_mfa_enabled := false; dc_mfa_verified := false; dc_iat := 100; dc_exp := 1000; dc_epoch := 0;
  dc_iss := Some "bymax"; dc_aud := None |}.

Definition sample_options : VerifyOptions := {|
  leeway_secs := 0; validate_exp := true; validate_iat := true; now_unix := Some 500;
  expected_iss := Some "bymax"; expected_aud := None |}.

Definition sample_token : string :=
  match sign sample_claims "k" with Ok t => t | Err _ => "" end.

Lemma verify_sign_witness :
  verify sample_token "k" sample_options 0 = Ok sample_claims.
Proof.
  apply verify_sign.
  - vm_compute. reflexivity.
  - split; intros _; vm_compute; intuition discriminate.
  - split; intros x Hx; vm_compute in Hx |- *; congruence.
Defined.

End JwtConcrete.
