(* ===== verification/Redis.v ===== *)
(** * The Redis keyspace

    Models [crates/bymax-auth-redis/src/keys.rs] (the prefix catalogue and the
    one key builder), [error.rs], [pool.rs] (a connection that may be refused),
    and the Redis commands the stores and their Lua scripts issue.

    A database maps a key to a typed value with an optional expiry, in
    milliseconds.  An entry past its expiry is not seen by any command, which is
    what Redis guarantees of lazily deleted keys.  Time only moves by an explicit
    [advance], so the theorems quantify over the state a call starts from. *)

From S2P Require Import Prelude Errors Types.

Inductive RedisStoreError : Set :=
| RePool
| ReCommand (msg : string)
| ReDecode
| ReBuild.

(** Every backend failure surfaces as the opaque internal error. *)
Definition redis_error_to_auth (e : RedisStoreError) : AuthError :=
  Internal (match e with
            | RePool => "redis connection pool unavailable"
            | ReCommand _ => "redis command failed"
            | ReDecode => "stored redis value could not be decoded"
            | ReBuild => "redis connection pool could not be created"
            end).

Inductive rvalue : Type :=
| RStr (s : string)
| RSet (m : gset string)
| RHash (h : gmap string string).

Record rentry : Type := { re_value : rvalue; re_expire : option Z }.

(** [r_pool] is what the next connection requests will answer: [true] is a
    refusal, and an exhausted schedule always connects. *)
Record Redis : Type := {
  r_now : Z;
  r_db : gmap string rentry;
  r_pool : list bool;
}.

Definition R : Type -> Type := M Redis RedisStoreError.

Definition expired (expire : option Z) (now : Z) : bool :=
  match expire with Some at_ms => bool_decide (at_ms < now) | None => false end.

(** What a command sees under a key. *)
Definition rlookup (r : Redis) (k : string) : option rentry :=
  match r_db r !! k with
  | Some e => if expired (re_expire e) (r_now r) then None else Some e
  | None => None
  end.

Definition view (r : Redis) (k : string) : option rvalue :=
  match rlookup r k with Some e => Some (re_value e) | None => None end.

Definition put (k : string) (v : rvalue) (expire : option Z) (r : Redis) : Redis :=
  {| r_now := r_now r; r_db := <[k := {| re_value := v; re_expire := expire |}]> (r_db r);
     r_pool := r_pool r |}.

Definition remove (k : string) (r : Redis) : Redis :=
  {| r_now := r_now r; r_db := delete k (r_db r); r_pool := r_pool r |}.

Definition advance (ms : Z) (r : Redis) : Redis :=
  {| r_now := r_now r + Z.max 0 ms; r_db := r_db r; r_pool := r_pool r |}.

(** ** Commands *)

Definition wrongtype {A} : R A := throw (ReCommand "WRONGTYPE").

Definition connection : R unit := fun r =>
  match r_pool r with
  | [] => (Ok tt, r)
  | refused :: rest =>
      let r' := {| r_now := r_now r; r_db := r_db r; r_pool := rest |} in
      if refused : bool then (Err RePool, r') else (Ok tt, r')
  end.

Definition cmd_get (k : string) : R (option string) := fun r =>
  match view r k with
  | None => (Ok None, r)
  | Some (RStr s) => (Ok (Some s), r)
  | Some _ => wrongtype r
  end.

Definition cmd_set_ex (k v : string) (ttl : Z) : R unit := fun r =>
  if bool_decide (ttl <= 0) then (Err (ReCommand "invalid expire time"), r)
  else (Ok tt, put k (RStr v) (Some (r_now r + ttl * 1000)) r).

(** [SET k v NX EX ttl]: whether the key was created. *)
Definition cmd_set_nx_ex (k v : string) (ttl : Z) : R bool := fun r =>
  if bool_decide (ttl <= 0) then (Err (ReCommand "invalid expire time"), r)
  else match view r k with
       | Some _ => (Ok false, r)
       | None => (Ok true, put k (RStr v) (Some (r_now r + ttl * 1000)) r)
       end.

Definition cmd_del (k : string) : R Z := fun r =>
  (Ok (match view r k with Some _ => 1 | None => 0 end), remove k r).

Definition cmd_exists (k : string) : R bool := fun r =>
  (Ok (match view r k with Some _ => true | None => false end), r).

Definition cmd_expire (k : string) (ttl : Z) : R unit := fun r =>
  match rlookup r k with
  | None => (Ok tt, r)
  | Some e => if bool_decide (ttl <= 0) then (Ok tt, remove k r)
              else (Ok tt, put k (re_value e) (Some (r_now r + ttl * 1000)) r)
  end.

Definition cmd_getdel (k : string) : R (option string) := fun r =>
  match view r k with
  | None => (Ok None, r)
  | Some (RStr s) => (Ok (Some s), remove k r)
  | Some _ => wrongtype r
  end.

(** [TTL k], in whole seconds rounded as Redis does; [-2] for a missing key and
    [-1] for one without an expiry. *)
Definition cmd_ttl (k : string) : R Z := fun r =>
  (Ok (match rlookup r k with
       | None => -2
       | Some e => match re_expire e with
                   | None => -1
                   | Some at_ms => (at_ms - r_now r + 500) / 1000
                   end
       end), r).

Definition cmd_incr (k : string) : R Z := fun r =>
  match rlookup r k with
  | None => (Ok 1, put k (RStr (z_to_string 1)) None r)
  | Some e =>
      match re_value e with
      | RStr s =>
          match string_to_z s with
          | Some n => if bool_decide (n < i64_max)
                      then (Ok (n + 1), put k (RStr (z_to_string (n + 1))) (re_expire e) r)
                      else (Err (ReCommand "increment or decrement would overflow"), r)
          | None => (Err (ReCommand "value is not an integer"), r)
          end
      | _ => wrongtype r
      end
  end.

Definition cmd_sadd (k member : string) : R unit := fun r =>
  match rlookup r k with
  | None => (Ok tt, put k (RSet {[member]}) None r)
  | Some e => match re_value e with
              | RSet m => (Ok tt, put k (RSet ({[member]} ∪ m)) (re_expire e) r)
              | _ => wrongtype r
              end
  end.

(** A set that loses its last member is deleted. *)
Definition cmd_srem (k member : string) : R unit := fun r =>
  match rlookup r k with
  | None => (Ok tt, r)
  | Some e => match re_value e with
              | RSet m =>
                  let m' := m ∖ {[member]} in
                  if bool_decide (m' = ∅) then (Ok tt, remove k r)
                  else (Ok tt, put k (RSet m') (re_expire e) r)
              | _ => wrongtype r
              end
  end.

Definition cmd_smembers (k : string) : R (list string) := fun r =>
  match view r k with
  | None => (Ok [], r)
  | Some (RSet m) => (Ok (elements m), r)
  | Some _ => wrongtype r
  end.

Definition cmd_sismember (k member : string) : R bool := fun r =>
  match view r k with
  | None => (Ok false, r)
  | Some (RSet m) => (Ok (bool_decide (member ∈ m)), r)
  | Some _ => wrongtype r
  end.

Definition cmd_hget (k field : string) : R (option string) := fun r =>
  match view r k with
  | None => (Ok None, r)
  | Some (RHash h) => (Ok (h !! field), r)
  | Some _ => wrongtype r
  end.

Definition cmd_hset (k field v : string) : R unit := fun r =>
  match rlookup r k with
  | None => (Ok tt, put k (RHash {[field := v]}) None r)
  | Some e => match re_value e with
              | RHash h => (Ok tt, put k (RHash (<[field := v]> h)) (re_expire e) r)
              | _ => wrongtype r
              end
  end.

Definition cmd_hincrby (k field : string) (by_ : Z) : R Z := fun r =>
  match rlookup r k with
  | None => (Ok by_, put k (RHash {[field := z_to_string by_]}) None r)
  | Some e =>
      match re_value e with
      | RHash h =>
          match string_to_z (default "0" (h !! field)) with
          | Some n => (Ok (n + by_), put k (RHash (<[field := z_to_string (n + by_)]> h)) (re_expire e) r)
          | None => (Err (ReCommand "hash value is not an integer"), r)
          end
      | _ => wrongtype r
      end
  end.

(** A [MULTI]/[EXEC] pipeline: every queued command runs, a failing one does not
    stop the others, and the reply is the first failure. *)
Fixpoint multi (cmds : list (R unit)) : R unit := fun r =>
  match cmds with
  | [] => (Ok tt, r)
  | cmd :: rest =>
      let '(res, r') := cmd r in
      let '(res', r'') := multi rest r' in
      (match res with Ok _ => res' | Err e => Err e end, r'')
  end.

(** A two-command [MULTI]/[EXEC] whose first reply is kept. *)
Definition both {A} (m : R A) (cmd : R unit) : R A := fun r =>
  let '(res, r') := m r in
  let '(res', r'') := cmd r' in
  (match res, res' with Ok a, Ok _ => Ok a | Err e, _ => Err e | _, Err e => Err e end, r'').

(** Run a command for its effect. *)
Definition ignore {A} (m : R A) : R unit := fun r =>
  let '(res, r') := m r in (result_map (fun _ => tt) res, r').

(** What a store method answers: every backend error becomes the internal one. *)
Definition served {A} (m : R A) : M Redis AuthError A := catch_map redis_error_to_auth m.

(** ** What a write changes *)

Lemma rlookup_put (k : string) (v : rvalue) (x : option Z) (r : Redis) :
  rlookup (put k v x r) k = if expired x (r_now r) then None else Some {| re_value := v; re_expire := x |}.
Proof. unfold rlookup, put. simpl. by rewrite lookup_insert_eq. Qed.

Lemma rlookup_put_ne (k k' : string) (v : rvalue) (x : option Z) (r : Redis) :
  k <> k' -> rlookup (put k v x r) k' = rlookup r k'.
Proof. intros Hk. unfold rlookup, put. simpl. by rewrite lookup_insert_ne. Qed.

Lemma rlookup_remove (k : string) (r : Redis) : rlookup (remove k r) k = None.
Proof. unfold rlookup, remove. simpl. by rewrite lookup_delete_eq. Qed.

Lemma rlookup_remove_ne (k k' : string) (r : Redis) : k <> k' -> rlookup (remove k r) k' = rlookup r k'.
Proof. intros Hk. unfold rlookup, remove. simpl. by rewrite lookup_delete_ne. Qed.

(** What time leaves of an entry. *)
Lemma rlookup_advance (ms : Z) (k : string) (r : Redis) :
  rlookup (advance ms r) k =
    match rlookup r k with
    | Some e => if expired (re_expire e) (r_now r + Z.max 0 ms) then None else Some e
    | None => None
    end.
Proof.
  unfold rlookup, advance. simpl. destruct (r_db r !! k) as [[v [t|]]|]; simpl; [|done..].
  repeat case_bool_decide; simpl; repeat case_bool_decide; try done; lia.
Qed.

Lemma rlookup_put_eq (k : string) (v : rvalue) (r : Redis) (ttl : Z) :
  0 < ttl ->
  rlookup (put k v (Some (r_now r + ttl * 1000)) r) k =
    Some {| re_value := v; re_expire := Some (r_now r + ttl * 1000) |}.
Proof.
  intros Ht. unfold rlookup, put, expired. simpl. rewrite lookup_insert_eq. simpl.
  by rewrite bool_decide_eq_false_2 by lia.
Qed.

Lemma view_put_ttl (k k' : string) (v : rvalue) (r : Redis) (ttl : Z) :
  0 < ttl ->
  view (put k v (Some (r_now r + ttl * 1000)) r) k' = if decide (k = k') then Some v else view r k'.
Proof.
  intros Ht. unfold view. case_decide as Hk.
  - subst k'. by rewrite rlookup_put_eq.
  - unfold rlookup, put. simpl. by rewrite lookup_insert_ne.
Qed.

Lemma view_put_none (k k' : string) (v : rvalue) (r : Redis) :
  view (put k v None r) k' = if decide (k = k') then Some v else view r k'.
Proof.
  unfold view, rlookup, put. simpl. rewrite lookup_insert. by case_decide.
Qed.

(** Rewriting a value in place keeps the entry's expiry, so it stays visible. *)
Lemma view_put_keep (k k' : string) (v : rvalue) (r : Redis) (e : rentry) :
  rlookup r k = Some e ->
  view (put k v (re_expire e) r) k' = if decide (k = k') then Some v else view r k'.
Proof.
  unfold view, rlookup, put. simpl. rewrite lookup_insert.
  destruct (r_db r !! k) as [e'|] eqn:E; [|done].
  destruct (expired (re_expire e') (r_now r)) eqn:Ex; [done|]. intros [= <-].
  case_decide; simpl; [by rewrite Ex | done].
Qed.

Lemma view_remove (k k' : string) (r : Redis) :
  view (remove k r) k' = if decide (k = k') then None else view r k'.
Proof. unfold view, rlookup, remove. simpl. rewrite lookup_delete. by case_decide. Qed.

Lemma view_rlookup (r : Redis) (k : string) (v : rvalue) :
  view r k = Some v -> exists e, rlookup r k = Some e /\ re_value e = v.
Proof. unfold view. destruct (rlookup r k); naive_solver. Qed.

Lemma view_rlookup_None (r : Redis) (k : string) : view r k = None -> rlookup r k = None.
Proof. unfold view. by destruct (rlookup r k). Qed.

(** Time only ever hides entries. *)
Lemma view_advance (ms : Z) (r : Redis) (k : string) :
  view (advance ms r) k = view r k \/ view (advance ms r) k = None.
Proof.
  unfold view, rlookup, advance, expired. simpl. destruct (r_db r !! k) as [e|]; [|by left].
  destruct (re_expire e); [|by left]. repeat case_bool_decide; auto; lia.
Qed.

(** ** Keys *)

Inductive Prefix : Set :=
| Rt | Rv | Ep | Pep | Rp | Cf | Fam | Sess | Sd | Lf | Otp | Resend | Wst | PwReset | PwVtok | Inv
| Rcu | Ra | Ec | Invidx | Us | Uev | Prt | Prp | Pcf | Pfam | Psess | Psd | MfaSetup | Mfa
| Mfalock | Tu | Os.

#[export] Instance Prefix_eq_dec : EqDecision Prefix.
Proof. solve_decision. Defined.

Definition prefix_as_str (p : Prefix) : string :=
  match p with
  | Rt => "rt" | Rv => "rv" | Ep => "ep" | Pep => "pep" | Rp => "rp" | Cf => "cf" | Fam => "fam"
  | Sess => "sess" | Sd => "sd" | Lf => "lf" | Otp => "otp" | Resend => "resend" | Wst => "wst"
  | PwReset => "pw_reset" | PwVtok => "pw_vtok" | Inv => "inv" | Rcu => "rcu" | Ra => "ra"
  | Ec => "ec" | Invidx => "invidx" | Us => "us" | Uev => "uev" | Prt => "prt" | Prp => "prp"
  | Pcf => "pcf" | Pfam => "pfam" | Psess => "psess" | Psd => "psd" | MfaSetup => "mfa_setup"
  | Mfa => "mfa" | Mfalock => "mfalock" | Tu => "tu" | Os => "os"
  end.

(** [NamespacedRedis::key]. *)
Definition key (ns : string) (p : Prefix) (id : string) : string :=
  ns +:+ ":" +:+ prefix_as_str p +:+ ":" +:+ id.

Definition rate_limit_key (ns route bucket_hash : string) : string :=
  ns +:+ ":rl:" +:+ route +:+ ":" +:+ bucket_hash.

Lemma prefix_as_str_inj (p p' : Prefix) : prefix_as_str p = prefix_as_str p' -> p = p'.
Proof. by destruct p, p'. Qed.

Lemma prefix_no_colon (p : Prefix) : contains_char ":" (prefix_as_str p) = false.
Proof. by destruct p. Qed.

(** One namespace never builds the same key for two different identifiers or
    two different keyspaces. *)
Lemma key_inj (ns : string) (p p' : Prefix) (id id' : string) :
  key ns p id = key ns p' id' -> p = p' /\ id = id'.
Proof.
  unfold key. intros H. apply string_app_inj_l in H.
  apply (string_app_inj_l ":") in H. apply join_inj in H as [Hp Hid]; [|apply prefix_no_colon..].
  split; [by apply prefix_as_str_inj | done].
Qed.
