(* ===== verification/RedisSession.v ===== *)
(** * The Redis session store

    Models [crates/bymax-auth-redis/src/stores/session.rs], the listing of
    [session_listing.rs] and the Lua scripts they run
    ([src/lua/{refresh_rotate,recover_grace,revoke_family,session_revoke,
    invalidate_user_sessions,session_prune_dead}.lua]): refresh sessions with
    rotation, grace pointers, family reuse markers, the per-account index, the
    access-token blacklist and the token epoch.

    A script is one atomic function of the database: its commands run in order,
    an error aborts it and keeps the writes made before.  JSON is [serde_json],
    the operations of [SessionJson]. *)

From S2P Require Import Prelude Errors Types Redis.

(** ** The stored detail record *)

Record SessionDetailValue : Set := {
  dv_device : string;
  dv_ip : string;
  dv_created_at : OffsetDateTime;
  dv_last_activity_at : OffsetDateTime;
}.

(** Its wire form, with both instants as Unix milliseconds. *)
Record DetailWire : Set := {
  dw_device : string;
  dw_ip : string;
  dw_created_at : Z;
  dw_last_activity_at : Z;
}.

Class SessionJson : Type := {
  record_to_string : SessionRecord -> option string;
  record_from_str : string -> option SessionRecord;
  wire_to_string : DetailWire -> string;
  wire_from_str : string -> option DetailWire;
}.

Class SessionJsonLaws `{SessionJson} : Prop := {
  record_from_to (rec : SessionRecord) (j : string) :
    record_to_string rec = Some j -> record_from_str j = Some rec;
  record_is_object (rec : SessionRecord) (j : string) :
    record_to_string rec = Some j -> starts_with "{" j = true;
  wire_from_to (w : DetailWire) : wire_from_str (wire_to_string w) = Some w;
}.

Definition at_creation (rec : SessionRecord) : SessionDetailValue := {|
  dv_device := sr_device rec;
  dv_ip := sr_ip rec;
  dv_created_at := sr_created_at rec;
  dv_last_activity_at := sr_created_at rec;
|}.

Definition detail_to_string `{SessionJson} (d : SessionDetailValue) : string :=
  wire_to_string {|
    dw_device := dv_device d;
    dw_ip := dv_ip d;
    dw_created_at := UnixMillis.serialize (dv_created_at d);
    dw_last_activity_at := UnixMillis.serialize (dv_last_activity_at d);
  |}.

Definition detail_from_str `{SessionJson} (j : string) : option SessionDetailValue :=
  match wire_from_str j with
  | None => None
  | Some w =>
      match UnixMillis.deserialize (dw_created_at w), UnixMillis.deserialize (dw_last_activity_at w) with
      | Some c, Some l => Some {| dv_device := dw_device w; dv_ip := dw_ip w;
                                  dv_created_at := c; dv_last_activity_at := l |}
      | _, _ => None
      end
  end.

(** ** Keyspaces *)

Record KindPrefixes : Set := {
  kp_rt : Prefix; kp_rp : Prefix; kp_cf : Prefix; kp_fam : Prefix; kp_sess : Prefix; kp_sd : Prefix;
}.

Definition kind_prefixes (k : SessionKind) : KindPrefixes :=
  match k with
  | SkDashboard => {| kp_rt := Rt; kp_rp := Rp; kp_cf := Cf; kp_fam := Fam; kp_sess := Sess; kp_sd := Sd |}
  | SkPlatform => {| kp_rt := Prt; kp_rp := Prp; kp_cf := Pcf; kp_fam := Pfam; kp_sess := Psess; kp_sd := Psd |}
  end.

Definition epoch_prefix (k : SessionKind) : Prefix :=
  match k with SkDashboard => Ep | SkPlatform => Pep end.

(** A session-index member is the full key suffix. *)
Definition index_member (p : Prefix) (hash : string) : string := prefix_as_str p +:+ ":" +:+ hash.

Definition live_member_hash (member : string) (live : Prefix) : option string :=
  match strip_prefix (prefix_as_str live) member with
  | Some rest => strip_prefix ":" rest
  | None => None
  end.

Definition is_hash_shape (s : string) : bool :=
  Nat.eqb (String.length s) 64 &&
  string_all (fun c => let b := Z.of_N (N_of_ascii c) in
                bool_decide (48 <= b <= 57) || bool_decide (97 <= b <= 102)) s.

Definition successor_of_pointer (pointer : string) : option string :=
  match split_once ":" pointer with
  | Some (successor, _) => if is_hash_shape successor then Some successor else None
  | None => None
  end.

(** ** Lua scripts *)

Module Lua.

(** [refresh_rotate.lua]; the nine [ARGV] are the last nine arguments. *)
Definition refresh_rotate (rt_old rt_new rp_old cf_old fam_key sess_key : string)
    (new_json : string) (refresh_ttl grace_ttl : Z) (family old_hash new_hash rt_prefix live_prefix grace_prefix : string)
    : R (option string) :=
  old ← cmd_get rt_old;
  match old with
  | Some old_json =>
      _ ← cmd_set_ex rt_new new_json refresh_ttl;
      _ ← (if bool_decide (0 < grace_ttl)
           then cmd_set_ex rp_old (new_hash +:+ ":" +:+ new_json) grace_ttl else mret tt);
      _ ← (if negb (string_is_empty family)
           then (_ ← cmd_set_ex cf_old family refresh_ttl;
                 _ ← cmd_srem fam_key old_hash;
                 _ ← cmd_sadd fam_key new_hash;
                 cmd_expire fam_key refresh_ttl)
           else mret tt);
      _ ← cmd_srem sess_key (live_prefix +:+ ":" +:+ old_hash);
      _ ← cmd_sadd sess_key (live_prefix +:+ ":" +:+ new_hash);
      _ ← (if bool_decide (0 < grace_ttl)
           then cmd_sadd sess_key (grace_prefix +:+ ":" +:+ old_hash) else mret tt);
      _ ← cmd_expire sess_key refresh_ttl;
      _ ← cmd_del rt_old;
      mret (Some old_json)
  | None =>
      let reuse_check : R (option string) :=
        family ← cmd_get cf_old;
        mret (match family with Some f => Some ("REUSED:" +:+ f) | None => None end) in
      grace ← cmd_get rp_old;
      match grace with
      | Some pointer =>
          _ ← cmd_del rp_old;
          match split_once ":" pointer with
          | Some (successor, json) =>
              alive ← cmd_exists (rt_prefix +:+ ":" +:+ successor);
              if alive : bool then mret (Some ("GRACE:" +:+ json)) else reuse_check
          | None => reuse_check
          end
      | None => reuse_check
      end
  end.

(** [recover_grace.lua]. *)
Definition recover_grace (rt_key sess_key sd_key fam_key : string)
    (record_json detail_json : string) (ttl : Z) (family live_member new_hash : string) : R Z :=
  indexed ← cmd_exists sess_key;
  if negb indexed then mret 0 else
  fam_alive ← (if negb (string_is_empty family) then cmd_exists fam_key else mret true);
  if negb fam_alive then mret 0 else
  _ ← cmd_set_ex rt_key record_json ttl;
  _ ← cmd_sadd sess_key live_member;
  _ ← cmd_expire sess_key ttl;
  _ ← cmd_set_ex sd_key detail_json ttl;
  _ ← (if negb (string_is_empty family)
       then (_ ← cmd_sadd fam_key new_hash; cmd_expire fam_key ttl) else mret tt);
  mret 1.

(** [session_revoke.lua]. *)
Definition session_revoke (sess_key rt_key sd_key member : string) : R bool :=
  owned ← cmd_sismember sess_key member;
  if negb owned then mret false else
  _ ← cmd_srem sess_key member;
  _ ← cmd_del rt_key;
  _ ← cmd_del sd_key;
  mret true.

(** The loop of [invalidate_user_sessions.lua] over the index members. *)
Fixpoint invalidate_members (ns live detail : string) (members : list string) : R unit :=
  match members with
  | [] => mret tt
  | member :: rest =>
      _ ← cmd_del (ns +:+ ":" +:+ member);
      _ ← match strip_prefix (live +:+ ":") member with
          | Some hash => ignore (cmd_del (ns +:+ ":" +:+ detail +:+ ":" +:+ hash))
          | None => mret tt
          end;
      invalidate_members ns live detail rest
  end.

(** [invalidate_user_sessions.lua]. *)
Definition invalidate_user_sessions (sess_key ns live detail : string) : R Z :=
  members ← cmd_smembers sess_key;
  _ ← invalidate_members ns live detail members;
  _ ← cmd_del sess_key;
  mret (Z.of_nat (length members)).

(** The loop of [revoke_family.lua] over the family members. *)
Fixpoint revoke_members (ns rt sd sess_key : string) (members : list string) : R unit :=
  match members with
  | [] => mret tt
  | hash :: rest =>
      _ ← cmd_del (ns +:+ ":" +:+ rt +:+ ":" +:+ hash);
      _ ← cmd_del (ns +:+ ":" +:+ sd +:+ ":" +:+ hash);
      _ ← (if negb (string_is_empty sess_key)
           then cmd_srem sess_key (rt +:+ ":" +:+ hash) else mret tt);
      revoke_members ns rt sd sess_key rest
  end.

(** [revoke_family.lua]. *)
Definition revoke_family (fam_key ns rt sd sess_key : string) : R Z :=
  members ← cmd_smembers fam_key;
  match members with
  | [] => _ ← cmd_del fam_key; mret 0
  | _ => _ ← revoke_members ns rt sd sess_key members;
         _ ← cmd_del fam_key;
         mret (Z.of_nat (length members))
  end.

(** [session_prune_dead.lua]. *)
Fixpoint session_prune_dead (sess_key ns : string) (candidates : list string) : R (list string) :=
  match candidates with
  | [] => mret []
  | member :: rest =>
      alive ← cmd_exists (ns +:+ ":" +:+ member);
      if alive : bool then session_prune_dead sess_key ns rest
      else (_ ← cmd_srem sess_key member;
            removed ← session_prune_dead sess_key ns rest;
            mret (member :: removed))
  end.

End Lua.

(** ** The store *)

Inductive RotateParsed : Set :=
| PRotated (old : SessionRecord)
| PGrace (recovered : SessionRecord)
| PReused (family : string)
| PInvalid.

Definition GRACE_TAG : string := "GRACE:".
Definition REUSED_TAG : string := "REUSED:".

Section store.
Context `{SessionJson} (ns : string).

(** [serde_json::from_str(..)?] and [to_string(..)?]. *)
Definition decoded {A} (o : option A) : R A := lift (ok_or ReDecode o).

Definition interpret_rotate (raw : option string) : result RedisStoreError RotateParsed :=
  match raw with
  | None => Ok PInvalid
  | Some payload =>
      match strip_prefix GRACE_TAG payload with
      | Some grace_json => result_map PGrace (ok_or ReDecode (record_from_str grace_json))
      | None =>
          match strip_prefix REUSED_TAG payload with
          | Some family => Ok (PReused family)
          | None => result_map PRotated (ok_or ReDecode (record_from_str payload))
          end
      end
  end.

Definition create_session_inner (kind : SessionKind) (subject_hash token_hash : string)
    (detail : SessionRecord) (ttl_secs : Z) : R unit :=
  let prefixes := kind_prefixes kind in
  let rt_key := key ns (kp_rt prefixes) token_hash in
  let sess_key := key ns (kp_sess prefixes) subject_hash in
  let sd_key := key ns (kp_sd prefixes) token_hash in
  let live_member := index_member (kp_rt prefixes) token_hash in
  record_json ← decoded (record_to_string detail);
  let detail_json := detail_to_string (at_creation detail) in
  let ttl_window := u64_to_i64_sat ttl_secs in
  let fam_key := key ns (kp_fam prefixes) (sr_family_id detail) in
  _ ← connection;
  multi ([ cmd_set_ex rt_key record_json ttl_secs;
           cmd_sadd sess_key live_member;
           cmd_set_ex sd_key detail_json ttl_secs;
           cmd_expire sess_key ttl_window ] ++
         (if negb (string_is_empty (sr_family_id detail))
          then [ cmd_sadd fam_key token_hash; cmd_expire fam_key ttl_window ] else [])).

Definition create_recovered_session_inner (kind : SessionKind) (subject_hash token_hash : string)
    (detail : SessionRecord) (ttl_secs : Z) : R bool :=
  let prefixes := kind_prefixes kind in
  let rt_key := key ns (kp_rt prefixes) token_hash in
  let sess_key := key ns (kp_sess prefixes) subject_hash in
  let sd_key := key ns (kp_sd prefixes) token_hash in
  let fam_key := key ns (kp_fam prefixes) (sr_family_id detail) in
  record_json ← decoded (record_to_string detail);
  let detail_json := detail_to_string (at_creation detail) in
  let live_member := index_member (kp_rt prefixes) token_hash in
  _ ← connection;
  written ← Lua.recover_grace rt_key sess_key sd_key fam_key record_json detail_json ttl_secs
              (sr_family_id detail) live_member token_hash;
  mret (bool_decide (written = 1)).

Definition family_is_alive (fam : Prefix) (record : SessionRecord) : R bool :=
  if string_is_empty (sr_family_id record) then mret true
  else cmd_exists (key ns fam (sr_family_id record)).

Definition move_session_detail (prefixes : KindPrefixes) (rotation : SessionRotation) : R unit :=
  let sd_old := key ns (kp_sd prefixes) (ro_old_hash rotation) in
  let sd_new := key ns (kp_sd prefixes) (ro_new_hash rotation) in
  let detail_json := detail_to_string (at_creation (ro_new_record rotation)) in
  multi [ ignore (cmd_del sd_old); cmd_set_ex sd_new detail_json (ro_refresh_ttl rotation) ].

Definition rotate_inner (kind : SessionKind) (rotation : SessionRotation) : R RotateOutcome :=
  let prefixes := kind_prefixes kind in
  let rt_old := key ns (kp_rt prefixes) (ro_old_hash rotation) in
  let rt_new := key ns (kp_rt prefixes) (ro_new_hash rotation) in
  let rp_old := key ns (kp_rp prefixes) (ro_old_hash rotation) in
  let cf_old := key ns (kp_cf prefixes) (ro_old_hash rotation) in
  let family := sr_family_id (ro_new_record rotation) in
  let rt_prefix := ns +:+ ":" +:+ prefix_as_str (kp_rt prefixes) in
  let fam_key := key ns (kp_fam prefixes) family in
  let sess_key := key ns (kp_sess prefixes) (ro_subject_hash rotation) in
  new_json ← decoded (record_to_string (ro_new_record rotation));
  _ ← connection;
  raw ← Lua.refresh_rotate rt_old rt_new rp_old cf_old fam_key sess_key new_json
          (ro_refresh_ttl rotation) (ro_grace_ttl rotation) family
          (ro_old_hash rotation) (ro_new_hash rotation) rt_prefix
          (prefix_as_str (kp_rt prefixes)) (prefix_as_str (kp_rp prefixes));
  parsed ← lift (interpret_rotate raw);
  match parsed with
  | PInvalid => mret Invalid
  | PGrace record =>
      alive ← family_is_alive (kp_fam prefixes) record;
      mret (if alive : bool then Grace record else Invalid)
  | PReused family => mret (Reused family)
  | PRotated old_record =>
      _ ← move_session_detail prefixes rotation;
      mret (Rotated old_record)
  end.

Definition find_session_inner (kind : SessionKind) (token_hash : string) : R (option SessionRecord) :=
  _ ← connection;
  raw ← cmd_get (key ns (kp_rt (kind_prefixes kind)) token_hash);
  match raw with
  | Some json => Some <$> decoded (record_from_str json)
  | None => mret None
  end.

Definition revoke_session_inner (kind : SessionKind) (subject_hash session_hash : string) : R bool :=
  let prefixes := kind_prefixes kind in
  _ ← connection;
  Lua.session_revoke (key ns (kp_sess prefixes) subject_hash) (key ns (kp_rt prefixes) session_hash)
    (key ns (kp_sd prefixes) session_hash) (index_member (kp_rt prefixes) session_hash).

Definition delete_grace_pointer_inner (kind : SessionKind) (session_hash : string) : R unit :=
  _ ← connection;
  ignore (cmd_del (key ns (kp_rp (kind_prefixes kind)) session_hash)).

Definition grace_successor_inner (kind : SessionKind) (session_hash : string) : R (option string) :=
  _ ← connection;
  pointer ← cmd_get (key ns (kp_rp (kind_prefixes kind)) session_hash);
  mret (match pointer with Some p => successor_of_pointer p | None => None end).

Fixpoint sweep_members (sess_key : string) (members : list string) : R unit :=
  match members with
  | [] => mret tt
  | member :: rest =>
      _ ← cmd_del (ns +:+ ":" +:+ member);
      _ ← cmd_srem sess_key member;
      sweep_members sess_key rest
  end.

Definition sweep_grace_pointers_inner (kind : SessionKind) (subject_hash : string) : R unit :=
  let prefixes := kind_prefixes kind in
  let sess_key := key ns (kp_sess prefixes) subject_hash in
  _ ← connection;
  members ← cmd_smembers sess_key;
  let grace_prefix := prefix_as_str (kp_rp prefixes) +:+ ":" in
  sweep_members sess_key (filter (fun m => starts_with grace_prefix m = true) members).

Definition revoke_all_inner (kind : SessionKind) (subject_hash : string) : R unit :=
  let prefixes := kind_prefixes kind in
  _ ← connection;
  ignore (Lua.invalidate_user_sessions (key ns (kp_sess prefixes) subject_hash) ns
            (prefix_as_str (kp_rt prefixes)) (prefix_as_str (kp_sd prefixes))).

Fixpoint first_owner (rt : Prefix) (members : list string) : R (option SessionRecord) :=
  match members with
  | [] => mret None
  | hash :: rest =>
      raw ← cmd_get (key ns rt hash);
      match raw with
      | None => first_owner rt rest
      | Some json =>
          match record_from_str json with
          | None => first_owner rt rest
          | Some record => if negb (string_is_empty (sr_user_id record)) then mret (Some record)
                           else first_owner rt rest
          end
      end
  end.

Definition find_family_owner_inner (kind : SessionKind) (family_id : string) : R (option SessionRecord) :=
  if string_is_empty family_id then mret None else
  let prefixes := kind_prefixes kind in
  _ ← connection;
  members ← cmd_smembers (key ns (kp_fam prefixes) family_id);
  first_owner (kp_rt prefixes) members.

Definition revoke_family_inner (kind : SessionKind) (family_id : string)
    (owner_subject_hash : option string) : R unit :=
  if string_is_empty family_id then mret tt else
  let prefixes := kind_prefixes kind in
  let fam_key := key ns (kp_fam prefixes) family_id in
  let owner_index := match owner_subject_hash with
                     | Some hash => key ns (kp_sess prefixes) hash
                     | None => ""
                     end in
  _ ← connection;
  ignore (Lua.revoke_family fam_key ns (prefix_as_str (kp_rt prefixes))
            (prefix_as_str (kp_sd prefixes)) owner_index).

Definition blacklist_access_inner (jti_or_hash : string) (remaining_ttl_secs : Z) : R unit :=
  if bool_decide (remaining_ttl_secs = 0) then mret tt else
  _ ← connection;
  cmd_set_ex (key ns Rv jti_or_hash) "1" remaining_ttl_secs.

Definition is_blacklisted_inner (jti_or_hash : string) : R bool :=
  _ ← connection;
  cmd_exists (key ns Rv jti_or_hash).

Definition current_epoch_inner (kind : SessionKind) (subject_hash : string) : R Z :=
  _ ← connection;
  value ← cmd_get (key ns (epoch_prefix kind) subject_hash);
  match value with
  | None => mret 0
  | Some s => match string_to_z s with
              | Some n => if bool_decide (0 <= n <= u64_max) then mret n
                          else throw (ReCommand "not a u64")
              | None => throw (ReCommand "not a u64")
              end
  end.

Definition EPOCH_TTL_SECS : Z := TOKEN_EPOCH_RETENTION_SECS.

Definition bump_epoch_inner (kind : SessionKind) (subject_hash : string) : R Z :=
  let k := key ns (epoch_prefix kind) subject_hash in
  _ ← connection;
  n ← both (cmd_incr k) (cmd_expire k EPOCH_TTL_SECS);
  if bool_decide (0 <= n) then mret n else throw (ReCommand "not a u64").

Definition mark_recent_auth_inner (user_id_hash : string) (ttl : Z) : R unit :=
  _ ← connection;
  cmd_set_ex (key ns Ra user_id_hash) "1" ttl.

Definition has_recent_auth_inner (user_id_hash : string) : R bool :=
  _ ← connection;
  cmd_exists (key ns Ra user_id_hash).

(** ** Listing *)

Inductive DetailRead : Set := Listed (d : SessionDetail) | Excluded.

Definition read_detail (hash : string) (raw : option string) : DetailRead :=
  match raw with
  | None => Excluded
  | Some j =>
      match detail_from_str j with
      | Some value => Listed {| sd_session_hash := hash; sd_device := dv_device value; sd_ip := dv_ip value;
                                sd_created_at := dv_created_at value;
                                sd_last_activity_at := dv_last_activity_at value |}
      | None => Excluded
      end
  end.

Definition prune_dead_members (sess_key : string) (members : list string) : R (list string) :=
  match members with
  | [] => mret []
  | _ => Lua.session_prune_dead sess_key ns members
  end.

(** The read loop: the entries in member order, and the stale candidates. *)
Fixpoint read_entries (prefixes : KindPrefixes) (members : list string) :
    R (list SessionEntry * list string) :=
  match members with
  | [] => mret ([], [])
  | member :: rest =>
      match live_member_hash member (kp_rt prefixes) with
      | None =>
          acc ← read_entries prefixes rest;
          mret (if starts_with (prefix_as_str (kp_rp prefixes) +:+ ":") member
                then (acc.1, member :: acc.2) else acc)
      | Some hash =>
          raw ← cmd_get (key ns (kp_sd prefixes) hash);
          acc ← read_entries prefixes rest;
          mret (match read_detail hash raw with
                | Listed d => ({| se_session_hash := hash; se_detail := Some d |} :: acc.1, acc.2)
                | Excluded => ({| se_session_hash := hash; se_detail := None |} :: acc.1, member :: acc.2)
                end)
      end
  end.

Definition list_session_entries_inner (kind : SessionKind) (subject_hash : string) : R (list SessionEntry) :=
  let prefixes := kind_prefixes kind in
  let sess_key := key ns (kp_sess prefixes) subject_hash in
  _ ← connection;
  members ← cmd_smembers sess_key;
  acc ← read_entries prefixes members;
  removed ← prune_dead_members sess_key acc.2;
  mret (filter (fun entry : SessionEntry =>
                  is_Some (se_detail entry) \/
                  index_member (kp_rt prefixes) (se_session_hash entry) ∉ removed) acc.1).

End store.
