(* ===== verification/SessionSpec.v ===== *)
(** * The session-store contract

    What [SessionStore] of [crates/bymax-auth-core/src/traits/store.rs]
    promises, as an executable abstract store with a clock: typed keyspaces
    instead of string keys, records instead of JSON, and for each operation the
    outcome and the change.  [RedisRefine] proves that the Redis store
    implements it; [Lineage] proves what the contract gives the engine.

    Every entry carries its expiry; an entry past it is gone. *)

From S2P Require Import Prelude Errors Types Redis RedisSession.

(** ** State *)

Record AStore : Type := {
  a_now : Z;
  a_live : SessionKind -> string -> option (SessionRecord * Z);
  a_grace : SessionKind -> string -> option (string * SessionRecord * Z);
  a_consumed : SessionKind -> string -> option (string * Z);
  a_family : SessionKind -> string -> option (gset string * Z);
  a_index : SessionKind -> string -> option (gset string * Z);
  a_epoch : SessionKind -> string -> option (Z * Z);
  a_revoked : string -> option (unit * Z);
  a_recent : string -> option (unit * Z);
}.

(** Two abstract stores are the same when no lookup tells them apart. *)
Record astore_equiv (a b : AStore) : Prop := {
  eqv_now : a_now a = a_now b;
  eqv_live k h : a_live a k h = a_live b k h;
  eqv_grace k h : a_grace a k h = a_grace b k h;
  eqv_consumed k h : a_consumed a k h = a_consumed b k h;
  eqv_family k h : a_family a k h = a_family b k h;
  eqv_index k h : a_index a k h = a_index b k h;
  eqv_epoch k h : a_epoch a k h = a_epoch b k h;
  eqv_revoked h : a_revoked a h = a_revoked b h;
  eqv_recent h : a_recent a h = a_recent b h;
}.

#[export] Instance astore_equiv_equiv : Equiv AStore := astore_equiv.

#[export] Instance astore_equivalence : Equivalence (≡@{AStore}).
Proof.
  split.
  - by intros a.
  - intros a b []. split; intros; symmetry; auto.
  - intros a b c [] []. split; intros; etrans; eauto.
Qed.

(** ** Updates *)

Definition upd {A} (f : SessionKind -> string -> A) (k : SessionKind) (h : string) (v : A) :
    SessionKind -> string -> A :=
  fun k' h' => if decide (k = k' /\ h = h') then v else f k' h'.

Definition set_live k h v (a : AStore) : AStore := {|
  a_now := a_now a; a_live := upd (a_live a) k h v; a_grace := a_grace a;
  a_consumed := a_consumed a; a_family := a_family a; a_index := a_index a;
  a_epoch := a_epoch a; a_revoked := a_revoked a; a_recent := a_recent a |}.
Definition set_grace k h v (a : AStore) : AStore := {|
  a_now := a_now a; a_live := a_live a; a_grace := upd (a_grace a) k h v;
  a_consumed := a_consumed a; a_family := a_family a; a_index := a_index a;
  a_epoch := a_epoch a; a_revoked := a_revoked a; a_recent := a_recent a |}.
Definition set_consumed k h v (a : AStore) : AStore := {|
  a_now := a_now a; a_live := a_live a; a_grace := a_grace a;
  a_consumed := upd (a_consumed a) k h v; a_family := a_family a; a_index := a_index a;
  a_epoch := a_epoch a; a_revoked := a_revoked a; a_recent := a_recent a |}.
Definition set_family k f v (a : AStore) : AStore := {|
  a_now := a_now a; a_live := a_live a; a_grace := a_grace a;
  a_consumed := a_consumed a; a_family := upd (a_family a) k f v; a_index := a_index a;
  a_epoch := a_epoch a; a_revoked := a_revoked a; a_recent := a_recent a |}.
Definition set_index k s v (a : AStore) : AStore := {|
  a_now := a_now a; a_live := a_live a; a_grace := a_grace a;
  a_consumed := a_consumed a; a_family := a_family a; a_index := upd (a_index a) k s v;
  a_epoch := a_epoch a; a_revoked := a_revoked a; a_recent := a_recent a |}.

Definition until (ttl : Z) (a : AStore) : Z := a_now a + ttl * 1000.

(** The members of a possibly absent set. *)
Definition members_of (o : option (gset string * Z)) : gset string :=
  match o with Some (m, _) => m | None => ∅ end.

(** Add a member and re-arm the set's expiry. *)
Definition add_member (o : option (gset string * Z)) (x : string) (at_ms : Z) : option (gset string * Z) :=
  Some ({[x]} ∪ members_of o, at_ms).

(** Drop a member; a set that becomes empty is gone. *)
Definition drop_member (o : option (gset string * Z)) (x : string) : option (gset string * Z) :=
  match o with
  | None => None
  | Some (m, at_ms) => let m' := m ∖ {[x]} in
                       if bool_decide (m' = ∅) then None else Some (m', at_ms)
  end.

Definition rt_of (k : SessionKind) : Prefix := kp_rt (kind_prefixes k).
Definition rp_of (k : SessionKind) : Prefix := kp_rp (kind_prefixes k).
Definition live_member (k : SessionKind) (h : string) : string := index_member (rt_of k) h.
Definition grace_member (k : SessionKind) (h : string) : string := index_member (rp_of k) h.

(** ** Operations *)

Definition family_add (k : SessionKind) (family h : string) (at_ms : Z) (a : AStore) : AStore :=
  if string_is_empty family then a
  else set_family k family (add_member (a_family a k family) h at_ms) a.

Definition a_create (k : SessionKind) (subject h : string) (rec : SessionRecord) (ttl : Z) (a : AStore) : AStore :=
  let at_ms := until ttl a in
  family_add k (sr_family_id rec) h at_ms
    (set_index k subject (add_member (a_index a k subject) (live_member k h) at_ms)
       (set_live k h (Some (rec, at_ms)) a)).

Definition family_alive (k : SessionKind) (family : string) (a : AStore) : bool :=
  string_is_empty family || bool_decide (is_Some (a_family a k family)).

(** A recovery is written only while the account is still indexed and the
    lineage is alive. *)
Definition a_create_recovered (k : SessionKind) (subject h : string) (rec : SessionRecord) (ttl : Z)
    (a : AStore) : bool * AStore :=
  if bool_decide (is_Some (a_index a k subject)) && family_alive k (sr_family_id rec) a
  then (true, a_create k subject h rec ttl a) else (false, a).

(** The writes of a live rotation. *)
Definition a_rotated (k : SessionKind) (ro : SessionRotation) (a : AStore) : AStore :=
  let at_ms := until (ro_refresh_ttl ro) a in
  let old := ro_old_hash ro in
  let new := ro_new_hash ro in
  let rec := ro_new_record ro in
  let family := sr_family_id rec in
  let graced := bool_decide (0 < ro_grace_ttl ro) in
  let a := set_live k new (Some (rec, at_ms)) a in
  let a := if graced then set_grace k old (Some (new, rec, until (ro_grace_ttl ro) a)) a else a in
  let a := if string_is_empty family then a
           else set_family k family (add_member (drop_member (a_family a k family) old) new at_ms)
                  (set_consumed k old (Some (family, at_ms)) a) in
  let index := add_member (drop_member (a_index a k (ro_subject_hash ro)) (live_member k old))
                 (live_member k new) at_ms in
  let index := if graced then add_member index (grace_member k old) at_ms else index in
  set_live k old None (set_index k (ro_subject_hash ro) index a).

Definition a_reuse_check (k : SessionKind) (old : string) (a : AStore) : RotateOutcome :=
  match a_consumed a k old with Some (family, _) => Reused family | None => Invalid end.

Definition a_rotate (k : SessionKind) (ro : SessionRotation) (a : AStore) : RotateOutcome * AStore :=
  let old := ro_old_hash ro in
  match a_live a k old with
  | Some (rec, _) => (Rotated rec, a_rotated k ro a)
  | None =>
      match a_grace a k old with
      | Some (successor, rec, _) =>
          let a' := set_grace k old None a in
          match a_live a k successor with
          | Some _ => (if family_alive k (sr_family_id rec) a' then Grace rec else Invalid, a')
          | None => (a_reuse_check k old a', a')
          end
      | None => (a_reuse_check k old a, a)
      end
  end.

Definition a_find (k : SessionKind) (h : string) (a : AStore) : option SessionRecord :=
  match a_live a k h with Some (rec, _) => Some rec | None => None end.

Definition a_revoke (k : SessionKind) (subject h : string) (a : AStore) : bool * AStore :=
  if bool_decide (live_member k h ∈ members_of (a_index a k subject))
  then (true, set_live k h None (set_index k subject (drop_member (a_index a k subject) (live_member k h)) a))
  else (false, a).

Definition a_delete_grace (k : SessionKind) (h : string) (a : AStore) : AStore := set_grace k h None a.

(** Sign out everywhere: every key the index names goes, and the index too. *)
Definition a_revoke_all (k : SessionKind) (subject : string) (a : AStore) : AStore :=
  let m := members_of (a_index a k subject) in
  set_index k subject None
    {| a_now := a_now a;
       a_live k' h := if decide (k = k' /\ live_member k h ∈ m) then None else a_live a k' h;
       a_grace k' h := if decide (k = k' /\ grace_member k h ∈ m) then None else a_grace a k' h;
       a_consumed := a_consumed a; a_family := a_family a; a_index := a_index a;
       a_epoch := a_epoch a; a_revoked := a_revoked a; a_recent := a_recent a |}.

Definition drop_members (o : option (gset string * Z)) (xs : gset string) : option (gset string * Z) :=
  match o with
  | None => None
  | Some (m, at_ms) => let m' := m ∖ xs in
                       if bool_decide (m' = ∅) then None else Some (m', at_ms)
  end.

(** Revoke a lineage: every live member goes, is dropped from the owner's index
    when the owner is known, and the family is forgotten. *)
Definition a_revoke_family (k : SessionKind) (family : string) (owner : option string) (a : AStore) : AStore :=
  if string_is_empty family then a else
  let m := members_of (a_family a k family) in
  let a' := {| a_now := a_now a;
               a_live k' h := if decide (k = k' /\ h ∈ m) then None else a_live a k' h;
               a_grace := a_grace a; a_consumed := a_consumed a; a_family := a_family a;
               a_index := a_index a; a_epoch := a_epoch a; a_revoked := a_revoked a; a_recent := a_recent a |} in
  let a' := match owner with
            | Some s => set_index k s (drop_members (a_index a k s) (set_map (live_member k) m)) a'
            | None => a'
            end in
  set_family k family None a'.

(** Drop every recovery pointer the index names. *)
Definition a_sweep_grace (k : SessionKind) (subject : string) (a : AStore) : AStore :=
  let m := members_of (a_index a k subject) in
  let g := filter (fun x => starts_with (prefix_as_str (rp_of k) +:+ ":") x = true) m in
  set_index k subject (drop_members (a_index a k subject) g)
    {| a_now := a_now a; a_live := a_live a;
       a_grace k' h := if decide (k = k' /\ grace_member k h ∈ m) then None else a_grace a k' h;
       a_consumed := a_consumed a; a_family := a_family a; a_index := a_index a;
       a_epoch := a_epoch a; a_revoked := a_revoked a; a_recent := a_recent a |}.

Definition a_grace_successor (k : SessionKind) (h : string) (a : AStore) : option string :=
  match a_grace a k h with
  | Some (successor, _, _) => if is_hash_shape successor then Some successor else None
  | None => None
  end.

(** The account a lineage belongs to: the record of one of its live members
    that names one. *)
Definition family_owner (k : SessionKind) (family : string) (a : AStore) (o : option SessionRecord) : Prop :=
  match o with
  | Some rec => exists h t, h ∈ members_of (a_family a k family) /\ a_live a k h = Some (rec, t) /\
                  sr_user_id rec <> ""
  | None => family = "" \/ forall h rec t, h ∈ members_of (a_family a k family) ->
              a_live a k h = Some (rec, t) -> sr_user_id rec = ""
  end.

(** An index member whose entry is gone. *)
Definition dead_member (k : SessionKind) (a : AStore) (x : string) : Prop :=
  exists h, x = live_member k h /\ a_live a k h = None \/ x = grace_member k h /\ a_grace a k h = None.

(** A listing names each session the index names and no other, every live one
    among them, and prunes only members whose entry is gone. *)
Definition listing (k : SessionKind) (subject : string) (a : AStore) (es : list SessionEntry) (a' : AStore) : Prop :=
  NoDup (se_session_hash <$> es) /\
  (forall e, e ∈ es -> live_member k (se_session_hash e) ∈ members_of (a_index a k subject)) /\
  (forall h rec t, a_live a k h = Some (rec, t) -> live_member k h ∈ members_of (a_index a k subject) ->
     exists e, e ∈ es /\ se_session_hash e = h) /\
  exists pruned : gset string,
    (forall x, x ∈ pruned -> dead_member k a x) /\
    a' ≡ set_index k subject (drop_members (a_index a k subject) pruned) a.

(** ** Access tokens: the denylist, the epoch and the recent-authentication mark *)

Definition upd1 {A} (f : string -> A) (h : string) (v : A) : string -> A :=
  fun h' => if decide (h = h') then v else f h'.

Definition set_epoch k s v (a : AStore) : AStore := {|
  a_now := a_now a; a_live := a_live a; a_grace := a_grace a;
  a_consumed := a_consumed a; a_family := a_family a; a_index := a_index a;
  a_epoch := upd (a_epoch a) k s v; a_revoked := a_revoked a; a_recent := a_recent a |}.
Definition set_revoked j v (a : AStore) : AStore := {|
  a_now := a_now a; a_live := a_live a; a_grace := a_grace a;
  a_consumed := a_consumed a; a_family := a_family a; a_index := a_index a;
  a_epoch := a_epoch a; a_revoked := upd1 (a_revoked a) j v; a_recent := a_recent a |}.
Definition set_recent u v (a : AStore) : AStore := {|
  a_now := a_now a; a_live := a_live a; a_grace := a_grace a;
  a_consumed := a_consumed a; a_family := a_family a; a_index := a_index a;
  a_epoch := a_epoch a; a_revoked := a_revoked a; a_recent := upd1 (a_recent a) u v |}.

(** The epoch of an account nobody bumped is zero. *)
Definition a_current_epoch (k : SessionKind) (subject : string) (a : AStore) : Z :=
  match a_epoch a k subject with Some (n, _) => n | None => 0 end.

Definition a_bump_epoch (k : SessionKind) (subject : string) (a : AStore) : Z * AStore :=
  let n := a_current_epoch k subject a + 1 in
  (n, set_epoch k subject (Some (n, until TOKEN_EPOCH_RETENTION_SECS a)) a).

Definition a_blacklist (j : string) (ttl : Z) (a : AStore) : AStore :=
  if bool_decide (ttl = 0) then a else set_revoked j (Some (tt, until ttl a)) a.

Definition a_is_blacklisted (j : string) (a : AStore) : bool := bool_decide (is_Some (a_revoked a j)).

Definition a_mark_recent (u : string) (ttl : Z) (a : AStore) : AStore :=
  set_recent u (Some (tt, until ttl a)) a.

Definition a_has_recent (u : string) (a : AStore) : bool := bool_decide (is_Some (a_recent a u)).

(** Time passing: entries past their expiry disappear. *)
Definition survives {A} (now : Z) (o : option (A * Z)) : option (A * Z) :=
  match o with Some (x, at_ms) => if bool_decide (at_ms < now) then None else Some (x, at_ms) | None => None end.

Definition a_advance (ms : Z) (a : AStore) : AStore :=
  let now := a_now a + Z.max 0 ms in
  {| a_now := now;
     a_live k h := survives now (a_live a k h);
     a_grace k h := survives now (a_grace a k h);
     a_consumed k h := survives now (a_consumed a k h);
     a_family k f := survives now (a_family a k f);
     a_index k s := survives now (a_index a k s);
     a_epoch k s := survives now (a_epoch a k s);
     a_revoked j := survives now (a_revoked a j);
     a_recent u := survives now (a_recent a u) |}.

(** * The contract respects observational equality

    Every operation of [SessionSpec] gives equal answers and equivalent stores
    on stores no lookup tells apart, so a client may rewrite with [≡]. *)

Ltac by_fields H :=
  destruct H as [En El Eg Ec Ef Ei Ee Er Ea];
  split; intros; cbn; unfold upd, upd1, until in *; repeat case_decide;
  by rewrite ?En, ?El, ?Eg, ?Ec, ?Ef, ?Ei, ?Ee, ?Er, ?Ea.

#[export] Instance set_live_proper k h v : Proper ((≡) ==> (≡)) (set_live k h v).
Proof. intros a b H. by_fields H. Qed.
#[export] Instance set_grace_proper k h v : Proper ((≡) ==> (≡)) (set_grace k h v).
Proof. intros a b H. by_fields H. Qed.
#[export] Instance set_consumed_proper k h v : Proper ((≡) ==> (≡)) (set_consumed k h v).
Proof. intros a b H. by_fields H. Qed.
#[export] Instance set_family_proper k h v : Proper ((≡) ==> (≡)) (set_family k h v).
Proof. intros a b H. by_fields H. Qed.
#[export] Instance set_index_proper k h v : Proper ((≡) ==> (≡)) (set_index k h v).
Proof. intros a b H. by_fields H. Qed.
#[export] Instance set_epoch_proper k h v : Proper ((≡) ==> (≡)) (set_epoch k h v).
Proof. intros a b H. by_fields H. Qed.
#[export] Instance set_revoked_proper h v : Proper ((≡) ==> (≡)) (set_revoked h v).
Proof. intros a b H. by_fields H. Qed.
#[export] Instance set_recent_proper h v : Proper ((≡) ==> (≡)) (set_recent h v).
Proof. intros a b H. by_fields H. Qed.

#[export] Instance until_proper ttl : Proper ((≡) ==> (=)) (until ttl).
Proof. intros a b []. unfold until. congruence. Qed.

#[export] Instance family_alive_proper k f : Proper ((≡) ==> (=)) (family_alive k f).
Proof. intros a b H. unfold family_alive. by rewrite (eqv_family a b H). Qed.

#[export] Instance family_add_proper k f h t : Proper ((≡) ==> (≡)) (family_add k f h t).
Proof.
  intros a b H. unfold family_add. case_match; [done|].
  rewrite (eqv_family a b H). by apply set_family_proper.
Qed.

#[export] Instance a_create_proper k s h rec ttl : Proper ((≡) ==> (≡)) (a_create k s h rec ttl).
Proof.
  intros a b H. unfold a_create. cbv zeta. rewrite (until_proper ttl a b H), (eqv_index a b H).
  by apply family_add_proper, set_index_proper, set_live_proper.
Qed.

Lemma a_create_recovered_equiv k s h rec ttl (a b : AStore) : a ≡ b ->
  (a_create_recovered k s h rec ttl a).1 = (a_create_recovered k s h rec ttl b).1 /\
  (a_create_recovered k s h rec ttl a).2 ≡ (a_create_recovered k s h rec ttl b).2.
Proof.
  intros H. unfold a_create_recovered. rewrite (eqv_index a b H), (family_alive_proper k _ a b H).
  case_match; simpl; [|done]. split; [done|]. by apply a_create_proper.
Qed.

Lemma a_rotated_equiv k ro (a b : AStore) : a ≡ b -> a_rotated k ro a ≡ a_rotated k ro b.
Proof.
  intros H. pose proof (eqv_now a b H) as En. unfold a_rotated. cbv zeta.
  destruct (bool_decide (0 < ro_grace_ttl ro)), (string_is_empty (sr_family_id (ro_new_record ro)));
    cbn; unfold until; cbn; rewrite ?En, ?(eqv_index a b H), ?(eqv_family a b H);
    repeat first [apply set_live_proper | apply set_index_proper | apply set_family_proper
                 | apply set_consumed_proper | apply set_grace_proper]; exact H.
Qed.

Lemma a_rotate_equiv k ro (a b : AStore) : a ≡ b ->
  (a_rotate k ro a).1 = (a_rotate k ro b).1 /\ (a_rotate k ro a).2 ≡ (a_rotate k ro b).2.
Proof.
  intros H. unfold a_rotate, a_reuse_check. cbv zeta.
  rewrite (eqv_live a b H), (eqv_grace a b H), (eqv_consumed a b H).
  destruct (a_live b k (ro_old_hash ro)) as [[rec t]|]; [split; [done | by apply a_rotated_equiv]|].
  destruct (a_grace b k (ro_old_hash ro)) as [[[s rec] t]|]; [|done].
  assert (Hg : set_grace k (ro_old_hash ro) None a ≡ set_grace k (ro_old_hash ro) None b) by by apply set_grace_proper.
  rewrite (eqv_live a b H), (family_alive_proper k _ _ _ Hg). case_match; simpl; [done|].
  by rewrite (eqv_consumed a b H).
Qed.

#[export] Instance a_find_proper k h : Proper ((≡) ==> (=)) (a_find k h).
Proof. intros a b H. unfold a_find. by rewrite (eqv_live a b H). Qed.
#[export] Instance a_current_epoch_proper k s : Proper ((≡) ==> (=)) (a_current_epoch k s).
Proof. intros a b H. unfold a_current_epoch. by rewrite (eqv_epoch a b H). Qed.
#[export] Instance a_is_blacklisted_proper j : Proper ((≡) ==> (=)) (a_is_blacklisted j).
Proof. intros a b H. unfold a_is_blacklisted. by rewrite (eqv_revoked a b H). Qed.
#[export] Instance a_has_recent_proper u : Proper ((≡) ==> (=)) (a_has_recent u).
Proof. intros a b H. unfold a_has_recent. by rewrite (eqv_recent a b H). Qed.
#[export] Instance a_grace_successor_proper k h : Proper ((≡) ==> (=)) (a_grace_successor k h).
Proof. intros a b H. unfold a_grace_successor. by rewrite (eqv_grace a b H). Qed.

#[export] Instance a_mark_recent_proper u ttl : Proper ((≡) ==> (≡)) (a_mark_recent u ttl).
Proof. intros a b H. unfold a_mark_recent. rewrite (until_proper ttl a b H). by apply set_recent_proper. Qed.
#[export] Instance a_blacklist_proper j ttl : Proper ((≡) ==> (≡)) (a_blacklist j ttl).
Proof.
  intros a b H. unfold a_blacklist. case_match; [done|]. rewrite (until_proper ttl a b H). by apply set_revoked_proper.
Qed.

Lemma a_bump_epoch_equiv k s (a b : AStore) : a ≡ b ->
  (a_bump_epoch k s a).1 = (a_bump_epoch k s b).1 /\ (a_bump_epoch k s a).2 ≡ (a_bump_epoch k s b).2.
Proof.
  intros H. unfold a_bump_epoch. cbv zeta. cbn [fst snd].
  rewrite (a_current_epoch_proper k s a b H), (until_proper _ a b H). split; [done|]. by apply set_epoch_proper.
Qed.

Lemma a_revoke_equiv k s h (a b : AStore) : a ≡ b ->
  (a_revoke k s h a).1 = (a_revoke k s h b).1 /\ (a_revoke k s h a).2 ≡ (a_revoke k s h b).2.
Proof.
  intros H. unfold a_revoke. rewrite (eqv_index a b H). case_match; [|done]. simpl. split; [done|].
  by apply set_live_proper, set_index_proper.
Qed.

#[export] Instance a_delete_grace_proper k h : Proper ((≡) ==> (≡)) (a_delete_grace k h).
Proof. intros a b H. by apply set_grace_proper. Qed.

#[export] Instance a_revoke_all_proper k s : Proper ((≡) ==> (≡)) (a_revoke_all k s).
Proof. intros a b H. unfold a_revoke_all. rewrite (eqv_index a b H). apply set_index_proper. by_fields H. Qed.

#[export] Instance a_sweep_grace_proper k s : Proper ((≡) ==> (≡)) (a_sweep_grace k s).
Proof. intros a b H. unfold a_sweep_grace. rewrite (eqv_index a b H). apply set_index_proper. by_fields H. Qed.

#[export] Instance a_revoke_family_proper k f o : Proper ((≡) ==> (≡)) (a_revoke_family k f o).
Proof.
  intros a b H. unfold a_revoke_family. cbv zeta. destruct (string_is_empty f); [done|].
  rewrite (eqv_family a b H). apply set_family_proper. destruct o as [s|]; [|by_fields H].
  rewrite (eqv_index a b H). apply set_index_proper. by_fields H.
Qed.

Lemma family_owner_equiv k f (a b : AStore) o : a ≡ b -> family_owner k f a o -> family_owner k f b o.
Proof.
  intros H. unfold family_owner. destruct o as [rec|].
  - intros (h & t & Hh & Hl & Hu). exists h, t. by rewrite <-(eqv_family a b H), <-(eqv_live a b H).
  - intros [?|Ho]; [by left | right]. intros h rec t. rewrite <-(eqv_family a b H), <-(eqv_live a b H). apply Ho.
Qed.
