(* ===== verification/RedisRefine.v ===== *)
(** * The Redis store implements the session contract

    The representation: which typed entry each keyspace holds ([typed], [armed])
    and the abstract store a database stands for ([abs]).  Each operation of
    [RedisSession] run on a well-formed database answers what [SessionSpec] says
    and leaves a well-formed database standing for the abstract result. *)

From S2P Require Import Prelude Errors Types Redis RedisSession SessionSpec.

Section refine.
Context `{SessionJsonLaws} (ns : string).

(** What a command sees in one typed keyspace. *)
Definition ent (r : Redis) (p : Prefix) (h : string) : option rentry := rlookup r (key ns p h).

(** ** Well-formed databases *)

Definition ok_record (e : rentry) : Prop :=
  exists rec j, re_value e = RStr j /\ record_to_string rec = Some j.

Definition ok_pointer (e : rentry) : Prop :=
  exists successor rec j, re_value e = RStr (successor +:+ ":" +:+ j) /\
    contains_char ":" successor = false /\ record_to_string rec = Some j.

Definition ok_string (e : rentry) : Prop := exists s, re_value e = RStr s.

Definition ok_members (e : rentry) : Prop := exists m, re_value e = RSet m /\ m <> ∅.

Definition ok_index (k : SessionKind) (e : rentry) : Prop :=
  exists m, re_value e = RSet m /\ m <> ∅ /\
    forall x, x ∈ m -> exists h, x = live_member k h \/ x = grace_member k h.

Definition ok_epoch (e : rentry) : Prop :=
  exists n, re_value e = RStr (z_to_string n) /\ 0 <= n <= i64_max.

(** The value each keyspace of the session store holds. *)
Definition ok_entry (p : Prefix) (e : rentry) : Prop :=
  match p with
  | Rt | Prt => ok_record e
  | Rp | Prp => ok_pointer e
  | Cf | Pcf | Sd | Psd | Rv | Ra | Mfa => ok_string e
  | Fam | Pfam => ok_members e
  | Sess => ok_index SkDashboard e
  | Psess => ok_index SkPlatform e
  | Ep | Pep => ok_epoch e
  | _ => True
  end.

Definition typed (r : Redis) : Prop := forall p h e, ent r p h = Some e -> ok_entry p e.

(** Nothing of the session store lives forever. *)
Definition expires (p : Prefix) : bool :=
  match p with
  | Rt | Prt | Rp | Prp | Cf | Pcf | Fam | Pfam | Sess | Psess | Ep | Pep | Rv | Ra => true
  | _ => false
  end.

Definition armed (r : Redis) : Prop :=
  forall p h e, expires p = true -> ent r p h = Some e -> is_Some (re_expire e).

Definition wf (r : Redis) : Prop := typed r /\ armed r.

(** ** The abstract store a database stands for *)

Definition dec_live (o : option rentry) : option (SessionRecord * Z) :=
  match o with
  | Some {| re_value := RStr j; re_expire := Some at_ms |} =>
      match record_from_str j with Some rec => Some (rec, at_ms) | None => None end
  | _ => None
  end.

Definition dec_grace (o : option rentry) : option (string * SessionRecord * Z) :=
  match o with
  | Some {| re_value := RStr p; re_expire := Some at_ms |} =>
      match split_once ":" p with
      | Some (successor, j) =>
          match record_from_str j with Some rec => Some (successor, rec, at_ms) | None => None end
      | None => None
      end
  | _ => None
  end.

Definition dec_string (o : option rentry) : option (string * Z) :=
  match o with Some {| re_value := RStr s; re_expire := Some at_ms |} => Some (s, at_ms) | _ => None end.

Definition dec_set (o : option rentry) : option (gset string * Z) :=
  match o with Some {| re_value := RSet m; re_expire := Some at_ms |} => Some (m, at_ms) | _ => None end.

Definition dec_epoch (o : option rentry) : option (Z * Z) :=
  match o with
  | Some {| re_value := RStr s; re_expire := Some at_ms |} =>
      match string_to_z s with Some n => Some (n, at_ms) | None => None end
  | _ => None
  end.

Definition dec_mark (o : option rentry) : option (unit * Z) :=
  match o with Some {| re_expire := Some at_ms |} => Some (tt, at_ms) | _ => None end.

Definition cf_of (k : SessionKind) : Prefix := kp_cf (kind_prefixes k).
Definition fam_of (k : SessionKind) : Prefix := kp_fam (kind_prefixes k).
Definition sess_of (k : SessionKind) : Prefix := kp_sess (kind_prefixes k).
Definition sd_of (k : SessionKind) : Prefix := kp_sd (kind_prefixes k).

Definition abs (r : Redis) : AStore := {|
  a_now := r_now r;
  a_live k h := dec_live (ent r (rt_of k) h);
  a_grace k h := dec_grace (ent r (rp_of k) h);
  a_consumed k h := dec_string (ent r (cf_of k) h);
  a_family k f := dec_set (ent r (fam_of k) f);
  a_index k s := dec_set (ent r (sess_of k) s);
  a_epoch k s := dec_epoch (ent r (epoch_prefix k) s);
  a_revoked j := dec_mark (ent r Rv j);
  a_recent u := dec_mark (ent r Ra u);
|}.

(** ** One command at a time

    [becomes r r' f]: [r'] differs from [r] only in the entries [f] gives. *)

Definition overlay (p : Prefix) (h : string) (o : option rentry) (g : Prefix -> string -> option rentry)
    (p' : Prefix) (h' : string) : option rentry :=
  if decide (p = p' /\ h = h') then o else g p' h'.

Record becomes (r r' : Redis) (g : Prefix -> string -> option rentry) : Prop := {
  b_now : r_now r' = r_now r;
  b_pool : r_pool r' = r_pool r;
  b_ent p h : ent r' p h = g p h;
}.

Lemma becomes_refl (r : Redis) : becomes r r (ent r).
Proof. by split. Qed.

Lemma becomes_trans (r r1 r2 : Redis) (g g' : Prefix -> string -> option rentry) :
  becomes r r1 g -> becomes r1 r2 g' -> becomes r r2 g'.
Proof. intros [] []. split; intros; congruence. Qed.

Lemma ent_put (r : Redis) (p : Prefix) (h : string) (v : rvalue) (x : option Z) :
  expired x (r_now r) = false ->
  becomes r (put (key ns p h) v x r) (overlay p h (Some {| re_value := v; re_expire := x |}) (ent r)).
Proof.
  intros Hx. split; [done..|]. intros p' h'. unfold ent, overlay, rlookup, put. simpl.
  rewrite lookup_insert. case_decide as Hk.
  - apply key_inj in Hk as [-> ->]. rewrite decide_True by done. simpl. by rewrite Hx.
  - rewrite decide_False; [done|]. by intros [-> ->].
Qed.

Lemma ent_remove (r : Redis) (p : Prefix) (h : string) :
  becomes r (remove (key ns p h) r) (overlay p h None (ent r)).
Proof.
  split; [done..|]. intros p' h'. unfold ent, overlay, rlookup, remove. simpl.
  rewrite lookup_delete. case_decide as Hk.
  - apply key_inj in Hk as [-> ->]. by rewrite decide_True.
  - rewrite decide_False; [done|]. by intros [-> ->].
Qed.

Lemma ent_alive (r : Redis) (p : Prefix) (h : string) (e : rentry) :
  ent r p h = Some e -> expired (re_expire e) (r_now r) = false.
Proof. unfold ent, rlookup. repeat case_match; naive_solver. Qed.

Lemma fresh_alive (r : Redis) (ttl : Z) : 0 < ttl -> expired (Some (r_now r + ttl * 1000)) (r_now r) = false.
Proof. intros. simpl. by rewrite bool_decide_eq_false_2 by lia. Qed.

Lemma typed_becomes (r r' : Redis) (p : Prefix) (h : string) (o : option rentry) :
  typed r -> becomes r r' (overlay p h o (ent r)) ->
  (forall e, o = Some e -> ok_entry p e) -> typed r'.
Proof.
  intros Ht Hb Ho p' h' e He. rewrite (b_ent _ _ _ Hb) in He. unfold overlay in He.
  case_decide as Hk; [destruct Hk as [-> ->]; by apply Ho | by eapply Ht].
Qed.

(** The set under a key, and what its updates leave. *)
Definition set_at (o : option rentry) : gset string :=
  match o with Some {| re_value := RSet m |} => m | _ => ∅ end.
Definition expire_at (o : option rentry) : option Z :=
  match o with Some e => re_expire e | None => None end.

Definition after_sadd (o : option rentry) (x : string) : option rentry :=
  Some {| re_value := RSet ({[x]} ∪ set_at o); re_expire := expire_at o |}.

Definition after_srem (o : option rentry) (x : string) : option rentry :=
  match o with
  | None => None
  | Some e => if bool_decide (set_at o ∖ {[x]} = ∅) then None
              else Some {| re_value := RSet (set_at o ∖ {[x]}); re_expire := re_expire e |}
  end.

Definition after_expire (o : option rentry) (at_ms : Z) : option rentry :=
  match o with Some e => Some {| re_value := re_value e; re_expire := Some at_ms |} | None => None end.

(** The keyspaces that hold sets. *)
Definition holds_set (p : Prefix) : bool :=
  match p with Fam | Pfam | Sess | Psess => true | _ => false end.

Lemma typed_set (r : Redis) (p : Prefix) (h : string) (e : rentry) :
  typed r -> holds_set p = true -> ent r p h = Some e ->
  exists m, e = {| re_value := RSet m; re_expire := re_expire e |} /\ m <> ∅.
Proof.
  intros Ht Hp He. specialize (Ht p h e He).
  destruct p; simplify_eq/=; destruct Ht as (m & Hm & Hne); destruct e; simpl in *; subst; naive_solver.
Qed.

Lemma set_ex_spec (r : Redis) (p : Prefix) (h v : string) (ttl : Z) :
  0 < ttl ->
  exists r', cmd_set_ex (key ns p h) v ttl r = (Ok tt, r') /\
    becomes r r' (overlay p h (Some {| re_value := RStr v; re_expire := Some (r_now r + ttl * 1000) |}) (ent r)).
Proof.
  intros Ht. unfold cmd_set_ex. rewrite bool_decide_eq_false_2 by lia. eexists; split; [done|].
  by apply ent_put, fresh_alive.
Qed.

Lemma del_spec (r : Redis) (p : Prefix) (h : string) :
  exists r' n, cmd_del (key ns p h) r = (Ok n, r') /\ becomes r r' (overlay p h None (ent r)) /\
    (n = 1 <-> is_Some (ent r p h)).
Proof.
  unfold cmd_del, view, ent. do 2 eexists. split; [done|]. split; [apply ent_remove|].
  destruct (rlookup r (key ns p h)); split; naive_solver.
Qed.

Lemma expire_spec (r : Redis) (p : Prefix) (h : string) (ttl : Z) :
  0 < ttl ->
  exists r', cmd_expire (key ns p h) ttl r = (Ok tt, r') /\
    becomes r r' (overlay p h (after_expire (ent r p h) (r_now r + ttl * 1000)) (ent r)).
Proof.
  intros Ht. unfold cmd_expire. fold (ent r p h). destruct (ent r p h) as [e|] eqn:E.
  - rewrite bool_decide_eq_false_2 by lia. eexists; split; [done|]. by apply ent_put, fresh_alive.
  - eexists; split; [done|]. split; [done..|]. intros p' h'. unfold overlay. simpl.
    case_decide as Hk; [destruct Hk as [-> ->]; done | done].
Qed.

Lemma sadd_spec (r : Redis) (p : Prefix) (h x : string) :
  typed r -> holds_set p = true ->
  exists r', cmd_sadd (key ns p h) x r = (Ok tt, r') /\
    becomes r r' (overlay p h (after_sadd (ent r p h) x) (ent r)).
Proof.
  intros Ht Hp. unfold cmd_sadd, after_sadd. fold (ent r p h). destruct (ent r p h) as [e|] eqn:E.
  - destruct (typed_set r p h e Ht Hp E) as (m & -> & _). simpl. eexists; split; [done|].
    apply ent_put. by apply (ent_alive r p h) in E.
  - simpl. rewrite (right_id_L ∅ (∪)). eexists; split; [done|]. by apply ent_put.
Qed.

Lemma srem_spec (r : Redis) (p : Prefix) (h x : string) :
  typed r -> holds_set p = true ->
  exists r', cmd_srem (key ns p h) x r = (Ok tt, r') /\
    becomes r r' (overlay p h (after_srem (ent r p h) x) (ent r)).
Proof.
  intros Ht Hp. unfold cmd_srem, after_srem. fold (ent r p h). destruct (ent r p h) as [e|] eqn:E.
  - destruct (typed_set r p h e Ht Hp E) as (m & -> & _). simpl. cbv zeta.
    case_bool_decide; (eexists; split; [done|]); [apply ent_remove|].
    apply ent_put. by apply (ent_alive r p h) in E.
  - eexists; split; [done|]. split; [done..|]. intros p' h'. unfold overlay.
    case_decide as Hk; [destruct Hk as [-> ->]; done | done].
Qed.

(** ** Types are preserved *)

(** A set keyspace keeps its type through any change of members that stays
    within the admissible ones. *)
Lemma ok_entry_set (p : Prefix) (m : gset string) (x : option Z) :
  holds_set p = true -> m <> ∅ ->
  (forall k y, p = sess_of k -> y ∈ m -> exists t, y = live_member k t \/ y = grace_member k t) ->
  ok_entry p {| re_value := RSet m; re_expire := x |}.
Proof.
  intros Hp Hm Hin. destruct p; try done; exists m; (split; [done|]); try done.
  - split; [done|]. intros y Hy. by apply (Hin SkDashboard).
  - split; [done|]. intros y Hy. by apply (Hin SkPlatform).
Qed.

Lemma set_at_ok (r : Redis) (p : Prefix) (h : string) (k : SessionKind) (y : string) :
  typed r -> p = sess_of k -> y ∈ set_at (ent r p h) ->
  exists t, y = live_member k t \/ y = grace_member k t.
Proof.
  intros Ht -> Hy. destruct (ent r (sess_of k) h) as [e|] eqn:E; [|set_solver].
  specialize (Ht _ _ _ E). destruct k, Ht as (m & Hm & _ & Hin), e as [v ?]; simpl in *; subst v; eauto.
Qed.

Lemma typed_sadd (r r' : Redis) (p : Prefix) (h x : string) :
  typed r -> holds_set p = true ->
  (forall k, p = sess_of k -> exists t, x = live_member k t \/ x = grace_member k t) ->
  becomes r r' (overlay p h (after_sadd (ent r p h) x) (ent r)) -> typed r'.
Proof.
  intros Ht Hp Hx Hb. eapply typed_becomes; [done..|]. intros e [= <-].
  apply ok_entry_set; [done | set_solver |].
  intros k y Hk [->%elem_of_singleton|Hy]%elem_of_union; [by apply Hx | by eapply set_at_ok].
Qed.

Lemma typed_srem (r r' : Redis) (p : Prefix) (h x : string) :
  typed r -> holds_set p = true ->
  becomes r r' (overlay p h (after_srem (ent r p h) x) (ent r)) -> typed r'.
Proof.
  intros Ht Hp Hb. eapply typed_becomes; [done..|]. intros e He. unfold after_srem in He.
  destruct (ent r p h) as [e0|] eqn:E; [|done]. rewrite <-E in He.
  case_bool_decide as Hm; simplify_eq. apply ok_entry_set; [done..|].
  intros k y Hk [Hy _]%elem_of_difference. by eapply set_at_ok.
Qed.

Lemma ok_entry_value (p : Prefix) (v : rvalue) (x x' : option Z) :
  ok_entry p {| re_value := v; re_expire := x |} -> ok_entry p {| re_value := v; re_expire := x' |}.
Proof. by destruct p. Qed.

Lemma typed_expire (r r' : Redis) (p : Prefix) (h : string) (at_ms : Z) :
  typed r -> becomes r r' (overlay p h (after_expire (ent r p h) at_ms) (ent r)) -> typed r'.
Proof.
  intros Ht Hb. eapply typed_becomes; [done..|]. intros e He.
  destruct (ent r p h) as [[v x]|] eqn:E; simplify_eq/=. by eapply ok_entry_value, (Ht p h).
Qed.

Lemma typed_del (r r' : Redis) (p : Prefix) (h : string) :
  typed r -> becomes r r' (overlay p h None (ent r)) -> typed r'.
Proof. intros Ht Hb. by eapply typed_becomes. Qed.

(** ** Sets, concretely and abstractly *)

Lemma set_at_members (r : Redis) (p : Prefix) (h : string) :
  typed r -> armed r -> holds_set p = true -> expires p = true ->
  set_at (ent r p h) = members_of (dec_set (ent r p h)).
Proof.
  intros Ht Ha Hp Hx. destruct (ent r p h) as [e|] eqn:E; [|done].
  destruct (typed_set r p h e Ht Hp E) as (m & He & _). destruct (Ha p h e Hx E) as [t Hexp].
  rewrite He, Hexp. done.
Qed.

Lemma dec_add (o : option rentry) (x : string) (at_ms : Z) :
  dec_set (after_expire (after_sadd o x) at_ms) = Some ({[x]} ∪ set_at o, at_ms).
Proof. done. Qed.

Lemma dec_srem (r : Redis) (p : Prefix) (h x : string) :
  typed r -> armed r -> holds_set p = true -> expires p = true ->
  dec_set (after_srem (ent r p h) x) = drop_member (dec_set (ent r p h)) x /\
  set_at (after_srem (ent r p h) x) = members_of (drop_member (dec_set (ent r p h)) x).
Proof.
  intros Ht Ha Hp Hx. destruct (ent r p h) as [e|] eqn:E; [|done].
  destruct (typed_set r p h e Ht Hp E) as (m & He & _). destruct (Ha p h e Hx E) as [t Hexp].
  rewrite He, Hexp. simpl. by case_bool_decide.
Qed.

(** ** Chaining *)

Lemma overlay_ne (p p' : Prefix) (h h' : string) (o : option rentry) (g : Prefix -> string -> option rentry) :
  p <> p' -> overlay p h o g p' h' = g p' h'.
Proof. intros Hp. unfold overlay. by rewrite decide_False by naive_solver. Qed.

Lemma overlay_at (p : Prefix) (h h' : string) (o : option rentry) (g : Prefix -> string -> option rentry) :
  overlay p h o g p h' = if decide (h = h') then o else g p h'.
Proof. unfold overlay. repeat case_decide; naive_solver. Qed.

Lemma upd_ne {A} (f : SessionKind -> string -> A) (k k' : SessionKind) (h h' : string) (v : A) :
  k <> k' -> upd f k h v k' h' = f k' h'.
Proof. intros. unfold upd. by rewrite decide_False by naive_solver. Qed.

Lemma upd_at {A} (f : SessionKind -> string -> A) (k : SessionKind) (h h' : string) (v : A) :
  upd f k h v k h' = if decide (h = h') then v else f k h'.
Proof. unfold upd. repeat case_decide; naive_solver. Qed.

(** ** Total correctness of a Redis computation

    [wp m Q r]: run on [r], [m] answers without an error and [Q] holds of the
    answer and the database it leaves. *)

Definition wp {A} (m : R A) (Q : A -> Redis -> Prop) (r : Redis) : Prop :=
  match m r with (Ok a, r') => Q a r' | (Err _, _) => False end.

Lemma wp_ret {A} (a : A) (Q : A -> Redis -> Prop) (r : Redis) : Q a r -> wp (mret a) Q r.
Proof. done. Qed.

Lemma wp_bind {A B} (m : R A) (f : A -> R B) (Q : B -> Redis -> Prop) (r : Redis) :
  wp m (fun a r' => wp (f a) Q r') r -> wp (m ≫= f) Q r.
Proof. unfold wp, mbind, M_bind. by destruct (m r) as [[a|e] r']. Qed.

Lemma wp_fmap {A B} (m : R A) (f : A -> B) (Q : B -> Redis -> Prop) (r : Redis) :
  wp m (fun a r' => Q (f a) r') r -> wp (f <$> m) Q r.
Proof. unfold wp, fmap, M_fmap. by destruct (m r) as [[a|e] r']. Qed.

Lemma wp_mono {A} (m : R A) (Q Q' : A -> Redis -> Prop) (r : Redis) :
  wp m Q r -> (forall a r', Q a r' -> Q' a r') -> wp m Q' r.
Proof. unfold wp. destruct (m r) as [[a|e] r']; auto. Qed.

Lemma wp_multi_nil (Q : unit -> Redis -> Prop) (r : Redis) : Q tt r -> wp (multi []) Q r.
Proof. done. Qed.

Lemma wp_multi_cons (cmd : R unit) (rest : list (R unit)) (Q : unit -> Redis -> Prop) (r : Redis) :
  wp cmd (fun _ r' => wp (multi rest) Q r') r -> wp (multi (cmd :: rest)) Q r.
Proof. unfold wp. simpl. destruct (cmd r) as [[[]|e] r']; [|done]. by destruct (multi rest r'). Qed.

Lemma wp_ignore {A} (m : R A) (Q : unit -> Redis -> Prop) (r : Redis) :
  wp m (fun _ r' => Q tt r') r -> wp (ignore m) Q r.
Proof. unfold wp, ignore. by destruct (m r) as [[a|e] r']. Qed.

Lemma wp_connection (Q : unit -> Redis -> Prop) (r : Redis) :
  r_pool r = [] -> Q tt r -> wp connection Q r.
Proof. unfold wp, connection. by intros ->. Qed.

Lemma wp_decoded {A} (o : option A) (a : A) (Q : A -> Redis -> Prop) (r : Redis) :
  o = Some a -> Q a r -> wp (decoded o) Q r.
Proof. by intros ->. Qed.

Lemma wp_lift {A} (x : result RedisStoreError A) (a : A) (Q : A -> Redis -> Prop) (r : Redis) :
  x = Ok a -> Q a r -> wp (lift x) Q r.
Proof. by intros ->. Qed.

Lemma wp_set_ex (r : Redis) (p : Prefix) (h v : string) (ttl : Z) (Q : unit -> Redis -> Prop) :
  0 < ttl -> typed r ->
  ok_entry p {| re_value := RStr v; re_expire := Some (r_now r + ttl * 1000) |} ->
  (forall r', typed r' ->
     becomes r r' (overlay p h (Some {| re_value := RStr v; re_expire := Some (r_now r + ttl * 1000) |}) (ent r)) ->
     Q tt r') ->
  wp (cmd_set_ex (key ns p h) v ttl) Q r.
Proof.
  intros Hx Ht Ho HQ. destruct (set_ex_spec r p h v ttl Hx) as (r' & Hrun & Hb).
  unfold wp. rewrite Hrun. apply HQ; [|done]. eapply typed_becomes; [done..|]. by intros e [= <-].
Qed.

Lemma wp_del (r : Redis) (p : Prefix) (h : string) (Q : Z -> Redis -> Prop) :
  typed r -> (forall n r', typed r' -> becomes r r' (overlay p h None (ent r)) -> Q n r') ->
  wp (cmd_del (key ns p h)) Q r.
Proof.
  intros Ht HQ. destruct (del_spec r p h) as (r' & n & Hrun & Hb & _).
  unfold wp. rewrite Hrun. apply HQ; [|done]. by eapply typed_del.
Qed.

Lemma wp_expire (r : Redis) (p : Prefix) (h : string) (ttl : Z) (Q : unit -> Redis -> Prop) :
  0 < ttl -> typed r ->
  (forall r', typed r' ->
     becomes r r' (overlay p h (after_expire (ent r p h) (r_now r + ttl * 1000)) (ent r)) -> Q tt r') ->
  wp (cmd_expire (key ns p h) ttl) Q r.
Proof.
  intros Hx Ht HQ. destruct (expire_spec r p h ttl Hx) as (r' & Hrun & Hb).
  unfold wp. rewrite Hrun. apply HQ; [|done]. by eapply typed_expire.
Qed.

Lemma wp_sadd (r : Redis) (p : Prefix) (h x : string) (Q : unit -> Redis -> Prop) :
  typed r -> holds_set p = true ->
  (forall k, p = sess_of k -> exists t, x = live_member k t \/ x = grace_member k t) ->
  (forall r', typed r' -> becomes r r' (overlay p h (after_sadd (ent r p h) x) (ent r)) -> Q tt r') ->
  wp (cmd_sadd (key ns p h) x) Q r.
Proof.
  intros Ht Hp Hx HQ. destruct (sadd_spec r p h x Ht Hp) as (r' & Hrun & Hb).
  unfold wp. rewrite Hrun. apply HQ; [|done]. by eapply typed_sadd.
Qed.

Lemma wp_srem (r : Redis) (p : Prefix) (h x : string) (Q : unit -> Redis -> Prop) :
  typed r -> holds_set p = true ->
  (forall r', typed r' -> becomes r r' (overlay p h (after_srem (ent r p h) x) (ent r)) -> Q tt r') ->
  wp (cmd_srem (key ns p h) x) Q r.
Proof.
  intros Ht Hp HQ. destruct (srem_spec r p h x Ht Hp) as (r' & Hrun & Hb).
  unfold wp. rewrite Hrun. apply HQ; [|done]. by eapply typed_srem.
Qed.

Lemma wp_exists (r : Redis) (p : Prefix) (h : string) (Q : bool -> Redis -> Prop) :
  Q (bool_decide (is_Some (ent r p h))) r -> wp (cmd_exists (key ns p h)) Q r.
Proof.
  unfold wp, cmd_exists, view. fold (ent r p h). by destruct (ent r p h).
Qed.

Lemma wp_get (r : Redis) (p : Prefix) (h : string) (Q : option string -> Redis -> Prop) :
  (forall v, view r (key ns p h) = Some v -> exists s, v = RStr s) ->
  (forall s x, ent r p h = Some {| re_value := RStr s; re_expire := x |} -> Q (Some s) r) ->
  (ent r p h = None -> Q None r) ->
  wp (cmd_get (key ns p h)) Q r.
Proof.
  unfold wp, cmd_get, view. fold (ent r p h). intros Hs HS HN.
  destruct (ent r p h) as [[v x]|]; simpl in *; [|by apply HN].
  destruct (Hs v eq_refl) as [s ->]. by eapply HS.
Qed.

Lemma wp_get_some (r : Redis) (p : Prefix) (h s : string) (x : option Z) (Q : option string -> Redis -> Prop) :
  ent r p h = Some {| re_value := RStr s; re_expire := x |} -> Q (Some s) r ->
  wp (cmd_get (key ns p h)) Q r.
Proof. unfold wp, cmd_get, view. fold (ent r p h). by intros ->. Qed.

Lemma wp_get_none (r : Redis) (p : Prefix) (h : string) (Q : option string -> Redis -> Prop) :
  ent r p h = None -> Q None r -> wp (cmd_get (key ns p h)) Q r.
Proof. unfold wp, cmd_get, view. fold (ent r p h). by intros ->. Qed.

(** The keyspaces that hold strings. *)
Definition holds_string (p : Prefix) : bool :=
  match p with Rt | Prt | Rp | Prp | Cf | Pcf | Sd | Psd | Ep | Pep | Rv | Ra | Mfa => true | _ => false end.

Lemma typed_string (r : Redis) (p : Prefix) (h : string) (v : rvalue) :
  typed r -> holds_string p = true -> view r (key ns p h) = Some v -> exists s, v = RStr s.
Proof.
  unfold view. fold (ent r p h). intros Ht Hp Hv. destruct (ent r p h) as [e|] eqn:E; [|done].
  specialize (Ht _ _ _ E). simplify_eq.
  destruct p; try done; cbv [ok_entry ok_record ok_pointer ok_string ok_epoch] in Ht;
    repeat match type of Ht with ex _ => destruct Ht as [? Ht] | _ /\ _ => destruct Ht as [Ht _] end; eauto.
Qed.

(** [m] answers [a] on [r], and leaves a well-formed database standing for [s]. *)
Definition yields {A} (m : R A) (r : Redis) (a : A) (s : AStore) : Prop :=
  wp m (fun a' r' => a' = a /\ wf r' /\ r_pool r' = r_pool r /\ abs r' ≡ s) r.

End refine.

(** [entries] rewrites every lookup of an intermediate database down to the
    first one, resolving each step by its keyspace. *)
Ltac entries :=
  repeat first
    [ match goal with
      | B : becomes _ _ ?r' _ |- context [ent _ ?r' ?p ?h] => rewrite (b_ent _ _ _ _ B p h)
      end
    | rewrite overlay_at
    | rewrite overlay_ne by discriminate ].

Ltac nows :=
  repeat match goal with
    | B : becomes _ _ ?r' _ |- context [r_now ?r'] => rewrite (b_now _ _ _ _ B)
    | B : becomes _ _ ?r' _ |- context [r_pool ?r'] => rewrite (b_pool _ _ _ _ B)
    end.

(** * Each Redis session operation implements its contract *)

(** One step of a symbolic run. *)
Ltac wp_step :=
  lazymatch goal with
  | |- wp (mbind _ _) _ _ => apply wp_bind
  | |- wp (fmap _ _) _ _ => apply wp_fmap
  | |- wp (mret _) _ _ => apply wp_ret
  | |- wp (multi []) _ _ => apply wp_multi_nil
  | |- wp (multi (_ :: _)) _ _ => apply wp_multi_cons
  | |- wp (ignore _) _ _ => apply wp_ignore
  | |- wp connection _ _ => apply wp_connection; [done|]
  | |- wp (decoded _) _ _ => eapply wp_decoded; [eassumption|]
  | |- wp (cmd_set_ex _ _ _) _ _ => apply wp_set_ex; [lia | done | | intros ? ? ?]
  | |- wp (cmd_del _) _ _ => apply wp_del; [done | intros ? ? ? ?]
  | |- wp (cmd_expire _ _) _ _ => apply wp_expire; [lia | done | intros ? ? ?]
  | |- wp (cmd_sadd _ _) _ _ => apply wp_sadd; [done | done | | intros ? ? ?]
  | |- wp (cmd_srem _ _) _ _ => apply wp_srem; [done | done | intros ? ? ?]
  | |- wp (cmd_exists _) _ _ => apply wp_exists
  | |- wp (cmd_get _) _ _ =>
      first [ eapply wp_get_some; [eassumption|] | eapply wp_get_none; [eassumption|] ]
  | |- wp (lift _) _ _ => eapply wp_lift; [eassumption|]; cbv beta iota
  end.

(** The typing side conditions of the writes. *)
Ltac wp_side :=
  lazymatch goal with
  | |- forall k, _ = sess_of k -> _ => intros [] ?; first [done | eauto]
  | |- ok_entry _ _ => repeat eexists; eassumption
  end.

(** Every expiring entry of the final database carries its expiry. *)
Ltac solve_armed :=
  let p := fresh in let h := fresh in let e := fresh in
  intros p h e; destruct p; try done; intros _; entries; unfold after_srem; cbn;
  repeat case_match; intros; simplify_eq/=;
  first [ match goal with Ha : armed _ ?r, He : ent _ ?r _ _ = Some _ |- _ => refine (Ha _ _ _ _ He); reflexivity end
        | by eexists ].

(** The final database stands for the abstract result, keyspace by keyspace. *)
Ltac solve_abs :=
  split; [cbn; by nows|..];
  intros;
  repeat match goal with k : SessionKind |- _ => destruct k end;
  cbn; entries; nows;
  repeat first [rewrite upd_at | rewrite upd_ne by discriminate];
  unfold until; cbn;
  repeat case_decide; subst; try done.

Ltac solve_yields := split_and!; [done | split; [done | solve_armed] | by nows | solve_abs].

Section ops.
Context `{SessionJsonLaws} (ns : string).


Lemma ttl_window (ttl : Z) : 0 < ttl <= i64_max -> u64_to_i64_sat ttl = ttl.
Proof. intros. unfold u64_to_i64_sat. lia. Qed.

Lemma dec_live_rec (rec : SessionRecord) (j : string) (t : Z) :
  record_to_string rec = Some j ->
  dec_live (Some {| re_value := RStr j; re_expire := Some t |}) = Some (rec, t).
Proof. intros Hj. simpl. by rewrite (record_from_to rec j Hj). Qed.

Lemma dec_add_member (r : Redis) (p : Prefix) (h x : string) (t : Z) :
  typed ns r -> armed ns r -> holds_set p = true -> expires p = true ->
  dec_set (after_expire (after_sadd (ent ns r p h) x) t) = add_member (dec_set (ent ns r p h)) x t.
Proof. intros. rewrite dec_add. unfold add_member. by erewrite set_at_members. Qed.

Hint Resolve dec_live_rec dec_add_member : auth.

Lemma create_yields (r : Redis) (k : SessionKind) (subject h j : string) (rec : SessionRecord) (ttl : Z) :
  wf ns r -> r_pool r = [] -> 0 < ttl <= i64_max -> record_to_string rec = Some j ->
  yields ns (create_session_inner ns k subject h rec ttl) r tt (a_create k subject h rec ttl (abs ns r)).
Proof.
  intros [Ht Ha] Hpool Httl Hj. unfold yields, create_session_inner.
  rewrite (ttl_window ttl) by done. unfold a_create, family_add.
  destruct k, (string_is_empty (sr_family_id rec)) eqn:Hfam; simpl app;
    repeat wp_step; try solve [wp_side]; solve_yields; eauto with auth.
Qed.

(** What a typed entry decodes to. *)
Lemma dec_set_some (r : Redis) (p : Prefix) (h : string) :
  typed ns r -> armed ns r -> holds_set p = true -> expires p = true ->
  bool_decide (is_Some (ent ns r p h)) = bool_decide (is_Some (dec_set (ent ns r p h))).
Proof.
  intros Ht Ha Hp Hx. destruct (ent ns r p h) as [e|] eqn:E; [|done].
  destruct (typed_set ns r p h e Ht Hp E) as (m & He & _). destruct (Ha p h e Hx E) as [t Hexp].
  by rewrite He, Hexp.
Qed.

Lemma create_recovered_yields (r : Redis) (k : SessionKind) (subject h j : string) (rec : SessionRecord) (ttl : Z) :
  wf ns r -> r_pool r = [] -> 0 < ttl <= i64_max -> record_to_string rec = Some j ->
  yields ns (create_recovered_session_inner ns k subject h rec ttl) r
    (a_create_recovered k subject h rec ttl (abs ns r)).1 (a_create_recovered k subject h rec ttl (abs ns r)).2.
Proof.
  intros [Ht Ha] Hpool Httl Hj. unfold yields, create_recovered_session_inner, Lua.recover_grace.
  unfold a_create_recovered, a_create, family_add, family_alive.
  pose proof (dec_set_some r (sess_of k) subject Ht Ha) as Hi.
  pose proof (dec_set_some r (fam_of k) (sr_family_id rec) Ht Ha) as Hf.
  simpl a_index; simpl a_family.
  destruct k; specialize (Hi eq_refl eq_refl); specialize (Hf eq_refl eq_refl);
    cbv [kind_prefixes kp_rt kp_sess kp_sd kp_fam sess_of fam_of] in *;
    destruct (bool_decide (is_Some (dec_set _))) in Hi |- *;
    destruct (string_is_empty (sr_family_id rec)) eqn:Hfam;
    try destruct (bool_decide (is_Some (dec_set _))) in Hf |- *; cbn [orb andb fst snd negb];
    repeat (wp_step; try rewrite Hi; try rewrite Hf; cbn [negb]; cbn iota); try solve [wp_side];
    solve_yields; eauto with auth.
Qed.

(** ** Rotation *)

Lemma live_entry (r : Redis) (k : SessionKind) (h s : string) (x : option Z) :
  typed ns r -> armed ns r -> ent ns r (rt_of k) h = Some {| re_value := RStr s; re_expire := x |} ->
  exists rec t, dec_live (ent ns r (rt_of k) h) = Some (rec, t) /\ record_to_string rec = Some s.
Proof.
  intros Ht Ha He. destruct (Ha (rt_of k) h _ ltac:(by destruct k) He) as [t Hx]. simpl in Hx. subst x.
  pose proof (Ht _ _ _ He) as Hok. rewrite He.
  destruct k, Hok as (rec & j & [= ->] & Hj); exists rec, t; (split; [by apply dec_live_rec | done]).
Qed.

Lemma dec_grace_rec (new j : string) (rec : SessionRecord) (t : Z) :
  contains_char ":" new = false -> record_to_string rec = Some j ->
  dec_grace (Some {| re_value := RStr (new +:+ ":" +:+ j); re_expire := Some t |}) = Some (new, rec, t).
Proof.
  intros Hn Hj. unfold dec_grace. change (new +:+ ":" +:+ j) with (new +:+ String ":" j).
  by rewrite split_once_app, (record_from_to rec j Hj).
Qed.

Lemma grace_entry (r : Redis) (k : SessionKind) (h s : string) (x : option Z) :
  typed ns r -> armed ns r -> ent ns r (rp_of k) h = Some {| re_value := RStr s; re_expire := x |} ->
  exists successor rec j t, dec_grace (ent ns r (rp_of k) h) = Some (successor, rec, t) /\
    split_once ":" s = Some (successor, j) /\ record_to_string rec = Some j.
Proof.
  intros Ht Ha He. destruct (Ha (rp_of k) h _ ltac:(by destruct k) He) as [t Hx]. simpl in Hx. subst x.
  pose proof (Ht _ _ _ He) as Hok. rewrite He.
  destruct k, Hok as (new & rec & j & [= ->] & Hn & Hj); exists new, rec, j, t;
    (split; [by apply dec_grace_rec | split; [by apply (split_once_app ":" new j) | done]]).
Qed.

Lemma dec_live_some (r : Redis) (k : SessionKind) (h : string) :
  typed ns r -> armed ns r ->
  bool_decide (is_Some (ent ns r (rt_of k) h)) = bool_decide (is_Some (dec_live (ent ns r (rt_of k) h))).
Proof.
  intros Ht Ha. destruct (ent ns r (rt_of k) h) as [[v x]|] eqn:E; [|done].
  assert (exists s, v = RStr s) as [s ->].
  { eapply (typed_string ns r (rt_of k) h); [done | by destruct k |].
    unfold view. fold (ent ns r (rt_of k) h). by rewrite E. }
  destruct (live_entry r k h s x Ht Ha E) as (rec & t & Hd & _). rewrite <-E, Hd. by rewrite !bool_decide_eq_true_2.
Qed.

(** The tagged replies of the script never collide with a record. *)
Lemma interpret_grace (j : string) (rec : SessionRecord) :
  record_to_string rec = Some j -> interpret_rotate (Some ("GRACE:" +:+ j)) = Ok (PGrace rec).
Proof.
  intros Hj. unfold interpret_rotate. rewrite (strip_prefix_app GRACE_TAG j : strip_prefix _ ("GRACE:" +:+ j) = _).
  by rewrite (record_from_to rec j Hj).
Qed.

Lemma interpret_record (j : string) (rec : SessionRecord) :
  record_to_string rec = Some j -> interpret_rotate (Some j) = Ok (PRotated rec).
Proof.
  intros Hj. pose proof (record_is_object rec j Hj) as Ho. unfold starts_with in Ho.
  destruct j as [|c j']; [done|]. unfold interpret_rotate.
  assert (c = "{"%char) as -> by (simpl in Ho; by case_decide).
  change (strip_prefix GRACE_TAG (String "{" j')) with (@None string).
  change (strip_prefix REUSED_TAG (String "{" j')) with (@None string). cbn iota.
  by rewrite (record_from_to rec _ Hj).
Qed.

Lemma dec_move_member (r : Redis) (p : Prefix) (h x y : string) (t : Z) :
  typed ns r -> armed ns r -> holds_set p = true -> expires p = true ->
  dec_set (after_expire (after_sadd (after_srem (ent ns r p h) x) y) t) =
    add_member (drop_member (dec_set (ent ns r p h)) x) y t.
Proof.
  intros Ht Ha Hp Hx. destruct (dec_srem ns r p h x Ht Ha Hp Hx) as [_ Hs].
  rewrite dec_add, Hs. done.
Qed.

Lemma dec_move_member_add (r : Redis) (p : Prefix) (h x y z : string) (t : Z) :
  typed ns r -> armed ns r -> holds_set p = true -> expires p = true ->
  dec_set (after_expire (after_sadd (after_sadd (after_srem (ent ns r p h) x) y) z) t) =
    add_member (add_member (drop_member (dec_set (ent ns r p h)) x) y t) z t.
Proof.
  intros Ht Ha Hp Hx. destruct (dec_srem ns r p h x Ht Ha Hp Hx) as [_ Hs].
  rewrite dec_add. change (set_at (after_sadd ?o y)) with ({[y]} ∪ set_at o). by rewrite Hs.
Qed.

Hint Resolve dec_move_member dec_move_member_add dec_grace_rec : auth.

(** What the engine guarantees of a rotation it asks for. *)
Record rotation_ok (ro : SessionRotation) : Prop := {
  rok_json : is_Some (record_to_string (ro_new_record ro));
  rok_new : contains_char ":" (ro_new_hash ro) = false;
  rok_ttl : 0 < ro_refresh_ttl ro;
}.

Lemma rotate_live_yields (r : Redis) (k : SessionKind) (ro : SessionRotation) (rec : SessionRecord) (t : Z) :
  wf ns r -> r_pool r = [] -> rotation_ok ro ->
  a_live (abs ns r) k (ro_old_hash ro) = Some (rec, t) ->
  yields ns (rotate_inner ns k ro) r (Rotated rec) (a_rotated k ro (abs ns r)).
Proof.
  intros [Ht Ha] Hpool [[j Hj] Hnew Httl] Hlive. simpl in Hlive.
  unfold yields, rotate_inner, Lua.refresh_rotate, move_session_detail.
  assert (exists s x, ent ns r (rt_of k) (ro_old_hash ro) = Some {| re_value := RStr s; re_expire := x |}) as (s & x & He).
  { unfold dec_live in Hlive. repeat case_match; simplify_eq. eauto. }
  destruct (live_entry r k _ s x Ht Ha He) as (rec' & t' & Hl & Hs). rewrite Hlive in Hl. simplify_eq.
  pose proof (interpret_record s rec' Hs) as Hraw.
  unfold a_rotated. destruct (bool_decide (0 < ro_grace_ttl ro)) eqn:Hg;
    [apply bool_decide_eq_true in Hg|]; destruct (string_is_empty _) eqn:Hfam; destruct k.
  all: cbv [kind_prefixes kp_rt kp_sess kp_sd kp_fam kp_cf kp_rp rt_of] in *; cbn [negb].
  all: repeat wp_step; try solve [wp_side]; solve_yields; eauto with auth.
Qed.

End ops.

#[export] Hint Resolve dec_live_rec dec_add_member dec_move_member dec_move_member_add dec_grace_rec : auth.
