(* ===== verification/RefineRevoke.v ===== *)
(** * Dead rotations and revocations of the Redis store *)

From S2P Require Import Prelude Errors Types Redis RedisSession SessionSpec RedisRefine.

Section dead.
Context `{SessionJsonLaws} (ns : string).

Lemma key_of_prefix (p : Prefix) (h : string) : (ns +:+ ":" +:+ prefix_as_str p) +:+ ":" +:+ h = key ns p h.
Proof. unfold key. by rewrite !string_app_assoc. Qed.

Lemma dec_live_none (r : Redis) (k : SessionKind) (h : string) :
  typed ns r -> armed ns r -> dec_live (ent ns r (rt_of k) h) = None -> ent ns r (rt_of k) h = None.
Proof.
  intros Ht Ha Hn. pose proof (dec_live_some ns r k h Ht Ha) as Hd. rewrite Hn in Hd.
  rewrite (bool_decide_eq_false_2 (is_Some None)) in Hd by (by intros []).
  apply bool_decide_eq_false in Hd. by apply eq_None_not_Some.
Qed.

Lemma consumed_entry (r : Redis) (k : SessionKind) (h : string) :
  typed ns r -> armed ns r ->
  match dec_string (ent ns r (cf_of k) h) with
  | Some (f, t) => ent ns r (cf_of k) h = Some {| re_value := RStr f; re_expire := Some t |}
  | None => ent ns r (cf_of k) h = None
  end.
Proof.
  intros Ht Ha. destruct (ent ns r (cf_of k) h) as [[v x]|] eqn:E; [|done].
  destruct (Ha (cf_of k) h _ ltac:(by destruct k) E) as [t Hx]. simpl in Hx. subst x.
  destruct (typed_string ns r (cf_of k) h v) as [s ->]; [done | by destruct k | | done].
  unfold view. fold (ent ns r (cf_of k) h). by rewrite E.
Qed.

(** A pointer the script reads is a decodable one. *)
Lemma pointer_cases (r : Redis) (k : SessionKind) (h : string) :
  typed ns r -> armed ns r ->
  match dec_grace (ent ns r (rp_of k) h) with
  | Some (successor, rec, t) =>
      exists s j, ent ns r (rp_of k) h = Some {| re_value := RStr s; re_expire := Some t |} /\
        split_once ":" s = Some (successor, j) /\ record_to_string rec = Some j
  | None => ent ns r (rp_of k) h = None
  end.
Proof.
  intros Ht Ha. destruct (ent ns r (rp_of k) h) as [[v x]|] eqn:E; [|done].
  destruct (Ha (rp_of k) h _ ltac:(by destruct k) E) as [t Hx]. simpl in Hx. subst x.
  destruct (typed_string ns r (rp_of k) h v) as [s ->]; [done | by destruct k | |].
  { unfold view. fold (ent ns r (rp_of k) h). by rewrite E. }
  destruct (grace_entry ns r k h s _ Ht Ha E) as (successor & rec & j & t' & Hd & Hs & Hj).
  rewrite <-E, Hd, E. pose proof Hd as Hd'. rewrite E in Hd'. simpl in Hd'. rewrite Hs in Hd'.
  rewrite (record_from_to rec j Hj) in Hd'. simplify_eq. eauto.
Qed.

Lemma interpret_reused (f : string) : interpret_rotate (Some ("REUSED:" +:+ f)) = Ok (PReused f).
Proof. reflexivity. Qed.

Lemma rotate_dead_yields (r : Redis) (k : SessionKind) (ro : SessionRotation) :
  wf ns r -> r_pool r = [] -> rotation_ok ro ->
  a_live (abs ns r) k (ro_old_hash ro) = None ->
  yields ns (rotate_inner ns k ro) r (a_rotate k ro (abs ns r)).1 (a_rotate k ro (abs ns r)).2.
Proof.
  intros [Ht Ha] Hpool [[j Hj] Hnew Httl] Hlive.
  unfold yields, rotate_inner, Lua.refresh_rotate, a_rotate, a_reuse_check. rewrite Hlive.
  simpl in Hlive. apply dec_live_none in Hlive; [|done..].
  pose proof (pointer_cases r k (ro_old_hash ro) Ht Ha) as Hp.
  pose proof (consumed_entry r k (ro_old_hash ro) Ht Ha) as Hc.
  cbn [abs a_grace a_consumed a_live set_grace].
  destruct (dec_grace _) as [[[successor rec] t]|].
  - destruct Hp as (s & j' & Hp & Hs & Hj').
    pose proof (dec_live_some ns r k successor Ht Ha) as Hsucc.
    pose proof (interpret_grace j' rec Hj') as Hraw.
    pose proof (dec_set_some ns r (fam_of k) (sr_family_id rec) Ht Ha) as Hf.
    pose proof interpret_reused as Hre.
    unfold family_alive, family_is_alive. cbn [abs a_family].
    destruct k; cbv [kind_prefixes kp_rt kp_sess kp_sd kp_fam kp_cf kp_rp rt_of rp_of cf_of fam_of] in *;
      specialize (Hf eq_refl eq_refl).
    all: destruct (dec_live (ent ns r _ successor)) as [[]|];
       [|destruct (dec_string _) as [[]|]].
    all: repeat wp_step; rewrite Hs; wp_step; rewrite key_of_prefix; wp_step.
    all: entries; rewrite Hsucc.
    1,4: rewrite bool_decide_eq_true_2 by done; cbn iota; wp_step; wp_step; wp_step.
    1,2: destruct (string_is_empty _) eqn:Hfam; [by repeat wp_step; solve_yields|].
    1,2: wp_step; wp_step; entries; rewrite Hf; wp_step; cbn [orb]; by case_bool_decide; solve_yields.
    all: rewrite bool_decide_eq_false_2 by (by intros []); cbn iota; wp_step.
    1,3: eapply wp_get_some; [entries; exact Hc|]; repeat wp_step; eapply wp_lift; [apply interpret_reused|];
      by repeat wp_step; solve_yields.
    all: eapply wp_get_none; [entries; exact Hc|]; repeat wp_step; eapply wp_lift; [done|];
      by repeat wp_step; solve_yields.
  - destruct k; cbv [kind_prefixes kp_rt kp_sess kp_sd kp_fam kp_cf kp_rp rt_of rp_of cf_of fam_of] in *;
      destruct (dec_string _) as [[]|]; repeat wp_step.
    1,3: eapply wp_lift; [apply interpret_reused|]; by repeat wp_step; solve_yields.
    all: eapply wp_lift; [done|]; by repeat wp_step; solve_yields.
Qed.

Lemma rotate_yields (r : Redis) (k : SessionKind) (ro : SessionRotation) :
  wf ns r -> r_pool r = [] -> rotation_ok ro ->
  yields ns (rotate_inner ns k ro) r (a_rotate k ro (abs ns r)).1 (a_rotate k ro (abs ns r)).2.
Proof.
  intros Hwf Hpool Hro. destruct (a_live (abs ns r) k (ro_old_hash ro)) as [[rec t]|] eqn:Hl.
  - unfold a_rotate. rewrite Hl. by eapply rotate_live_yields.
  - by apply rotate_dead_yields.
Qed.

(** ** Reads and single revocations *)

Lemma find_yields (r : Redis) (k : SessionKind) (h : string) :
  wf ns r -> r_pool r = [] ->
  yields ns (find_session_inner ns k h) r (a_find k h (abs ns r)) (abs ns r).
Proof.
  intros [Ht Ha] Hpool. unfold yields, find_session_inner, a_find.
  destruct (a_live (abs ns r) k h) as [[rec t]|] eqn:Hl; simpl in Hl.
  - unfold dec_live in Hl. repeat case_match; simplify_eq.
    destruct k; cbv [kind_prefixes kp_rt rt_of] in *; by repeat wp_step; solve_yields.
  - apply dec_live_none in Hl; [|done..].
    destruct k; cbv [kind_prefixes kp_rt rt_of] in *; by repeat wp_step; solve_yields.
Qed.

Lemma wp_sismember (r : Redis) (p : Prefix) (h x : string) (Q : bool -> Redis -> Prop) :
  typed ns r -> armed ns r -> holds_set p = true -> expires p = true ->
  Q (bool_decide (x ∈ members_of (dec_set (ent ns r p h)))) r -> wp (cmd_sismember (key ns p h) x) Q r.
Proof.
  intros Ht Ha Hp Hx HQ. unfold wp, cmd_sismember, view. fold (ent ns r p h).
  rewrite <-(set_at_members ns r p h) in HQ by done.
  destruct (ent ns r p h) as [e|] eqn:E; [|done].
  destruct (typed_set ns r p h e Ht Hp E) as (m & He & _). rewrite He in *. done.
Qed.

Lemma dec_drop_member (r : Redis) (p : Prefix) (h x : string) :
  typed ns r -> armed ns r -> holds_set p = true -> expires p = true ->
  dec_set (after_srem (ent ns r p h) x) = drop_member (dec_set (ent ns r p h)) x.
Proof. intros. by apply dec_srem. Qed.

Hint Resolve dec_drop_member : auth.

Lemma revoke_yields (r : Redis) (k : SessionKind) (subject h : string) :
  wf ns r -> r_pool r = [] ->
  yields ns (revoke_session_inner ns k subject h) r
    (a_revoke k subject h (abs ns r)).1 (a_revoke k subject h (abs ns r)).2.
Proof.
  intros [Ht Ha] Hpool. unfold yields, revoke_session_inner, Lua.session_revoke, a_revoke.
  unfold live_member, abs; cbn [a_index].
  destruct k; cbv [kind_prefixes kp_rt kp_sess kp_sd sess_of rt_of] in *;
    repeat wp_step; (apply wp_sismember; [done..|]);
    (destruct (bool_decide _); cbn [negb fst snd]; cbn iota;
       repeat wp_step; solve_yields; eauto with auth).
Qed.

Lemma delete_grace_yields (r : Redis) (k : SessionKind) (h : string) :
  wf ns r -> r_pool r = [] ->
  yields ns (delete_grace_pointer_inner ns k h) r tt (a_delete_grace k h (abs ns r)).
Proof.
  intros [Ht Ha] Hpool. unfold yields, delete_grace_pointer_inner, a_delete_grace.
  destruct k; cbv [kind_prefixes kp_rp] in *; by repeat wp_step; solve_yields.
Qed.

(** ** Sign out everywhere *)

Lemma live_member_inj (k : SessionKind) (h h' : string) : live_member k h = live_member k h' -> h = h'.
Proof. unfold live_member, index_member. intros Hm%string_app_inj_l. by injection Hm. Qed.

Lemma grace_member_inj (k : SessionKind) (h h' : string) : grace_member k h = grace_member k h' -> h = h'.
Proof. unfold grace_member, index_member. intros Hm%string_app_inj_l. by injection Hm. Qed.

Lemma live_grace_ne (k k' : SessionKind) (h h' : string) : live_member k h <> grace_member k' h'.
Proof. by destruct k, k'. Qed.

Lemma strip_prefix_live (k : SessionKind) (t : string) :
  strip_prefix (prefix_as_str (rt_of k) +:+ ":") (live_member k t) = Some t.
Proof. by destruct k. Qed.

Lemma strip_prefix_grace (k : SessionKind) (t : string) :
  strip_prefix (prefix_as_str (rt_of k) +:+ ":") (grace_member k t) = None.
Proof. by destruct k. Qed.

(** The entries the index members name. *)
Definition kills (k : SessionKind) (ms : list string) (p : Prefix) (h : string) : Prop :=
  (p = rt_of k \/ p = sd_of k) /\ live_member k h ∈ ms \/ p = rp_of k /\ grace_member k h ∈ ms.

#[local] Instance kills_dec k ms p h : Decision (kills k ms p h).
Proof. unfold kills. apply _. Defined.

Definition swept (k : SessionKind) (ms : list string) (g : Prefix -> string -> option rentry)
    (p : Prefix) (h : string) : option rentry :=
  if decide (kills k ms p h) then None else g p h.

Lemma swept_live (k : SessionKind) (t : string) (ms : list string) (g : Prefix -> string -> option rentry) p h :
  swept k ms (overlay (sd_of k) t None (overlay (rt_of k) t None g)) p h = swept k (live_member k t :: ms) g p h.
Proof.
  pose proof (live_member_inj k h t). pose proof (live_grace_ne k k t h).
  unfold swept, kills, overlay. repeat case_decide; set_solver.
Qed.

Lemma swept_grace (k : SessionKind) (t : string) (ms : list string) (g : Prefix -> string -> option rentry) p h :
  swept k ms (overlay (rp_of k) t None g) p h = swept k (grace_member k t :: ms) g p h.
Proof.
  pose proof (grace_member_inj k h t). pose proof (live_grace_ne k k h t).
  unfold swept, kills, overlay. repeat case_decide; set_solver.
Qed.

Lemma invalidate_members_wp (k : SessionKind) (ms : list string) (r : Redis) (Q : unit -> Redis -> Prop) :
  typed ns r -> (forall y, y ∈ ms -> exists t, y = live_member k t \/ y = grace_member k t) ->
  (forall r', typed ns r' -> becomes ns r r' (swept k ms (ent ns r)) -> Q tt r') ->
  wp (Lua.invalidate_members ns (prefix_as_str (rt_of k)) (prefix_as_str (sd_of k)) ms) Q r.
Proof.
  revert r. induction ms as [|y ms IH]; intros r Ht Hms HQ; cbn [Lua.invalidate_members].
  - apply wp_ret, HQ; [done|]. split; [done..|]. intros p h. unfold swept, kills. case_decide; set_solver.
  - destruct (Hms y) as [t [-> | ->]]; [by left|..].
    + wp_step. apply (wp_del ns r (rt_of k) t); [done|]. intros n1 r1 T1 B1. wp_step.
      rewrite (strip_prefix_live k t). wp_step. apply (wp_del ns r1 (sd_of k) t); [done|]. intros n2 r2 T2 B2.
      apply IH; [done | set_solver |]. intros r' T' B'. apply HQ; [done|]. split.
      * by rewrite (b_now _ _ _ _ B'), (b_now _ _ _ _ B2), (b_now _ _ _ _ B1).
      * by rewrite (b_pool _ _ _ _ B'), (b_pool _ _ _ _ B2), (b_pool _ _ _ _ B1).
      * intros p h. rewrite (b_ent _ _ _ _ B'), <-swept_live. unfold swept. case_decide; [done|].
        rewrite (b_ent _ _ _ _ B2). unfold overlay. case_decide; [done|]. by rewrite (b_ent _ _ _ _ B1).
    + wp_step. apply (wp_del ns r (rp_of k) t); [done|]. intros n1 r1 T1 B1. wp_step.
      rewrite (strip_prefix_grace k t). wp_step.
      apply IH; [done | set_solver |]. intros r' T' B'. apply HQ; [done|]. split.
      * by rewrite (b_now _ _ _ _ B'), (b_now _ _ _ _ B1).
      * by rewrite (b_pool _ _ _ _ B'), (b_pool _ _ _ _ B1).
      * intros p h. rewrite (b_ent _ _ _ _ B'), <-swept_grace. unfold swept. case_decide; [done|].
        by rewrite (b_ent _ _ _ _ B1).
Qed.

Lemma wp_smembers (r : Redis) (p : Prefix) (h : string) (Q : list string -> Redis -> Prop) :
  typed ns r -> holds_set p = true -> Q (elements (set_at (ent ns r p h))) r ->
  wp (cmd_smembers (key ns p h)) Q r.
Proof.
  intros Ht Hp HQ. unfold wp, cmd_smembers, view. fold (ent ns r p h).
  destruct (ent ns r p h) as [e|] eqn:E; [|cbn [set_at] in HQ; by rewrite elements_empty in HQ].
  destruct (typed_set ns r p h e Ht Hp E) as (m & He & _). by rewrite He in *.
Qed.

Lemma swept_other (k : SessionKind) (ms : list string) (g : Prefix -> string -> option rentry) (p : Prefix) (h : string) :
  p <> rt_of k -> p <> sd_of k -> p <> rp_of k -> swept k ms g p h = g p h.
Proof. intros. unfold swept, kills. case_decide; naive_solver. Qed.

Lemma dec_swept_live (r : Redis) (k : SessionKind) (m : gset string) (h : string) :
  dec_live (swept k (elements m) (ent ns r) (rt_of k) h) =
    if decide (live_member k h ∈ m) then None else dec_live (ent ns r (rt_of k) h).
Proof.
  unfold swept, kills. assert (rt_of k <> rp_of k) by by destruct k.
  repeat case_decide; set_solver.
Qed.

Lemma dec_swept_grace (r : Redis) (k : SessionKind) (m : gset string) (h : string) :
  dec_grace (swept k (elements m) (ent ns r) (rp_of k) h) =
    if decide (grace_member k h ∈ m) then None else dec_grace (ent ns r (rp_of k) h).
Proof.
  unfold swept, kills. assert (rp_of k <> rt_of k /\ rp_of k <> sd_of k) by by destruct k.
  repeat case_decide; set_solver.
Qed.

Lemma revoke_all_yields (r : Redis) (k : SessionKind) (subject : string) :
  wf ns r -> r_pool r = [] ->
  yields ns (revoke_all_inner ns k subject) r tt (a_revoke_all k subject (abs ns r)).
Proof.
  intros [Ht Ha] Hpool. unfold yields, revoke_all_inner, Lua.invalidate_user_sessions.
  wp_step; wp_step; wp_step; wp_step.
  apply (wp_smembers r (sess_of k) subject); [done | by destruct k |].
  wp_step. apply invalidate_members_wp; [done | |].
  { intros y Hy%elem_of_elements. by eapply set_at_ok. }
  intros r1 T1 B1. wp_step. apply (wp_del ns r1 (sess_of k) subject); [done|]. intros n r2 T2 B2. wp_step.
  unfold a_revoke_all. cbn [abs a_index]. rewrite <-(set_at_members ns r (sess_of k) subject) by (done || by destruct k).
  set (m := set_at (ent ns r (sess_of k) subject)) in *.
  split_and!; [done | split; [done|] | by nows | split; [cbn; by nows|..]].
  - intros p h e Hx. rewrite (b_ent _ _ _ _ B2). unfold overlay. case_decide; [done|].
    rewrite (b_ent _ _ _ _ B1). unfold swept. case_decide; [done|]. by apply Ha.
  - intros k' h. cbn. rewrite (b_ent _ _ _ _ B2), overlay_ne, (b_ent _ _ _ _ B1) by by destruct k, k'.
    destruct (decide (k = k')) as [<-|Hk].
    + rewrite dec_swept_live. repeat case_decide; naive_solver.
    + rewrite swept_other by by destruct k, k'. by rewrite decide_False by naive_solver.
  - intros k' h. cbn. rewrite (b_ent _ _ _ _ B2), overlay_ne, (b_ent _ _ _ _ B1) by by destruct k, k'.
    destruct (decide (k = k')) as [<-|Hk].
    + rewrite dec_swept_grace. repeat case_decide; naive_solver.
    + rewrite swept_other by by destruct k, k'. by rewrite decide_False by naive_solver.
  - intros k' h. cbn. rewrite (b_ent _ _ _ _ B2), overlay_ne, (b_ent _ _ _ _ B1) by by destruct k, k'.
    by rewrite swept_other by by destruct k, k'.
  - intros k' h. cbn. rewrite (b_ent _ _ _ _ B2), overlay_ne, (b_ent _ _ _ _ B1) by by destruct k, k'.
    by rewrite swept_other by by destruct k, k'.
  - intros k' h. cbn. rewrite (b_ent _ _ _ _ B2). unfold overlay, upd.
    destruct (decide (k = k' /\ subject = h)) as [[<- <-]|Hk]; [by rewrite decide_True|].
    rewrite decide_False by (destruct k, k'; naive_solver).
    rewrite (b_ent _ _ _ _ B1). by rewrite swept_other by by destruct k, k'.
  - intros k' h. cbn. rewrite (b_ent _ _ _ _ B2), overlay_ne, (b_ent _ _ _ _ B1) by by destruct k, k'.
    by rewrite swept_other by by destruct k, k'.
  - intros h. cbn. rewrite (b_ent _ _ _ _ B2), overlay_ne, (b_ent _ _ _ _ B1) by by destruct k.
    by rewrite swept_other by by destruct k.
  - intros h. cbn. rewrite (b_ent _ _ _ _ B2), overlay_ne, (b_ent _ _ _ _ B1) by by destruct k.
    by rewrite swept_other by by destruct k.
Qed.

(** ** Revoking a lineage *)

(** An armed set entry, or none. *)
Definition set_entry (o : option rentry) : Prop :=
  o = None \/ exists m t, o = Some {| re_value := RSet m; re_expire := Some t |} /\ m <> ∅.

Lemma set_entry_ent (r : Redis) (p : Prefix) (h : string) :
  typed ns r -> armed ns r -> holds_set p = true -> expires p = true -> set_entry (ent ns r p h).
Proof.
  intros Ht Ha Hp Hx. destruct (ent ns r p h) as [e|] eqn:E; [right | by left].
  destruct (typed_set ns r p h e Ht Hp E) as (m & He & Hm). destruct (Ha p h e Hx E) as [t Hexp].
  exists m, t. split; [|done]. by rewrite He, Hexp.
Qed.

Definition after_srems (o : option rentry) (xs : list string) : option rentry := foldl after_srem o xs.

Lemma after_srems_dec (xs : list string) (o : option rentry) :
  set_entry o ->
  set_entry (after_srems o xs) /\ dec_set (after_srems o xs) = drop_members (dec_set o) (list_to_set xs).
Proof.
  revert o. induction xs as [|x xs IH]; intros o Ho; simpl.
  - split; [done|]. destruct Ho as [->|(m & t & -> & Hm)]; [done|]. simpl.
    rewrite (difference_empty_L m). by rewrite bool_decide_eq_false_2.
  - assert (Hx : set_entry (after_srem o x) /\ dec_set (after_srem o x) = drop_member (dec_set o) x).
    { destruct Ho as [->|(m & t & -> & Hm)]; [by split; [left|]|]. simpl. case_bool_decide; [by split; [left|]|].
      split; [|done]. right. eauto. }
    destruct Hx as [Hs Hd]. destruct (IH _ Hs) as [Hs' Hd']. split; [done|].
    rewrite Hd', Hd. destruct Ho as [->|(m & t & -> & Hm)]; [done|]. simpl.
    rewrite <-(difference_difference_l_L m {[x]} (list_to_set xs)).
    case_bool_decide as Hm1; simpl; [|done]. rewrite Hm1.
    by rewrite bool_decide_eq_true_2 by set_solver.
Qed.

(** What the revocation loop leaves under each key. *)
Definition cut (k : SessionKind) (owner : option string) (ms : list string)
    (g : Prefix -> string -> option rentry) (p : Prefix) (h : string) : option rentry :=
  if decide ((p = rt_of k \/ p = sd_of k) /\ h ∈ ms) then None
  else if decide (p = sess_of k /\ owner = Some h) then after_srems (g p h) (live_member k <$> ms)
  else g p h.

Definition owner_key (k : SessionKind) (owner : option string) : string :=
  match owner with Some s => key ns (sess_of k) s | None => "" end.

Lemma owner_key_empty (k : SessionKind) (s : string) : string_is_empty (owner_key k (Some s)) = false.
Proof. unfold owner_key, key. by destruct ns. Qed.

Lemma cut_step (k : SessionKind) (owner : option string) (t : string) (ms : list string)
    (g g' : Prefix -> string -> option rentry) (p : Prefix) (h : string) :
  (forall p h, g' p h =
     if decide (p = sess_of k /\ owner = Some h) then after_srem (g p h) (live_member k t)
     else overlay (sd_of k) t None (overlay (rt_of k) t None g) p h) ->
  cut k owner ms g' p h = cut k owner (t :: ms) g p h.
Proof.
  intros Hg. assert (Hp : sess_of k <> rt_of k /\ sess_of k <> sd_of k /\ rt_of k <> sd_of k) by by destruct k.
  unfold cut. rewrite Hg. unfold overlay, after_srems. rewrite fmap_cons. cbn [foldl].
  repeat case_decide; set_solver.
Qed.

Lemma revoke_members_wp (k : SessionKind) (owner : option string) (ms : list string) (r : Redis)
    (Q : unit -> Redis -> Prop) :
  typed ns r ->
  (forall r', typed ns r' -> becomes ns r r' (cut k owner ms (ent ns r)) -> Q tt r') ->
  wp (Lua.revoke_members ns (prefix_as_str (rt_of k)) (prefix_as_str (sd_of k)) (owner_key k owner) ms) Q r.
Proof.
  revert r. induction ms as [|t ms IH]; intros r Ht HQ; cbn [Lua.revoke_members].
  - apply wp_ret, HQ; [done|]. split; [done..|]. intros p h. unfold cut. repeat case_decide; set_solver.
  - wp_step. apply (wp_del ns r (rt_of k) t); [done|]. intros n1 r1 T1 B1.
    wp_step. apply (wp_del ns r1 (sd_of k) t); [done|]. intros n2 r2 T2 B2. wp_step.
    assert (Hp : sess_of k <> rt_of k /\ sess_of k <> sd_of k) by by destruct k.
    assert (Hdel : forall p h, ent ns r2 p h = overlay (sd_of k) t None (overlay (rt_of k) t None (ent ns r)) p h).
    { intros p h. rewrite (b_ent _ _ _ _ B2). unfold overlay. case_decide; [done|]. by rewrite (b_ent _ _ _ _ B1). }
    destruct owner as [s|].
    + rewrite owner_key_empty. cbn [negb]. apply (wp_srem ns r2 (sess_of k) s); [done | by destruct k |].
      intros r3 T3 B3. apply IH; [done|]. intros r' T' B'. apply HQ; [done|]. split; [by nows..|].
      intros p h. rewrite (b_ent _ _ _ _ B'). apply cut_step. clear p h. intros p h.
      rewrite (b_ent _ _ _ _ B3). unfold overlay at 1. repeat case_decide; try naive_solver.
      destruct_and!; simplify_eq. rewrite Hdel. by rewrite !overlay_ne by done.
    + cbn [owner_key string_is_empty negb]. wp_step. apply IH; [done|]. intros r' T' B'. apply HQ; [done|].
      split; [by nows..|]. intros p h. rewrite (b_ent _ _ _ _ B'). apply cut_step. clear p h. intros p h.
      rewrite Hdel. by rewrite decide_False by naive_solver.
Qed.

Lemma cut_nil (k : SessionKind) (owner : option string) (g : Prefix -> string -> option rentry) p h :
  cut k owner [] g p h = g p h.
Proof. unfold cut. repeat case_decide; set_solver. Qed.

(** The script with or without members is one loop and one deletion. *)
Lemma revoke_family_script_wp (r : Redis) (k : SessionKind) (family : string) (owner : option string)
    (Q : Z -> Redis -> Prop) :
  typed ns r ->
  (forall n r1 r2, typed ns r2 ->
     becomes ns r r1 (cut k owner (elements (set_at (ent ns r (fam_of k) family))) (ent ns r)) ->
     becomes ns r1 r2 (overlay (fam_of k) family None (ent ns r1)) -> Q n r2) ->
  wp (Lua.revoke_family (key ns (fam_of k) family) ns (prefix_as_str (rt_of k)) (prefix_as_str (sd_of k))
        (owner_key k owner)) Q r.
Proof.
  intros Ht HQ. unfold Lua.revoke_family. wp_step.
  apply (wp_smembers r (fam_of k) family); [done | by destruct k |].
  destruct (elements _) as [|x xs] eqn:E.
  - wp_step. apply (wp_del ns r (fam_of k) family); [done|]. intros n r2 T2 B2. wp_step.
    eapply HQ; [done | | exact B2]. split; [done..|]. intros p h. by rewrite cut_nil.
  - wp_step. apply revoke_members_wp; [done|]. intros r1 T1 B1.
    wp_step. apply (wp_del ns r1 (fam_of k) family); [done|]. intros n r2 T2 B2. wp_step. by eapply HQ.
Qed.

Lemma cut_other (k : SessionKind) (owner : option string) (ms : list string) (g : Prefix -> string -> option rentry) p h :
  p <> rt_of k -> p <> sd_of k -> p <> sess_of k -> cut k owner ms g p h = g p h.
Proof. intros. unfold cut. repeat case_decide; naive_solver. Qed.

Lemma dec_cut_live (r : Redis) (k : SessionKind) (owner : option string) (m : gset string) (h : string) :
  dec_live (cut k owner (elements m) (ent ns r) (rt_of k) h) =
    if decide (h ∈ m) then None else dec_live (ent ns r (rt_of k) h).
Proof.
  unfold cut. assert (rt_of k <> sess_of k) by by destruct k. repeat case_decide; set_solver.
Qed.

Lemma dec_cut_index (r : Redis) (k : SessionKind) (owner : option string) (m : gset string) (s : string) :
  typed ns r -> armed ns r ->
  dec_set (cut k owner (elements m) (ent ns r) (sess_of k) s) =
    if decide (owner = Some s) then drop_members (dec_set (ent ns r (sess_of k) s)) (set_map (live_member k) m)
    else dec_set (ent ns r (sess_of k) s).
Proof.
  intros Ht Ha. unfold cut. rewrite decide_False by (destruct k; naive_solver).
  repeat case_decide; try naive_solver.
  apply after_srems_dec, set_entry_ent; by destruct k.
Qed.

Lemma cut_armed (r : Redis) (k : SessionKind) (owner : option string) (ms : list string) p h e :
  typed ns r -> armed ns r -> expires p = true -> cut k owner ms (ent ns r) p h = Some e -> is_Some (re_expire e).
Proof.
  intros Ht Ha Hx. unfold cut. repeat case_decide; [done | | by apply Ha].
  destruct_and!; simplify_eq.
  destruct (after_srems_dec (live_member k <$> ms) (ent ns r (sess_of k) h)) as [Hs _].
  { apply set_entry_ent; by destruct k. }
  destruct Hs as [->|(m & t & -> & _)]; [done|]. by intros [= <-].
Qed.

Lemma revoke_family_yields (r : Redis) (k : SessionKind) (family : string) (owner : option string) :
  wf ns r -> r_pool r = [] ->
  yields ns (revoke_family_inner ns k family owner) r tt (a_revoke_family k family owner (abs ns r)).
Proof.
  intros [Ht Ha] Hpool. unfold yields, revoke_family_inner, a_revoke_family.
  destruct (string_is_empty family); [by wp_step; split_and!|]. wp_step. wp_step. wp_step.
  apply (revoke_family_script_wp r k family owner); [done|]. intros n r1 r2 T2 B1 B2. cbn [abs a_family a_index].
  rewrite <-(set_at_members ns r (fam_of k) family) by (done || by destruct k).
  set (m := set_at (ent ns r (fam_of k) family)) in *.
  assert (Hother : forall p h, p <> fam_of k -> ent ns r2 p h = cut k owner (elements m) (ent ns r) p h).
  { intros p h Hp. by rewrite (b_ent _ _ _ _ B2), overlay_ne, (b_ent _ _ _ _ B1) by done. }
  split_and!; [done | split; [done|] | by nows | split; [destruct owner; cbn; by nows|..]].
  - intros p h e Hx. rewrite (b_ent _ _ _ _ B2). unfold overlay. case_decide; [done|].
    rewrite (b_ent _ _ _ _ B1). by apply cut_armed.
  - intros k' h. transitivity (if decide (k = k' /\ h ∈ m) then None else dec_live (ent ns r (rt_of k') h));
      [|by destruct owner].
    cbn. rewrite Hother by by destruct k, k'. destruct (decide (k = k')) as [<-|Hk].
    + rewrite dec_cut_live. repeat case_decide; naive_solver.
    + rewrite cut_other by by destruct k, k'. by rewrite decide_False by naive_solver.
  - intros k' h. transitivity (dec_grace (ent ns r (rp_of k') h)); [|by destruct owner].
    cbn. by rewrite Hother, cut_other by by destruct k, k'.
  - intros k' h. transitivity (dec_string (ent ns r (cf_of k') h)); [|by destruct owner].
    cbn. by rewrite Hother, cut_other by by destruct k, k'.
  - intros k' h. transitivity (upd (fun k f => dec_set (ent ns r (fam_of k) f)) k family None k' h);
      [|by destruct owner].
    cbn. rewrite (b_ent _ _ _ _ B2). unfold overlay, upd.
    destruct (decide (k = k' /\ family = h)) as [[<- <-]|Hk]; [by rewrite decide_True|].
    rewrite decide_False by (destruct k, k'; naive_solver).
    rewrite (b_ent _ _ _ _ B1). by rewrite cut_other by by destruct k, k'.
  - intros k' h. cbn. rewrite Hother by by destruct k, k'. destruct (decide (k = k')) as [<-|Hk].
    + rewrite dec_cut_index by done. destruct owner as [s|]; cbn; [|by rewrite decide_False].
      rewrite upd_at. repeat case_decide; naive_solver.
    + rewrite cut_other by by destruct k, k'. destruct owner; cbn; [by rewrite upd_ne|done].
  - intros k' h. transitivity (dec_epoch (ent ns r (epoch_prefix k') h)); [|by destruct owner].
    cbn. by rewrite Hother, cut_other by by destruct k, k'.
  - intros h. transitivity (dec_mark (ent ns r Rv h)); [|by destruct owner].
    cbn. by rewrite Hother, cut_other by by destruct k.
  - intros h. transitivity (dec_mark (ent ns r Ra h)); [|by destruct owner].
    cbn. by rewrite Hother, cut_other by by destruct k.
Qed.

(** ** Time *)

Lemma ent_advance (ms : Z) (r : Redis) (p : Prefix) (h : string) :
  ent ns (advance ms r) p h =
    match ent ns r p h with
    | Some e => if expired (re_expire e) (r_now r + Z.max 0 ms) then None else Some e
    | None => None
    end.
Proof.
  unfold ent, rlookup, advance. simpl. destruct (r_db r !! key ns p h) as [[v [t|]]|]; simpl; [|done..].
  repeat case_bool_decide; simpl; repeat case_bool_decide; try done; lia.
Qed.

Lemma advance_refines (ms : Z) (r : Redis) :
  wf ns r -> wf ns (advance ms r) /\ abs ns (advance ms r) ≡ a_advance ms (abs ns r).
Proof.
  intros [Ht Ha]. split.
  - split; intros p h e; [|intros Hx]; rewrite ent_advance;
      (destruct (ent ns r p h) as [e'|] eqn:E; [|done]); case_match; intros [= <-];
      [by eapply Ht | by eapply Ha].
  - split; [done|..]; intros; cbn; rewrite ent_advance; unfold survives;
      (destruct (ent ns r _ _) as [[v [t|]]|]; simpl; [|by destruct v|done]);
      unfold dec_live, dec_grace, dec_string, dec_set, dec_epoch, dec_mark;
      destruct v; simpl; case_bool_decide; try done;
      repeat case_match; try done; simplify_eq; case_bool_decide; done.
Qed.

(** ** Access-token state *)

Lemma wp_both_expire (m : R Z) (k : string) (t : Z) (Q : Z -> Redis -> Prop) (r : Redis) :
  wp m (fun n r' => wp (cmd_expire k t) (fun _ r'' => Q n r'') r') r -> wp (both m (cmd_expire k t)) Q r.
Proof.
  unfold wp, both. destruct (m r) as [[n|e] r']; [|done]. by destruct (cmd_expire k t r') as [[[]|e] r''].
Qed.

Lemma epoch_entry (r : Redis) (k : SessionKind) (s : string) :
  typed ns r -> armed ns r ->
  match dec_epoch (ent ns r (epoch_prefix k) s) with
  | Some (n, t) => 0 <= n <= i64_max /\
      ent ns r (epoch_prefix k) s = Some {| re_value := RStr (z_to_string n); re_expire := Some t |}
  | None => ent ns r (epoch_prefix k) s = None
  end.
Proof.
  intros Ht Ha. destruct (ent ns r (epoch_prefix k) s) as [[v x]|] eqn:E; [|done].
  destruct (Ha (epoch_prefix k) s _ ltac:(by destruct k) E) as [t Hx]. simpl in Hx. subst x.
  assert (exists n, v = RStr (z_to_string n) /\ 0 <= n <= i64_max) as (n & -> & Hn)
    by (specialize (Ht _ _ _ E); by destruct k).
  simpl. by rewrite z_to_string_to_z.
Qed.

Lemma current_epoch_yields (r : Redis) (k : SessionKind) (s : string) :
  wf ns r -> r_pool r = [] ->
  yields ns (current_epoch_inner ns k s) r (a_current_epoch k s (abs ns r)) (abs ns r).
Proof.
  intros [Ht Ha] Hpool. unfold yields, current_epoch_inner, a_current_epoch. cbn [abs a_epoch].
  pose proof (epoch_entry r k s Ht Ha) as He.
  destruct (dec_epoch _) as [[n t]|]; [destruct He as [Hn He]|]; repeat wp_step; [|by split_and!].
  rewrite z_to_string_to_z, bool_decide_eq_true_2 by (unfold u64_max, i64_max in *; lia).
  wp_step. by split_and!.
Qed.

Lemma wp_incr (r : Redis) (k : SessionKind) (s : string) (Q : Z -> Redis -> Prop) :
  typed ns r -> armed ns r -> a_current_epoch k s (abs ns r) < i64_max ->
  (forall r' x, typed ns r' ->
     becomes ns r r' (overlay (epoch_prefix k) s
       (Some {| re_value := RStr (z_to_string (a_current_epoch k s (abs ns r) + 1)); re_expire := x |}) (ent ns r)) ->
     Q (a_current_epoch k s (abs ns r) + 1) r') ->
  wp (cmd_incr (key ns (epoch_prefix k) s)) Q r.
Proof.
  intros Ht Ha Hlt HQ. unfold wp, cmd_incr. fold (ent ns r (epoch_prefix k) s).
  pose proof (epoch_entry r k s Ht Ha) as He. unfold a_current_epoch in *. cbn [abs a_epoch] in *.
  assert (Hok : forall n x, 0 <= n <= i64_max ->
            ok_entry (epoch_prefix k) {| re_value := RStr (z_to_string n); re_expire := x |})
    by (intros n x Hn; destruct k; exists n; done).
  destruct (dec_epoch _) as [[n t]|]; [destruct He as [Hn He]|]; rewrite He; simpl.
  - rewrite z_to_string_to_z, bool_decide_eq_true_2 by done.
    eapply HQ; [|apply ent_put; by apply ent_alive in He].
    eapply typed_becomes; [done | apply ent_put; by apply ent_alive in He |]. intros e [= <-]. apply Hok. lia.
  - eapply (HQ _ None); [|by apply ent_put].
    eapply typed_becomes; [done | by apply ent_put |]. intros e [= <-]. apply Hok. unfold i64_max; lia.
Qed.

Lemma bump_epoch_yields (r : Redis) (k : SessionKind) (s : string) :
  wf ns r -> r_pool r = [] -> a_current_epoch k s (abs ns r) < i64_max ->
  yields ns (bump_epoch_inner ns k s) r (a_bump_epoch k s (abs ns r)).1 (a_bump_epoch k s (abs ns r)).2.
Proof.
  intros [Ht Ha] Hpool Hlt. unfold yields, bump_epoch_inner, a_bump_epoch.
  wp_step; wp_step. wp_step. apply wp_both_expire. apply wp_incr; [done..|]. intros r1 x T1 B1.
  apply wp_expire; [done..|]. intros r2 T2 B2.
  pose proof (epoch_entry r k s Ht Ha) as He. unfold a_current_epoch in *. cbn [abs a_epoch] in *.
  assert (Hn : 0 <= match dec_epoch (ent ns r (epoch_prefix k) s) with Some (n, _) => n | None => 0 end)
    by (repeat case_match; naive_solver lia).
  rewrite bool_decide_eq_true_2 by lia. wp_step. cbn [fst snd].
  set (n := match dec_epoch (ent ns r (epoch_prefix k) s) with Some (n, _) => n | None => 0 end) in *.
  assert (Hd : forall t, dec_epoch (after_expire (Some {| re_value := RStr (z_to_string (n + 1)); re_expire := x |}) t)
                 = Some (n + 1, t)) by (intros; simpl; by rewrite z_to_string_to_z).
  clearbody n. destruct k; simpl epoch_prefix in *; solve_yields; apply Hd.
Qed.

Lemma blacklist_yields (r : Redis) (j : string) (ttl : Z) :
  wf ns r -> r_pool r = [] -> 0 <= ttl ->
  yields ns (blacklist_access_inner ns j ttl) r tt (a_blacklist j ttl (abs ns r)).
Proof.
  intros [Ht Ha] Hpool Httl. unfold yields, blacklist_access_inner, a_blacklist.
  case_bool_decide; [by wp_step; split_and!|].
  repeat wp_step; try solve [wp_side]. solve_yields; unfold upd1; by case_decide.
Qed.

Lemma mark_some (r : Redis) (p : Prefix) (j : string) :
  armed ns r -> expires p = true ->
  bool_decide (is_Some (ent ns r p j)) = bool_decide (is_Some (dec_mark (ent ns r p j))).
Proof.
  intros Ha Hp. destruct (ent ns r p j) as [[v x]|] eqn:E; [|done].
  destruct (Ha p j _ Hp E) as [t Hx]. simpl in Hx. by subst x.
Qed.

Lemma is_blacklisted_yields (r : Redis) (j : string) :
  wf ns r -> r_pool r = [] ->
  yields ns (is_blacklisted_inner ns j) r (a_is_blacklisted j (abs ns r)) (abs ns r).
Proof.
  intros [Ht Ha] Hpool. unfold yields, is_blacklisted_inner, a_is_blacklisted.
  repeat wp_step. rewrite (mark_some r Rv) by done. by split_and!.
Qed.

Lemma mark_recent_yields (r : Redis) (u : string) (ttl : Z) :
  wf ns r -> r_pool r = [] -> 0 < ttl ->
  yields ns (mark_recent_auth_inner ns u ttl) r tt (a_mark_recent u ttl (abs ns r)).
Proof.
  intros [Ht Ha] Hpool Httl. unfold yields, mark_recent_auth_inner, a_mark_recent.
  repeat wp_step; try solve [wp_side]. solve_yields; unfold upd1; by case_decide.
Qed.

Lemma has_recent_yields (r : Redis) (u : string) :
  wf ns r -> r_pool r = [] ->
  yields ns (has_recent_auth_inner ns u) r (a_has_recent u (abs ns r)) (abs ns r).
Proof.
  intros [Ht Ha] Hpool. unfold yields, has_recent_auth_inner, a_has_recent.
  repeat wp_step. rewrite (mark_some r Ra) by done. by split_and!.
Qed.

End dead.
