(* ===== verification/RefineListing.v ===== *)
(** * Listings, sweeps and lineage owners of the Redis store *)

From S2P Require Import Prelude Errors Types Redis RedisSession SessionSpec RedisRefine RefineRevoke.

Section listing.
Context `{SessionJsonLaws} (ns : string).

Lemma grace_successor_yields (r : Redis) (k : SessionKind) (h : string) :
  wf ns r -> r_pool r = [] ->
  yields ns (grace_successor_inner ns k h) r (a_grace_successor k h (abs ns r)) (abs ns r).
Proof.
  intros [Ht Ha] Hpool. unfold yields, grace_successor_inner, a_grace_successor. cbn [abs a_grace].
  pose proof (pointer_cases ns r k h Ht Ha) as Hp.
  destruct (dec_grace _) as [[[s rec] t]|].
  - destruct Hp as (p & j & Hp & Hs & _). repeat wp_step. split_and!; [|done..].
    unfold successor_of_pointer. by rewrite Hs.
  - repeat wp_step. by split_and!.
Qed.

(** ** The owner of a lineage *)

Lemma first_owner_wp (k : SessionKind) (ms : list string) (r : Redis) (Q : option SessionRecord -> Redis -> Prop) :
  typed ns r -> armed ns r ->
  (forall rec h t, h ∈ ms -> a_live (abs ns r) k h = Some (rec, t) -> sr_user_id rec <> "" -> Q (Some rec) r) ->
  ((forall h rec t, h ∈ ms -> a_live (abs ns r) k h = Some (rec, t) -> sr_user_id rec = "") -> Q None r) ->
  wp (first_owner ns (rt_of k) ms) Q r.
Proof.
  intros Ht Ha. induction ms as [|x ms IH]; intros HS HN; cbn [first_owner].
  - apply wp_ret, HN. intros h rec t Hin. by apply elem_of_nil in Hin.
  - wp_step. cbn [abs a_live] in *.
    destruct (ent ns r (rt_of k) x) as [[v e]|] eqn:E.
    + destruct (typed_string ns r (rt_of k) x v) as [s ->]; [done | by destruct k | |].
      { unfold view. fold (ent ns r (rt_of k) x). by rewrite E. }
      destruct (live_entry ns r k x s e Ht Ha E) as (rec & t & Hd & Hs).
      eapply wp_get_some; [exact E|]. rewrite (record_from_to rec s Hs).
      destruct (string_is_empty (sr_user_id rec)) eqn:Hu; cbn [negb]; [|].
      * apply IH; [intros; eapply HS; [by right | done..]|]. intros Hno. apply HN.
        intros h rec' t' [->|Hin]%elem_of_cons Hl; [|by eapply Hno].
        rewrite Hd in Hl. simplify_eq. by destruct (sr_user_id rec').
      * wp_step. eapply HS; [by left | exact Hd |]. intros He. by rewrite He in Hu.
    + eapply wp_get_none; [exact E|]. apply IH; [intros; eapply HS; [by right | done..]|]. intros Hno. apply HN.
      intros h rec' t' [->|Hin]%elem_of_cons Hl; [by rewrite E in Hl | by eapply Hno].
Qed.

Lemma find_family_owner_wp (r : Redis) (k : SessionKind) (f : string) :
  wf ns r -> r_pool r = [] ->
  wp (find_family_owner_inner ns k f) (fun o r' => r' = r /\ family_owner k f (abs ns r) o) r.
Proof.
  intros [Ht Ha] Hpool. unfold find_family_owner_inner.
  destruct (string_is_empty f) eqn:Hf; [wp_step; split; [done|left; by destruct f]|].
  wp_step; wp_step. wp_step. apply (wp_smembers ns r (fam_of k) f); [done | by destruct k |].
  rewrite (set_at_members ns r (fam_of k) f) by (done || by destruct k).
  apply first_owner_wp; [done..| |].
  - intros rec h t Hin Hl Hu. split; [done|]. exists h, t. split_and!; [|done..].
    by apply elem_of_elements in Hin.
  - intros Hno. split; [done|]. right. intros h rec t Hin. apply Hno. by apply elem_of_elements.
Qed.

(** ** Sweeping the recovery pointers *)

Lemma starts_with_grace (k : SessionKind) (x : string) :
  starts_with (prefix_as_str (rp_of k) +:+ ":") x = true <-> exists h, x = grace_member k h.
Proof.
  unfold starts_with, grace_member, index_member. split.
  - destruct (strip_prefix _ x) as [h|] eqn:E; [|done]. intros _. exists h.
    apply strip_prefix_Some in E. by rewrite string_app_assoc in E.
  - intros [h ->]. rewrite <-string_app_assoc. by rewrite strip_prefix_app.
Qed.

Definition pruned (k : SessionKind) (subject : string) (ms : list string)
    (g : Prefix -> string -> option rentry) (p : Prefix) (h : string) : option rentry :=
  if decide (p = rp_of k /\ grace_member k h ∈ ms) then None
  else if decide (p = sess_of k /\ h = subject) then after_srems (g p h) ms
  else g p h.

Lemma pruned_step (k : SessionKind) (subject t : string) (ms : list string)
    (g g' : Prefix -> string -> option rentry) (p : Prefix) (h : string) :
  (forall p h, g' p h = overlay (sess_of k) subject (after_srem (g (sess_of k) subject) (grace_member k t))
                          (overlay (rp_of k) t None g) p h) ->
  pruned k subject ms g' p h = pruned k subject (grace_member k t :: ms) g p h.
Proof.
  intros Hg. assert (Hp : sess_of k <> rp_of k) by by destruct k.
  pose proof (grace_member_inj k h t).
  unfold pruned. rewrite Hg. unfold overlay, after_srems. cbn [foldl].
  repeat case_decide; set_solver.
Qed.

Lemma sweep_members_wp (k : SessionKind) (subject : string) (ms : list string) (r : Redis)
    (Q : unit -> Redis -> Prop) :
  typed ns r -> (forall x, x ∈ ms -> exists h, x = grace_member k h) ->
  (forall r', typed ns r' -> becomes ns r r' (pruned k subject ms (ent ns r)) -> Q tt r') ->
  wp (sweep_members ns (key ns (sess_of k) subject) ms) Q r.
Proof.
  revert r. induction ms as [|x ms IH]; intros r Ht Hms HQ; cbn [sweep_members].
  - apply wp_ret, HQ; [done|]. split; [done..|]. intros p h. unfold pruned. repeat case_decide; set_solver.
  - destruct (Hms x) as [t ->]; [by left|]. assert (Hp : sess_of k <> rp_of k) by by destruct k.
    wp_step. apply (wp_del ns r (rp_of k) t); [done|]. intros n1 r1 T1 B1. wp_step.
    apply (wp_srem ns r1 (sess_of k) subject); [done | by destruct k |]. intros r2 T2 B2.
    apply IH; [done | set_solver |]. intros r' T' B'. apply HQ; [done|]. split; [by nows..|].
    intros p h. rewrite (b_ent _ _ _ _ B'). apply pruned_step. clear p h. intros p h.
    rewrite (b_ent _ _ _ _ B2). unfold overlay at 1 2. case_decide.
    + by rewrite (b_ent _ _ _ _ B1), overlay_ne.
    + by rewrite (b_ent _ _ _ _ B1).
Qed.

Lemma elements_filter_set (P : string -> Prop) `{forall x, Decision (P x)} (m : gset string) :
  list_to_set (filter P (elements m)) = (filter P m : gset string).
Proof. apply set_eq. intros x. rewrite elem_of_list_to_set, list_elem_of_filter, elem_of_filter, elem_of_elements. done. Qed.

Lemma sweep_grace_yields (r : Redis) (k : SessionKind) (subject : string) :
  wf ns r -> r_pool r = [] ->
  yields ns (sweep_grace_pointers_inner ns k subject) r tt (a_sweep_grace k subject (abs ns r)).
Proof.
  intros [Ht Ha] Hpool. unfold yields, sweep_grace_pointers_inner, a_sweep_grace. cbn [abs a_index].
  wp_step; wp_step. wp_step. apply (wp_smembers ns r (sess_of k) subject); [done | by destruct k |].
  rewrite <-(set_at_members ns r (sess_of k) subject) by (done || by destruct k).
  set (m := set_at (ent ns r (sess_of k) subject)) in *.
  apply (sweep_members_wp k subject); [done | |].
  { intros x [Hx _]%list_elem_of_filter. by apply starts_with_grace in Hx. }
  intros r' T'. set (ms := filter _ (elements m)). intros B'.
  assert (Hms : forall x, x ∈ ms <-> (exists h, x = grace_member k h) /\ x ∈ m).
  { intros x. unfold ms. rewrite list_elem_of_filter, elem_of_elements. by rewrite (starts_with_grace k x). }
  assert (Hset : list_to_set ms = filter (fun x => starts_with (prefix_as_str (rp_of k) +:+ ":") x = true) m)
    by apply elements_filter_set.
  destruct (after_srems_dec ms (ent ns r (sess_of k) subject)) as [Hse Hd]; [apply set_entry_ent; by destruct k|].
  rewrite Hset in Hd. clearbody ms.
  assert (Hother : forall p h, p <> rp_of k -> p <> sess_of k -> ent ns r' p h = ent ns r p h).
  { intros p h H1 H2. rewrite (b_ent _ _ _ _ B'). unfold pruned. by rewrite !decide_False by naive_solver. }
  split_and!; [done | split; [done|] | by nows | split; [cbn; by nows|..]].
  - intros p h e Hx. rewrite (b_ent _ _ _ _ B'). unfold pruned. repeat case_decide; [done | | by apply Ha].
    destruct_and!; subst. destruct Hse as [->|(m' & t & -> & _)]; [done|]. by intros [= <-].
  - intros k' h. cbn. by rewrite Hother by by destruct k, k'.
  - intros k' h. cbn. rewrite (b_ent _ _ _ _ B'). unfold pruned.
    rewrite (decide_False _ _ (P := rp_of k' = sess_of k /\ h = subject)) by (destruct k, k'; naive_solver).
    destruct (decide (k = k' /\ grace_member k h ∈ m)) as [[<- Hm]|Hn].
    + rewrite decide_True; [done|]. split; [done|]. apply Hms. eauto.
    + rewrite decide_False; [done|]. intros [Hk [_ Hin]%Hms]. apply Hn. split; [by destruct k, k' | done].
  - intros k' h. cbn. by rewrite Hother by by destruct k, k'.
  - intros k' h. cbn. by rewrite Hother by by destruct k, k'.
  - intros k' h. cbn. unfold upd. destruct (decide (k = k' /\ subject = h)) as [[<- <-]|Hn].
    + rewrite (b_ent _ _ _ _ B'). unfold pruned. rewrite decide_False by (destruct k; naive_solver).
      by rewrite decide_True.
    + rewrite (b_ent _ _ _ _ B'). unfold pruned.
      by rewrite !decide_False by (destruct k, k'; naive_solver).
  - intros k' h. cbn. by rewrite Hother by by destruct k, k'.
  - intros h. cbn. by rewrite Hother by by destruct k.
  - intros h. cbn. by rewrite Hother by by destruct k.
Qed.

(** ** Listing *)

Lemma live_member_hash_spec (k : SessionKind) (x h : string) :
  live_member_hash x (rt_of k) = Some h <-> x = live_member k h.
Proof.
  unfold live_member_hash, live_member, index_member. split.
  - destruct (strip_prefix _ x) as [rest|] eqn:E; [|done]. intros Hr.
    apply strip_prefix_Some in E as ->, Hr as ->. done.
  - intros ->. by rewrite strip_prefix_app, strip_prefix_app.
Qed.

Lemma read_entries_wp (k : SessionKind) (ms : list string) (r : Redis)
    (Q : list SessionEntry * list string -> Redis -> Prop) :
  typed ns r ->
  (forall es stale,
     se_session_hash <$> es = omap (fun x => live_member_hash x (rt_of k)) ms ->
     (forall x, x ∈ stale -> x ∈ ms) -> Q (es, stale) r) ->
  wp (read_entries ns (kind_prefixes k) ms) Q r.
Proof.
  intros Ht. revert Q. induction ms as [|x ms IH]; intros Q HQ; cbn [read_entries].
  - apply wp_ret, HQ; [done | set_solver].
  - fold (rt_of k). destruct (live_member_hash x (rt_of k)) as [h|] eqn:Ex.
    + wp_step. apply wp_get; [intros v; apply typed_string; [done | by destruct k] | |].
      * intros s e _. wp_step. apply IH. intros es stale He Hs. wp_step.
        destruct (read_detail h (Some s)); (apply HQ; [|set_solver]);
          cbn [omap list_omap]; rewrite Ex, <-He; done.
      * intros _. wp_step. apply IH. intros es stale He Hs. wp_step.
        apply HQ; [|set_solver]. cbn [omap list_omap]. rewrite Ex, <-He. done.
    + wp_step. apply IH. intros es stale He Hs. wp_step.
      case_match; (apply HQ; [cbn [omap list_omap]; by rewrite Ex | set_solver]).
Qed.

(** What pruning removes: the candidates whose entry is gone. *)
Definition gone (k : SessionKind) (r : Redis) (x : string) : Prop :=
  exists h, x = live_member k h /\ ent ns r (rt_of k) h = None \/
            x = grace_member k h /\ ent ns r (rp_of k) h = None.

Lemma session_prune_dead_wp (k : SessionKind) (subject : string) (cs : list string) (r : Redis)
    (Q : list string -> Redis -> Prop) :
  typed ns r -> (forall x, x ∈ cs -> exists h, x = live_member k h \/ x = grace_member k h) ->
  (forall removed r', typed ns r' ->
     becomes ns r r' (overlay (sess_of k) subject (after_srems (ent ns r (sess_of k) subject) removed) (ent ns r)) ->
     (forall x, x ∈ removed -> gone k r x) -> Q removed r') ->
  wp (Lua.session_prune_dead (key ns (sess_of k) subject) ns cs) Q r.
Proof.
  revert r Q. induction cs as [|x cs IH]; intros r Q Ht Hcs HQ; cbn [Lua.session_prune_dead].
  - apply wp_ret, HQ; [done | | set_solver]. split; [done..|]. intros p h. unfold overlay, after_srems. simpl.
    case_decide as Hd; [by destruct Hd as [-> ->] | done].
  - wp_step. destruct (Hcs x) as [h Hh]; [by left|].
    assert (Hcs' : forall y, y ∈ cs -> exists h, y = live_member k h \/ y = grace_member k h) by set_solver.
    assert (exists p, ns +:+ ":" +:+ x = key ns p h /\ (ent ns r p h = None -> gone k r x)) as (p & Hk & Hgone).
    { unfold gone. destruct Hh as [->| ->]; [exists (rt_of k) | exists (rp_of k)]; (split; [done | eauto]). }
    rewrite Hk. apply wp_exists. case_bool_decide as He.
    + apply IH; [done..|]. intros removed r' T' B' Hr. by apply HQ.
    + apply eq_None_not_Some in He.
      wp_step. apply (wp_srem ns r (sess_of k) subject); [done | by destruct k |]. intros r1 T1 B1.
      wp_step. apply IH; [done..|]. intros removed r' T' B' Hr. wp_step.
      apply HQ; [done | |].
      * split; [by nows..|]. intros p' h'. rewrite (b_ent _ _ _ _ B'). unfold overlay at 1.
        rewrite !(b_ent _ _ _ _ B1). unfold overlay, after_srems. cbn [foldl].
        rewrite (decide_True (P := sess_of k = sess_of k /\ subject = subject)) by done. by case_decide.
      * intros y [->|Hy]%elem_of_cons; [by apply Hgone|].
        destruct (Hr y Hy) as [h' [[-> Hn]|[-> Hn]]]; exists h'; [left|right]; (split; [done|]);
          rewrite (b_ent _ _ _ _ B1), overlay_ne in Hn by (by destruct k); done.
Qed.

Lemma prune_dead_members_wp (k : SessionKind) (subject : string) (cs : list string) (r : Redis)
    (Q : list string -> Redis -> Prop) :
  typed ns r -> (forall x, x ∈ cs -> exists h, x = live_member k h \/ x = grace_member k h) ->
  (forall removed r', typed ns r' ->
     becomes ns r r' (overlay (sess_of k) subject (after_srems (ent ns r (sess_of k) subject) removed) (ent ns r)) ->
     (forall x, x ∈ removed -> gone k r x) -> Q removed r') ->
  wp (prune_dead_members ns (key ns (sess_of k) subject) cs) Q r.
Proof.
  intros Ht Hcs HQ. unfold prune_dead_members. destruct cs as [|x cs]; [|by apply session_prune_dead_wp].
  apply wp_ret, HQ; [done | | set_solver]. split; [done..|]. intros p h. unfold overlay, after_srems. simpl.
  case_decide as Hd; [by destruct Hd as [-> ->] | done].
Qed.

Lemma gone_dead (k : SessionKind) (r : Redis) (x : string) : gone k r x -> dead_member k (abs ns r) x.
Proof. intros [h [[-> Hn]|[-> Hn]]]; exists h; cbn; rewrite Hn; auto. Qed.

(** A pruned index, concretely and abstractly. *)
Lemma abs_prune (r r' : Redis) (k : SessionKind) (subject : string) (removed : list string) :
  wf ns r -> typed ns r' ->
  becomes ns r r' (overlay (sess_of k) subject (after_srems (ent ns r (sess_of k) subject) removed) (ent ns r)) ->
  wf ns r' /\
  abs ns r' ≡ set_index k subject (drop_members (a_index (abs ns r) k subject) (list_to_set removed)) (abs ns r).
Proof.
  intros [Ht Ha] T' B'.
  destruct (after_srems_dec removed (ent ns r (sess_of k) subject)) as [Hse Hd]; [apply set_entry_ent; by destruct k|].
  assert (Hother : forall p h, p <> sess_of k -> ent ns r' p h = ent ns r p h).
  { intros p h Hp. by rewrite (b_ent _ _ _ _ B'), overlay_ne by done. }
  split.
  - split; [done|]. intros p h e Hx. rewrite (b_ent _ _ _ _ B'). unfold overlay. case_decide; [|by apply Ha].
    destruct Hse as [->|(m' & t & -> & _)]; [done|]. by intros [= <-].
  - split; [cbn; by nows|..]; intros; cbn; try (rewrite Hother by (repeat match goal with k : SessionKind |- _ => destruct k end; done); done).
    rewrite (b_ent _ _ _ _ B'). unfold overlay, upd.
    destruct (decide (k = k0 /\ subject = h)) as [[<- <-]|Hn]; [by rewrite decide_True|].
    rewrite decide_False; [done|]. intros [Hk ->]. apply Hn. split; [by destruct k, k0 | done].
Qed.

Lemma NoDup_omap_members (k : SessionKind) (ms : list string) :
  NoDup ms -> NoDup (omap (fun x => live_member_hash x (rt_of k)) ms).
Proof.
  induction 1 as [|x ms Hx _ IH]; [constructor|]. cbn [omap list_omap].
  destruct (live_member_hash x (rt_of k)) as [h|] eqn:E; [|done]. constructor; [|done].
  intros (y & Hy & Hyh)%list_elem_of_omap. apply live_member_hash_spec in E, Hyh. by subst.
Qed.

Lemma NoDup_fmap_filter {A B} (f : A -> B) (P : A -> Prop) `{forall x, Decision (P x)} (l : list A) :
  NoDup (f <$> l) -> NoDup (f <$> filter P l).
Proof.
  induction l as [|x l IH]; [done|]. rewrite fmap_cons, filter_cons. intros Hnd. inversion Hnd as [|? ? Hx Hn]; subst.
  case_decide; [|by apply IH]. rewrite fmap_cons. constructor; [|by apply IH].
  intros (y & Heq & [_ Hy]%list_elem_of_filter)%list_elem_of_fmap. apply Hx. rewrite Heq. by apply list_elem_of_fmap_2.
Qed.

Lemma list_entries_wp (r : Redis) (k : SessionKind) (subject : string) :
  wf ns r -> r_pool r = [] ->
  wp (list_session_entries_inner ns k subject)
    (fun es r' => wf ns r' /\ r_pool r' = [] /\ listing k subject (abs ns r) es (abs ns r')) r.
Proof.
  intros [Ht Ha] Hpool. unfold list_session_entries_inner.
  wp_step; wp_step. wp_step. apply (wp_smembers ns r (sess_of k) subject); [done | by destruct k |].
  wp_step. apply read_entries_wp; [done|]. intros es stale Hes Hstale. cbn [fst snd].
  assert (Hm : set_at (ent ns r (sess_of k) subject) = members_of (a_index (abs ns r) k subject))
    by (apply (set_at_members ns r (sess_of k) subject); by destruct k).
  wp_step. apply prune_dead_members_wp; [done | |].
  { intros x Hx%Hstale%elem_of_elements. by eapply set_at_ok. }
  intros removed r' T' B' Hgone. wp_step.
  destruct (abs_prune r r' k subject removed (conj Ht Ha) T' B') as [Hwf' Habs].
  split_and!; [done | by nows |]. rewrite Hm in Hes. split_and!.
  - apply NoDup_fmap_filter. rewrite Hes. apply NoDup_omap_members, NoDup_elements.
  - intros e [_ He]%list_elem_of_filter. apply (list_elem_of_fmap_2 se_session_hash) in He.
    rewrite Hes in He. apply list_elem_of_omap in He as (x & Hx%elem_of_elements & Hh).
    apply live_member_hash_spec in Hh as ->. done.
  - intros h rec t Hl Hin.
    assert (He : h ∈ se_session_hash <$> es).
    { rewrite Hes. apply list_elem_of_omap. exists (live_member k h). rewrite elem_of_elements.
      split; [done | by apply live_member_hash_spec]. }
    apply list_elem_of_fmap in He as (e & -> & He). exists e. split; [|done].
    apply list_elem_of_filter. split; [|done]. right. intros Hr.
    destruct (Hgone _ Hr) as [h' [[Heq Hn]|[Heq _]]].
    + apply live_member_inj in Heq as <-. cbn in Hl. by rewrite Hn in Hl.
    + by apply live_grace_ne in Heq.
  - exists (list_to_set removed). split; [|done].
    intros x Hx%elem_of_list_to_set. by apply gone_dead, Hgone.
Qed.

End listing.
