(* ===== verification/SessionStore.v ===== *)
(** * The session-store interface

    [SessionStore] is the trait of [crates/bymax-auth-core/src/traits/store.rs]
    the engine is written against; [SessionStoreLaws] is its contract: each
    method, called on a store that is ready to serve, answers and changes what
    [SessionSpec] says.  [redis_session_store] is the implementation of
    [crates/bymax-auth-redis/src/stores/session.rs], and
    [redis_session_store_laws] discharges the contract for it. *)

From S2P Require Import Prelude Errors Types Redis RedisSession SessionSpec RedisRefine RefineRevoke RefineListing.

Class SessionStore (S : Type) : Type := {
  create_session : SessionKind -> string -> string -> SessionRecord -> Z -> M S AuthError unit;
  create_recovered_session : SessionKind -> string -> string -> SessionRecord -> Z -> M S AuthError bool;
  rotate : SessionKind -> SessionRotation -> M S AuthError RotateOutcome;
  find_session : SessionKind -> string -> M S AuthError (option SessionRecord);
  list_session_entries : SessionKind -> string -> M S AuthError (list SessionEntry);
  list_sessions : SessionKind -> string -> M S AuthError (list SessionDetail);
  revoke_session : SessionKind -> string -> string -> M S AuthError unit;
  delete_grace_pointer : SessionKind -> string -> M S AuthError unit;
  grace_successor : SessionKind -> string -> M S AuthError (option string);
  sweep_grace_pointers : SessionKind -> string -> M S AuthError unit;
  revoke_all : SessionKind -> string -> M S AuthError unit;
  find_family_owner : SessionKind -> string -> M S AuthError (option SessionRecord);
  revoke_family : SessionKind -> string -> option string -> M S AuthError unit;
  blacklist_access : string -> Z -> M S AuthError unit;
  is_blacklisted : string -> M S AuthError bool;
  current_epoch : SessionKind -> string -> M S AuthError Z;
  bump_epoch : SessionKind -> string -> M S AuthError Z;
  mark_recent_auth : string -> Z -> M S AuthError unit;
  has_recent_auth : string -> M S AuthError bool;
}.

(** ** The contract *)

(** A ready store, what it stands for, and the records it can hold. *)
Class StoreView (S : Type) : Type := {
  ready : S -> Prop;
  stands_for : S -> AStore;
  storable : SessionRecord -> Prop;
}.

Definition answers {S E A} `{StoreView S} (m : M S E A) (s : S) (a : A) (after : AStore) : Prop :=
  exists s', m s = (Ok a, s') /\ ready s' /\ stands_for s' ≡ after.

Definition refuses {S E A} `{StoreView S} (m : M S E A) (s : S) (e : E) (after : AStore) : Prop :=
  exists s', m s = (Err e, s') /\ ready s' /\ stands_for s' ≡ after.

Record rotation_served {S} `{StoreView S} (ro : SessionRotation) : Prop := {
  rs_storable : storable (ro_new_record ro);
  rs_hash : contains_char ":" (ro_new_hash ro) = false;
  rs_ttl : 0 < ro_refresh_ttl ro;
}.
Arguments rotation_served S {_} ro.

Class SessionStoreLaws (S : Type) `{SessionStore S, StoreView S} : Prop := {
  law_create s k subject h rec ttl : ready s -> storable rec -> 0 < ttl <= i64_max ->
    answers (create_session k subject h rec ttl) s tt (a_create k subject h rec ttl (stands_for s));
  law_create_recovered s k subject h rec ttl : ready s -> storable rec -> 0 < ttl <= i64_max ->
    answers (create_recovered_session k subject h rec ttl) s
      (a_create_recovered k subject h rec ttl (stands_for s)).1
      (a_create_recovered k subject h rec ttl (stands_for s)).2;
  law_rotate s k ro : ready s -> rotation_served S ro ->
    answers (rotate k ro) s (a_rotate k ro (stands_for s)).1 (a_rotate k ro (stands_for s)).2;
  law_find s k h : ready s -> answers (find_session k h) s (a_find k h (stands_for s)) (stands_for s);
  law_list_entries s k subject : ready s ->
    exists es s', list_session_entries k subject s = (Ok es, s') /\ ready s' /\
      listing k subject (stands_for s) es (stands_for s');
  law_revoke s k subject h : ready s ->
    if (a_revoke k subject h (stands_for s)).1
    then answers (revoke_session k subject h) s tt (a_revoke k subject h (stands_for s)).2
    else refuses (revoke_session k subject h) s SessionNotFound (stands_for s);
  law_delete_grace s k h : ready s ->
    answers (delete_grace_pointer k h) s tt (a_delete_grace k h (stands_for s));
  law_grace_successor s k h : ready s ->
    answers (grace_successor k h) s (a_grace_successor k h (stands_for s)) (stands_for s);
  law_sweep s k subject : ready s ->
    answers (sweep_grace_pointers k subject) s tt (a_sweep_grace k subject (stands_for s));
  law_revoke_all s k subject : ready s ->
    answers (revoke_all k subject) s tt (a_revoke_all k subject (stands_for s));
  law_find_owner s k family : ready s ->
    exists o s', find_family_owner k family s = (Ok o, s') /\ ready s' /\
      family_owner k family (stands_for s) o /\ stands_for s' ≡ stands_for s;
  law_revoke_family s k family owner : ready s ->
    answers (revoke_family k family owner) s tt (a_revoke_family k family owner (stands_for s));
  law_blacklist s j ttl : ready s -> 0 <= ttl ->
    answers (blacklist_access j ttl) s tt (a_blacklist j ttl (stands_for s));
  law_is_blacklisted s j : ready s ->
    answers (is_blacklisted j) s (a_is_blacklisted j (stands_for s)) (stands_for s);
  law_current_epoch s k subject : ready s ->
    answers (current_epoch k subject) s (a_current_epoch k subject (stands_for s)) (stands_for s);
  law_bump_epoch s k subject : ready s -> a_current_epoch k subject (stands_for s) < i64_max ->
    answers (bump_epoch k subject) s (a_bump_epoch k subject (stands_for s)).1
      (a_bump_epoch k subject (stands_for s)).2;
  law_mark_recent s u ttl : ready s -> 0 < ttl ->
    answers (mark_recent_auth u ttl) s tt (a_mark_recent u ttl (stands_for s));
  law_has_recent s u : ready s ->
    answers (has_recent_auth u) s (a_has_recent u (stands_for s)) (stands_for s);
}.

(** ** The Redis implementation *)

Section redis.
Context `{SessionJsonLaws} (ns : string).

Definition redis_list_session_entries (k : SessionKind) (subject : string) : M Redis AuthError (list SessionEntry) :=
  served (list_session_entries_inner ns k subject).

Definition redis_list_sessions (k : SessionKind) (subject : string) : M Redis AuthError (list SessionDetail) :=
  entries ← redis_list_session_entries k subject;
  mret (omap se_detail entries).

Definition redis_revoke_session (k : SessionKind) (subject h : string) : M Redis AuthError unit :=
  owned ← served (revoke_session_inner ns k subject h);
  if owned : bool then mret tt else throw SessionNotFound.

#[export] Instance redis_session_store : SessionStore Redis := {|
  create_session k subject h rec ttl := served (create_session_inner ns k subject h rec ttl);
  create_recovered_session k subject h rec ttl := served (create_recovered_session_inner ns k subject h rec ttl);
  rotate k ro := served (rotate_inner ns k ro);
  find_session k h := served (find_session_inner ns k h);
  list_session_entries := redis_list_session_entries;
  list_sessions := redis_list_sessions;
  revoke_session := redis_revoke_session;
  delete_grace_pointer k h := served (delete_grace_pointer_inner ns k h);
  grace_successor k h := served (grace_successor_inner ns k h);
  sweep_grace_pointers k subject := served (sweep_grace_pointers_inner ns k subject);
  revoke_all k subject := served (revoke_all_inner ns k subject);
  find_family_owner k family := served (find_family_owner_inner ns k family);
  revoke_family k family owner := served (revoke_family_inner ns k family owner);
  blacklist_access j ttl := served (blacklist_access_inner ns j ttl);
  is_blacklisted j := served (is_blacklisted_inner ns j);
  current_epoch k subject := served (current_epoch_inner ns k subject);
  bump_epoch k subject := served (bump_epoch_inner ns k subject);
  mark_recent_auth u ttl := served (mark_recent_auth_inner ns u ttl);
  has_recent_auth u := served (has_recent_auth_inner ns u);
|}.

#[export] Instance redis_view : StoreView Redis := {|
  ready r := wf ns r /\ r_pool r = [];
  stands_for := abs ns;
  storable rec := is_Some (record_to_string rec);
|}.

Lemma wp_run {A} (m : R A) (Q : A -> Redis -> Prop) (r : Redis) :
  wp m Q r -> exists a r', m r = (Ok a, r') /\ Q a r'.
Proof. unfold wp. destruct (m r) as [[a|e] r']; [eauto | done]. Qed.

Lemma yields_answers {A} (m : R A) (r : Redis) (a : A) (after : AStore) :
  r_pool r = [] -> yields ns m r a after -> answers (served m) r a after.
Proof.
  intros Hp (a' & r' & Hr & -> & Hwf & Hpool & Habs)%wp_run.
  exists r'. unfold served, catch_map. rewrite Hr. split_and!; [done | split; [done | by rewrite Hpool] | done].
Qed.

Lemma redis_revoke_session_spec (r : Redis) (k : SessionKind) (subject h : string) :
  ready r ->
  if (a_revoke k subject h (stands_for r)).1
  then answers (redis_revoke_session k subject h) r tt (a_revoke k subject h (stands_for r)).2
  else refuses (redis_revoke_session k subject h) r SessionNotFound (stands_for r).
Proof.
  intros [Hwf Hp]. destruct (yields_answers _ r _ _ Hp (revoke_yields ns r k subject h Hwf Hp)) as (r' & Hr & Hrdy & Habs).
  unfold redis_revoke_session. cbn [stands_for redis_view] in *.
  destruct (a_revoke k subject h (abs ns r)).1 eqn:Ho; exists r'; rewrite (bind_ok _ _ _ _ _ Hr).
  - done.
  - split_and!; [done..|]. rewrite Habs. unfold a_revoke in Ho |- *. by case_match.
Qed.

#[export] Instance redis_session_store_laws : SessionStoreLaws Redis.
Proof.
  split.
  - intros r k subject h rec ttl [Hwf Hp] [j Hj] Ht. by apply yields_answers, (create_yields ns r k subject h j).
  - intros r k subject h rec ttl [Hwf Hp] [j Hj] Ht. by apply yields_answers, (create_recovered_yields ns r k subject h j).
  - intros r k ro [Hwf Hp] [Hj Hh Ht]. by apply yields_answers, rotate_yields.
  - intros r k h [Hwf Hp]. by apply yields_answers, find_yields.
  - intros r k subject [Hwf Hp].
    destruct (wp_run _ _ _ (list_entries_wp ns r k subject Hwf Hp)) as (es & r' & Hr & Hwf' & Hp' & Hl).
    exists es, r'. split_and!; [|done..]. cbn. unfold redis_list_session_entries, served, catch_map. by rewrite Hr.
  - apply redis_revoke_session_spec.
  - intros r k h [Hwf Hp]. by apply yields_answers, delete_grace_yields.
  - intros r k h [Hwf Hp]. by apply yields_answers, grace_successor_yields.
  - intros r k subject [Hwf Hp]. by apply yields_answers, sweep_grace_yields.
  - intros r k subject [Hwf Hp]. by apply yields_answers, revoke_all_yields.
  - intros r k family [Hwf Hp].
    destruct (wp_run _ _ _ (find_family_owner_wp ns r k family Hwf Hp)) as (o & r' & Hr & -> & Ho).
    exists o, r. split_and!; [|done..]. cbn. unfold served, catch_map. by rewrite Hr.
  - intros r k family owner [Hwf Hp]. by apply yields_answers, revoke_family_yields.
  - intros r j ttl [Hwf Hp] Ht. by apply yields_answers, blacklist_yields.
  - intros r j [Hwf Hp]. by apply yields_answers, is_blacklisted_yields.
  - intros r k subject [Hwf Hp]. by apply yields_answers, current_epoch_yields.
  - intros r k subject [Hwf Hp] Hlt. by apply yields_answers, bump_epoch_yields.
  - intros r u ttl [Hwf Hp] Ht. by apply yields_answers, mark_recent_yields.
  - intros r u [Hwf Hp]. by apply yields_answers, has_recent_yields.
Qed.

End redis.
