(* ===== verification/Lineage.v ===== *)
(** * What the session contract gives the engine

    The life of a session store as sequences of contract operations, time
    passing included, in any order and for any number of accounts.  Rule
    induction gives the invariant that makes "sign out everywhere" and reuse
    detection sound: every live session and every recoverable pointer is named
    by its owner's index, every live session is named by its family, and neither
    the index nor the family dies before what it names. *)

From S2P Require Import Prelude Errors Types Redis RedisSession SessionSpec RedisRefine RefineRevoke RefineListing.

Inductive Op : Type :=
| OpCreate (k : SessionKind) (subject h : string) (rec : SessionRecord)
| OpRecover (k : SessionKind) (subject h : string) (rec : SessionRecord)
| OpRotate (k : SessionKind) (ro : SessionRotation)
| OpRevoke (k : SessionKind) (subject h : string)
| OpDeleteGrace (k : SessionKind) (h : string)
| OpRevokeAll (k : SessionKind) (subject : string)
| OpRevokeFamily (k : SessionKind) (family : string) (owner : option string)
| OpSweepGrace (k : SessionKind) (subject : string)
| OpList (k : SessionKind) (subject : string)
| OpAdvance (ms : Z).

(** Two stores hold the same sessions: they differ at most in epochs, denylisted
    tokens and recent-authentication marks. *)
Record same_sessions (a b : AStore) : Prop := {
  ss_now : a_now a = a_now b;
  ss_live k h : a_live a k h = a_live b k h;
  ss_grace k h : a_grace a k h = a_grace b k h;
  ss_consumed k h : a_consumed a k h = a_consumed b k h;
  ss_family k h : a_family a k h = a_family b k h;
  ss_index k h : a_index a k h = a_index b k h;
}.
Infix "≈" := same_sessions (at level 70) : auth_scope.
#[local] Open Scope auth_scope.

#[export] Instance same_sessions_equivalence : Equivalence same_sessions.
Proof.
  split.
  - by intros a.
  - intros a b []. split; intros; symmetry; auto.
  - intros a b c [] []. split; intros; etrans; eauto.
Qed.

Lemma equiv_same (a b : AStore) : a ≡ b -> a ≈ b.
Proof. by intros []. Qed.

(** What is left of an index that forgot some members. *)
Lemma members_drops (o : option (gset string * Z)) (xs : gset string) : members_of (drop_members o xs) = members_of o ∖ xs.
Proof. destruct o as [[m t]|]; cbn; [case_bool_decide; cbn; set_solver | set_solver]. Qed.

Lemma members_drop (o : option (gset string * Z)) (x : string) : members_of (drop_member o x) = members_of o ∖ {[x]}.
Proof. apply (members_drops o {[x]}). Qed.

Section lineage.
(** [owner] is the account a record belongs to, [ttl] the configured refresh
    lifetime in seconds. *)
Context (owner : SessionKind -> SessionRecord -> string) (ttl : Z).

Definition apply (op : Op) (a : AStore) : AStore :=
  match op with
  | OpCreate k subject h rec => a_create k subject h rec ttl a
  | OpRecover k subject h rec => (a_create_recovered k subject h rec ttl a).2
  | OpRotate k ro => (a_rotate k ro a).2
  | OpRevoke k subject h => (a_revoke k subject h a).2
  | OpDeleteGrace k h => a_delete_grace k h a
  | OpRevokeAll k subject => a_revoke_all k subject a
  | OpRevokeFamily k family o => a_revoke_family k family o a
  | OpSweepGrace k subject => a_sweep_grace k subject a
  | OpList _ _ => a
  | OpAdvance ms => a_advance ms a
  end.

(** What the engine asks for: a session is filed under the account of its
    record, and a rotation keeps the account and the family of the session it
    replaces and uses the configured lifetimes. *)
Definition admissible (a : AStore) (op : Op) : Prop :=
  match op with
  | OpCreate k subject h rec | OpRecover k subject h rec => subject = owner k rec
  | OpRotate k ro =>
      ro_subject_hash ro = owner k (ro_new_record ro) /\
      ro_refresh_ttl ro = ttl /\ ro_grace_ttl ro <= ttl /\
      (forall rec t, a_live a k (ro_old_hash ro) = Some (rec, t) ->
         owner k rec = owner k (ro_new_record ro) /\ sr_family_id rec = sr_family_id (ro_new_record ro))
  | OpList _ _ => False
  | _ => True
  end.

(** The index after a listing dropped some members. *)
Definition prune (k : SessionKind) (subject : string) (dead : gset string) (a : AStore) : AStore :=
  set_index k subject (drop_members (a_index a k subject) dead) a.

(** One step, up to what session lookups can tell.  A listing may drop any set of
    index members whose entry is gone. *)
Inductive step (a : AStore) : Op -> AStore -> Prop :=
| step_apply op a' : admissible a op -> a' ≈ apply op a -> step a op a'
| step_list k subject dead a' :
    (forall x, x ∈ dead -> dead_member k a x) -> a' ≈ prune k subject dead a -> step a (OpList k subject) a'.

Inductive steps : AStore -> list Op -> AStore -> Prop :=
| steps_nil a a' : a' ≈ a -> steps a [] a'
| steps_cons a op a1 ops a' : step a op a1 -> steps a1 ops a' -> steps a (op :: ops) a'.

(** ** The invariant *)

Definition named (o : option (gset string * Z)) (x : string) (t : Z) : Prop :=
  exists m t', o = Some (m, t') /\ x ∈ m /\ t <= t'.

Record sound (a : AStore) : Prop := {
  snd_live k h rec t : a_live a k h = Some (rec, t) -> named (a_index a k (owner k rec)) (live_member k h) t;
  snd_grace k h s rec t :
    a_grace a k h = Some (s, rec, t) -> named (a_index a k (owner k rec)) (grace_member k h) t;
  snd_family k h rec t :
    a_live a k h = Some (rec, t) -> sr_family_id rec <> "" -> named (a_family a k (sr_family_id rec)) h t;
  snd_live_ttl k h rec t : a_live a k h = Some (rec, t) -> t <= until ttl a;
  snd_grace_ttl k h s rec t : a_grace a k h = Some (s, rec, t) -> t <= until ttl a;
}.

Lemma sound_equiv (a b : AStore) : a ≈ b -> sound a -> sound b.
Proof.
  intros [En El Eg Ec Ef Ei] [Sl Sg Sf Tl Tg].
  split; intros *; unfold until in *; rewrite <-?El, <-?Eg, <-?Ei, <-?Ef, <-?En; eauto.
Qed.

Lemma named_add (o : option (gset string * Z)) (x y : string) (t at_ms : Z) :
  named o x t -> t <= at_ms -> named (add_member o y at_ms) x t.
Proof. intros (m & t' & -> & Hx & Ht) Hat. exists ({[y]} ∪ m), at_ms. set_solver. Qed.

Lemma named_add_self (o : option (gset string * Z)) (x : string) (t at_ms : Z) :
  t <= at_ms -> named (add_member o x at_ms) x t.
Proof. intros. do 2 eexists. split; [done|]. split; [set_solver | lia]. Qed.

Lemma named_drop (o : option (gset string * Z)) (x y : string) (t : Z) :
  named o x t -> x <> y -> named (drop_member o y) x t.
Proof.
  intros (m & t' & -> & Hx & Ht) Hy. simpl. rewrite bool_decide_eq_false_2 by set_solver.
  do 2 eexists. split; [done|]. set_solver.
Qed.

Lemma named_drops (o : option (gset string * Z)) (x : string) (ys : gset string) (t : Z) :
  named o x t -> x ∉ ys -> named (drop_members o ys) x t.
Proof.
  intros (m & t' & -> & Hx & Ht) Hy. simpl. rewrite bool_decide_eq_false_2 by set_solver.
  do 2 eexists. split; [done|]. set_solver.
Qed.

Lemma named_survives (o : option (gset string * Z)) (x : string) (t now : Z) :
  named o x t -> now <= t -> named (survives now o) x t.
Proof.
  intros (m & t' & -> & Hx & Ht) Hn. simpl. rewrite bool_decide_eq_false_2 by lia. by exists m, t'.
Qed.

Lemma survives_Some {A} (now : Z) (o : option (A * Z)) (x : A) (t : Z) :
  survives now o = Some (x, t) -> o = Some (x, t) /\ now <= t.
Proof. unfold survives. destruct o as [[y t']|]; [|done]. case_bool_decide; [done|]. intros [= <- <-]. split; [done|lia]. Qed.

Lemma string_is_empty_true (x : string) : string_is_empty x = true <-> x = "".
Proof. by destruct x. Qed.

Lemma string_is_empty_inv (x : string) : string_is_empty x = true -> x = "".
Proof. by destruct x. Qed.

Hint Resolve named_add named_add_self named_drop named_drops : auth.

Lemma live_member_ne (k : SessionKind) (h h' : string) : h <> h' -> live_member k h <> live_member k h'.
Proof. intros Hne Heq. by apply Hne, (live_member_inj k). Qed.

Lemma grace_live_ne (k : SessionKind) (h h' : string) : grace_member k h <> live_member k h'.
Proof. intros Heq. by apply (live_grace_ne k k h' h). Qed.

Hint Resolve live_member_ne grace_live_ne : auth.
Hint Extern 1 (_ <> _) => (apply not_eq_sym; assumption) : auth.
Hint Extern 4 (_ <= _) => lia : auth.

(** Case on every updated key, then use what the pre-state says. *)
Ltac solve_sound :=
  split; [intros k' h' rec' t' | intros k' h' s' rec' t' | intros k' h' rec' t'
         | intros k' h' rec' t' | intros k' h' s' rec' t'];
  unfold until in *; cbn; unfold upd; repeat case_decide; destruct_and?; intros; simplify_eq/=;
  repeat match goal with
    | Hn : ~ (_ /\ _) |- _ => solve [exfalso; apply Hn; by split]
    | Hn : ~ (?x = ?x /\ ?p) |- _ => assert (~ p) by (intros ?; apply Hn; by split); clear Hn
    | He : _ = owner _ _ |- _ => rewrite He in *
    | He : _ = sr_family_id _ |- _ => rewrite He in *
    end;
  try done; try lia; eauto 9 with auth.

(** Filing a session under its owner and its family. *)
Lemma create_sound (k : SessionKind) (h : string) (rec : SessionRecord) (a : AStore) :
  sound a -> sound (a_create k (owner k rec) h rec ttl a).
Proof.
  intros [Sl Sg Sf Tl Tg]. unfold a_create, family_add, until in *.
  destruct (string_is_empty (sr_family_id rec)) eqn:Hf;
    [apply string_is_empty_true in Hf|]; solve_sound.
Qed.

Lemma recover_sound (k : SessionKind) (h : string) (rec : SessionRecord) (a : AStore) :
  sound a -> sound (a_create_recovered k (owner k rec) h rec ttl a).2.
Proof. intros Ha. unfold a_create_recovered. case_match; [by apply create_sound | done]. Qed.

Lemma rotated_sound (k : SessionKind) (ro : SessionRotation) (a : AStore) :
  sound a -> ro_subject_hash ro = owner k (ro_new_record ro) -> ro_refresh_ttl ro = ttl ->
  ro_grace_ttl ro <= ttl -> sound (a_rotated k ro a).
Proof.
  intros [Sl Sg Sf Tl Tg] Hs Ht Hg. unfold a_rotated. rewrite Hs, Ht.
  destruct (bool_decide (0 < ro_grace_ttl ro)); destruct (string_is_empty _) eqn:Hf;
    try apply string_is_empty_true in Hf; solve_sound.
Qed.

Lemma set_grace_none_sound (k : SessionKind) (h : string) (a : AStore) :
  sound a -> sound (set_grace k h None a).
Proof. intros [Sl Sg Sf Tl Tg]. solve_sound. Qed.

Lemma rotate_sound (k : SessionKind) (ro : SessionRotation) (a : AStore) :
  sound a -> admissible a (OpRotate k ro) -> sound (a_rotate k ro a).2.
Proof.
  intros Ha (Hs & Ht & Hg & _). unfold a_rotate.
  repeat case_match; simpl; auto using rotated_sound, set_grace_none_sound.
Qed.

Lemma revoke_sound (k : SessionKind) (subject h : string) (a : AStore) :
  sound a -> sound (a_revoke k subject h a).2.
Proof. intros Ha. unfold a_revoke. case_match; [|done]. destruct Ha as [Sl Sg Sf Tl Tg]. solve_sound. Qed.

Lemma revoke_all_sound (k : SessionKind) (subject : string) (a : AStore) :
  sound a -> sound (a_revoke_all k subject a).
Proof.
  intros [Sl Sg Sf Tl Tg]. unfold a_revoke_all. solve_sound.
  - edestruct Sl as (m & t & Hi & Hm & _); [eassumption|]. rewrite Hi in *. set_solver.
  - edestruct Sg as (m & t & Hi & Hm & _); [eassumption|]. rewrite Hi in *. set_solver.
Qed.

Lemma not_in_family_members (k : SessionKind) (h : string) (m : gset string) :
  h ∉ m -> live_member k h ∉ (set_map (live_member k) m : gset string).
Proof. intros Hm (h' & Heq & Hin)%elem_of_map. apply live_member_inj in Heq as ->. done. Qed.

Lemma grace_not_in_family_members (k : SessionKind) (h : string) (m : gset string) :
  grace_member k h ∉ (set_map (live_member k) m : gset string).
Proof. intros (h' & Heq & Hin)%elem_of_map. by apply (grace_live_ne k h h'). Qed.

Hint Resolve not_in_family_members grace_not_in_family_members : auth.

Lemma revoke_family_sound (k : SessionKind) (family : string) (o : option string) (a : AStore) :
  sound a -> sound (a_revoke_family k family o a).
Proof.
  intros Ha. unfold a_revoke_family. case_match; [done|]. destruct Ha as [Sl Sg Sf Tl Tg].
  destruct o; solve_sound.
  all: edestruct Sf as (m & t & Hi & Hm & _); [eassumption..|]; rewrite Hi in *; set_solver.
Qed.

Lemma advance_sound (ms : Z) (a : AStore) : sound a -> sound (a_advance ms a).
Proof.
  intros [Sl Sg Sf Tl Tg].
  split; intros *; cbn; intros [Hl Hn]%survives_Some; intros; unfold until in *; cbn;
    try (eapply named_survives; [|done]); eauto; apply Tl in Hl || apply Tg in Hl; lia.
Qed.

Lemma sweep_sound (k : SessionKind) (subject : string) (a : AStore) :
  sound a -> sound (a_sweep_grace k subject a).
Proof.
  intros [Sl Sg Sf Tl Tg]. unfold a_sweep_grace. solve_sound.
  - edestruct Sl as (m & t & Hi & Hm & Ht); [eassumption|]. eapply named_drops; [by exists m, t|].
    intros [[hh Hx]%starts_with_grace _]%elem_of_filter. by apply live_grace_ne in Hx.
  - edestruct Sg as (m & t & Hi & Hm & _); [eassumption|]. rewrite Hi in *. set_solver.
Qed.

Lemma prune_sound (k : SessionKind) (subject : string) (dead : gset string) (a : AStore) :
  sound a -> (forall x, x ∈ dead -> dead_member k a x) ->
  sound (prune k subject dead a).
Proof.
  intros [Sl Sg Sf Tl Tg] Hdead. solve_sound.
  - apply named_drops; [eauto|]. intros [hh [[Hx Hn]|[Hx Hn]]]%Hdead.
    + apply live_member_inj in Hx as <-. congruence.
    + by apply live_grace_ne in Hx.
  - apply named_drops; [eauto|]. intros [hh [[Hx Hn]|[Hx Hn]]]%Hdead.
    + by apply grace_live_ne in Hx.
    + apply grace_member_inj in Hx as <-. congruence.
Qed.

Lemma apply_sound (a : AStore) (op : Op) : sound a -> admissible a op -> sound (apply op a).
Proof.
  intros Ha Hadm. destruct op; cbn [apply]; [.. | by apply advance_sound];
    [simpl in Hadm; subst; by apply create_sound | simpl in Hadm; subst; by apply recover_sound
    | by apply rotate_sound | by apply revoke_sound | by apply set_grace_none_sound
    | by apply revoke_all_sound | by apply revoke_family_sound | by apply sweep_sound | done].
Qed.

Lemma steps_sound (a : AStore) (ops : list Op) (a' : AStore) : steps a ops a' -> sound a -> sound a'.
Proof.
  induction 1 as [a a' He|a op a1 ops a' Hs _ IH];
    [intros Ha; eapply sound_equiv; [symmetry; exact He | done]|]. intros Ha. apply IH.
  destruct Hs as [op a1 Hadm He|k s dead a1 Hd He]; (eapply sound_equiv; [symmetry; exact He|]);
    [by apply apply_sound | by apply prune_sound].
Qed.

(** An empty store. *)
Definition a_empty (now : Z) : AStore :=
  {| a_now := now; a_live _ _ := None; a_grace _ _ := None; a_consumed _ _ := None;
     a_family _ _ := None; a_index _ _ := None;
     a_epoch _ _ := None; a_revoked _ := None; a_recent _ := None |}.

Lemma empty_sound (now : Z) : sound (a_empty now).
Proof. by split. Qed.

(** ** Sign out everywhere *)

(** The account has nothing a refresh token could use. *)
Definition signed_out (a : AStore) (k : SessionKind) (subject : string) : Prop :=
  (forall h rec t, a_live a k h = Some (rec, t) -> owner k rec <> subject) /\
  (forall h s rec t, a_grace a k h = Some (s, rec, t) -> owner k rec <> subject) /\
  a_index a k subject = None.

Lemma signed_out_equiv (a b : AStore) (k : SessionKind) (subject : string) :
  a ≈ b -> signed_out a k subject -> signed_out b k subject.
Proof.
  intros [En El Eg Ec Ef Ei] (Hl & Hg & Hi).
  split_and!; intros *; rewrite <-?El, <-?Eg, <-?Ei; eauto.
Qed.

Lemma revoke_all_signs_out (a : AStore) (k : SessionKind) (subject : string) :
  sound a -> signed_out (a_revoke_all k subject a) k subject.
Proof.
  intros [Sl Sg _ _ _]. unfold a_revoke_all. split_and!; cbn.
  - intros h rec t. case_decide as Hd; [done|]. intros Hl <-. apply Hd. split; [done|].
    destruct (Sl _ _ _ _ Hl) as (m & t' & -> & Hm & _). done.
  - intros h s rec t. case_decide as Hd; [done|]. intros Hg <-. apply Hd. split; [done|].
    destruct (Sg _ _ _ _ _ Hg) as (m & t' & -> & Hm & _). done.
  - by rewrite upd_at, decide_True.
Qed.

(** Only a fresh sign-in files a new session for the account. *)
Definition no_sign_in (k : SessionKind) (subject : string) (op : Op) : Prop :=
  match op with OpCreate k' s _ _ => k' = k -> s <> subject | _ => True end.

(** Case on every updated key of the account's keyspaces. *)
Ltac solve_signed_out :=
  split_and!; [intros h' rec' t' | intros h' s' rec' t' |];
  cbn; unfold upd; repeat case_decide; destruct_and?; intros; simplify_eq/=;
  repeat match goal with Hn : ~ (_ /\ _) |- _ => solve [exfalso; apply Hn; by split] end;
  eauto.

Lemma create_signed_out (a : AStore) (k k' : SessionKind) (subject h : string) (rec : SessionRecord) :
  signed_out a k subject -> (k' = k -> owner k' rec <> subject) ->
  signed_out (a_create k' (owner k' rec) h rec ttl a) k subject.
Proof.
  intros (Hl & Hg & Hi) Hno. unfold a_create, family_add.
  case_match; solve_signed_out; exfalso; by eapply Hno.
Qed.

Lemma recover_signed_out (a : AStore) (k k' : SessionKind) (subject h : string) (rec : SessionRecord) :
  signed_out a k subject -> signed_out (a_create_recovered k' (owner k' rec) h rec ttl a).2 k subject.
Proof.
  intros Ha. unfold a_create_recovered.
  destruct (bool_decide (is_Some (a_index a k' (owner k' rec)))) eqn:Hi; [|done]. simpl.
  case_match; [|done]. apply create_signed_out; [done|]. intros -> Ho.
  apply bool_decide_eq_true in Hi. destruct Ha as (_ & _ & Hn). rewrite Ho, Hn in Hi. by destruct Hi.
Qed.

Lemma rotate_signed_out (a : AStore) (k k' : SessionKind) (subject : string) (ro : SessionRotation) :
  signed_out a k subject -> admissible a (OpRotate k' ro) -> signed_out (a_rotate k' ro a).2 k subject.
Proof.
  intros (Hl & Hg & Hi) (Hs & _ & _ & Hold). unfold a_rotate.
  assert (Hgr : signed_out (set_grace k' (ro_old_hash ro) None a) k subject) by solve_signed_out.
  destruct (a_live a k' (ro_old_hash ro)) as [[rec t]|] eqn:Hlive.
  - assert (Hne : k' = k -> owner k' (ro_new_record ro) <> subject).
    { intros ->. destruct (Hold rec t eq_refl) as [<- _]. eauto. }
    unfold a_rotated. simpl. rewrite Hs.
    case_match; case_match; solve_signed_out; exfalso; by eapply Hne.
  - by repeat case_match.
Qed.

Lemma signed_out_step (a : AStore) (op : Op) (k : SessionKind) (subject : string) :
  signed_out a k subject -> admissible a op -> no_sign_in k subject op ->
  signed_out (apply op a) k subject.
Proof.
  intros Ha Hadm Hno. pose proof Ha as (Hl & Hg & Hi).
  destruct op as [k' s h rec|k' s h rec|k' ro|k' s h|k' h|k' s|k' f o|k' s|k' s|ms]; cbn [apply].
  - simpl in Hadm, Hno. subst s. by apply create_signed_out.
  - simpl in Hadm. subst s. by apply recover_signed_out.
  - by apply rotate_signed_out.
  - unfold a_revoke. case_match; [|done]. solve_signed_out. by rewrite Hi.
  - unfold a_delete_grace. solve_signed_out.
  - unfold a_revoke_all. solve_signed_out.
  - unfold a_revoke_family. case_match; [done|]. destruct o; solve_signed_out. by rewrite Hi.
  - unfold a_sweep_grace. solve_signed_out. by rewrite Hi.
  - done.
  - split_and!; cbn; [intros ? ? ? [? ?]%survives_Some | intros ? ? ? ? [? ?]%survives_Some | by rewrite Hi]; eauto.
Qed.

Lemma prune_signed_out (a : AStore) (k k' : SessionKind) (subject s : string) (dead : gset string) :
  signed_out a k subject -> signed_out (prune k' s dead a) k subject.
Proof. intros (Hl & Hg & Hi). unfold prune. solve_signed_out. by rewrite Hi. Qed.

Lemma signed_out_steps (a a' : AStore) (ops : list Op) (k : SessionKind) (subject : string) :
  steps a ops a' -> Forall (no_sign_in k subject) ops ->
  signed_out a k subject -> signed_out a' k subject.
Proof.
  induction 1 as [a a' He|a op a1 ops a' Hs _ IH];
    [intros _ Ha; eapply signed_out_equiv; [symmetry; exact He | done]|]. intros [Hno Hnos]%Forall_cons_1 Ha. apply IH; [done|].
  destruct Hs as [op a1 Hadm He|k0 s dead a1 Hd He]; (eapply signed_out_equiv; [symmetry; exact He|]);
    [by apply signed_out_step | by apply prune_signed_out].
Qed.

(** ** Revoked lineages *)

Definition dead_family (a : AStore) (k : SessionKind) (f : string) : Prop :=
  (forall h rec t, a_live a k h = Some (rec, t) -> sr_family_id rec <> f) /\ a_family a k f = None.

Lemma dead_family_equiv (a b : AStore) (k : SessionKind) (f : string) :
  a ≈ b -> dead_family a k f -> dead_family b k f.
Proof. intros [En El Eg Ec Ef Ei] [Hl Hf]. split; intros *; rewrite <-?El, <-?Ef; eauto. Qed.

Lemma revoke_family_kills (a : AStore) (k : SessionKind) (f : string) (o : option string) :
  sound a -> f <> "" -> dead_family (a_revoke_family k f o a) k f.
Proof.
  intros [_ _ Sf _ _] Hne. unfold a_revoke_family. destruct (string_is_empty f) eqn:Hf.
  { by apply string_is_empty_true in Hf. }
  split; [|destruct o; cbn; by rewrite upd_at, decide_True].
  intros h rec t Hl <-.
  assert (Hl' : (if decide (k = k /\ h ∈ members_of (a_family a k (sr_family_id rec))) then None else a_live a k h)
                = Some (rec, t)) by by destruct o.
  case_decide as Hd; [done|]. apply Hd. split; [done|].
  destruct (Sf _ _ _ _ Hl' Hne) as (m & t' & -> & Hm & _). done.
Qed.

(** A family identifier is drawn once, at sign-in. *)
Definition no_new_family (k : SessionKind) (f : string) (op : Op) : Prop :=
  match op with OpCreate k' _ _ rec => k' = k -> sr_family_id rec <> f | _ => True end.

Ltac solve_dead :=
  split; [intros h' rec' t' |];
  cbn; unfold upd; repeat case_decide; destruct_and?; intros; simplify_eq/=;
  repeat match goal with Hn : ~ (_ /\ _) |- _ => solve [exfalso; apply Hn; by split] end;
  eauto.

Lemma create_dead (a : AStore) (k k' : SessionKind) (f subject h : string) (rec : SessionRecord) :
  dead_family a k f -> (k' = k -> sr_family_id rec <> f) ->
  dead_family (a_create k' subject h rec ttl a) k f.
Proof.
  intros [Hl Hf] Hno. unfold a_create, family_add. case_match; solve_dead; exfalso; by eapply Hno.
Qed.

Lemma dead_family_step (a : AStore) (op : Op) (k : SessionKind) (f : string) :
  f <> "" -> dead_family a k f -> admissible a op -> no_new_family k f op -> dead_family (apply op a) k f.
Proof.
  intros Hne Ha Hadm Hno. pose proof Ha as [Hl Hf].
  destruct op as [k' s h rec|k' s h rec|k' ro|k' s h|k' h|k' s|k' f' o|k' s|k' s|ms]; cbn [apply].
  - by apply create_dead.
  - unfold a_create_recovered. destruct (_ && _) eqn:Hc; [|done]. apply andb_true_iff in Hc as [_ Hal].
    apply create_dead; [done|]. intros -> Heq. unfold family_alive in Hal.
    apply orb_true_iff in Hal as [He%string_is_empty_inv|Hs%bool_decide_eq_true]; [congruence|].
    rewrite Heq, Hf in Hs. by destruct Hs.
  - destruct Hadm as (_ & _ & _ & Hold). unfold a_rotate.
    destruct (a_live a k' (ro_old_hash ro)) as [[rec t]|] eqn:Hlive; [|by repeat case_match].
    assert (Hnew : k' = k -> sr_family_id (ro_new_record ro) <> f).
    { intros ->. destruct (Hold rec t eq_refl) as [_ <-]. eauto. }
    unfold a_rotated. simpl. repeat case_match; solve_dead; exfalso; by eapply Hnew.
  - unfold a_revoke. case_match; [|done]. solve_dead.
  - unfold a_delete_grace. solve_dead.
  - unfold a_revoke_all. solve_dead.
  - unfold a_revoke_family. case_match; [done|]. destruct o; solve_dead.
  - unfold a_sweep_grace. solve_dead.
  - done.
  - split; cbn; [intros ? ? ? [? ?]%survives_Some | by rewrite Hf]; eauto.
Qed.

Lemma prune_dead (a : AStore) (k k' : SessionKind) (f s : string) (dead : gset string) :
  dead_family a k f -> dead_family (prune k' s dead a) k f.
Proof. intros [Hl Hf]. unfold prune. solve_dead. Qed.

Lemma dead_family_steps (a a' : AStore) (ops : list Op) (k : SessionKind) (f : string) :
  f <> "" -> steps a ops a' -> Forall (no_new_family k f) ops -> dead_family a k f -> dead_family a' k f.
Proof.
  intros Hne. induction 1 as [a a' He|a op a1 ops a' Hs _ IH];
    [intros _ Ha; eapply dead_family_equiv; [symmetry; exact He | done]|].
  intros [Hno Hnos]%Forall_cons_1 Ha. apply IH; [done|].
  destruct Hs as [op a1 Hadm He|k0 s dead a1 Hd He]; (eapply dead_family_equiv; [symmetry; exact He|]);
    [by apply dead_family_step | by apply prune_dead].
Qed.

(** No answer hands out a session of a dead lineage. *)
Lemma dead_family_rotate (a : AStore) (k : SessionKind) (f : string) (ro : SessionRotation) (rec : SessionRecord) :
  dead_family a k f -> f <> "" ->
  (a_rotate k ro a).1 = Rotated rec \/ (a_rotate k ro a).1 = Grace rec -> sr_family_id rec <> f.
Proof.
  intros [Hl Hf] Hne. unfold a_rotate, a_reuse_check.
  destruct (a_live a k (ro_old_hash ro)) as [[rec0 t]|] eqn:Hlive; simpl.
  { intros [[= <-]|?]; [|done]. eauto. }
  repeat case_match; simpl; intros [?|?]; simplify_eq.
  intros Heq. match goal with Hal : family_alive _ _ _ = true |- _ => unfold family_alive in Hal;
    apply orb_true_iff in Hal as [He%string_is_empty_inv|Hs%bool_decide_eq_true] end; [congruence|].
  cbn in Hs. rewrite Heq, Hf in Hs. by destruct Hs.
Qed.

(** ** Single use *)

(** The operation does not file a session under [h]. *)
Definition never_files (k : SessionKind) (h : string) (op : Op) : Prop :=
  match op with
  | OpCreate k' _ h' _ | OpRecover k' _ h' _ => k' = k -> h' <> h
  | OpRotate k' ro => k' = k -> ro_new_hash ro <> h
  | _ => True
  end.

Definition spent (a : AStore) (k : SessionKind) (h f : string) (t : Z) : Prop :=
  a_live a k h = None /\ (a_now a <= t -> a_consumed a k h = Some (f, t)).

Lemma spent_equiv (a b : AStore) (k : SessionKind) (h f : string) (t : Z) :
  a ≈ b -> spent a k h f t -> spent b k h f t.
Proof. intros [En El Eg Ec Ef Ei] [Hl Hc]. split; rewrite <-?El, <-?Ec, <-?En; eauto. Qed.

Lemma rotated_spends (a : AStore) (k : SessionKind) (ro : SessionRotation) :
  sr_family_id (ro_new_record ro) <> "" ->
  spent (a_rotated k ro a) k (ro_old_hash ro) (sr_family_id (ro_new_record ro)) (until (ro_refresh_ttl ro) a).
Proof.
  intros Hf. unfold a_rotated. destruct (string_is_empty _) eqn:He; [by apply string_is_empty_true in He|].
  split; [cbn; by rewrite upd_at, decide_True|]. intros _. case_match; cbn; by rewrite upd_at, decide_True.
Qed.

Ltac solve_spent :=
  split; cbn; unfold upd; repeat case_decide; destruct_and?; intros; simplify_eq/=; try done; eauto.

Lemma spent_step (a : AStore) (op : Op) (k : SessionKind) (h f : string) (t : Z) :
  spent a k h f t -> never_files k h op -> spent (apply op a) k h f t.
Proof.
  intros [Hl Hc] Hno.
  destruct op as [k' s h' rec|k' s h' rec|k' ro|k' s h'|k' h'|k' s|k' f' o|k' s|k' s|ms]; cbn [apply]; simpl in Hno.
  - unfold a_create, family_add. case_match; solve_spent; exfalso; by eapply Hno.
  - unfold a_create_recovered. case_match; [|done].
    unfold a_create, family_add. case_match; solve_spent; exfalso; by eapply Hno.
  - unfold a_rotate. destruct (a_live a k' (ro_old_hash ro)) as [[rec0 t0]|] eqn:Hlive; [|by repeat case_match].
    unfold a_rotated. simpl. repeat case_match; solve_spent; try (exfalso; by eapply Hno); congruence.
  - unfold a_revoke. case_match; [|done]. solve_spent.
  - unfold a_delete_grace. solve_spent.
  - unfold a_revoke_all. solve_spent.
  - unfold a_revoke_family. case_match; [done|]. destruct o; solve_spent.
  - unfold a_sweep_grace. solve_spent.
  - done.
  - split; cbn; [by rewrite Hl|]. intros Ht. rewrite Hc by lia. simpl. by rewrite bool_decide_eq_false_2 by lia.
Qed.

Lemma prune_spent (a : AStore) (k k' : SessionKind) (h f s : string) (t : Z) (dead : gset string) :
  spent a k h f t -> spent (prune k' s dead a) k h f t.
Proof. intros [Hl Hc]. unfold prune. solve_spent. Qed.

Lemma spent_steps (a a' : AStore) (ops : list Op) (k : SessionKind) (h f : string) (t : Z) :
  steps a ops a' -> Forall (never_files k h) ops -> spent a k h f t -> spent a' k h f t.
Proof.
  induction 1 as [a a' He|a op a1 ops a' Hs _ IH];
    [intros _ Ha; eapply spent_equiv; [symmetry; exact He | done]|]. intros [Hno Hnos]%Forall_cons_1 Ha. apply IH; [done|].
  destruct Hs as [op a1 Hadm He|k0 s dead a1 Hd He]; (eapply spent_equiv; [symmetry; exact He|]);
    [by apply spent_step | by apply prune_spent].
Qed.

(** A spent token never rotates; while its marker lives and its pointer is gone
    or stale, presenting it names the family it belongs to. *)
Lemma spent_rotate (a : AStore) (k : SessionKind) (ro : SessionRotation) (f : string) (t : Z) :
  spent a k (ro_old_hash ro) f t ->
  (forall rec, (a_rotate k ro a).1 <> Rotated rec) /\
  (a_now a <= t ->
   (forall s rec t', a_grace a k (ro_old_hash ro) = Some (s, rec, t') -> a_live a k s = None) ->
   (a_rotate k ro a).1 = Reused f).
Proof.
  intros [Hl Hc]. unfold a_rotate, a_reuse_check. rewrite Hl. split; [by repeat case_match|].
  intros Ht Hg. specialize (Hc Ht). destruct (a_grace a k (ro_old_hash ro)) as [[[s rec] t']|]; simpl; [|by rewrite Hc].
  rewrite (Hg s rec t' eq_refl). simpl. by rewrite Hc.
Qed.

End lineage.
