(* ===== verification/RedisLife.v ===== *)
(** * The life of a Redis session store

    Sequences of calls of the store's own methods on one database, in any order
    and for any accounts, with time passing between them.  Each call is a step
    of [Lineage], so its invariants hold of every database such a life reaches. *)

From S2P Require Import Prelude Errors Types Redis RedisSession SessionSpec RedisRefine RefineRevoke RefineListing SessionStore Lineage.

Section life.
Context `{SessionJsonLaws} (ns : string).
Context (owner : SessionKind -> SessionRecord -> string) (ttl : Z).

#[local] Instance life_store : SessionStore Redis := redis_session_store ns.
#[local] Instance life_view : StoreView Redis := redis_view ns.
#[local] Instance life_laws : SessionStoreLaws Redis := redis_session_store_laws ns.

(** One call that the store answered, labelled with the operation it performs. *)
Inductive call (r : Redis) : Op -> Redis -> Prop :=
| call_create k h rec r' :
    storable rec -> create_session k (owner k rec) h rec ttl r = (Ok tt, r') ->
    call r (OpCreate k (owner k rec) h rec) r'
| call_recover k h rec b r' :
    storable rec -> create_recovered_session k (owner k rec) h rec ttl r = (Ok b, r') ->
    call r (OpRecover k (owner k rec) h rec) r'
| call_rotate k ro out r' :
    rotation_served Redis ro -> admissible owner ttl (stands_for r) (OpRotate k ro) ->
    rotate k ro r = (Ok out, r') -> call r (OpRotate k ro) r'
| call_revoke k subject h res r' :
    revoke_session k subject h r = (res, r') -> call r (OpRevoke k subject h) r'
| call_delete_grace k h r' : delete_grace_pointer k h r = (Ok tt, r') -> call r (OpDeleteGrace k h) r'
| call_revoke_all k subject r' : revoke_all k subject r = (Ok tt, r') -> call r (OpRevokeAll k subject) r'
| call_revoke_family k f o r' : revoke_family k f o r = (Ok tt, r') -> call r (OpRevokeFamily k f o) r'
| call_sweep k subject r' : sweep_grace_pointers k subject r = (Ok tt, r') -> call r (OpSweepGrace k subject) r'
| call_list k subject es r' : list_session_entries k subject r = (Ok es, r') -> call r (OpList k subject) r'
| call_advance ms : call r (OpAdvance ms) (advance ms r).

Inductive life : Redis -> list Op -> Redis -> Prop :=
| life_nil r : life r [] r
| life_cons r op r1 ops r' : call r op r1 -> life r1 ops r' -> life r (op :: ops) r'.

Lemma answers_det {A} (m : M Redis AuthError A) (r r' : Redis) (a a' : A) (s : AStore) :
  answers m r a s -> m r = (Ok a', r') -> a' = a /\ ready r' /\ stands_for r' ≡ s.
Proof. intros (r1 & Hr & Hrdy & Hs) Hm. rewrite Hr in Hm. by simplify_eq. Qed.

Lemma call_step (r r' : Redis) (op : Op) :
  0 < ttl <= i64_max -> ready r -> call r op r' ->
  ready r' /\ step owner ttl (stands_for r) op (stands_for r').
Proof.
  intros Httl Hr Hc. destruct Hc as [k h rec r' Hst Hc|k h rec b r' Hst Hc|k ro out r' Hro Hadm Hc|k subject h res r' Hc
    |k h r' Hc|k subject r' Hc|k f o r' Hc|k subject r' Hc|k subject es r' Hc|ms].
  - destruct (answers_det _ _ _ _ _ _ (law_create r k (owner k rec) h rec ttl Hr Hst Httl) Hc) as (_ & Hr' & Hs). split; [done|]. apply step_apply; [done | by apply equiv_same].
  - destruct (answers_det _ _ _ _ _ _ (law_create_recovered r k (owner k rec) h rec ttl Hr Hst Httl) Hc) as (_ & Hr' & Hs).
    split; [done|]. apply step_apply; [done | by apply equiv_same].
  - destruct (answers_det _ _ _ _ _ _ (law_rotate r k ro Hr Hro) Hc) as (_ & Hr' & Hs). split; [done|]. apply step_apply; [done | by apply equiv_same].
  - pose proof (law_revoke r k subject h Hr) as Hl.
    destruct (a_revoke k subject h (stands_for r)).1 eqn:Ho; destruct Hl as (r1 & Hr1 & Hrdy & Hs);
      rewrite Hr1 in Hc; simplify_eq; (split; [done|]); (apply step_apply; [done|]); apply equiv_same; [done|].
    rewrite Hs. cbn in Ho |- *. revert Ho. unfold a_revoke. by case_match.
  - destruct (answers_det _ _ _ _ _ _ (law_delete_grace r k h Hr) Hc) as (_ & Hr' & Hs). split; [done|]. apply step_apply; [done | by apply equiv_same].
  - destruct (answers_det _ _ _ _ _ _ (law_revoke_all r k subject Hr) Hc) as (_ & Hr' & Hs). split; [done|]. apply step_apply; [done | by apply equiv_same].
  - destruct (answers_det _ _ _ _ _ _ (law_revoke_family r k f o Hr) Hc) as (_ & Hr' & Hs). split; [done|]. apply step_apply; [done | by apply equiv_same].
  - destruct (answers_det _ _ _ _ _ _ (law_sweep r k subject Hr) Hc) as (_ & Hr' & Hs). split; [done|]. apply step_apply; [done | by apply equiv_same].
  - destruct (law_list_entries r k subject Hr) as (es' & r1 & Hr1 & Hrdy & (_ & _ & _ & dead & Hd & Hs)).
    rewrite Hr1 in Hc. simplify_eq. split; [done|]. apply (step_list _ _ _ k subject dead); [done | by apply equiv_same].
  - destruct Hr as [Hwf Hp]. destruct (advance_refines ns ms r Hwf) as [Hwf' Hs].
    split; [by split|]. apply step_apply; [done | by apply equiv_same].
Qed.

Lemma life_steps (r r' : Redis) (ops : list Op) :
  0 < ttl <= i64_max -> ready r -> life r ops r' ->
  ready r' /\ steps owner ttl (stands_for r) ops (stands_for r').
Proof.
  intros Httl Hr Hl. revert Hr. induction Hl as [r|r op r1 ops r' Hc Hl IH]; intros Hr; [split; [done | by constructor]|].
  destruct (call_step r r1 op Httl Hr Hc) as [Hr1 Hs]. destruct (IH Hr1) as [Hr' Hss].
  split; [done|]. by econstructor.
Qed.

(** A database nothing was written to. *)
Definition fresh (now : Z) : Redis := {| r_now := now; r_db := ∅; r_pool := [] |}.

Lemma ent_fresh (now : Z) (p : Prefix) (h : string) : ent ns (fresh now) p h = None.
Proof. done. Qed.

Lemma fresh_ready (now : Z) : ready (fresh now).
Proof. split; [split; intros p h e |]; by rewrite ?ent_fresh. Qed.

Lemma life_sound (now : Z) (ops : list Op) (r : Redis) :
  0 < ttl <= i64_max -> life (fresh now) ops r -> ready r /\ sound owner ttl (stands_for r).
Proof.
  intros Httl Hl. destruct (life_steps _ _ _ Httl (fresh_ready now) Hl) as [Hr Hs].
  split; [done|]. eapply steps_sound; [exact Hs|]. by split.
Qed.

End life.

(** Sign out everywhere: in any life of the Redis store, once [revoke_all]
    has answered for an account, whatever is called afterwards by anyone
    (rotations, recoveries, other accounts' logins, time passing) short of a new
    sign-in for that account, no token the store is asked about leads to a
    session of that account: none is found, none rotates and none is recovered. *)
Theorem sign_out_everywhere `{SessionJsonLaws} (ns : string)
    (owner : SessionKind -> SessionRecord -> string) (ttl now : Z) (before after : list Op)
    (r r1 r2 : Redis) (k : SessionKind) (subject : string) :
  0 < ttl <= i64_max ->
  life ns owner ttl (fresh now) before r ->
  served (revoke_all_inner ns k subject) r = (Ok tt, r1) ->
  life ns owner ttl r1 after r2 -> Forall (no_sign_in k subject) after ->
  (forall h rec r3, served (find_session_inner ns k h) r2 = (Ok (Some rec), r3) -> owner k rec <> subject) /\
  (forall ro rec r3, rotation_ok ro ->
     served (rotate_inner ns k ro) r2 = (Ok (Rotated rec), r3) \/
     served (rotate_inner ns k ro) r2 = (Ok (Grace rec), r3) -> owner k rec <> subject).
Proof.
  intros Httl Hbefore Hrev Hafter Hno.
  destruct (life_sound ns owner ttl now before r Httl Hbefore) as [Hr Hsound].
  destruct (answers_det ns _ _ _ _ _ _ (@law_revoke_all _ _ _ (redis_session_store_laws ns) r k subject Hr) Hrev) as (_ & Hr1 & Hs1).
  destruct (life_steps ns owner ttl r1 r2 after Httl Hr1 Hafter) as [Hr2 Hsteps].
  assert (Hout : signed_out owner (abs ns r2) k subject).
  { eapply signed_out_steps; [exact Hsteps | done |]. eapply signed_out_equiv; [symmetry; apply equiv_same; exact Hs1|].
    by apply revoke_all_signs_out with (ttl := ttl). }
  destruct Hout as (Hl & Hg & _). split.
  - intros h rec r3 Hf. destruct (answers_det ns _ _ _ _ _ _ (@law_find _ _ _ (redis_session_store_laws ns) r2 k h Hr2) Hf) as (Ha & _).
    unfold a_find in Ha. case_match; simplify_eq. case_match; simplify_eq. eauto.
  - intros ro rec r3 Hro Hrot.
    assert (Ha : (a_rotate k ro (abs ns r2)).1 = Rotated rec \/ (a_rotate k ro (abs ns r2)).1 = Grace rec).
    { assert (Hs : @rotation_served Redis (redis_view ns) ro) by by destruct Hro.
      pose proof (@law_rotate _ _ _ (redis_session_store_laws ns) r2 k ro Hr2 Hs) as Hlaw.
      destruct Hrot as [Hrot|Hrot]; destruct (answers_det ns _ _ _ _ _ _ Hlaw Hrot) as (Ha & _); auto. }
    unfold a_rotate, a_reuse_check in Ha. repeat case_match; simpl in Ha; destruct Ha; simplify_eq; eauto.
Qed.

(** A revoked lineage never comes back: once [revoke_family] has answered for
    a family, no later call (short of a login that would open a family of the
    same identifier) makes a session of that family findable, rotatable or
    recoverable again, whichever of its refresh tokens is presented and even
    inside a grace window. *)
Theorem revoked_family_stays_dead `{SessionJsonLaws} (ns : string)
    (owner : SessionKind -> SessionRecord -> string) (ttl now : Z) (before after : list Op)
    (r r1 r2 : Redis) (k : SessionKind) (family : string) (o : option string) :
  0 < ttl <= i64_max -> family <> "" ->
  life ns owner ttl (fresh now) before r ->
  served (revoke_family_inner ns k family o) r = (Ok tt, r1) ->
  life ns owner ttl r1 after r2 -> Forall (no_new_family k family) after ->
  (forall h rec r3, served (find_session_inner ns k h) r2 = (Ok (Some rec), r3) -> sr_family_id rec <> family) /\
  (forall ro rec r3, rotation_ok ro ->
     served (rotate_inner ns k ro) r2 = (Ok (Rotated rec), r3) \/
     served (rotate_inner ns k ro) r2 = (Ok (Grace rec), r3) -> sr_family_id rec <> family).
Proof.
  intros Httl Hne Hbefore Hrev Hafter Hno.
  destruct (life_sound ns owner ttl now before r Httl Hbefore) as [Hr Hsound].
  destruct (answers_det ns _ _ _ _ _ _ (@law_revoke_family _ _ _ (redis_session_store_laws ns) r k family o Hr) Hrev)
    as (_ & Hr1 & Hs1).
  destruct (life_steps ns owner ttl r1 r2 after Httl Hr1 Hafter) as [Hr2 Hsteps].
  assert (Hdead : dead_family (abs ns r2) k family).
  { eapply dead_family_steps; [done | exact Hsteps | done |]. eapply dead_family_equiv; [symmetry; apply equiv_same; exact Hs1|].
    by eapply revoke_family_kills. }
  split.
  - intros h rec r3 Hf.
    destruct (answers_det ns _ _ _ _ _ _ (@law_find _ _ _ (redis_session_store_laws ns) r2 k h Hr2) Hf) as (Ha & _).
    unfold a_find in Ha. case_match; simplify_eq. case_match; simplify_eq. destruct Hdead as [Hl _]. by eapply Hl.
  - intros ro rec r3 Hro Hrot.
    assert (Hs : @rotation_served Redis (redis_view ns) ro) by by destruct Hro.
    pose proof (@law_rotate _ _ _ (redis_session_store_laws ns) r2 k ro Hr2 Hs) as Hlaw.
    apply (dead_family_rotate (abs ns r2) k family ro rec Hdead Hne).
    destruct Hrot as [Hrot|Hrot]; destruct (answers_det ns _ _ _ _ _ _ Hlaw Hrot) as (Ha & _); [left | right]; symmetry; exact Ha.
Qed.

(** Refresh tokens are single use and replays are detected: after a rotation
    consumed a token, and as long as its hash is not filed again, presenting it
    never rotates, and within the refresh lifetime, once its grace pointer is
    gone or its successor is dead, presenting it answers [Reused] with the
    family of the login it descends from. *)
Theorem consumed_token_is_detected `{SessionJsonLaws} (ns : string)
    (owner : SessionKind -> SessionRecord -> string) (ttl now : Z) (before after : list Op)
    (r r1 r2 : Redis) (k : SessionKind) (ro ro' : SessionRotation) (rec : SessionRecord) :
  0 < ttl <= i64_max ->
  life ns owner ttl (fresh now) before r ->
  rotation_ok ro -> rotation_ok ro' -> sr_family_id (ro_new_record ro) <> "" ->
  ro_old_hash ro' = ro_old_hash ro ->
  served (rotate_inner ns k ro) r = (Ok (Rotated rec), r1) ->
  life ns owner ttl r1 after r2 -> Forall (never_files k (ro_old_hash ro)) after ->
  exists out r3, served (rotate_inner ns k ro') r2 = (Ok out, r3) /\
    (forall rec', out <> Rotated rec') /\
    (r_now r2 <= r_now r + ro_refresh_ttl ro * 1000 ->
     (forall s rec' t, a_grace (abs ns r2) k (ro_old_hash ro) = Some (s, rec', t) -> a_live (abs ns r2) k s = None) ->
     out = Reused (sr_family_id (ro_new_record ro))).
Proof.
  intros Httl Hbefore Hro Hro' Hf Hold Hrot Hafter Hno.
  destruct (life_sound ns owner ttl now before r Httl Hbefore) as [Hr Hsound].
  assert (Hs : @rotation_served Redis (redis_view ns) ro) by by destruct Hro.
  assert (Hs' : @rotation_served Redis (redis_view ns) ro') by by destruct Hro'.
  destruct (answers_det ns _ _ _ _ _ _ (@law_rotate _ _ _ (redis_session_store_laws ns) r k ro Hr Hs) Hrot)
    as (Hout & Hr1 & Hs1).
  destruct (life_steps ns owner ttl r1 r2 after Httl Hr1 Hafter) as [Hr2 Hsteps].
  destruct (@law_rotate _ _ _ (redis_session_store_laws ns) r2 k ro' Hr2 Hs') as (r3 & Hrun & _).
  exists (a_rotate k ro' (abs ns r2)).1, r3. split; [done|]. rewrite <-Hold.
  apply (spent_rotate (abs ns r2) k ro'). rewrite Hold.
  eapply spent_steps; [exact Hsteps | done |]. eapply spent_equiv; [symmetry; apply equiv_same; exact Hs1|].
  cbn [stands_for redis_view] in *.
  assert (Hrotd : (a_rotate k ro (abs ns r)).2 = a_rotated k ro (abs ns r)).
  { unfold a_rotate, a_reuse_check in Hout |- *. repeat case_match; simplify_eq/=; done. }
  rewrite Hrotd. by apply rotated_spends.
Qed.
