(* ===== verification/RedisStores.v ===== *)
(** * The other Redis stores

    Models [crates/bymax-auth-redis/src/stores/{otp,brute_force,rate_limit,
    mfa,single_use,ws_ticket,oauth,user_status}.rs] and the scripts
    [src/lua/{otp_verify,brute_force_incr,mfa_challenge,release_lock,
    claim_invitation_index}.lua].  [StoreClaims] proves
    what they give under any sequence of calls. *)

From S2P Require Import Prelude Errors Types Crypto Redis.

(** ** Stored contexts *)

Record WsTicketSnapshot : Set := {
  ws_sub : string;
  ws_tenant_id : option string;
  ws_role : string;
  ws_status : string;
  ws_mfa_enabled : bool;
  ws_mfa_verified : bool;
  ws_jti : string;
  ws_epoch : Z;
}.

Record ResetContext : Set := {
  rc_user_id : string;
  rc_email : string;
  rc_tenant_id : string;
  rc_password_fingerprint : string;
}.

Record EmailChangeContext : Set := {
  ec_user_id : string;
  ec_new_email : string;
  ec_tenant_id : string;
  ec_password_fingerprint : string;
}.

Record StoredInvitation : Set := {
  si_email : string;
  si_role : string;
  si_tenant_id : string;
  si_inviter_user_id : string;
  si_created_at : OffsetDateTime;
}.

(** [serde_json] on one stored type. *)
Class Json (T : Type) : Type := {
  to_json : T -> option string;
  of_json : string -> option T;
}.

Class JsonLaws (T : Type) `{Json T} : Prop := {
  of_to_json (x : T) (j : string) : to_json x = Some j -> of_json j = Some x;
}.

(** ** Scripts *)

Module Scripts.

(** [otp_verify.lua]: the tag and the stored code. *)
Definition otp_verify (k submitted : string) (max_attempts : Z) : R (string * string) :=
  stored ← cmd_hget k "code";
  match stored with
  | None => mret ("EXPIRED", "")
  | Some code =>
      raw ← cmd_hget k "attempts";
      let attempts := default 0 (match raw with Some s => string_to_z s | None => None end) in
      if bool_decide (max_attempts <= attempts)
      then (_ ← cmd_del k; mret ("MAX", ""))
      else
        _ ← (if bool_decide (code = submitted) then ignore (cmd_del k)
             else ignore (cmd_hincrby k "attempts" 1));
        mret ("PRESENT", code)
  end.

(** [brute_force_incr.lua]. *)
Definition brute_force_incr (k : string) (window_secs : Z) : R Z :=
  count ← cmd_incr k;
  _ ← (if bool_decide (count = 1) then cmd_expire k window_secs else mret tt);
  mret count.

(** [mfa_challenge.lua]. *)
Definition mfa_challenge (tu_key mfa_key : string) (ttl : Z) : R Z :=
  created ← cmd_set_nx_ex tu_key "1" ttl;
  if negb created then mret 0 else
  removed ← cmd_del mfa_key;
  if bool_decide (removed = 1) then mret 1 else
  _ ← cmd_del tu_key;
  mret 0.

(** [release_lock.lua]. *)
Definition release_lock (k token : string) : R Z :=
  held ← cmd_get k;
  if bool_decide (held = Some token) then cmd_del k else mret 0.

(** [claim_invitation_index.lua]. *)
Definition claim_invitation_index (k token_hash : string) (ttl : Z) (expected : string) : R Z :=
  current ← cmd_get k;
  if negb (bool_decide (default "" current = expected)) then mret 0 else
  _ ← cmd_set_ex k token_hash ttl;
  mret 1.

End Scripts.

Section stores.
Context `{Crypto} (ns : string).

(** ** One-time passwords *)

Definition purpose_segment (purpose : OtpPurpose) (identifier : string) : string :=
  otp_purpose_as_str purpose +:+ ":" +:+ identifier.

Definition otp_key (purpose : OtpPurpose) (identifier : string) : string :=
  key ns Otp (purpose_segment purpose identifier).

Definition interpret_otp (tag stored submitted : string) : result AuthError unit :=
  if bool_decide (tag = "EXPIRED") then Err OtpExpired
  else if bool_decide (tag = "MAX") then Err OtpMaxAttempts
  else if bool_decide (tag = "PRESENT")
       then (if constant_time_eq submitted stored then Ok tt else Err OtpInvalid)
       else Err (Internal "unexpected otp_verify reply").

Definition otp_put_inner (purpose : OtpPurpose) (identifier code : string) (ttl_secs : Z) : R unit :=
  let k := otp_key purpose identifier in
  _ ← connection;
  multi [ cmd_hset k "code" code; cmd_hset k "attempts" (z_to_string 0); cmd_expire k (u64_to_i64_sat ttl_secs) ].

Definition otp_verify_inner (purpose : OtpPurpose) (identifier code : string) (max_attempts : Z) : R (string * string) :=
  let k := otp_key purpose identifier in
  _ ← connection;
  Scripts.otp_verify k code max_attempts.

Definition try_begin_resend_inner (purpose : OtpPurpose) (identifier : string) (cooldown_secs : Z) : R bool :=
  let k := key ns Resend (purpose_segment purpose identifier) in
  _ ← connection;
  cmd_set_nx_ex k "1" cooldown_secs.

Definition otp_put (purpose : OtpPurpose) (identifier code : string) (ttl_secs : Z) : M Redis AuthError unit :=
  served (otp_put_inner purpose identifier code ttl_secs).

Definition otp_verify (purpose : OtpPurpose) (identifier code : string) (max_attempts : Z) : M Redis AuthError unit :=
  reply ← served (otp_verify_inner purpose identifier code max_attempts);
  lift (interpret_otp reply.1 reply.2 code).

Definition try_begin_resend (purpose : OtpPurpose) (identifier : string) (cooldown_secs : Z) : M Redis AuthError bool :=
  served (try_begin_resend_inner purpose identifier cooldown_secs).

(** ** Failure counters *)

Definition decode_i64 (raw : option string) : R (option Z) :=
  match raw with
  | None => mret None
  | Some s => match string_to_z s with
              | Some n => if bool_decide (i64_min <= n <= i64_max) then mret (Some n)
                          else throw (ReCommand "not an i64")
              | None => throw (ReCommand "not an i64")
              end
  end.

Definition is_locked_inner (identifier : string) (max_attempts : Z) : R bool :=
  let k := key ns Lf identifier in
  _ ← connection;
  raw ← cmd_get k;
  count ← decode_i64 raw;
  mret (bool_decide (max_attempts <= default 0 count)).

Definition record_failure_inner (identifier : string) (window_secs : Z) : R Z :=
  let k := key ns Lf identifier in
  _ ← connection;
  Scripts.brute_force_incr k window_secs.

Definition reset_inner (identifier : string) : R unit :=
  let k := key ns Lf identifier in
  _ ← connection;
  ignore (cmd_del k).

Definition remaining_lockout_secs_inner (identifier : string) : R Z :=
  let k := key ns Lf identifier in
  _ ← connection;
  ttl ← cmd_ttl k;
  mret (if bool_decide (0 <= ttl) then ttl else 0).

Definition is_locked (identifier : string) (max_attempts : Z) : M Redis AuthError bool :=
  served (is_locked_inner identifier max_attempts).
Definition record_failure (identifier : string) (window_secs : Z) : M Redis AuthError Z :=
  served (record_failure_inner identifier window_secs).
Definition reset (identifier : string) : M Redis AuthError unit := served (reset_inner identifier).
Definition remaining_lockout_secs (identifier : string) : M Redis AuthError Z :=
  served (remaining_lockout_secs_inner identifier).

(** ** Rate limits *)

Definition hit_inner (route bucket_hash : string) (window_secs : Z) : R Z :=
  let k := rate_limit_key ns route bucket_hash in
  _ ← connection;
  Scripts.brute_force_incr k window_secs.

Definition hit (route bucket_hash : string) (window_secs : Z) : M Redis AuthError Z :=
  served (hit_inner route bucket_hash window_secs).

(** ** MFA *)

Definition put_setup_nx_inner (user_id_hash value : string) (ttl : Z) : R bool :=
  _ ← connection; cmd_set_nx_ex (key ns MfaSetup user_id_hash) value ttl.
Definition get_setup_inner (user_id_hash : string) : R (option string) :=
  _ ← connection; cmd_get (key ns MfaSetup user_id_hash).
Definition take_setup_inner (user_id_hash : string) : R (option string) :=
  _ ← connection; cmd_getdel (key ns MfaSetup user_id_hash).
Definition put_temp_inner (jti_hash user_id : string) (ttl : Z) : R unit :=
  _ ← connection; cmd_set_ex (key ns Mfa jti_hash) user_id ttl.
Definition get_temp_inner (jti_hash : string) : R (option string) :=
  _ ← connection; cmd_get (key ns Mfa jti_hash).
Definition del_temp_inner (jti_hash : string) : R bool :=
  _ ← connection;
  removed ← cmd_del (key ns Mfa jti_hash);
  mret (bool_decide (0 < removed)).

Definition release_mfa_lock_inner (lock_id token : string) : R unit :=
  _ ← connection; ignore (Scripts.release_lock (key ns Mfalock lock_id) token).

Definition set_nx_value (p : Prefix) (id value : string) (ttl : Z) : R bool :=
  _ ← connection; cmd_set_nx_ex (key ns p id) value ttl.
Definition set_nx_marker (p : Prefix) (id : string) (ttl : Z) : R bool := set_nx_value p id "1" ttl.
Definition mark_totp_used_inner (replay_id : string) (ttl : Z) : R bool := set_nx_marker Tu replay_id ttl.

Definition challenge_consume_inner (replay_id jti_hash : string) (ttl : Z) : R bool :=
  let tu_key := key ns Tu replay_id in
  let mfa_key := key ns Mfa jti_hash in
  _ ← connection;
  created ← Scripts.mfa_challenge tu_key mfa_key ttl;
  mret (bool_decide (created = 1)).

Definition put_setup_nx h v ttl : M Redis AuthError bool := served (put_setup_nx_inner h v ttl).
Definition get_setup h : M Redis AuthError (option string) := served (get_setup_inner h).
Definition take_setup h : M Redis AuthError (option string) := served (take_setup_inner h).
Definition put_temp j u ttl : M Redis AuthError unit := served (put_temp_inner j u ttl).
Definition get_temp j : M Redis AuthError (option string) := served (get_temp_inner j).
Definition del_temp j : M Redis AuthError bool := served (del_temp_inner j).
Definition claim_recovery_code id ttl : M Redis AuthError bool := served (set_nx_marker Rcu id ttl).
Definition acquire_mfa_lock id token ttl : M Redis AuthError bool := served (set_nx_value Mfalock id token ttl).
Definition release_mfa_lock id token : M Redis AuthError unit := served (release_mfa_lock_inner id token).
Definition mark_totp_used id ttl : M Redis AuthError bool := served (mark_totp_used_inner id ttl).
Definition challenge_consume id j ttl : M Redis AuthError bool := served (challenge_consume_inner id j ttl).

(** ** Single-use values *)

Definition token_key (p : Prefix) (token : string) : string := key ns p (to_hex (sha256 token)).

Definition invitee_key (tenant_id invitee_hash : string) : string :=
  key ns Invidx (tenant_id +:+ ":" +:+ invitee_hash).

Definition put_value {T} `{Json T} (p : Prefix) (token : string) (value : T) (ttl_secs : Z) : R unit :=
  let k := token_key p token in
  json ← lift (ok_or ReDecode (to_json value));
  _ ← connection;
  cmd_set_ex k json ttl_secs.

Definition consume_value {T} `{Json T} (p : Prefix) (token : string) : R (option T) :=
  let k := token_key p token in
  _ ← connection;
  raw ← cmd_getdel k;
  match raw with
  | Some json => Some <$> (lift (ok_or ReDecode (of_json json)) : R T)
  | None => mret None
  end.

Definition delete_value (p : Prefix) (token : string) : R unit :=
  let k := token_key p token in
  _ ← connection;
  ignore (cmd_del k).

Definition put_token `{Json ResetContext} t (c : ResetContext) ttl := served (put_value PwReset t c ttl).
Definition consume_token `{Json ResetContext} t : M Redis AuthError (option ResetContext) := served (consume_value PwReset t).
Definition delete_token t : M Redis AuthError unit := served (delete_value PwReset t).
Definition put_verified `{Json ResetContext} t (c : ResetContext) ttl := served (put_value PwVtok t c ttl).
Definition consume_verified `{Json ResetContext} t : M Redis AuthError (option ResetContext) := served (consume_value PwVtok t).
Definition put_email_change `{Json EmailChangeContext} t (c : EmailChangeContext) ttl := served (put_value Ec t c ttl).
Definition consume_email_change `{Json EmailChangeContext} t : M Redis AuthError (option EmailChangeContext) :=
  served (consume_value Ec t).
Definition put_invitation `{Json StoredInvitation} t (i : StoredInvitation) ttl := served (put_value Inv t i ttl).
Definition consume_invitation `{Json StoredInvitation} t : M Redis AuthError (option StoredInvitation) :=
  served (consume_value Inv t).

Definition put_invitation_index_inner (tenant_id invitee_hash token_hash : string) (ttl_secs : Z) : R unit :=
  _ ← connection; cmd_set_ex (invitee_key tenant_id invitee_hash) token_hash ttl_secs.

Definition claim_invitation_index_inner (tenant_id invitee_hash token_hash : string) (ttl_secs : Z)
    (expected : option string) : R bool :=
  _ ← connection;
  claimed ← Scripts.claim_invitation_index (invitee_key tenant_id invitee_hash) token_hash ttl_secs
              (default "" expected);
  mret (bool_decide (claimed = 1)).

Definition read_invitation_index_inner (tenant_id invitee_hash : string) : R (option string) :=
  _ ← connection; cmd_get (invitee_key tenant_id invitee_hash).

Definition take_invitation_index_inner (tenant_id invitee_hash : string) : R (option string) :=
  _ ← connection; cmd_getdel (invitee_key tenant_id invitee_hash).

Definition read_invitation_by_hash_inner `{Json StoredInvitation} (token_hash : string) : R (option StoredInvitation) :=
  _ ← connection;
  raw ← cmd_get (key ns Inv token_hash);
  mret (match raw with Some json => of_json json | None => None end).

Definition delete_invitation_by_hash_inner (token_hash : string) : R bool :=
  _ ← connection;
  removed ← cmd_del (key ns Inv token_hash);
  mret (bool_decide (0 < removed)).

(** ** WebSocket tickets; [draw] is the CSPRNG draw the minted ticket comes from. *)

Definition WS_TICKET_ENTROPY_BYTES : nat := 32.

Definition ws_ticket_key (ticket : string) : string := key ns Wst (to_hex (sha256 ticket)).

Definition parse_snapshot `{Json WsTicketSnapshot} (json : string) : option WsTicketSnapshot := of_json json.

Definition mint_inner `{Host, Json WsTicketSnapshot} (draw : nat) (snapshot : WsTicketSnapshot) (ttl_secs : Z) : R string :=
  let ticket := generate_secure_token draw WS_TICKET_ENTROPY_BYTES in
  let k := ws_ticket_key ticket in
  json ← lift (ok_or ReDecode (to_json snapshot));
  _ ← connection;
  _ ← cmd_set_ex k json ttl_secs;
  mret ticket.

Definition redeem_inner `{Json WsTicketSnapshot} (ticket : string) : R (option WsTicketSnapshot) :=
  let k := ws_ticket_key ticket in
  _ ← connection;
  raw ← cmd_getdel k;
  mret (match raw with Some json => parse_snapshot json | None => None end).

(** ** OAuth state *)

Definition put_state_inner (state_hash payload : string) (ttl_secs : Z) : R unit :=
  _ ← connection; cmd_set_ex (key ns Os state_hash) payload ttl_secs.
Definition take_state_inner (state_hash : string) : R (option string) :=
  _ ← connection; cmd_getdel (key ns Os state_hash).

(** ** The status cache *)

Definition read_key (k : string) : R (option string) := _ ← connection; cmd_get k.
Definition write_key (k value : string) (ttl_secs : Z) : R unit := _ ← connection; cmd_set_ex k value ttl_secs.
Definition delete_key (k : string) : R unit := _ ← connection; ignore (cmd_del k).

Definition get_status (h : string) : M Redis AuthError (option string) := served (read_key (key ns Us h)).
Definition get_verified (h : string) : M Redis AuthError (option bool) :=
  raw ← served (read_key (key ns Uev h));
  mret (match raw with Some value => Some (negb (bool_decide (value = "0"))) | None => None end).
Definition put_status (h status : string) (ttl : Z) : M Redis AuthError unit := served (write_key (key ns Us h) status ttl).
Definition put_verified_flag (h : string) (verified : bool) (ttl : Z) : M Redis AuthError unit :=
  served (write_key (key ns Uev h) (if verified then "1" else "0") ttl).
Definition invalidate (h : string) : M Redis AuthError unit :=
  _ ← served (delete_key (key ns Uev h));
  served (delete_key (key ns Us h)).

End stores.
