(* ===== verification/StoreClaims.v ===== *)
(** * What the other Redis stores give under any sequence of calls

    A one-time code under guessing, a failure counter, and what is redeemed once.
    Time passes between the calls. *)

From S2P Require Import Prelude Errors Types Crypto Concrete Redis RedisStores.

Section otp.
Context (ns : string) (purpose : OtpPurpose) (identifier : string).

Notation k := (otp_key ns purpose identifier).

(** The record under the key: the code, the failed attempts so far, its expiry. *)
Definition holds_otp (r : Redis) (code : string) (n : Z) (e : Z) : Prop :=
  exists h, rlookup r k = Some {| re_value := RHash h; re_expire := Some e |} /\
    h !! "code" = Some code /\ h !! "attempts" = Some (z_to_string n).

Definition no_otp (r : Redis) : Prop := rlookup r k = None.

Lemma verify_no_otp (r : Redis) (g : string) (max : Z) :
  r_pool r = [] -> no_otp r -> otp_verify ns purpose identifier g max r = (Err OtpExpired, r).
Proof.
  intros Hp Hn. unfold no_otp in Hn.
  unfold otp_verify, otp_verify_inner, Scripts.otp_verify, served, catch_map, connection, cmd_hget, view.
  mrun. by rewrite Hp, Hn.
Qed.

Lemma interpret_present (stored g : string) :
  interpret_otp "PRESENT" stored g = if bool_decide (stored = g) then Ok tt else Err OtpInvalid.
Proof.
  unfold interpret_otp, constant_time_eq. simpl. by repeat case_bool_decide; subst.
Qed.

Lemma verify_otp (r : Redis) (code g : string) (n e max : Z) :
  r_pool r = [] -> holds_otp r code n e ->
  exists r', r_pool r' = [] /\ r_now r' = r_now r /\
    (if bool_decide (max <= n) then otp_verify ns purpose identifier g max r = (Err OtpMaxAttempts, r') /\ no_otp r'
     else if bool_decide (code = g) then otp_verify ns purpose identifier g max r = (Ok tt, r') /\ no_otp r'
     else otp_verify ns purpose identifier g max r = (Err OtpInvalid, r') /\ holds_otp r' code (n + 1) e).
Proof.
  intros Hp (h & He & Hc & Hn).
  assert (Hgone : no_otp (remove k r)).
  { unfold no_otp, rlookup, remove. simpl. by rewrite lookup_delete_eq. }
  assert (Hkeep : holds_otp (put k (RHash (<["attempts" := z_to_string (n + 1)]> h)) (Some e) r) code (n + 1) e).
  { exists (<["attempts" := z_to_string (n + 1)]> h).
    rewrite lookup_insert_ne by done. rewrite lookup_insert_eq. split_and!; [|done..].
    rewrite rlookup_put. unfold rlookup in He. repeat case_match; simplify_eq/=; try done; congruence. }
  unfold otp_verify, otp_verify_inner, Scripts.otp_verify, served, catch_map, connection, cmd_hget, view.
  mrun. rewrite Hp, He. cbn -[interpret_otp]. rewrite Hc. cbn -[interpret_otp]. rewrite He. cbn -[interpret_otp].
  rewrite Hn. cbn -[interpret_otp]. rewrite z_to_string_to_z. cbn -[interpret_otp].
  destruct (bool_decide (max <= n)) eqn:Hm; [by exists (remove k r)|].
  destruct (bool_decide (code = g)) eqn:Hg.
  - exists (remove k r). split_and!; [done | done | | done]. unfold ignore, cmd_del.
    cbn -[interpret_otp]. by rewrite interpret_present, Hg.
  - eexists. split_and!; [..| exact Hkeep]; [done | done |]. unfold ignore, cmd_hincrby. rewrite He.
    cbn -[interpret_otp]. rewrite Hn. cbn -[interpret_otp]. rewrite z_to_string_to_z.
    cbn -[interpret_otp]. by rewrite interpret_present, Hg.
Qed.

Lemma no_otp_advance (ms : Z) (r : Redis) : no_otp r -> no_otp (advance ms r).
Proof.
  unfold no_otp, rlookup, advance, expired. simpl. intros Hn. repeat case_match; simplify_eq/=; try done.
  repeat case_bool_decide; simplify_eq; lia.
Qed.

Lemma holds_otp_advance (ms : Z) (r : Redis) (code : string) (n e : Z) :
  holds_otp r code n e ->
  if bool_decide (e < r_now r + Z.max 0 ms) then no_otp (advance ms r) else holds_otp (advance ms r) code n e.
Proof.
  unfold holds_otp, no_otp. intros (h & He & Hc & Hn). rewrite rlookup_advance, He. simpl.
  case_bool_decide; [done|]. eauto.
Qed.

(** Submissions with the delay before each. *)
Fixpoint submit_all (max : Z) (gs : list (Z * string)) (r : Redis) : list (result AuthError unit) :=
  match gs with
  | [] => []
  | (ms, g) :: gs' =>
      let '(res, r') := otp_verify ns purpose identifier g max (advance ms r) in
      res :: submit_all max gs' r'
  end.

Fixpoint elapsed (gs : list (Z * string)) : Z :=
  match gs with [] => 0 | (ms, _) :: gs' => ms + elapsed gs' end.

Definition accepted (res : result AuthError unit) : bool := match res with Ok _ => true | Err _ => false end.
Definition compared (res : result AuthError unit) : bool :=
  match res with Ok _ | Err OtpInvalid => true | Err _ => false end.

Definition count {A} (f : A -> bool) (l : list A) : nat := length (List.filter f l).

Lemma submit_none (max : Z) (gs : list (Z * string)) (r : Redis) :
  r_pool r = [] -> no_otp r ->
  count compared (submit_all max gs r) = 0%nat /\ count accepted (submit_all max gs r) = 0%nat.
Proof.
  revert r. induction gs as [|[ms g] gs IH]; intros r Hp Hn; [done|]. cbn [submit_all].
  rewrite verify_no_otp by (done || by apply no_otp_advance).
  destruct (IH (advance ms r)) as [Hc Ha]; [done | by apply no_otp_advance|]. by unfold count in *.
Qed.

Lemma submit_bound (max : Z) (gs : list (Z * string)) (r : Redis) (code : string) (n e : Z) :
  r_pool r = [] -> holds_otp r code n e -> 0 <= n ->
  Z.of_nat (count compared (submit_all max gs r)) <= Z.max 0 (max - n) /\
  (count accepted (submit_all max gs r) <= 1)%nat.
Proof.
  revert r n. induction gs as [|[ms g] gs IH]; intros r n Hp Hh Hn; cbn [submit_all]; [cbn; lia|].
  pose proof (holds_otp_advance ms r code n e Hh) as Hadv. case_bool_decide; [rename Hadv into Hno|rename Hadv into Hh'].
  2: {
    destruct (verify_otp (advance ms r) code g n e max) as (r' & Hp' & _ & Hcase); [done..|].
    destruct (bool_decide (max <= n)) eqn:Hm.
    { destruct Hcase as [-> Hno]. destruct (submit_none max gs r' Hp' Hno) as [Hc Ha]. unfold count in *. cbn. lia. }
    apply bool_decide_eq_false in Hm.
    case_bool_decide; destruct Hcase as [-> Hst].
    + destruct (submit_none max gs r' Hp' Hst) as [Hc Ha]. unfold count in *. cbn. lia.
    + destruct (IH r' (n + 1) Hp' Hst) as [Hc Ha]; [lia|]. unfold count in *. cbn. lia. }
  rewrite verify_no_otp by done.
  destruct (submit_none max gs (advance ms r)) as [Hc Ha]; [done..|]. unfold count in *. cbn. lia.
Qed.

Lemma put_holds (r r' : Redis) (code : string) (ttl : Z) :
  r_pool r = [] -> 0 < ttl <= i64_max -> no_otp r ->
  otp_put ns purpose identifier code ttl r = (Ok tt, r') ->
  r_pool r' = [] /\ r_now r' = r_now r /\ holds_otp r' code 0 (r_now r + ttl * 1000).
Proof.
  intros Hp Httl Hn. unfold otp_put, otp_put_inner, served, catch_map. mrun.
  unfold connection. rewrite Hp. cbv beta iota. unfold multi.
  unfold cmd_hset. rewrite Hn. cbv beta iota. rewrite rlookup_put. cbn -[put].
  unfold cmd_expire. rewrite rlookup_put. cbn -[put].
  unfold u64_to_i64_sat. rewrite bool_decide_eq_false_2 by lia. cbn -[put]. intros [= <-]. split; [done|]. split; [done|].
  eexists _. split_and!.
  - rewrite rlookup_put. cbn. rewrite Z.min_l by lia. by rewrite bool_decide_eq_false_2 by lia.
  - by rewrite lookup_insert_ne, lookup_singleton_eq by done.
  - by rewrite lookup_insert_eq.
Qed.

(** Wrong guesses leave the code in place while the ceiling and the lifetime allow. *)
Lemma wrong_guesses (max : Z) (gs : list (Z * string)) (code : string) (r : Redis) (n e : Z) :
  r_pool r = [] -> holds_otp r code n e -> Forall (fun s => 0 <= s.1 /\ s.2 <> code) gs ->
  n + Z.of_nat (length gs) <= max -> r_now r + elapsed gs <= e ->
  exists r', r_pool r' = [] /\ r_now r' = r_now r + elapsed gs /\
    holds_otp r' code (n + Z.of_nat (length gs)) e /\
    forall ms g, submit_all max (gs ++ [(ms, g)]) r =
      replicate (length gs) (Err OtpInvalid) ++ submit_all max [(ms, g)] r'.
Proof.
  revert r n. induction gs as [|[ms g] gs IH]; intros r n Hp Hh Hgs Hlen Hnow.
  { exists r. simpl. rewrite !Z.add_0_r. by split_and!. }
  apply Forall_cons_1 in Hgs as [[Hms Hg] Hgs]. simpl in Hms, Hg, Hlen, Hnow.
  assert (Hsum : 0 <= elapsed gs).
  { clear -Hgs. induction gs as [|[m g] gs IH]; simpl; [done|].
    apply Forall_cons_1 in Hgs as [[Hm _] Hgs]. simpl in Hm. specialize (IH Hgs). lia. }
  pose proof (holds_otp_advance ms r code n e Hh) as Hadv. rewrite bool_decide_eq_false_2 in Hadv by lia.
  destruct (verify_otp (advance ms r) code g n e max) as (r1 & Hp1 & Hn1 & Hcase); [done..|].
  rewrite bool_decide_eq_false_2 in Hcase by lia. rewrite bool_decide_eq_false_2 in Hcase by congruence.
  destruct Hcase as [Hrun Hst]. simpl in Hn1.
  destruct (IH r1 (n + 1) Hp1 Hst Hgs) as (r' & Hp' & Hn' & Hh' & Hrun'); [lia..|].
  exists r'. split_and!; [done | simpl; lia | |].
  { replace (n + Z.of_nat (length ((ms, g) :: gs))) with (n + 1 + Z.of_nat (length gs)) by (simpl; lia). done. }
  intros ms' g'. cbn [app submit_all]. rewrite Hrun. simpl. f_equal. apply Hrun'.
Qed.

End otp.

(** One-time passwords cannot be guessed past the ceiling: after a code is
    stored, in any sequence of submissions with any delays between them, at most
    [max_attempts] of them are ever compared with the code and at most one is
    accepted. *)
Theorem otp_attempts_bounded (ns : string) (purpose : OtpPurpose) (identifier code : string)
    (ttl max_attempts : Z) (submissions : list (Z * string)) (r r' : Redis) :
  r_pool r = [] -> no_otp ns purpose identifier r -> 0 < ttl <= i64_max -> 0 <= max_attempts ->
  otp_put ns purpose identifier code ttl r = (Ok tt, r') ->
  let replies := submit_all ns purpose identifier max_attempts submissions r' in
  Z.of_nat (count compared replies) <= max_attempts /\ (count accepted replies <= 1)%nat.
Proof.
  intros Hp Hn Httl Hmax Hput. destruct (put_holds ns purpose identifier r r' code ttl Hp Httl Hn Hput) as (Hp' & _ & Hh).
  destruct (submit_bound ns purpose identifier max_attempts submissions r' code 0 _ Hp' Hh) as [Hc Ha]; [lia|].
  simpl. split; [lia | done].
Qed.

(** A user who mistypes is not locked out early: after fewer than
    [max_attempts] wrong guesses, all within the code's lifetime, submitting the
    right code is accepted, and every wrong guess before it was answered
    [OtpInvalid]. *)
Theorem otp_right_code_accepted (ns : string) (purpose : OtpPurpose) (identifier code : string)
    (ttl max_attempts : Z) (wrong : list (Z * string)) (delay : Z) (r r' : Redis) :
  r_pool r = [] -> no_otp ns purpose identifier r -> 0 < ttl <= i64_max ->
  Forall (fun s => 0 <= s.1 /\ s.2 <> code) wrong -> Z.of_nat (length wrong) < max_attempts ->
  0 <= delay -> elapsed wrong + delay <= ttl * 1000 ->
  otp_put ns purpose identifier code ttl r = (Ok tt, r') ->
  submit_all ns purpose identifier max_attempts (wrong ++ [(delay, code)]) r' =
    replicate (length wrong) (Err OtpInvalid) ++ [Ok tt].
Proof.
  intros Hp Hn Httl Hwrong Hlen Hd Hsum Hput.
  destruct (put_holds ns purpose identifier r r' code ttl Hp Httl Hn Hput) as (Hp' & Hnow & Hh).
  destruct (wrong_guesses ns purpose identifier max_attempts wrong code r' 0 _ Hp' Hh Hwrong)
    as (r1 & Hp1 & Hn1 & Hh1 & Hrun); [lia..|].
  rewrite Hrun. f_equal. cbn [submit_all].
  pose proof (holds_otp_advance ns purpose identifier delay r1 code _ _ Hh1) as Hadv.
  rewrite bool_decide_eq_false_2 in Hadv by lia.
  destruct (verify_otp ns purpose identifier (advance delay r1) code code _ _ max_attempts ltac:(done) Hadv)
    as (r2 & _ & _ & Hcase).
  rewrite bool_decide_eq_false_2 in Hcase by lia. rewrite bool_decide_eq_true_2 in Hcase by done.
  by destruct Hcase as [-> _].
Qed.

Module OtpSamples.

Definition empty : Redis := {| r_now := 0; r_db := ∅; r_pool := [] |}.
Definition stored : Redis := (otp_put "auth" EmailVerification "id" "123456" 600 empty).2.

Definition guesses : list (Z * string) := [(0, "111111"); (5, "222222"); (5, "333333"); (0, "123456")].

Lemma otp_attempts_bounded_witness :
  Z.of_nat (count compared (submit_all "auth" EmailVerification "id" 3 guesses stored)) <= 3 /\
  (count accepted (submit_all "auth" EmailVerification "id" 3%Z guesses stored) <= 1)%nat.
Proof.
  apply (otp_attempts_bounded "auth" EmailVerification "id" "123456" 600 3 _ empty stored);
    [reflexivity | reflexivity | unfold i64_max; lia | lia | vm_compute; reflexivity].
Defined.

Lemma otp_right_code_accepted_witness :
  submit_all "auth" EmailVerification "id" 3 ([(0, "111111"); (5, "222222")] ++ [(7, "123456")]) stored =
    replicate 2 (Err OtpInvalid) ++ [Ok tt].
Proof.
  apply (otp_right_code_accepted "auth" EmailVerification "id" "123456" 600 3 [(0, "111111"); (5, "222222")] 7 empty stored).
  - reflexivity.
  - reflexivity.
  - unfold i64_max. lia.
  - repeat constructor; simpl; (lia || discriminate).
  - simpl. lia.
  - lia.
  - simpl. lia.
  - vm_compute. reflexivity.
Defined.

End OtpSamples.

(** * Failure counters: a fixed window that never slides *)

(** ** The script *)

(** What a counter's key holds. *)
Definition counter_at (r : Redis) (k : string) (n e : Z) : Prop :=
  rlookup r k = Some {| re_value := RStr (z_to_string n); re_expire := Some e |}.

Lemma incr_first (r : Redis) (k : string) (window : Z) :
  rlookup r k = None -> 0 < window ->
  exists r', Scripts.brute_force_incr k window r = (Ok 1, r') /\ r_pool r' = r_pool r /\ r_now r' = r_now r /\
    counter_at r' k 1 (r_now r + window * 1000).
Proof.
  intros Hn Hw. unfold Scripts.brute_force_incr. mrun. unfold cmd_incr. rewrite Hn. cbv beta iota.
  rewrite bool_decide_eq_true_2 by done. unfold cmd_expire. rewrite rlookup_put. cbn -[put].
  rewrite bool_decide_eq_false_2 by lia. eexists. split; [done|]. split_and!; [done..|].
  unfold counter_at. rewrite rlookup_put. cbn. by rewrite bool_decide_eq_false_2 by lia.
Qed.

Lemma incr_next (r : Redis) (k : string) (window n e : Z) :
  counter_at r k n e -> 1 <= n < i64_max ->
  exists r', Scripts.brute_force_incr k window r = (Ok (n + 1), r') /\ r_pool r' = r_pool r /\ r_now r' = r_now r /\
    counter_at r' k (n + 1) e.
Proof.
  intros Hc Hn. unfold Scripts.brute_force_incr. mrun. unfold cmd_incr. rewrite Hc. cbn -[put].
  rewrite z_to_string_to_z, bool_decide_eq_true_2 by lia. rewrite bool_decide_eq_false_2 by lia.
  eexists. split; [done|]. split_and!; [done..|].
  unfold counter_at in *. rewrite rlookup_put. unfold rlookup in Hc. repeat case_match; simplify_eq/=; try done; congruence.
Qed.

(** A script call behind a pooled connection. *)
Lemma served_call {A} (m : R A) (r r' : Redis) (a : A) :
  r_pool r = [] -> m r = (Ok a, r') -> served (_ ← connection; m) r = (Ok a, r').
Proof. intros Hp Hm. unfold served, catch_map. mrun. unfold connection. rewrite Hp. cbv beta iota. by rewrite Hm. Qed.

Section counter.
Context (ns identifier : string).

Notation k := (key ns Lf identifier).

Definition counts (r : Redis) (n e : Z) : Prop := counter_at r k n e.

Definition no_failures (r : Redis) : Prop := rlookup r k = None.

Lemma first_failure (r : Redis) (window : Z) :
  r_pool r = [] -> no_failures r -> 0 < window ->
  exists r', record_failure ns identifier window r = (Ok 1, r') /\ r_pool r' = [] /\ r_now r' = r_now r /\
    counts r' 1 (r_now r + window * 1000).
Proof.
  intros Hp Hn Hw. destruct (incr_first r k window Hn Hw) as (r' & Hrun & Hp' & Hrest).
  exists r'. split; [by apply served_call | by rewrite Hp'].
Qed.

Lemma next_failure (r : Redis) (window n e : Z) :
  r_pool r = [] -> counts r n e -> 1 <= n < i64_max ->
  exists r', record_failure ns identifier window r = (Ok (n + 1), r') /\ r_pool r' = [] /\ r_now r' = r_now r /\
    counts r' (n + 1) e.
Proof.
  intros Hp Hc Hn. destruct (incr_next r k window n e Hc Hn) as (r' & Hrun & Hp' & Hrest).
  exists r'. split; [by apply served_call | by rewrite Hp'].
Qed.

Lemma counts_advance (r : Redis) (n e ms : Z) :
  counts r n e ->
  if bool_decide (e < r_now r + Z.max 0 ms) then no_failures (advance ms r) else counts (advance ms r) n e.
Proof. unfold counts, counter_at, no_failures. intros Hc. rewrite rlookup_advance, Hc. simpl. by case_bool_decide. Qed.

Lemma locked_counts (r : Redis) (n e max : Z) :
  r_pool r = [] -> counts r n e -> 0 <= n <= i64_max ->
  is_locked ns identifier max r = (Ok (bool_decide (max <= n)), r).
Proof.
  intros Hp Hc Hn. unfold is_locked, is_locked_inner, served, catch_map. mrun. unfold connection.
  rewrite Hp. cbv beta iota. unfold cmd_get, view. rewrite Hc. cbn. rewrite z_to_string_to_z.
  rewrite bool_decide_eq_true_2; [done|]. unfold i64_min, i64_max in *. lia.
Qed.

Lemma locked_none (r : Redis) (max : Z) :
  r_pool r = [] -> no_failures r -> is_locked ns identifier max r = (Ok (bool_decide (max <= 0)), r).
Proof.
  intros Hp Hn. unfold is_locked, is_locked_inner, served, catch_map. mrun. unfold connection.
  rewrite Hp. cbv beta iota. unfold cmd_get, view. by rewrite Hn.
Qed.

(** Failures with the delay before each. *)
Fixpoint fail_all (window : Z) (delays : list Z) (r : Redis) : Redis :=
  match delays with
  | [] => r
  | ms :: delays' => fail_all window delays' (record_failure ns identifier window (advance ms r)).2
  end.

Fixpoint total (delays : list Z) : Z :=
  match delays with [] => 0 | ms :: delays' => ms + total delays' end.

Lemma fail_all_counts (window : Z) (delays : list Z) (r : Redis) (n e : Z) :
  r_pool r = [] -> counts r n e -> 1 <= n -> n + Z.of_nat (length delays) <= i64_max ->
  Forall (Z.le 0) delays -> r_now r + total delays <= e ->
  r_pool (fail_all window delays r) = [] /\ r_now (fail_all window delays r) = r_now r + total delays /\
  counts (fail_all window delays r) (n + Z.of_nat (length delays)) e.
Proof.
  revert r n. induction delays as [|ms delays IH]; intros r n Hp Hc Hn Hmax Hd Hnow.
  { simpl. rewrite !Z.add_0_r. done. }
  apply Forall_cons_1 in Hd as [Hms Hd]. cbn [fail_all total length] in *.
  assert (Hsum : 0 <= total delays).
  { clear -Hd. induction delays as [|m ds IH]; simpl; [done|]. apply Forall_cons_1 in Hd as [Hm Hd].
    specialize (IH Hd). lia. }
  pose proof (counts_advance r n e ms Hc) as Ha. rewrite bool_decide_eq_false_2 in Ha by lia.
  destruct (next_failure (advance ms r) window n e) as (r1 & Hrun & Hp1 & Hn1 & Hc1); [done | done | lia |].
  rewrite Hrun. cbn [snd]. simpl in Hn1. destruct (IH r1 (n + 1)) as (Hp2 & Hn2 & Hc2); [done | done | lia | lia | done | lia |].
  split_and!; [done | lia |]. by replace (n + Z.of_nat (S (length delays))) with (n + 1 + Z.of_nat (length delays)) by lia.
Qed.

End counter.

(** The lockout window is fixed: it opens at the first failure and no later
    failure extends it.  After one failure and any further ones inside the
    window, the identifier is locked exactly when the number of failures reached
    the ceiling, until the window that the first failure opened ends, and from
    then on it is clear again. *)
Theorem lockout_window_is_fixed (ns identifier : string) (window max_attempts d : Z) (delays : list Z) (r : Redis) :
  r_pool r = [] -> no_failures ns identifier r -> 0 < window -> 0 < max_attempts ->
  Forall (Z.le 0) delays -> total delays <= window * 1000 -> Z.of_nat (length delays) < i64_max -> 0 <= d ->
  let failed := fail_all ns identifier window (0 :: delays) r in
  let later := advance d failed in
  is_locked ns identifier max_attempts later =
    (Ok (bool_decide (total delays + d <= window * 1000 /\ max_attempts <= 1 + Z.of_nat (length delays))), later).
Proof.
  intros Hp Hn Hw Hmax Hd Htot Hlen Hd0. cbv zeta. cbn [fail_all].
  assert (Hn' : no_failures ns identifier (advance 0 r)).
  { unfold no_failures in *. by rewrite rlookup_advance, Hn. }
  destruct (first_failure ns identifier (advance 0 r) window) as (r1 & Hrun & Hp1 & Hn1 & Hc1); [done..|].
  rewrite Hrun. cbn [snd]. simpl in Hn1. 
  destruct (fail_all_counts ns identifier window delays r1 1 _ Hp1 Hc1) as (Hp2 & Hn2 & Hc2); [lia | lia | done | simpl; lia |].
  pose proof (counts_advance ns identifier _ _ _ d Hc2) as Ha. simpl in Ha.
  case_bool_decide.
  - rewrite locked_none by done. do 2 f_equal. rewrite bool_decide_eq_false_2 by lia.
    by rewrite bool_decide_eq_false_2 by lia.
  - rewrite (locked_counts ns identifier _ _ _ max_attempts) by (done || lia || exact Ha).
    do 2 f_equal. apply bool_decide_ext. lia.
Qed.

Lemma lockout_window_is_fixed_witness :
  let failed := fail_all "auth" "id" 900 [0; 1000; 2000] {| r_now := 0; r_db := ∅; r_pool := [] |} in
  is_locked "auth" "id" 3 (advance 60000 failed) =
    (Ok (bool_decide (total [1000; 2000] + 60000 <= 900 * 1000 /\ 3 <= 1 + Z.of_nat (length [1000; 2000]))),
     advance 60000 failed).
Proof.
  apply (lockout_window_is_fixed "auth" "id" 900 3 60000 [1000; 2000]);
    [reflexivity | reflexivity | lia | lia | repeat constructor; lia | simpl; lia | unfold i64_max; simpl; lia | lia].
Defined.

(** * Single consumption: MFA challenges, transition locks and stored tokens *)

(** ** MFA challenge tokens *)

Section challenge.
Context (ns jti_hash : string) (ttl : Z).

Notation marker := (key ns Mfa jti_hash).

(** A challenge is redeemed by a code, or by a recovery code that deletes the marker. *)
Inductive redemption : Set := ByCode (replay_id : string) | ByRecovery.

Definition redeem_challenge (x : redemption) : M Redis AuthError bool :=
  match x with
  | ByCode replay_id => challenge_consume ns replay_id jti_hash ttl
  | ByRecovery => del_temp ns jti_hash
  end.

Fixpoint redeem_all (xs : list (Z * redemption)) (r : Redis) : list (result AuthError bool) :=
  match xs with
  | [] => []
  | (ms, x) :: xs' => let '(res, r') := redeem_challenge x (advance ms r) in res :: redeem_all xs' r'
  end.

Definition won (res : result AuthError bool) : bool := match res with Ok b => b | Err _ => false end.

Definition wins (xs : list (result AuthError bool)) : nat := length (List.filter won xs).

Lemma key_ne_marker (replay_id : string) : key ns Tu replay_id <> marker.
Proof. intros [? _]%key_inj. done. Qed.

(** Whatever the call answers, a marker that is gone stays gone, and a winning
    call leaves none. *)
Lemma redeem_step (x : redemption) (r r' : Redis) (res : result AuthError bool) :
  redeem_challenge x r = (res, r') ->
  (rlookup r marker = None -> won res = false /\ rlookup r' marker = None) /\
  (won res = true -> rlookup r' marker = None).
Proof.
  pose proof key_ne_marker as Hne.
  destruct x as [id|]; unfold redeem_challenge.
  - unfold challenge_consume, challenge_consume_inner, Scripts.mfa_challenge, served, catch_map. mrun.
    unfold connection. destruct (r_pool r) as [|[] pool] eqn:Hp; cbv beta iota;
      [| by intros [= <- <-] |].
    all: unfold cmd_set_nx_ex; destruct (bool_decide (ttl <= 0)); [by intros [= <- <-]|];
      cbv beta iota; (destruct (view _ (key ns Tu id)); cbv beta iota; [by intros [= <- <-]|]);
      unfold negb, cmd_del; cbv beta iota.
    all: set (r1 := put (key ns Tu id) _ _ _).
    all: destruct (view r1 marker) eqn:Hv; cbv beta iota; simpl bool_decide; cbv beta iota; intros [= <- <-].
    all: try (split; [|done]; intros _; split; [done|]; rewrite rlookup_remove_ne by done; apply rlookup_remove).
    all: split; [intros Hn; exfalso | intros _; apply rlookup_remove].
    all: unfold r1, view in Hv; rewrite rlookup_put_ne in Hv by done; unfold rlookup in Hn, Hv; simpl in Hv;
      by rewrite Hn in Hv.
  - unfold del_temp, del_temp_inner, served, catch_map. mrun. unfold connection.
    destruct (r_pool r) as [|[] pool] eqn:Hp; cbv beta iota; [| by intros [= <- <-] |].
    all: unfold cmd_del, view; cbv beta iota.
    + destruct (rlookup r marker) eqn:Hl; intros [= <- <-]; (split; [intros Hn | intros Hw]); simplify_eq/=;
        try (split; [done|]); apply rlookup_remove.
    + set (r1 := {| r_now := r_now r; r_db := r_db r; r_pool := pool |}).
      assert (Hl1 : rlookup r1 marker = rlookup r marker) by done. rewrite Hl1.
      destruct (rlookup r marker) eqn:Hl; intros [= <- <-]; (split; [intros Hn | intros Hw]); simplify_eq/=;
        try (split; [done|]); apply rlookup_remove.
Qed.

Lemma absent_never_wins (xs : list (Z * redemption)) (r : Redis) :
  rlookup r marker = None -> wins (redeem_all xs r) = 0%nat.
Proof.
  revert r. induction xs as [|[ms x] xs IH]; intros r Hn; [done|]. cbn [redeem_all].
  destruct (redeem_challenge x (advance ms r)) as [res r'] eqn:E.
  destruct (redeem_step x _ _ _ E) as [Hstep _].
  destruct Hstep as [Hw Hn']; [by rewrite rlookup_advance, Hn|].
  unfold wins in *. cbn. rewrite Hw. by apply IH.
Qed.

Lemma at_most_one_win (xs : list (Z * redemption)) (r : Redis) : (wins (redeem_all xs r) <= 1)%nat.
Proof.
  revert r. induction xs as [|[ms x] xs IH]; intros r; [cbn; lia|]. cbn [redeem_all].
  destruct (redeem_challenge x (advance ms r)) as [res r'] eqn:E.
  destruct (redeem_step x _ _ _ E) as [_ Hstep]. specialize (IH r').
  unfold wins in *. cbn. destruct (won res); [|done]. cbn.
  pose proof (absent_never_wins xs r' (Hstep eq_refl)) as Hz. unfold wins in Hz. lia.
Qed.

End challenge.

(** An MFA challenge token is redeemed at most once: over any sequence of
    redemption attempts, with any still-valid codes (even different ones for
    neighbouring time steps) or recovery codes, with any delays and any
    connection failures between them, at most one answers success. *)
Theorem challenge_redeemed_once (ns jti_hash : string) (ttl : Z) (attempts : list (Z * redemption)) (r : Redis) :
  (wins (redeem_all ns jti_hash ttl attempts r) <= 1)%nat.
Proof. apply at_most_one_win. Qed.

(** ** The transition lock *)

Section lock.
Context (ns lock_id : string).

Notation lock := (key ns Mfalock lock_id).

Inductive lock_call : Set := Acquire (token : string) (ttl : Z) | Release (token : string).

Definition run_lock_call (c : lock_call) : M Redis AuthError bool :=
  match c with
  | Acquire token ttl => acquire_mfa_lock ns lock_id token ttl
  | Release token => _ ← release_mfa_lock ns lock_id token; mret false
  end.

Definition call_token (c : lock_call) : string := match c with Acquire t _ | Release t => t end.

Definition held_by (r : Redis) (token : string) (e : Z) : Prop :=
  rlookup r lock = Some {| re_value := RStr token; re_expire := Some e |}.

Fixpoint run_lock_calls (cs : list (Z * lock_call)) (r : Redis) : list (result AuthError bool) * Redis :=
  match cs with
  | [] => ([], r)
  | (ms, c) :: cs' =>
      let '(res, r') := run_lock_call c (advance ms r) in
      let '(ress, r'') := run_lock_calls cs' r' in (res :: ress, r'')
  end.

(** A call by another holder neither takes nor frees a held lock. *)
Lemma foreign_call (c : lock_call) (r r' : Redis) (res : result AuthError bool) (token : string) (e : Z) :
  held_by r token e -> call_token c <> token -> run_lock_call c r = (res, r') ->
  res <> Ok true /\ held_by r' token e /\ r_now r' = r_now r.
Proof.
  intros Hh Hne. destruct c as [t ttl|t]; simpl in Hne; unfold run_lock_call.
  - unfold acquire_mfa_lock, set_nx_value, served, catch_map. mrun. unfold connection.
    destruct (r_pool r) as [|[] pool]; cbv beta iota; unfold cmd_set_nx_ex;
      try (destruct (bool_decide (ttl <= 0))); intros; simplify_eq/=; try done.
    all: unfold view in *; unfold held_by, rlookup in *; simpl in *; rewrite ?Hh in *; simplify_eq; done.
  - unfold release_mfa_lock, release_mfa_lock_inner, Scripts.release_lock, ignore, served, catch_map. mrun. unfold connection.
    destruct (r_pool r) as [|[] pool]; cbv beta iota; unfold cmd_get, view;
      try (intros; simplify_eq/=; done).
    all: unfold held_by, rlookup in *; simpl in *; rewrite ?Hh; simpl;
      rewrite bool_decide_eq_false_2 by congruence; intros; simplify_eq/=; done.
Qed.

Lemma foreign_calls (cs : list (Z * lock_call)) (r : Redis) (token : string) (e : Z) :
  held_by r token e -> Forall (fun c => 0 <= c.1 /\ call_token c.2 <> token) cs ->
  r_now r + foldr (fun c t => c.1 + t) 0 cs <= e ->
  Forall (fun res => res <> Ok true) (run_lock_calls cs r).1 /\ held_by (run_lock_calls cs r).2 token e.
Proof.
  revert r. induction cs as [|[ms c] cs IH]; intros r Hh Hcs Hnow; [done|].
  apply Forall_cons_1 in Hcs as [[Hms Hne] Hcs]. simpl in Hms, Hne, Hnow. cbn [run_lock_calls].
  assert (Hsum : 0 <= foldr (fun c t => c.1 + t) 0 cs).
  { clear -Hcs. induction cs as [|c cs IH]; simpl; [done|]. apply Forall_cons_1 in Hcs as [[Hm _] Hcs].
    specialize (IH Hcs). lia. }
  assert (Hh' : held_by (advance ms r) token e).
  { unfold held_by in *. rewrite rlookup_advance, Hh. simpl. by rewrite bool_decide_eq_false_2 by lia. }
  destruct (run_lock_call c (advance ms r)) as [res r'] eqn:E.
  destruct (foreign_call c _ _ _ token e Hh' Hne E) as (Hres & Hh1 & Hn1). simpl in Hn1.
  destruct (IH r' Hh1 Hcs) as [Hf Hh2]; [lia|].
  destruct (run_lock_calls cs r') as [ress r'']. simpl in *. split; [by constructor | done].
Qed.

End lock.

(** The per-account MFA transition lock excludes everyone else: while a
    token holds it and its lifetime has not run out, no sequence of acquisitions
    and releases under other tokens takes it or frees it. *)
Theorem mfa_lock_excludes (ns lock_id token : string) (ttl : Z) (r r1 : Redis) (calls : list (Z * lock_call)) :
  acquire_mfa_lock ns lock_id token ttl r = (Ok true, r1) ->
  Forall (fun c => 0 <= c.1 /\ call_token c.2 <> token) calls ->
  foldr (fun c t => c.1 + t) 0 calls <= ttl * 1000 ->
  Forall (fun res => res <> Ok true) (run_lock_calls ns lock_id calls r1).1 /\
  held_by ns lock_id (run_lock_calls ns lock_id calls r1).2 token (r_now r + ttl * 1000).
Proof.
  intros Hacq Hcs Hsum.
  assert (held_by ns lock_id r1 token (r_now r + ttl * 1000) /\ r_now r1 = r_now r) as [Hh Hn].
  { revert Hacq. unfold acquire_mfa_lock, set_nx_value, served, catch_map. mrun. unfold connection.
    destruct (r_pool r) as [|[] pool]; cbv beta iota; unfold cmd_set_nx_ex; [|done|];
      (destruct (bool_decide (ttl <= 0)) eqn:Ht; [done|]); apply bool_decide_eq_false in Ht;
      (destruct (view _ _); [done|]); intros [= <-]; (split; [|done]);
      unfold held_by; rewrite rlookup_put; simpl; by rewrite bool_decide_eq_false_2 by lia. }
  apply foreign_calls; [done..|]. lia.
Qed.

Lemma mfa_lock_excludes_witness :
  Forall (fun res => res <> Ok true)
    (run_lock_calls "auth" "u" [(0, Acquire "b" 10); (1000, Release "b")]
       (acquire_mfa_lock "auth" "u" "a" 10 {| r_now := 0; r_db := ∅; r_pool := [] |}).2).1 /\
  held_by "auth" "u"
    (run_lock_calls "auth" "u" [(0, Acquire "b" 10); (1000, Release "b")]
       (acquire_mfa_lock "auth" "u" "a" 10 {| r_now := 0; r_db := ∅; r_pool := [] |}).2).2 "a" (0 + 10 * 1000).
Proof.
  apply (mfa_lock_excludes "auth" "u" "a" 10 {| r_now := 0; r_db := ∅; r_pool := [] |}).
  - vm_compute. reflexivity.
  - repeat constructor; simpl; (lia || discriminate).
  - simpl. lia.
Defined.

(** ** Stored tokens *)

(** A stored token is redeemed exactly once: a value put under a token is
    what the first redemption within its lifetime answers, and every later one,
    whatever the delay, finds nothing. *)
Theorem single_use_round_trip `{Crypto} {T : Type} `{JsonLaws T} (ns : string) (p : Prefix) (token : string)
    (value : T) (ttl d d' : Z) (r r1 : Redis) :
  r_pool r = [] -> 0 <= d <= ttl * 1000 ->
  put_value ns p token value ttl r = (Ok tt, r1) ->
  exists r2, consume_value ns p token (advance d r1) = (Ok (Some value), r2) /\
    (consume_value ns p token (advance d' r2) : result RedisStoreError (option T) * Redis) = (Ok None, advance d' r2).
Proof.
  intros Hp Hd Hput. unfold put_value in Hput. revert Hput. mrun.
  destruct (to_json value) as [j|] eqn:Hj; [|done]. simpl. unfold connection at 1. rewrite Hp. unfold cmd_set_ex.
  case_bool_decide as Ht; [done|]. intros [= <-].
  assert (Hl : rlookup (advance d (put (token_key ns p token) (RStr j) (Some (r_now r + ttl * 1000)) r)) (token_key ns p token)
               = Some {| re_value := RStr j; re_expire := Some (r_now r + ttl * 1000) |}).
  { rewrite rlookup_advance, rlookup_put. simpl. rewrite bool_decide_eq_false_2 by lia. simpl.
    by rewrite bool_decide_eq_false_2 by lia. }
  eexists. unfold consume_value at 1. mrun. unfold connection at 1. cbn [advance r_pool put]. rewrite Hp. cbv beta iota.
  unfold cmd_getdel at 1, view at 1. rewrite Hl. simpl. unfold fmap, M_fmap. simpl. rewrite (of_to_json value j Hj). simpl. split; [done|].
  unfold consume_value. mrun. unfold connection. cbn [advance r_pool put remove]. rewrite Hp. cbv beta iota.
  unfold cmd_getdel, view. rewrite rlookup_advance, rlookup_remove. done.
Qed.

Module SingleUseSamples.
Import Concrete.

#[export] Instance ResetContext_eq_dec : EqDecision ResetContext.
Proof. solve_decision. Defined.
#[export] Instance ResetContext_text : Text ResetContext.
Proof.
  apply (text_via (fun c => (rc_user_id c, rc_email c, rc_tenant_id c, rc_password_fingerprint c))
    (fun '(a, b, c, d) => Build_ResetContext a b c d)).
  by intros [].
Defined.

#[export] Instance text_json {T} `{Text T} : Json T := {| to_json x := Some (to_text x); of_json := of_text |}.
#[export] Instance text_json_laws {T} `{Text T} : JsonLaws T.
Proof. split. intros x j. simpl. intros [= <-]. apply of_to_text. Qed.

Definition context : ResetContext :=
  {| rc_user_id := "u1"; rc_email := "a@b.c"; rc_tenant_id := "acme"; rc_password_fingerprint := "fp" |}.

Definition stored : Redis :=
  (put_value "auth" PwReset "token" context 600 {| r_now := 0; r_db := ∅; r_pool := [] |}).2.

Lemma single_use_round_trip_witness :
  exists r2, consume_value "auth" PwReset "token" (advance 5000 stored) = (Ok (Some context), r2) /\
    (consume_value "auth" PwReset "token" (advance 1 r2) : result RedisStoreError (option ResetContext) * Redis)
      = (Ok None, advance 1 r2).
Proof.
  apply (single_use_round_trip "auth" PwReset "token" context 600 5000 1 {| r_now := 0; r_db := ∅; r_pool := [] |} stored);
    [reflexivity | lia | vm_compute; reflexivity].
Defined.

End SingleUseSamples.
