(* ===== verification/MfaStore.v ===== *)
(** * The MFA-store interface

    The trait [MfaStore] of [crates/bymax-auth-core/src/traits/store.rs], the
    contract of its single-use challenge markers, and the Redis implementation
    of [crates/bymax-auth-redis/src/stores/mfa.rs], which shares its database
    with the session store and leaves every session key alone. *)

From S2P Require Import Prelude Errors Types Redis RedisSession SessionSpec RedisRefine SessionStore RedisStores.

Class MfaStore (S : Type) : Type := {
  mfa_put_setup_nx : string -> string -> Z -> M S AuthError bool;
  mfa_get_setup : string -> M S AuthError (option string);
  mfa_take_setup : string -> M S AuthError (option string);
  mfa_put_temp : string -> string -> Z -> M S AuthError unit;
  mfa_get_temp : string -> M S AuthError (option string);
  mfa_del_temp : string -> M S AuthError bool;
  mfa_mark_totp_used : string -> Z -> M S AuthError bool;
  mfa_claim_recovery_code : string -> Z -> M S AuthError bool;
  mfa_acquire_lock : string -> string -> Z -> M S AuthError bool;
  mfa_release_lock : string -> string -> M S AuthError unit;
  mfa_challenge_consume : string -> string -> Z -> M S AuthError bool;
}.

(** The markers a store holds: the user each outstanding challenge names. *)
Class MfaView (S : Type) : Type := { temp_marker : S -> string -> option string }.

(** A call that answers [a], leaves the sessions as they were and the markers
    as [markers] says. *)
Definition marks {S A} `{StoreView S, MfaView S} (m : M S AuthError A) (s : S) (a : A)
    (markers : string -> option string) : Prop :=
  exists s', m s = (Ok a, s') /\ ready s' /\ stands_for s' ≡ stands_for s /\
    forall j, temp_marker s' j = markers j.

Class MfaStoreLaws (S : Type) `{MfaStore S, StoreView S, MfaView S} : Prop := {
  law_put_temp s j u ttl : ready s -> 0 < ttl ->
    marks (mfa_put_temp j u ttl) s tt (upd1 (temp_marker s) j (Some u));
  law_get_temp s j : ready s -> marks (mfa_get_temp j) s (temp_marker s j) (temp_marker s);
  law_del_temp s j : ready s ->
    marks (mfa_del_temp j) s (bool_decide (is_Some (temp_marker s j))) (upd1 (temp_marker s) j None);
}.

Section redis.
Context `{SessionJsonLaws} (ns : string).

#[local] Instance view_here : StoreView Redis := redis_view ns.

#[export] Instance redis_mfa_store : MfaStore Redis := {|
  mfa_put_setup_nx := put_setup_nx ns;
  mfa_get_setup := get_setup ns;
  mfa_take_setup := take_setup ns;
  mfa_put_temp := put_temp ns;
  mfa_get_temp := get_temp ns;
  mfa_del_temp := del_temp ns;
  mfa_mark_totp_used := mark_totp_used ns;
  mfa_claim_recovery_code := claim_recovery_code ns;
  mfa_acquire_lock := acquire_mfa_lock ns;
  mfa_release_lock := release_mfa_lock ns;
  mfa_challenge_consume := challenge_consume ns;
|}.

Definition string_of (o : option rentry) : option string :=
  match o with Some {| re_value := RStr s |} => Some s | _ => None end.

#[export] Instance redis_mfa_view : MfaView Redis := {|
  temp_marker r j := string_of (ent ns r Mfa j);
|}.

Lemma wp_marks {A} (m : R A) (r : Redis) (a : A) (markers : string -> option string) :
  wp m (fun a' r' => a' = a /\ wf ns r' /\ r_pool r' = [] /\ abs ns r' ≡ abs ns r /\
                     forall j, string_of (ent ns r' Mfa j) = markers j) r ->
  marks (served m) r a markers.
Proof.
  unfold wp. destruct (m r) as [[a'|e] r'] eqn:Hm; [|done]. intros (-> & Hwf & Hp & Habs & Hj).
  exists r'. unfold served, catch_map. rewrite Hm. split_and!; [done | by split | done | done].
Qed.

Ltac solve_marks := split_and!; [done | split; [done | solve_armed] | by nows | solve_abs |];
  intros; entries; unfold upd1; by case_decide.

#[export] Instance redis_mfa_store_laws : MfaStoreLaws Redis.
Proof.
  split; cbn [ready stands_for redis_view view_here].
  - intros r j u ttl [[Ht Ha] Hp] Httl. apply wp_marks. unfold put_temp_inner. repeat wp_step; try solve [repeat eexists].
    solve_marks.
  - intros r j [[Ht Ha] Hp]. apply wp_marks. unfold get_temp_inner. repeat wp_step.
    apply wp_get; cbn; [|by intros s x ->|by intros ->].
    intros v. by apply typed_string.
  - intros r j [[Ht Ha] Hp]. apply wp_marks. unfold del_temp_inner. apply wp_bind, wp_connection; [done|]. apply wp_bind.
    destruct (del_spec ns r Mfa j) as (r' & n & Hrun & Hb & Hn). unfold wp. rewrite Hrun.
    assert (Htr : typed ns r') by by eapply typed_del. cbn.
    split_and!; [| split; [done | solve_armed] | by nows | solve_abs | intros; entries; unfold upd1; by case_decide].
    pose proof (typed_string ns r Mfa j) as Hstr. unfold cmd_del, view in Hrun, Hstr. fold (ent ns r Mfa j) in Hrun, Hstr.
    destruct (ent ns r Mfa j) as [[v x]|]; simpl in *; [|by simplify_eq].
    destruct (Hstr v Ht eq_refl eq_refl) as [s ->]. by simplify_eq.
Qed.

End redis.
