(* ===== verification/RedisContract.v ===== *)
(** * The Redis stores keep their contracts

    [Sample] instantiates the session JSON with the codec of [Concrete] and holds
    small databases the witnesses run the store's methods on;
    [redis_refines_session_contract] is the refinement of every method. *)

From S2P Require Import Prelude Errors Types Crypto Concrete Redis RedisSession SessionSpec RedisRefine RefineRevoke RefineListing SessionStore Lineage RedisLife RedisStores MfaStore.

Module Sample.
Import Concrete.

#[export] Instance SessionRecord_text : Text SessionRecord.
Proof.
  apply (text_via
    (fun r => ((sr_user_id r, sr_tenant_id r, sr_role r, sr_device r), (sr_ip r, sr_created_at r),
               (sr_mfa_enabled r, sr_mfa_verified r), (sr_family_id r, sr_family_created_at r)))
    (fun '((a, b, c, d), (e, f), (g, h), (i, j)) => Build_SessionRecord a b c d e f g h i j)).
  by intros [].
Defined.

#[export] Instance DetailWire_eq_dec : EqDecision DetailWire.
Proof. solve_decision. Defined.

#[export] Instance DetailWire_text : Text DetailWire.
Proof.
  apply (text_via (fun w => (dw_device w, dw_ip w, dw_created_at w, dw_last_activity_at w))
    (fun '(a, b, c, d) => Build_DetailWire a b c d)).
  by intros [].
Defined.

#[export] Instance session_json : SessionJson := {|
  record_to_string rec := Some (to_text rec);
  record_from_str := of_text;
  wire_to_string := to_text;
  wire_from_str := of_text;
|}.

#[export] Instance session_json_laws : SessionJsonLaws.
Proof.
  split; cbn.
  - intros rec j [= <-]. apply of_to_text.
  - by intros rec j [= <-].
  - intros w. apply of_to_text.
Qed.

Definition ns : string := "auth".

(** Accounts are named by their user id alone. *)
Definition owner (k : SessionKind) (rec : SessionRecord) : string := sr_user_id rec.

Definition session (user family : string) : SessionRecord := {|
  sr_user_id := user; sr_tenant_id := Some "acme"; sr_role := "USER"; sr_device := "Chrome on macOS";
  sr_ip := "203.0.113.9"; sr_created_at := 0; sr_mfa_enabled := false; sr_mfa_verified := false;
  sr_family_id := family; sr_family_created_at := Some 0 |}.

Definition rotation (old new : string) (rec : SessionRecord) : SessionRotation := {|
  ro_old_hash := old; ro_new_hash := new; ro_new_raw := ""; ro_new_record := rec;
  ro_subject_hash := sr_user_id rec; ro_refresh_ttl := 100; ro_grace_ttl := 30 |}.

(** The database a call leaves. *)
Definition after {S E A} (m : M S E A) (s : S) : S := (m s).2.

Lemma after_ok {S E A} (m : M S E A) (s : S) (a : A) : (m s).1 = Ok a -> m s = (Ok a, after m s).
Proof. unfold after. by destruct (m s) as [? ?]; simpl; intros ->. Qed.

Definition signed_in : Redis :=
  after (served (create_session_inner ns SkDashboard "u1" "h1" (session "u1" "f1") 100)) (fresh 0).

Lemma life_signed_in : life ns owner 100 (fresh 0) [OpCreate SkDashboard "u1" "h1" (session "u1" "f1")] signed_in.
Proof.
  eapply life_cons; [|apply life_nil]. apply (call_create ns owner 100 _ SkDashboard "h1" (session "u1" "f1")).
  - by eexists.
  - apply after_ok. vm_compute. reflexivity.
Qed.

(** The hypotheses hold together. *)
Lemma sign_out_everywhere_witness :
  (forall h rec r3,
     served (find_session_inner ns SkDashboard h)
       (advance 5 (after (served (revoke_all_inner ns SkDashboard "u1")) signed_in)) = (Ok (Some rec), r3) ->
     owner SkDashboard rec <> "u1") /\
  (forall ro rec r3, rotation_ok ro ->
     served (rotate_inner ns SkDashboard ro)
       (advance 5 (after (served (revoke_all_inner ns SkDashboard "u1")) signed_in)) = (Ok (Rotated rec), r3) \/
     served (rotate_inner ns SkDashboard ro)
       (advance 5 (after (served (revoke_all_inner ns SkDashboard "u1")) signed_in)) = (Ok (Grace rec), r3) ->
     owner SkDashboard rec <> "u1").
Proof.
  eapply (sign_out_everywhere ns owner 100 0 _ [OpAdvance 5]).
  - unfold i64_max. lia.
  - exact life_signed_in.
  - apply after_ok. vm_compute. reflexivity.
  - eapply life_cons; [apply call_advance | apply life_nil].
  - by repeat constructor.
Defined.

(** One database after a rotation of the signed-in session. *)
Definition rotated_once : Redis :=
  after (served (rotate_inner ns SkDashboard (rotation "h1" "h2" (session "u1" "f1")))) signed_in.

Lemma revoked_family_stays_dead_witness :
  (forall h rec r3,
     served (find_session_inner ns SkDashboard h)
       (advance 5 (after (served (revoke_family_inner ns SkDashboard "f1" (Some "u1"))) signed_in)) = (Ok (Some rec), r3) ->
     sr_family_id rec <> "f1") /\
  (forall ro rec r3, rotation_ok ro ->
     served (rotate_inner ns SkDashboard ro)
       (advance 5 (after (served (revoke_family_inner ns SkDashboard "f1" (Some "u1"))) signed_in)) = (Ok (Rotated rec), r3) \/
     served (rotate_inner ns SkDashboard ro)
       (advance 5 (after (served (revoke_family_inner ns SkDashboard "f1" (Some "u1"))) signed_in)) = (Ok (Grace rec), r3) ->
     sr_family_id rec <> "f1").
Proof.
  eapply (revoked_family_stays_dead ns owner 100 0 _ [OpAdvance 5] signed_in
    (after (served (revoke_family_inner ns SkDashboard "f1" (Some "u1"))) signed_in) _ SkDashboard "f1" (Some "u1")).
  - unfold i64_max. lia.
  - discriminate.
  - exact life_signed_in.
  - apply after_ok. vm_compute. reflexivity.
  - eapply life_cons; [apply call_advance | apply life_nil].
  - by repeat constructor.
Defined.

(** A replay forty seconds after the rotation, past the thirty-second grace
    window, is answered with the family. *)
Lemma consumed_token_is_detected_witness :
  exists out r3,
    served (rotate_inner ns SkDashboard (rotation "h1" "h3" (session "u1" "f1"))) (advance 40000 rotated_once) = (Ok out, r3) /\
    (forall rec', out <> Rotated rec') /\
    (r_now (advance 40000 rotated_once) <= r_now signed_in + 100 * 1000 ->
     (forall s rec' t, a_grace (abs ns (advance 40000 rotated_once)) SkDashboard "h1" = Some (s, rec', t) ->
        a_live (abs ns (advance 40000 rotated_once)) SkDashboard s = None) ->
     out = Reused "f1").
Proof.
  eapply (consumed_token_is_detected ns owner 100 0 _ [OpAdvance 40000] signed_in rotated_once _ SkDashboard
    (rotation "h1" "h2" (session "u1" "f1")) (rotation "h1" "h3" (session "u1" "f1"))).
  - unfold i64_max. lia.
  - exact life_signed_in.
  - split; [by eexists | reflexivity | reflexivity].
  - split; [by eexists | reflexivity | reflexivity].
  - discriminate.
  - reflexivity.
  - unfold rotated_once. apply after_ok. vm_compute. reflexivity.
  - eapply life_cons; [apply call_advance | apply life_nil].
  - by repeat constructor.
Defined.

End Sample.

(** ** The refinement *)

(** C6. Refinement: every method of the Redis session store, run on a well-formed
    database with a connection available, answers without an error and answers
    and changes exactly what the session contract says (all eighteen methods:
    creation, guarded recovery, rotation with grace and reuse detection, lookup,
    listing, revocation, sweeps, families, the denylist, epochs and the
    recent-authentication mark), and leaves a well-formed database. *)
Theorem redis_refines_session_contract `{SessionJsonLaws} (ns : string) :
  @SessionStoreLaws Redis (redis_session_store ns) (redis_view ns).
Proof. exact (redis_session_store_laws ns). Qed.

(** Refinement: planting, reading and deleting an MFA challenge marker on the
    shared Redis database behaves as the marker contract says, with the deletion
    answering whether a marker was there, and leaves every session untouched. *)
Theorem redis_refines_mfa_contract `{SessionJsonLaws} (ns : string) :
  @MfaStoreLaws Redis (redis_mfa_store ns) (redis_view ns) (redis_mfa_view ns).
Proof. exact (redis_mfa_store_laws ns). Qed.

Module ContractSamples.
Import Concrete Sample.

(** An empty database answers that a token names no session. *)
Lemma redis_refines_session_contract_witness :
  @answers Redis AuthError (option SessionRecord) (redis_view ns) (served (find_session_inner ns SkDashboard "h1")) (fresh 0) None
    (abs ns (fresh 0)).
Proof.
  exact (@law_find _ _ _ (redis_refines_session_contract ns) (fresh 0) SkDashboard "h1" (fresh_ready ns 0)).
Defined.

Lemma redis_refines_mfa_contract_witness :
  @marks Redis bool (redis_view ns) (redis_mfa_view ns) (del_temp ns "j1") (fresh 0) false
    (upd1 (@temp_marker _ (redis_mfa_view ns) (fresh 0)) "j1" None).
Proof.
  exact (@law_del_temp _ _ _ _ (redis_refines_mfa_contract ns) (fresh 0) "j1" (fresh_ready ns 0)).
Defined.

End ContractSamples.
