(* ===== verification/Engine.v ===== *)
(** * The engine's world

    What a service method runs in: the stores behind the traits, the host's
    application's own state (its user repository and hooks), the draws and clock
    readings taken so far, the time slept and the calls handed to detached tasks.  Models the shared helpers of
    [crates/bymax-auth-core/src/services/mod.rs], the hook contexts of
    [traits/hooks.rs] and the session metadata of [services/session.rs].

    A method is a value of [E S U A]: it may read and write the world and
    returns an [AuthError] or an answer. *)

From S2P Require Import Prelude Errors Types Crypto Redis RedisSession SessionSpec SessionStore MfaStore.

(** ** Hooks *)

Inductive HookPlane : Set := HpDashboard | HpPlatform.

Record HookContext : Type := {
  hc_plane : HookPlane;
  hc_user_id : option string;
  hc_email : option string;
  hc_tenant_id : option string;
  hc_ip : string;
  hc_user_agent : string;
  hc_sanitized_headers : gmap string string;
}.

Definition detached (plane : HookPlane) (user_id ip user_agent : string) : HookContext := {|
  hc_plane := plane;
  hc_user_id := Some user_id;
  hc_email := None;
  hc_tenant_id := None;
  hc_ip := ip;
  hc_user_agent := user_agent;
  hc_sanitized_headers := ∅;
|}.

(** What the new-session hook is told of a session ([traits/email.rs]). *)
Record HookSession : Set := { hs_device : string; hs_ip : string; hs_session_hash : string }.

(** The request a flow serves ([context.rs]): its headers are already sanitized. *)
Record RequestContext : Type := {
  rc_ip : string;
  rc_user_agent : string;
  rc_sanitized_headers : gmap string string;
}.

Definition from_request (plane : HookPlane) (ctx : RequestContext) (user_id email tenant_id : option string) :
    HookContext := {|
  hc_plane := plane;
  hc_user_id := user_id;
  hc_email := email;
  hc_tenant_id := tenant_id;
  hc_ip := rc_ip ctx;
  hc_user_agent := rc_user_agent ctx;
  hc_sanitized_headers := rc_sanitized_headers ctx;
|}.

Inductive LoginFailureReason : Set :=
| LfInvalidCredentials | LfAccountBlocked | LfEmailNotVerified | LfLockedOut.

Record LoginFailure : Set := {
  lf_email : string;
  lf_tenant_id : string;
  lf_user_id : option string;
  lf_reason : LoginFailureReason;
}.

(** A call handed to a detached task: a hook of the host, an e-mail, or a
    repository write that no answer waits for ([services/auth/detached.rs]). *)
Inductive HookCall : Type :=
| OnRefreshTokenReuseDetected (user_id family_id : string) (ctx : HookContext)
| OnNewSession (user : SafeAuthUser) (session : HookSession) (ctx : HookContext)
| OnSessionEvicted (user_id evicted_hash : string) (ctx : HookContext)
| OnLoginFailed (failure : LoginFailure) (ctx : HookContext)
| OnLockout (email tenant_id : string) (retry_after_seconds : Z) (ctx : HookContext)
| AfterRegister (user : SafeAuthUser) (ctx : HookContext)
| AfterLogin (user : SafeAuthUser) (ctx : HookContext)
| AfterLogout (user_id : string) (ctx : HookContext)
| AfterPlatformLogout (admin_id : string) (ctx : HookContext)
| AfterEmailVerified (user : SafeAuthUser) (ctx : HookContext)
| AfterPasswordReset (user : SafeAuthUser) (ctx : HookContext)
| AfterInvitationAccepted (user : SafeAuthUser) (ctx : HookContext)
| AfterMfaEnabled (user : SafeAuthUser) (ctx : HookContext)
| AfterMfaDisabled (user : SafeAuthUser) (ctx : HookContext)
| AfterMfaRegenerated (user : SafeAuthUser) (ctx : HookContext)
| SendVerificationEmail (tenant_id email otp : string)
| SendResetOtpEmail (tenant_id email otp : string)
| SendPasswordChanged (tenant_id recipient : string)
| SendMfaEnabled (tenant_id recipient : string)
| SendMfaDisabled (tenant_id recipient : string)
| UpdateLastLogin (tenant_id user_id : string)
| UpdatePlatformLastLogin (admin_id : string)
| RehashPassword (password tenant_id user_id verified_hash : string)
| RehashPlatformPassword (password admin_id verified_hash : string).

(** ** The world *)

Record World (S U : Type) : Type := MkWorld {
  w_store : S;
  w_users : U;
  w_draws : nat;
  w_reads : nat;
  w_slept : Z;
  w_hooks : list HookCall;
}.
Arguments MkWorld {S U} _ _ _ _ _ _.
Arguments w_store {S U} _.
Arguments w_users {S U} _.
Arguments w_draws {S U} _.
Arguments w_reads {S U} _.
Arguments w_slept {S U} _.
Arguments w_hooks {S U} _.

Abbreviation E S U := (M (World S U) AuthError).

Section world.
Context {S U : Type}.

Definition with_store (s : S) (w : World S U) : World S U :=
  MkWorld s (w_users w) (w_draws w) (w_reads w) (w_slept w) (w_hooks w).
Definition with_users (u : U) (w : World S U) : World S U :=
  MkWorld (w_store w) u (w_draws w) (w_reads w) (w_slept w) (w_hooks w).

(** A call of a store method. *)
Definition on_store {A} (m : M S AuthError A) : E S U A :=
  fun w => let '(r, s) := m (w_store w) in (r, with_store s w).

(** A call of a repository method, whose own error the caller sees. *)
Definition on_users {F A} (m : M U F A) : E S U (result F A) :=
  fun w => let '(r, u) := m (w_users w) in (Ok r, with_users u w).

Definition take_draw {A} (f : nat -> A) : E S U A :=
  fun w => (Ok (f (w_draws w)), MkWorld (w_store w) (w_users w) (Datatypes.S (w_draws w)) (w_reads w) (w_slept w) (w_hooks w)).

Definition take_reading {A} (f : nat -> A) : E S U A :=
  fun w => (Ok (f (w_reads w)), MkWorld (w_store w) (w_users w) (w_draws w) (Datatypes.S (w_reads w)) (w_slept w) (w_hooks w)).

(** [spawn_guarded]: the hook runs detached, so the caller only records it. *)
Definition spawn_hook (h : HookCall) : E S U unit :=
  fun w => (Ok tt, MkWorld (w_store w) (w_users w) (w_draws w) (w_reads w) (w_slept w) (w_hooks w ++ [h])).

(** [tokio::time::sleep]: only the time waited, in nanoseconds, is recorded. *)
Definition sleep (nanos : Z) : E S U unit :=
  fun w => (Ok tt, MkWorld (w_store w) (w_users w) (w_draws w) (w_reads w) (w_slept w + nanos) (w_hooks w)).

Definition internal_error (context : string) : AuthError := Internal context.

Definition generate_refresh `{Host} : E S U string :=
  take_draw (fun i => generate_secure_token i REFRESH_TOKEN_BYTES).

Definition draw_uuid `{Host} : E S U string := take_draw new_uuid_v4.

(** [now_offset()]: nanoseconds since the epoch. *)
Definition now_offset `{Host} : E S U OffsetDateTime := take_reading clock.

(** [OffsetDateTime::unix_timestamp]: whole seconds, rounded down. *)
Definition unix_timestamp (t : OffsetDateTime) : Z := t / 1000000000.

Definition now_unix_secs `{Host} : E S U Z := take_reading (fun i => unix_timestamp (clock i)).

Definition ceil_unix (t : OffsetDateTime) : Z :=
  unix_timestamp t + (if bool_decide (0 < t mod 1000000000) then 1 else 0).

Definition now_unix_ceil `{Host} : E S U Z := take_reading (fun i => ceil_unix (clock i)).

(** [Instant::now()], and the wait until [floor_ms] have passed since it. *)
Definition instant_now `{Host} : E S U Z := take_reading clock.

Definition wait_remaining (floor_ms elapsed : Z) : Z := Z.max 0 (floor_ms * 1000000 - elapsed).

Definition normalize_to_floor `{Host} (floor_ms started : Z) : E S U unit :=
  now ← instant_now;
  sleep (wait_remaining floor_ms (Z.max 0 (now - started))).

(** The rounded-up clock is the ceiling of the whole-second clock. *)
Lemma ceil_unix_spec (t : OffsetDateTime) :
  t <= ceil_unix t * 1000000000 < t + 1000000000.
Proof.
  unfold ceil_unix, unix_timestamp. pose proof (Z.div_mod t 1000000000 ltac:(lia)).
  pose proof (Z.mod_pos_bound t 1000000000 ltac:(lia)). case_bool_decide; lia.
Qed.

End world.

(** ** Reasoning about a method *)

Section ewp.
Context {S U : Type}.

(** [ewp m Q w]: run in [w], [m] ends with a result and a world that satisfy [Q]. *)
Definition ewp {A} (m : E S U A) (Q : result AuthError A -> World S U -> Prop) (w : World S U) : Prop :=
  Q (m w).1 (m w).2.

Lemma ewp_ret {A} (a : A) Q w : Q (Ok a) w -> ewp (mret a) Q w.
Proof. done. Qed.

Lemma ewp_throw {A} (e : AuthError) (Q : result AuthError A -> World S U -> Prop) w : Q (Err e) w -> ewp (throw e) Q w.
Proof. done. Qed.

Lemma ewp_bind {A B} (m : E S U A) (f : A -> E S U B) Q w :
  ewp m (fun r w' => match r with Ok a => ewp (f a) Q w' | Err e => Q (Err e) w' end) w ->
  ewp (m ≫= f) Q w.
Proof. unfold ewp. rewrite bind_run. by destruct (m w) as [[a|e] w']. Qed.

Lemma ewp_mono {A} (m : E S U A) (Q Q' : result AuthError A -> World S U -> Prop) w :
  ewp m Q w -> (forall r w', Q r w' -> Q' r w') -> ewp m Q' w.
Proof. unfold ewp. eauto. Qed.

Lemma ewp_lift {A} (r : result AuthError A) (Q : result AuthError A -> World S U -> Prop) w :
  Q r w -> ewp (lift r) Q w.
Proof. done. Qed.

Lemma ewp_store {A} (m : M S AuthError A) (Q : result AuthError A -> World S U -> Prop) (w : World S U) r s' :
  m (w_store w) = (r, s') -> Q r (with_store s' w) -> ewp (on_store m) Q w.
Proof. unfold ewp, on_store. by intros ->. Qed.

Lemma ewp_run {A} (m : E S U A) (Q : result AuthError A -> World S U -> Prop) w r w' :
  ewp m Q w -> m w = (r, w') -> Q r w'.
Proof. unfold ewp. by intros H E; rewrite E in H. Qed.

End ewp.

(** ** Session metadata *)

Definition MAX_IP_LENGTH : nat := 45.

Definition is_session_hash (hash : string) : bool :=
  Nat.eqb (String.length hash) 64 &&
  string_all (fun b => is_ascii_digit b || bool_decide (97 <= byte_z b <= 102)) hash.

(** A byte that continues a UTF-8 character rather than starting one. *)
Definition is_continuation (b : ascii) : bool := bool_decide (128 <= byte_z b < 192).

(** [s.chars().take(n).collect()]. *)
Fixpoint take_chars (n : nat) (s : string) : string :=
  match s with
  | EmptyString => EmptyString
  | String b s' =>
      if is_continuation b then String b (take_chars n s')
      else match n with O => EmptyString | Datatypes.S n' => String b (take_chars n' s') end
  end.

Definition short_hash (hash : string) : string := take_chars 8 hash.

(** Whether a character starts at byte [i]. *)
Definition starts_char (s : string) (i : nat) : bool :=
  match String.get i s with Some b => negb (is_continuation b) | None => false end.

(** The last character offset not past [n]. *)
Fixpoint last_offset (s : string) (n : nat) : nat :=
  if starts_char s n then n
  else match n with O => O | Datatypes.S n' => last_offset s n' end.

Definition truncate_ip (ip : string) : string :=
  if Nat.leb (String.length ip) MAX_IP_LENGTH then ip
  else String.substring 0 (last_offset ip MAX_IP_LENGTH) ip.

Fixpoint str_contains (needle s : string) : bool :=
  starts_with needle s ||
  match s with EmptyString => false | String _ s' => str_contains needle s' end.

Definition detect_browser (ua : string) : string :=
  if str_contains "Edg" ua then "Edge"
  else if str_contains "OPR" ua || str_contains "Opera" ua then "Opera"
  else if str_contains "Chrome" ua then "Chrome"
  else if str_contains "Firefox" ua then "Firefox"
  else if str_contains "Safari" ua && str_contains "Version/" ua then "Safari"
  else "Unknown Browser".

Definition detect_os (ua : string) : string :=
  if str_contains "Android" ua then "Android"
  else if str_contains "iPhone" ua || str_contains "iPad" ua || str_contains "iOS" ua then "iOS"
  else if str_contains "Windows" ua then "Windows"
  else if str_contains "Mac OS X" ua || str_contains "Macintosh" ua then "macOS"
  else if str_contains "Linux" ua then "Linux"
  else "Unknown OS".

Definition parse_user_agent (user_agent : string) : string :=
  detect_browser user_agent +:+ " on " +:+ detect_os user_agent.

Definition normalize_session_metadata (user_agent ip : string) : string * string :=
  (parse_user_agent user_agent, truncate_ip ip).

Lemma substring_split (n : nat) (s : string) : (n <= String.length s)%nat ->
  exists rest, s = String.substring 0 n s +:+ rest /\ String.length (String.substring 0 n s) = n.
Proof.
  revert s. induction n as [|n IH]; intros s Hn.
  - exists s. by destruct s.
  - destruct s as [|c s]; simpl in Hn; [lia|]. destruct (IH s) as (rest & Hs & Hl); [lia|].
    exists rest. simpl. rewrite string_app_cons. split; [by rewrite <-Hs | by rewrite Hl].
Qed.

Lemma last_offset_spec (s : string) (n : nat) :
  (last_offset s n <= n)%nat /\
  (starts_char s (last_offset s n) = true \/ last_offset s n = 0%nat) /\
  (forall i, (last_offset s n < i <= n)%nat -> starts_char s i = false).
Proof.
  induction n as [|n (IHl & IHb & IHi)]; cbn [last_offset].
  - destruct (starts_char s 0) eqn:E0; (split; [lia|]); (split; [auto|]); intros; lia.
  - destruct (starts_char s (Datatypes.S n)) eqn:En; (split; [lia|]); (split; [auto|]); intros i Hi; [lia|].
    destruct (decide (i = Datatypes.S n)) as [->|]; [done|]. apply IHi. lia.
Qed.

(** The stored address is bounded and never splits a character: it is a
    prefix of the address the request came from, of at most 45 bytes, the
    whole of it when it fits, and otherwise cut where a character starts, with
    no later character start inside the bound. *)
Theorem truncate_ip_bounded (ip : string) :
  exists rest, ip = truncate_ip ip +:+ rest /\
    (String.length (truncate_ip ip) <= MAX_IP_LENGTH)%nat /\
    (rest = "" \/
     ((starts_char ip (String.length (truncate_ip ip)) = true \/ truncate_ip ip = "") /\
      forall i, (String.length (truncate_ip ip) < i <= MAX_IP_LENGTH)%nat -> starts_char ip i = false)).
Proof.
  unfold truncate_ip. destruct (Nat.leb_spec (String.length ip) MAX_IP_LENGTH) as [Hle|Hgt].
  - exists "". by rewrite string_app_nil_r; auto.
  - destruct (last_offset_spec ip MAX_IP_LENGTH) as (Hl & Hb & Hi).
    destruct (substring_split (last_offset ip MAX_IP_LENGTH) ip) as (rest & Hs & Hlen); [lia|].
    exists rest. rewrite Hlen. split; [done|]. split; [lia|]. right. split; [|exact Hi].
    destruct Hb as [Hb|Hb]; [by left | right]. rewrite Hb in *. by destruct ip.
Qed.

(** * Reasoning about services over the store contracts

    One rule per store method: run in a world whose store is ready and stands
    for [a], the method answers what the contract computes from [a] and leaves
    a ready store standing for the contract's result.  Services are then run
    symbolically, with the abstract store as the only state. *)

Section rules.
Context {S U : Type} `{SessionStoreLaws S}.

(** The world's store is ready and stands for [a]. *)
Definition at_state (w : World S U) (a : AStore) : Prop :=
  ready (w_store w) /\ stands_for (w_store w) ≡ a.

Lemma at_state_equiv (w : World S U) (a b : AStore) : a ≡ b -> at_state w a -> at_state w b.
Proof. intros E [Hr Hs]. split; [done|]. by etrans. Qed.

Lemma ewp_answers {A} (m : M S AuthError A) (Q : result AuthError A -> World S U -> Prop) (w : World S U)
    (x : A) (after : AStore) :
  answers m (w_store w) x after ->
  (forall s', at_state (with_store s' w) after -> Q (Ok x) (with_store s' w)) ->
  ewp (on_store m) Q w.
Proof. intros (s' & Hm & Hr & Hs) HQ. eapply ewp_store; [exact Hm|]. by apply HQ. Qed.

Lemma answers_equiv {A} (m : M S AuthError A) (s : S) (x : A) (a b : AStore) :
  a ≡ b -> answers m s x a -> answers m s x b.
Proof. intros E (s' & Hm & Hr & Hs). exists s'. split_and!; [done..|]. by etrans. Qed.

Context (w : World S U) (a : AStore) (Hw : at_state w a).

Lemma ewp_find (k : SessionKind) (h : string) Q :
  (forall s', at_state (with_store s' w) a -> Q (Ok (a_find k h a)) (with_store s' w)) ->
  ewp (on_store (find_session k h)) Q w.
Proof.
  destruct Hw as [Hr Hs]. intros HQ. rewrite <-(a_find_proper k h _ _ Hs) in HQ.
  eapply ewp_answers; [eapply answers_equiv; [exact Hs | by apply law_find] | exact HQ].
Qed.

Lemma ewp_epoch (k : SessionKind) (subject : string) Q :
  (forall s', at_state (with_store s' w) a -> Q (Ok (a_current_epoch k subject a)) (with_store s' w)) ->
  ewp (on_store (current_epoch k subject)) Q w.
Proof.
  destruct Hw as [Hr Hs]. intros HQ. rewrite <-(a_current_epoch_proper k subject _ _ Hs) in HQ.
  eapply ewp_answers; [eapply answers_equiv; [exact Hs | by apply law_current_epoch] | exact HQ].
Qed.

Lemma ewp_blacklisted (j : string) Q :
  (forall s', at_state (with_store s' w) a -> Q (Ok (a_is_blacklisted j a)) (with_store s' w)) ->
  ewp (on_store (is_blacklisted j)) Q w.
Proof.
  destruct Hw as [Hr Hs]. intros HQ. rewrite <-(a_is_blacklisted_proper j _ _ Hs) in HQ.
  eapply ewp_answers; [eapply answers_equiv; [exact Hs | by apply law_is_blacklisted] | exact HQ].
Qed.

Lemma ewp_create (k : SessionKind) (subject h : string) (rec : SessionRecord) (ttl : Z) Q :
  storable rec -> 0 < ttl <= i64_max ->
  (forall s', at_state (with_store s' w) (a_create k subject h rec ttl a) -> Q (Ok tt) (with_store s' w)) ->
  ewp (on_store (create_session k subject h rec ttl)) Q w.
Proof.
  destruct Hw as [Hr Hs]. intros Hrec Httl HQ.
  eapply ewp_answers; [eapply answers_equiv; [by apply a_create_proper | by apply law_create] | exact HQ].
Qed.

Lemma ewp_create_recovered (k : SessionKind) (subject h : string) (rec : SessionRecord) (ttl : Z) Q :
  storable rec -> 0 < ttl <= i64_max ->
  (forall s', at_state (with_store s' w) (a_create_recovered k subject h rec ttl a).2 ->
     Q (Ok (a_create_recovered k subject h rec ttl a).1) (with_store s' w)) ->
  ewp (on_store (create_recovered_session k subject h rec ttl)) Q w.
Proof.
  destruct Hw as [Hr Hs]. intros Hrec Httl HQ.
  destruct (a_create_recovered_equiv k subject h rec ttl _ _ Hs) as [E1 E2]. rewrite <-E1 in HQ.
  eapply ewp_answers; [eapply answers_equiv; [exact E2 | by apply law_create_recovered] | exact HQ].
Qed.

Lemma ewp_rotate (k : SessionKind) (ro : SessionRotation) Q :
  rotation_served S ro ->
  (forall s', at_state (with_store s' w) (a_rotate k ro a).2 -> Q (Ok (a_rotate k ro a).1) (with_store s' w)) ->
  ewp (on_store (rotate k ro)) Q w.
Proof.
  destruct Hw as [Hr Hs]. intros Hro HQ.
  destruct (a_rotate_equiv k ro _ _ Hs) as [E1 E2]. rewrite <-E1 in HQ.
  eapply ewp_answers; [eapply answers_equiv; [exact E2 | by apply law_rotate] | exact HQ].
Qed.

Lemma ewp_revoke_family (k : SessionKind) (family : string) (o : option string) Q :
  (forall s', at_state (with_store s' w) (a_revoke_family k family o a) -> Q (Ok tt) (with_store s' w)) ->
  ewp (on_store (revoke_family k family o)) Q w.
Proof.
  destruct Hw as [Hr Hs]. intros HQ.
  eapply ewp_answers; [eapply answers_equiv; [by apply a_revoke_family_proper | by apply law_revoke_family] | exact HQ].
Qed.

Lemma ewp_find_owner (k : SessionKind) (family : string) Q :
  (forall o s', family_owner k family a o -> at_state (with_store s' w) a -> Q (Ok o) (with_store s' w)) ->
  ewp (on_store (find_family_owner k family)) Q w.
Proof.
  destruct Hw as [Hr Hs]. intros HQ. destruct (law_find_owner (w_store w) k family Hr) as (o & s' & Hm & Hr' & Ho & Hs').
  eapply ewp_store; [exact Hm|]. apply HQ; [by eapply family_owner_equiv | split; [done|]]. by etrans.
Qed.

Lemma ewp_mark_recent (u : string) (ttl : Z) Q :
  0 < ttl ->
  (forall s', at_state (with_store s' w) (a_mark_recent u ttl a) -> Q (Ok tt) (with_store s' w)) ->
  ewp (on_store (mark_recent_auth u ttl)) Q w.
Proof.
  destruct Hw as [Hr Hs]. intros Ht HQ.
  eapply ewp_answers; [eapply answers_equiv; [by apply a_mark_recent_proper | by apply law_mark_recent] | exact HQ].
Qed.

Lemma ewp_sweep (k : SessionKind) (subject : string) Q :
  (forall s', at_state (with_store s' w) (a_sweep_grace k subject a) -> Q (Ok tt) (with_store s' w)) ->
  ewp (on_store (sweep_grace_pointers k subject)) Q w.
Proof.
  destruct Hw as [Hr Hs]. intros HQ.
  eapply ewp_answers; [eapply answers_equiv; [by apply a_sweep_grace_proper | by apply law_sweep] | exact HQ].
Qed.

Lemma ewp_bump (k : SessionKind) (subject : string) Q :
  a_current_epoch k subject a < i64_max ->
  (forall s', at_state (with_store s' w) (a_bump_epoch k subject a).2 ->
     Q (Ok (a_bump_epoch k subject a).1) (with_store s' w)) ->
  ewp (on_store (bump_epoch k subject)) Q w.
Proof.
  destruct Hw as [Hr Hs]. intros Hlt HQ.
  destruct (a_bump_epoch_equiv k subject _ _ Hs) as [E1 E2]. rewrite <-E1 in HQ.
  rewrite <-(a_current_epoch_proper k subject _ _ Hs) in Hlt.
  eapply ewp_answers; [eapply answers_equiv; [exact E2 | by apply law_bump_epoch] | exact HQ].
Qed.

End rules.

(** A draw or a clock reading: the answer is known and only a counter moves. *)
Lemma ewp_draw {S U A} (f : nat -> A) (w : World S U) (Q : result AuthError A -> World S U -> Prop) :
  Q (Ok (f (w_draws w))) (MkWorld (w_store w) (w_users w) (Datatypes.S (w_draws w)) (w_reads w) (w_slept w) (w_hooks w)) ->
  ewp (take_draw f) Q w.
Proof. done. Qed.

Lemma ewp_reading {S U A} (f : nat -> A) (w : World S U) (Q : result AuthError A -> World S U -> Prop) :
  Q (Ok (f (w_reads w))) (MkWorld (w_store w) (w_users w) (w_draws w) (Datatypes.S (w_reads w)) (w_slept w) (w_hooks w)) ->
  ewp (take_reading f) Q w.
Proof. done. Qed.

Lemma ewp_hook {S U} (h : HookCall) (w : World S U) (Q : result AuthError unit -> World S U -> Prop) :
  Q (Ok tt) (MkWorld (w_store w) (w_users w) (w_draws w) (w_reads w) (w_slept w) (w_hooks w ++ [h])) -> ewp (spawn_hook h) Q w.
Proof. done. Qed.

Lemma ewp_floor {S U} `{Host} (floor_ms started : Z) (w : World S U) (Q : result AuthError unit -> World S U -> Prop) :
  Q (Ok tt) (MkWorld (w_store w) (w_users w) (w_draws w) (Datatypes.S (w_reads w))
    (w_slept w + wait_remaining floor_ms (Z.max 0 (clock (w_reads w) - started))) (w_hooks w)) ->
  ewp (normalize_to_floor floor_ms started) Q w.
Proof. done. Qed.

Lemma ewp_users {S U F A} (m : M U F A) (w : World S U) (Q : result AuthError (result F A) -> World S U -> Prop) r u :
  m (w_users w) = (r, u) -> Q (Ok r) (with_users u w) -> ewp (on_users m) Q w.
Proof. unfold ewp, on_users. by intros ->. Qed.

(** Effects that leave the store alone keep [at_state] definitionally; this
    closes the side condition of every rule above. *)
Ltac at_here :=
  match goal with
  | H : at_state _ ?a |- at_state _ ?a => exact H
  | H : at_state _ _ |- at_state _ _ => exact H
  end.

(** One step of a symbolic run of a service. *)
Ltac estep :=
  lazymatch goal with
  | |- ewp (mbind _ _) _ _ => apply ewp_bind
  | |- ewp (mret _) _ _ => apply ewp_ret; cbv beta iota
  | |- ewp (throw _) _ _ => apply ewp_throw; cbv beta iota
  | |- ewp (lift _) _ _ => apply ewp_lift; cbv beta iota
  | |- ewp (take_draw _) _ _ => apply ewp_draw; cbv beta iota
  | |- ewp generate_refresh _ _ => apply ewp_draw; cbv beta iota
  | |- ewp draw_uuid _ _ => apply ewp_draw; cbv beta iota
  | |- ewp (take_reading _) _ _ => apply ewp_reading; cbv beta iota
  | |- ewp now_offset _ _ => apply ewp_reading; cbv beta iota
  | |- ewp instant_now _ _ => apply ewp_reading; cbv beta iota
  | |- ewp (normalize_to_floor _ _) _ _ => apply ewp_floor; cbv beta iota
  | |- ewp now_unix_secs _ _ => apply ewp_reading; cbv beta iota
  | |- ewp (spawn_hook _) _ _ => apply ewp_hook; cbv beta iota
  | |- ewp (on_store (find_session _ _)) _ _ => eapply ewp_find; [at_here|]; intros ? ?; cbv beta iota
  | |- ewp (on_store (current_epoch _ _)) _ _ => eapply ewp_epoch; [at_here|]; intros ? ?; cbv beta iota
  | |- ewp (on_store (is_blacklisted _)) _ _ => eapply ewp_blacklisted; [at_here|]; intros ? ?; cbv beta iota
  | |- ewp (on_store (create_session _ _ _ _ _)) _ _ => eapply ewp_create; [at_here | | | intros ? ?; cbv beta iota]
  | |- ewp (on_store (create_recovered_session _ _ _ _ _)) _ _ =>
      eapply ewp_create_recovered; [at_here | | | intros ? ?; cbv beta iota]
  | |- ewp (on_store (rotate _ _)) _ _ => eapply ewp_rotate; [at_here | | intros ? ?; cbv beta iota]
  | |- ewp (on_store (revoke_family _ _ _)) _ _ => eapply ewp_revoke_family; [at_here|]; intros ? ?; cbv beta iota
  | |- ewp (on_store (find_family_owner _ _)) _ _ => eapply ewp_find_owner; [at_here|]; intros ? ? ? ?; cbv beta iota
  | |- ewp (on_store (mark_recent_auth _ _)) _ _ => eapply ewp_mark_recent; [at_here | | intros ? ?; cbv beta iota]
  | |- ewp (on_store (sweep_grace_pointers _ _)) _ _ => eapply ewp_sweep; [at_here|]; intros ? ?; cbv beta iota
  | |- ewp (on_store (bump_epoch _ _)) _ _ => eapply ewp_bump; [at_here | | intros ? ?; cbv beta iota]
  end.
