(* ===== verification/Repository.v ===== *)
(** * The host application

    The traits the engine calls and the host implements: the repositories of
    [crates/bymax-auth-core/src/traits/repository.rs], the awaited hooks of
    [traits/hooks.rs], the awaited sends of [traits/email.rs], the breach checker
    of [traits/breach.rs] and the tenant resolver of [config/resolvers.rs].  All
    of them act on the host's own state [U]; nothing is assumed of what they do. *)

From S2P Require Import Prelude Errors Types Engine.

Inductive RepositoryError : Set := Conflict (what : string) | Backend (cause : string).

Record CreateUserData : Set := {
  cu_email : string;
  cu_name : string;
  cu_password_hash : option string;
  cu_role : option string;
  cu_status : option string;
  cu_tenant_id : string;
  cu_email_verified : option bool;
}.

Record CreateWithOAuthData : Set := {
  co_email : string;
  co_name : string;
  co_role : option string;
  co_status : option string;
  co_tenant_id : string;
  co_email_verified : option bool;
  co_oauth_provider : string;
  co_oauth_provider_id : string;
}.

Record UpdateMfaData : Set := {
  um_mfa_enabled : bool;
  um_mfa_secret : option string;
  um_mfa_recovery_codes : option (list string);
}.

Class UserRepository (U : Type) : Type := {
  repo_find_by_id : string -> option string -> M U RepositoryError (option AuthUser);
  repo_find_by_email : string -> string -> M U RepositoryError (option AuthUser);
  repo_create : CreateUserData -> M U RepositoryError AuthUser;
  repo_update_password : string -> string -> string -> M U RepositoryError unit;
  repo_update_mfa : string -> string -> UpdateMfaData -> M U RepositoryError unit;
  repo_update_last_login : string -> string -> M U RepositoryError unit;
  repo_update_status : string -> string -> string -> M U RepositoryError unit;
  repo_update_email_verified : string -> string -> bool -> M U RepositoryError unit;
  repo_update_email : string -> string -> string -> M U RepositoryError unit;
  repo_find_by_oauth_id : string -> string -> string -> M U RepositoryError (option AuthUser);
  repo_link_oauth : string -> string -> string -> M U RepositoryError unit;
  repo_create_with_oauth : CreateWithOAuthData -> M U RepositoryError AuthUser;
}.

Class PlatformUserRepository (U : Type) : Type := {
  admin_find_by_id : string -> M U RepositoryError (option AuthPlatformUser);
  admin_find_by_email : string -> M U RepositoryError (option AuthPlatformUser);
  admin_update_last_login : string -> M U RepositoryError unit;
  admin_update_mfa : string -> UpdateMfaData -> M U RepositoryError unit;
  admin_update_password : string -> string -> M U RepositoryError unit;
  admin_update_status : string -> string -> M U RepositoryError unit;
}.

(** ** Hooks the engine waits for *)

Inductive HookError : Set := Rejected (why : string) | HookInternal (cause : string).

Record RegisterAttempt : Set := { ra_email : string; ra_name : string; ra_tenant_id : string }.

Record RegisterOverrides : Set := {
  ov_role : option string;
  ov_status : option string;
  ov_email_verified : option bool;
}.

Inductive BeforeRegisterResult : Set :=
| Allow (overrides : RegisterOverrides)
| Reject (reason : option string).

Class AuthHooks (U : Type) : Type := {
  before_register : RegisterAttempt -> HookContext -> M U HookError BeforeRegisterResult;
  before_login : string -> string -> HookContext -> M U HookError unit;
}.

(** ** E-mails whose delivery the engine waits for *)

Class EmailProvider (U : Type) : Type := {
  send_password_reset_token : string -> string -> string -> M U string unit;
  send_email_change_verification : string -> string -> string -> M U string unit;
  send_email_changed_notification : string -> string -> string -> M U string unit;
}.

Class PasswordBreachChecker (U : Type) : Type := {
  is_breached : string -> U -> bool * U;
}.

(** ** Tenants *)

Record RequestParts : Type := {
  rp_method : string;
  rp_uri : string;
  rp_host : option string;
  rp_headers : gmap string string;
}.

Inductive TenantResolveError : Set := TreEmpty | TreInternal (cause : string).

Abbreviation TenantIdResolver U := (RequestParts -> M U TenantResolveError string).

(** ** How the flows read a repository failure *)

Definition map_repository_error (error : RepositoryError) : AuthError :=
  match error with
  | Conflict _ => EmailAlreadyExists
  | Backend source => Internal source
  end.

Section calls.
Context {S U : Type}.

(** [call.await.map_err(f)?] on a repository. *)
Definition from_users {F A} (f : F -> AuthError) (m : M U F A) : E S U A :=
  r ← on_users m; lift (map_err f r).

Lemma from_users_run {F A} (f : F -> AuthError) (m : M U F A) (w : World S U) :
  from_users f m w = (map_err f (m (w_users w)).1, with_users (m (w_users w)).2 w).
Proof. unfold from_users, on_users. rewrite bind_run. cbv beta. by destruct (m (w_users w)) as [[a|e] u]. Qed.

Definition breached `{PasswordBreachChecker U} (password : string) : E S U bool :=
  fun w => let '(b, u) := is_breached password (w_users w) in (Ok b, with_users u w).

End calls.
