(* ===== verification/Password.v ===== *)
(** * Passwords

    Models [crates/bymax-auth-crypto/src/password/{mod,phc,scrypt,argon2}.rs] and
    [crates/bymax-auth-core/src/services/password.rs]: hashing under a chosen
    algorithm, verification of a stored PHC string with its cost ceiling, the
    staleness test behind rehash-on-verify, the password policy, and the bound on
    concurrent derivations.  The derivations and the PHC text are the packages
    [password_hash], [scrypt] and [argon2]: the operations of [PasswordHashLib]. *)

From S2P Require Import Prelude Errors Types Crypto Concrete Engine Repository.

Inductive CryptoError : Set := CryptoHash | CryptoVerify | CryptoDecrypt | CryptoInvalidParams | CryptoEncoding.

(** ** Algorithms and their parameters *)

Inductive PasswordAlgorithm : Set := Scrypt | Argon2id.

Record ScryptParams : Set := { sp_cost_factor : Z; sp_block_size : Z; sp_parallelization : Z }.
Record Argon2Params : Set := { ap_memory_kib : Z; ap_iterations : Z; ap_parallelism : Z }.

Record PasswordParams : Set := {
  pp_active : PasswordAlgorithm;
  pp_scrypt : ScryptParams;
  pp_argon2 : Argon2Params;
}.

Definition MIN_COST_FACTOR : Z := Z.shiftl 1 14.
Definition MIN_MEMORY_KIB : Z := 19456.
Definition MIN_ITERATIONS : Z := 2.

(** [u32::is_power_of_two] and [u32::trailing_zeros]. *)
Definition is_power_of_two (n : Z) : bool := bool_decide (0 < n) && Z.eqb (Z.land n (n - 1)) 0.
Definition trailing_zeros (n : Z) : Z := if Z.eqb n 0 then 32 else Z.log2 (Z.land n (- n)).

Definition validate_scrypt (params : ScryptParams) : result CryptoError unit :=
  if bool_decide (sp_cost_factor params < MIN_COST_FACTOR) || negb (is_power_of_two (sp_cost_factor params))
  then Err CryptoInvalidParams else Ok tt.

Definition validate_argon2 (params : Argon2Params) : result CryptoError unit :=
  if bool_decide (ap_memory_kib params < MIN_MEMORY_KIB) || bool_decide (ap_iterations params < MIN_ITERATIONS)
     || Z.eqb (ap_parallelism params) 0
  then Err CryptoInvalidParams else Ok tt.

(** ** The derivation packages *)

Class PasswordHashLib : Type := {
  PhcHash : Type;
  phc_parse : string -> option PhcHash;
  phc_algorithm : PhcHash -> string;
  phc_decimal : PhcHash -> string -> option Z;
  phc_matches : PhcHash -> string -> bool;
  scrypt_params : Z -> Z -> Z -> bool;
  scrypt_phc : nat -> string -> Z -> Z -> Z -> option string;
  argon2_params : Z -> Z -> Z -> bool;
  argon2_phc : nat -> string -> Z -> Z -> Z -> option string;
}.

(** A produced string parses back to the algorithm, the parameters and a hash of
    the password it was made from. *)
Class PasswordHashLaws `{PasswordHashLib} : Prop := {
  scrypt_phc_spec salt password ln r p s : scrypt_phc salt password ln r p = Some s ->
    exists h, phc_parse s = Some h /\ phc_algorithm h = "scrypt" /\ phc_decimal h "ln" = Some ln /\
      phc_decimal h "r" = Some r /\ phc_decimal h "p" = Some p /\ phc_matches h password = true;
  argon2_phc_spec salt password m t p s : argon2_phc salt password m t p = Some s ->
    exists h, phc_parse s = Some h /\ phc_algorithm h = "argon2id" /\ phc_decimal h "m" = Some m /\
      phc_decimal h "t" = Some t /\ phc_decimal h "p" = Some p /\ phc_matches h password = true;
}.

Section password.
Context `{PasswordHashLib}.

(** ** Hashing *)

Definition scrypt_hash (salt : nat) (password : string) (params : ScryptParams) : result CryptoError string :=
  match validate_scrypt params with
  | Err e => Err e
  | Ok _ =>
      let log_n := trailing_zeros (sp_cost_factor params) in
      if negb (scrypt_params log_n (sp_block_size params) (sp_parallelization params)) then Err CryptoInvalidParams else
      ok_or CryptoHash (scrypt_phc salt password log_n (sp_block_size params) (sp_parallelization params))
  end.

Definition argon2_hash (salt : nat) (password : string) (params : Argon2Params) : result CryptoError string :=
  match validate_argon2 params with
  | Err e => Err e
  | Ok _ =>
      if negb (argon2_params (ap_memory_kib params) (ap_iterations params) (ap_parallelism params))
      then Err CryptoInvalidParams else
      ok_or CryptoHash (argon2_phc salt password (ap_memory_kib params) (ap_iterations params) (ap_parallelism params))
  end.

Definition pw_hash (salt : nat) (password : string) (params : PasswordParams) : result CryptoError string :=
  match pp_active params with
  | Scrypt => scrypt_hash salt password (pp_scrypt params)
  | Argon2id => argon2_hash salt password (pp_argon2 params)
  end.

(** ** Verification, below a cost ceiling *)

Definition MAX_KDF_BYTES_PER_DERIVATION : Z := 512 * 1024 * 1024.
Definition MAX_SCRYPT_PARAMETER : Z := 255.
Definition MAX_ADMISSIBLE_LN : Z := Z.log2 (MAX_KDF_BYTES_PER_DERIVATION / 128).

Definition scrypt_fits (ln r p : Z) : bool :=
  negb (Z.eqb ln 0 || bool_decide (MAX_ADMISSIBLE_LN < ln)
        || negb (bool_decide (1 <= r <= MAX_SCRYPT_PARAMETER)) || negb (bool_decide (1 <= p <= MAX_SCRYPT_PARAMETER)))
  && bool_decide (128 * Z.shiftl 1 ln * r <= MAX_KDF_BYTES_PER_DERIVATION).

Definition scrypt_cost_is_admissible (hash : PhcHash) : bool :=
  match phc_decimal hash "ln", phc_decimal hash "r", phc_decimal hash "p" with
  | Some ln, Some r, Some p => scrypt_fits ln r p
  | _, _, _ => false
  end.

Definition argon2_cost_is_admissible (hash : PhcHash) : bool :=
  match phc_decimal hash "m" with
  | Some memory_kib => bool_decide (memory_kib * 1024 <= MAX_KDF_BYTES_PER_DERIVATION)
  | None => false
  end.

Definition cost_is_admissible (hash : PhcHash) : bool :=
  if bool_decide (phc_algorithm hash = "scrypt") then scrypt_cost_is_admissible hash
  else if bool_decide (phc_algorithm hash = "argon2id") then argon2_cost_is_admissible hash
  else true.

Definition verify_phc (password phc : string) : bool :=
  match phc_parse phc with
  | None => false
  | Some hash => if negb (cost_is_admissible hash) then false else phc_matches hash password
  end.

Definition pw_verify (password phc : string) : result CryptoError bool := Ok (verify_phc password phc).

(** ** Staleness *)

Definition scrypt_is_stale (hash : PhcHash) (current : ScryptParams) : bool :=
  if negb (bool_decide (phc_algorithm hash = "scrypt")) then true else
  match phc_decimal hash "ln", phc_decimal hash "r", phc_decimal hash "p" with
  | Some ln, Some r, Some p =>
      bool_decide (ln < trailing_zeros (sp_cost_factor current)) || bool_decide (r < sp_block_size current)
      || bool_decide (p < sp_parallelization current)
  | _, _, _ => true
  end.

Definition argon2_is_stale (hash : PhcHash) (current : Argon2Params) : bool :=
  if negb (bool_decide (phc_algorithm hash = "argon2id")) then true else
  match phc_decimal hash "m", phc_decimal hash "t", phc_decimal hash "p" with
  | Some m, Some t, Some p =>
      bool_decide (m < ap_memory_kib current) || bool_decide (t < ap_iterations current)
      || bool_decide (p < ap_parallelism current)
  | _, _, _ => true
  end.

Definition needs_rehash_phc (phc : string) (current : PasswordParams) : bool :=
  match phc_parse phc with
  | None => true
  | Some hash =>
      match pp_active current with
      | Scrypt => scrypt_is_stale hash (pp_scrypt current)
      | Argon2id => argon2_is_stale hash (pp_argon2 current)
      end
  end.

(** Whether the hashes the parameters produce are under the verifier's ceiling. *)
Definition params_fit (params : PasswordParams) : bool :=
  match pp_active params with
  | Scrypt => scrypt_fits (trailing_zeros (sp_cost_factor (pp_scrypt params))) (sp_block_size (pp_scrypt params))
                (sp_parallelization (pp_scrypt params))
  | Argon2id => bool_decide (ap_memory_kib (pp_argon2 params) * 1024 <= MAX_KDF_BYTES_PER_DERIVATION)
  end.

End password.

(** A stored hash verifies its own password exactly when the parameters it
    was made under stay below the verifier's memory ceiling (scrypt with block
    size and lanes up to 255 as well); whatever the parameters, a fresh hash is
    never reported stale.  Nothing in hashing refuses parameters above the
    ceiling, so with those the right password is always refused. *)
Theorem fresh_hash_verifies `{PasswordHashLaws} (salt : nat) (password : string) (params : PasswordParams) (phc : string) :
  pw_hash salt password params = Ok phc ->
  pw_verify password phc = Ok (params_fit params) /\ needs_rehash_phc phc params = false.
Proof.
  unfold pw_hash, pw_verify, verify_phc, needs_rehash_phc, params_fit, cost_is_admissible.
  destruct (pp_active params).
  - unfold scrypt_hash. destruct (validate_scrypt _); [|done]. case_match; [done|].
    unfold ok_or. case_match eqn:Hs; [|done]. intros [= <-].
    apply scrypt_phc_spec in Hs as (h & Hp & Ha & Hln & Hr & Hpp & Hm).
    rewrite Hp, Ha. rewrite bool_decide_eq_true_2 by done. unfold scrypt_cost_is_admissible, scrypt_is_stale. rewrite Hln, Hr, Hpp, Ha, Hm.
    cbn [negb]. split; [by destruct (scrypt_fits _ _ _)|]. repeat case_bool_decide; done || lia.
  - unfold argon2_hash. destruct (validate_argon2 _); [|done]. case_match; [done|].
    unfold ok_or. case_match eqn:Hs; [|done]. intros [= <-].
    apply argon2_phc_spec in Hs as (h & Hp & Ha & Hm & Ht & Hpp & Hmatch).
    rewrite Hp, Ha. rewrite bool_decide_eq_false_2, bool_decide_eq_true_2 by done. unfold argon2_cost_is_admissible, argon2_is_stale. rewrite Hm, Ht, Hpp, Ha, Hmatch.
    cbn [negb]. split; [by case_bool_decide|]. repeat case_bool_decide; done || lia.
Qed.

(** ** The password service *)

Record PasswordConfig : Set := {
  pw_active_algorithm : PasswordAlgorithm;
  pw_scrypt : ScryptParams;
  pw_argon2 : Argon2Params;
  pw_rehash_on_verify : bool;
  pw_min_length : Z;
}.

Definition to_crypto_params (config : PasswordConfig) : PasswordParams := {|
  pp_active := pw_active_algorithm config;
  pp_scrypt := {| sp_cost_factor := sp_cost_factor (pw_scrypt config);
                  sp_block_size := sp_block_size (pw_scrypt config);
                  sp_parallelization := sp_parallelization (pw_scrypt config) |};
  pp_argon2 := {| ap_memory_kib := ap_memory_kib (pw_argon2 config);
                  ap_iterations := ap_iterations (pw_argon2 config);
                  ap_parallelism := ap_parallelism (pw_argon2 config) |};
|}.

(** *** How many derivations may run at once *)

Definition KDF_MEMORY_BUDGET_MIB : Z := 512.

Definition usize_max : Z := 2 ^ 64 - 1.
Definition sat_mul (x y : Z) : Z := Z.min usize_max (x * y).

Definition kdf_working_set_mib (config : PasswordConfig) : Z :=
  match pw_active_algorithm config with
  | Scrypt =>
      let n := sp_cost_factor (pw_scrypt config) in
      let r := sp_block_size (pw_scrypt config) in
      Z.max (sat_mul (sat_mul 128 n) r / (1024 * 1024)) 1
  | Argon2id => Z.max (ap_memory_kib (pw_argon2 config) / 1024) 1
  end.

(** [usize::clamp]. *)
Definition clamp (lo hi x : Z) : Z := if bool_decide (x < lo) then lo else if bool_decide (hi < x) then hi else x.

Definition kdf_permit_count (cores : Z) (config : PasswordConfig) : Z :=
  clamp 2 (Z.max cores 2) (KDF_MEMORY_BUDGET_MIB / kdf_working_set_mib config).

(** *** The service *)

Record PasswordService : Set := {
  ps_params : PasswordParams;
  ps_rehash_on_verify : bool;
  ps_min_length : Z;
  ps_sentinel : string;
}.

Record VerifyOutcome : Set := { vo_matched : bool; vo_needs_rehash : bool }.

Definition MIN_CONFIGURABLE_LENGTH : Z := 8.
Definition MAX_CONFIGURABLE_LENGTH : Z := 128.
Definition SENTINEL_PLAINTEXT : string := "bymax-auth::anti-enumeration-sentinel::v1".

Inductive PasswordConfigError : Set := PasswordMinLengthRange (got : Z) | SentinelHashFailed.

Definition new_password_service `{PasswordHashLib} (salt : nat) (config : PasswordConfig) :
    result PasswordConfigError PasswordService :=
  if negb (bool_decide (MIN_CONFIGURABLE_LENGTH <= pw_min_length config <= MAX_CONFIGURABLE_LENGTH))
  then Err (PasswordMinLengthRange (pw_min_length config)) else
  let params := to_crypto_params config in
  match pw_hash salt SENTINEL_PLAINTEXT params with
  | Err _ => Err SentinelHashFailed
  | Ok sentinel => Ok {| ps_params := params; ps_rehash_on_verify := pw_rehash_on_verify config;
                         ps_min_length := pw_min_length config; ps_sentinel := sentinel |}
  end.

(** The runtime the derivations run on: whether a permit is granted, and whether
    the blocking task joins. *)
Class KdfRuntime (U : Type) : Type := {
  kdf_permit : U -> bool * U;
  kdf_join : U -> bool * U;
}.

(** [s.chars().count()]. *)
Fixpoint chars_count (s : string) : Z :=
  match s with
  | EmptyString => 0
  | String b s' => (if is_continuation b then 0 else 1) + chars_count s'
  end.

Definition task_join_failed : AuthError := internal_error "password task failed to join".
Definition hash_failed (_ : CryptoError) : AuthError := internal_error "password hashing failed".

Module PasswordService.
Section service.
Context `{PasswordHashLib, Host} {S U : Type} `{KdfRuntime U, PasswordBreachChecker U} (ps : PasswordService).

Abbreviation Eng := (E S U).

Definition on_runtime (f : U -> bool * U) : Eng bool :=
  fun w => let '(b, u) := f (w_users w) in (Ok b, with_users u w).

Definition acquire_kdf_permit : Eng unit :=
  granted ← on_runtime kdf_permit;
  if granted : bool then mret tt else throw (internal_error "kdf concurrency limiter closed").

Definition assert_not_compromised (password : string) : Eng unit :=
  found ← breached password;
  if found : bool then throw PasswordCompromised else mret tt.

Definition assert_long_enough (password field : string) : result AuthError unit :=
  if bool_decide (ps_min_length ps <= chars_count password) then Ok tt else
  Err (Validation [{| fe_field := field;
                      fe_message := field +:+ " must be at least " +:+ z_to_string (ps_min_length ps) +:+ " characters" |}]).

Definition assert_acceptable (password field : string) : Eng unit :=
  _ ← lift (assert_long_enough password field);
  assert_not_compromised password.

Definition flatten_hash (joined : bool) (hashed : result CryptoError string) : result AuthError string :=
  if joined then map_err hash_failed hashed else Err task_join_failed.

Definition hash (password : string) : Eng string :=
  _ ← acquire_kdf_permit;
  hashed ← take_draw (fun salt => pw_hash salt password (ps_params ps));
  joined ← on_runtime kdf_join;
  lift (flatten_hash joined hashed).

Definition outcome_of (password phc : string) : VerifyOutcome := {|
  vo_matched := match pw_verify password phc with Ok b => b | Err _ => false end;
  vo_needs_rehash := needs_rehash_phc phc (ps_params ps);
|}.

Definition verify (password phc : string) : Eng VerifyOutcome :=
  _ ← acquire_kdf_permit;
  joined ← on_runtime kdf_join;
  if joined : bool then mret (outcome_of password phc) else throw task_join_failed.

Definition verify_sentinel (password : string) : Eng unit :=
  _ ← verify password (ps_sentinel ps);
  mret tt.

End service.
End PasswordService.

(** Derivations never take more than the memory budget, unless two of them alone
    do; and two can always run. *)
Lemma kdf_memory_bounded (cores : Z) (config : PasswordConfig) :
  2 <= kdf_permit_count cores config /\
  kdf_permit_count cores config <= Z.max cores 2 /\
  kdf_permit_count cores config * kdf_working_set_mib config <= Z.max KDF_MEMORY_BUDGET_MIB (2 * kdf_working_set_mib config).
Proof.
  assert (Hw : 1 <= kdf_working_set_mib config) by (unfold kdf_working_set_mib; case_match; lia).
  unfold kdf_permit_count, clamp. set (ws := kdf_working_set_mib config) in *.
  pose proof (Z.mul_div_le KDF_MEMORY_BUDGET_MIB ws ltac:(lia)).
  repeat case_bool_decide; split_and!; try lia; nia.
Qed.

(** A closed choice of the packages: the PHC text is the codec of [Concrete] on
    the algorithm, its parameters and the password. *)
Module PasswordSample.
Import Concrete.

Abbreviation Phc := (string * Z * Z * Z * string)%type.

Definition decimal_of (h : Phc) (name : string) : option Z :=
  let '(algorithm, a, b, c, _) := h in
  if bool_decide (name = (if bool_decide (algorithm = "scrypt") then "ln" else "m")) then Some a
  else if bool_decide (name = (if bool_decide (algorithm = "scrypt") then "r" else "t")) then Some b
  else if bool_decide (name = "p") then Some c else None.

#[export] Instance lib : PasswordHashLib := {|
  PhcHash := Phc;
  phc_parse := Concrete.of_text;
  phc_algorithm h := h.1.1.1.1;
  phc_decimal := decimal_of;
  phc_matches h password := bool_decide (h.2 = password);
  scrypt_params _ _ _ := true;
  scrypt_phc _ password ln r p := Some (Concrete.to_text ("scrypt", ln, r, p, password));
  argon2_params _ _ _ := true;
  argon2_phc _ password m t p := Some (Concrete.to_text ("argon2id", m, t, p, password));
|}.

#[export] Instance lib_laws : PasswordHashLaws.
Proof.
  split; intros ? password a b c s [= <-]; eexists; (split; [apply Concrete.of_to_text|]);
    split_and!; try done; by apply bool_decide_eq_true_2.
Qed.

Definition params (cost : Z) : PasswordParams := {|
  pp_active := Scrypt;
  pp_scrypt := {| sp_cost_factor := cost; sp_block_size := 8; sp_parallelization := 1 |};
  pp_argon2 := {| ap_memory_kib := 19456; ap_iterations := 2; ap_parallelism := 1 |};
|}.

(** At the default cost the password verifies; at [2 ^ 20] it never does. *)
Lemma fresh_hash_verifies_witness :
  (exists phc, pw_hash 0 "hunter2" (params (2 ^ 17)) = Ok phc /\ pw_verify "hunter2" phc = Ok true) /\
  (exists phc, pw_hash 0 "hunter2" (params (2 ^ 20)) = Ok phc /\ pw_verify "hunter2" phc = Ok false).
Proof.
  split.
  - eexists. split; [reflexivity|]. exact (proj1 (fresh_hash_verifies 0 "hunter2" (params (2 ^ 17)) _ eq_refl)).
  - eexists. split; [reflexivity|]. exact (proj1 (fresh_hash_verifies 0 "hunter2" (params (2 ^ 20)) _ eq_refl)).
Defined.

End PasswordSample.
