(* ===== verification/Totp.v ===== *)
(** * Time-based one-time passwords and secrets at rest

    Models [crates/bymax-auth-crypto/src/totp.rs] and [aead.rs]: RFC 4226
    truncation, the drift window, the lenient reading of a displayed secret, the
    provisioning URI, and the three-segment wire form of an encrypted secret.
    HMAC-SHA1, AES-256-GCM and the base-32 and base-64 alphabets are packages:
    [Crypto], [Aes256Gcm], [Base32] and [Base64Std]. *)

From S2P Require Import Prelude Types Crypto Concrete Engine Password.

(** ** HOTP *)

Definition TOTP_STEP_SECS : Z := 30.
Definition TOTP_DIGITS : Z := 6.
Definition MAX_VERIFY_WINDOW : Z := 2.
Definition HMAC_SHA1_LEN : nat := 20.

(** [u64::to_be_bytes], on the low [8 * n] bits. *)
Fixpoint be_bytes (n : nat) (z : Z) : string :=
  match n with
  | O => EmptyString
  | S n' => String (z_byte (Z.land (Z.shiftr z (8 * Z.of_nat n')) 255)) (be_bytes n' z)
  end.

Definition byte_at (s : string) (i : Z) : Z :=
  match String.get (Z.to_nat i) s with Some b => byte_z b | None => 0 end.

(** [10u32.checked_pow(digits)]. *)
Definition checked_pow10 (digits : Z) : option Z :=
  if bool_decide (10 ^ digits <= u32_max) then Some (10 ^ digits) else None.

Section otp.
Context `{Crypto}.

Definition totp_mac (secret : string) (counter : Z) : string := hmac_sha1 secret (be_bytes 8 counter).

Definition hotp (secret : string) (counter digits : Z) : Z :=
  let hash := totp_mac secret counter in
  let offset := Z.land (byte_at hash (Z.of_nat HMAC_SHA1_LEN - 1)) 15 in
  let binary := Z.lor (Z.lor (Z.lor (Z.shiftl (Z.land (byte_at hash offset) 127) 24)
                                     (Z.shiftl (byte_at hash (offset + 1)) 16))
                              (Z.shiftl (byte_at hash (offset + 2)) 8))
                       (byte_at hash (offset + 3)) in
  let modulus := default 1000000 (checked_pow10 digits) in
  binary mod modulus.

Definition totp (secret : string) (unix_time step_secs digits : Z) : Z :=
  let counter := if Z.eqb step_secs 0 then 0 else unix_time / step_secs in
  hotp secret counter digits.

(** [format!("{:0>width$}", n)]. *)
Fixpoint zeros (n : nat) : string := match n with O => "" | S n' => String "0" (zeros n') end.
Definition pad_left (width : nat) (s : string) : string := zeros (width - String.length s) +:+ s.

Definition candidate (secret : string) (counter : Z) : string :=
  pad_left (Z.to_nat TOTP_DIGITS) (z_to_string (hotp secret counter TOTP_DIGITS)).

(** [u64::checked_add_signed]. *)
Definition checked_add_signed (step delta : Z) : option Z :=
  if bool_decide (0 <= step + delta <= u64_max) then Some (step + delta) else None.

(** The loop over [-window..=window]: [n] steps from [delta] on. *)
Fixpoint scan (secret code : string) (step delta : Z) (n : nat) (matched : bool) : bool :=
  match n with
  | O => matched
  | S n' =>
      let matched := match checked_add_signed step delta with
                     | Some counter => matched || constant_time_eq (candidate secret counter) code
                     | None => matched
                     end in
      scan secret code step (delta + 1) n' matched
  end.

Definition verify_totp (secret code : string) (unix_time window : Z) : bool :=
  let current_step := unix_time / TOTP_STEP_SECS in
  let window := Z.min window MAX_VERIFY_WINDOW in
  scan secret code current_step (- window) (Z.to_nat (2 * window + 1)) false.

Lemma scan_spec (secret code : string) (step delta : Z) (n : nat) (matched : bool) :
  scan secret code step delta n matched = true <->
  matched = true \/ exists d, delta <= d < delta + Z.of_nat n /\ 0 <= step + d <= u64_max /\ candidate secret (step + d) = code.
Proof.
  revert delta matched. induction n as [|n IH]; intros delta matched; cbn [scan].
  - split; [by left|]. intros [?|(d & ? & _)]; [done | lia].
  - rewrite IH. unfold checked_add_signed, constant_time_eq. split.
    + intros [Hm|(d & Hd & Hs & Hc)]; [|right; exists d; split_and!; [lia.. | done]].
      case_bool_decide as Hr; [|by left]. apply orb_true_iff in Hm as [Hm|Hm%bool_decide_eq_true]; [by left|].
      right. exists delta. split_and!; [lia.. | done].
    + intros [->|(d & Hd & Hs & Hc)]; [left; by case_bool_decide|]. destruct (decide (d = delta)) as [->|Hne].
      * left. rewrite (bool_decide_eq_true_2 (0 <= _ <= _)) by lia. rewrite (bool_decide_eq_true_2 _ Hc). apply orb_true_r.
      * right. exists d. split_and!; [lia.. | done].
Qed.

(** ** The truncation, as the RFC states it *)

(** The four bytes at the offset as one big-endian number. *)
Definition be32_at (s : string) (i : Z) : Z :=
  ((byte_at s i * 256 + byte_at s (i + 1)) * 256 + byte_at s (i + 2)) * 256 + byte_at s (i + 3).

Lemma byte_at_range (s : string) (i : Z) : 0 <= byte_at s i < 256.
Proof.
  unfold byte_at, byte_z. case_match; [|lia]. match goal with |- context [N_of_ascii ?a] => pose proof (N_ascii_bounded a) end. lia.
Qed.

Lemma lor_disjoint (x y n : Z) : 0 <= n -> 0 <= y < 2 ^ n -> Z.lor (Z.shiftl x n) y = x * 2 ^ n + y.
Proof.
  intros Hn Hy. rewrite <-Z.shiftl_mul_pow2 by done.
  enough (Hl : Z.land (Z.shiftl x n) y = 0) by (pose proof (Z.add_lor_land (Z.shiftl x n) y); lia).
  apply Z.bits_inj'. intros i Hi. rewrite Z.land_spec, Z.bits_0. destruct (Z.lt_ge_cases i n).
  - by rewrite Z.shiftl_spec_low.
  - rewrite <-(Z.mod_small y (2 ^ n)) by done. by rewrite Z.mod_pow2_bits_high, andb_false_r by lia.
Qed.

Lemma truncate_be32 (b0 b1 b2 b3 : Z) :
  0 <= b0 < 256 -> 0 <= b1 < 256 -> 0 <= b2 < 256 -> 0 <= b3 < 256 ->
  Z.lor (Z.lor (Z.lor (Z.shiftl (Z.land b0 127) 24) (Z.shiftl b1 16)) (Z.shiftl b2 8)) b3 =
  (((b0 * 256 + b1) * 256 + b2) * 256 + b3) mod 2 ^ 31.
Proof.
  intros H0 H1 H2 H3. change 127 with (Z.ones 7). rewrite Z.land_ones by lia.
  pose proof (Z.mod_pos_bound b0 (2 ^ 7) ltac:(lia)) as Hm.
  rewrite <-(Z.lor_assoc (Z.lor _ _)), <-Z.lor_assoc.
  assert (E3 : Z.lor (Z.shiftl b2 8) b3 = b2 * 2 ^ 8 + b3) by (apply lor_disjoint; lia).
  assert (E2 : Z.lor (Z.shiftl b1 16) (b2 * 2 ^ 8 + b3) = b1 * 2 ^ 16 + (b2 * 2 ^ 8 + b3)) by (apply lor_disjoint; lia).
  assert (E1 : Z.lor (Z.shiftl (b0 mod 2 ^ 7) 24) (b1 * 2 ^ 16 + (b2 * 2 ^ 8 + b3)) =
               (b0 mod 2 ^ 7) * 2 ^ 24 + (b1 * 2 ^ 16 + (b2 * 2 ^ 8 + b3))) by (apply lor_disjoint; lia).
  rewrite E3, E2, E1. pose proof (Z.div_mod b0 (2 ^ 7) ltac:(lia)).
  apply (Z.mod_unique_pos _ _ (b0 / 2 ^ 7)); lia.
Qed.

(** [hotp] as RFC 4226 states it: the four bytes at the dynamic offset, read as
    one big-endian number, without its sign bit, reduced to [digits] digits. *)
Definition rfc4226 (mac : string) (digits : Z) : Z :=
  be32_at mac (byte_at mac 19 mod 16) mod 2 ^ 31 mod 10 ^ digits.

Lemma hotp_is_rfc (secret : string) (counter digits : Z) :
  1 <= digits <= 9 -> hotp secret counter digits = rfc4226 (totp_mac secret counter) digits.
Proof.
  intros Hd. assert (Hpow : 10 ^ digits <= 10 ^ 9) by (apply Z.pow_le_mono_r; lia).
  assert (E : checked_pow10 digits = Some (10 ^ digits))
    by (unfold checked_pow10; rewrite bool_decide_eq_true_2 by (unfold u32_max; lia); done).
  unfold hotp, rfc4226, be32_at. rewrite E. cbv beta zeta iota delta [default]. rewrite truncate_be32 by apply byte_at_range.
  change (Z.of_nat HMAC_SHA1_LEN - 1) with 19. change 15 with (Z.ones 4). by rewrite Z.land_ones by lia.
Qed.

(** A submitted code is accepted exactly when it is the six-digit code of one
    of the time steps within the drift window, a window never wider than two
    steps each way and never reaching before the epoch. *)
Theorem verify_totp_exact (secret code : string) (unix_time window : Z) :
  0 <= unix_time <= u64_max -> 0 <= window ->
  verify_totp secret code unix_time window = true <->
  exists step, Z.abs (step - unix_time / 30) <= Z.min window 2 /\ 0 <= step /\
    code = pad_left 6 (z_to_string (rfc4226 (totp_mac secret step) 6)).
Proof.
  intros Ht Hw. unfold verify_totp. rewrite scan_spec. change TOTP_STEP_SECS with 30. unfold MAX_VERIFY_WINDOW.
  assert (Hstep : 0 <= unix_time / 30 <= u64_max / 30) by (split; [apply Z.div_pos | apply Z.div_le_mono]; lia).
  change (u64_max / 30) with 614891469123651720 in Hstep. unfold candidate. change (Z.to_nat TOTP_DIGITS) with 6%nat.
  assert (Hc : forall step, hotp secret step TOTP_DIGITS = rfc4226 (totp_mac secret step) 6)
    by (intros step; by apply hotp_is_rfc).
  split.
  - intros [|(d & Hd & Hs & <-)]; [done|]. exists (unix_time / 30 + d). rewrite Hc. split_and!; [lia.. | done].
  - intros (step & Habs & Hs & ->). right. exists (step - unix_time / 30). unfold u64_max in *.
    replace (unix_time / 30 + (step - unix_time / 30)) with step by lia. rewrite Hc. split_and!; [lia.. | done].
Qed.

End otp.

(** ** Secrets as text *)

(** [data_encoding::BASE32_NOPAD]. *)
Class Base32 : Type := {
  b32_encode : string -> string;
  b32_decode : string -> option string;
}.

Definition is_base32 (c : ascii) : bool := bool_decide (65 <= byte_z c <= 90) || bool_decide (50 <= byte_z c <= 55).

Class Base32Laws `{Base32} : Prop := {
  b32_decode_encode (s : string) : b32_decode (b32_encode s) = Some s;
  b32_encode_alphabet (s : string) : string_all is_base32 (b32_encode s) = true;
}.

(** The Unicode tables behind [char::is_whitespace] and [char::to_uppercase]; a
    character is its UTF-8 bytes. *)
Class UnicodeChars : Type := {
  char_is_whitespace : string -> bool;
  char_to_uppercase : string -> string;
}.

Definition is_ascii (c : ascii) : bool := bool_decide (byte_z c < 128).
Definition ascii_whitespace (c : ascii) : bool := bool_decide (9 <= byte_z c <= 13) || bool_decide (byte_z c = 32).
Definition ascii_upper (c : ascii) : ascii := if bool_decide (97 <= byte_z c <= 122) then z_byte (byte_z c - 32) else c.

Class UnicodeCharsLaws `{UnicodeChars} : Prop := {
  whitespace_ascii (c : ascii) : is_ascii c = true -> char_is_whitespace (String c "") = ascii_whitespace c;
  uppercase_ascii (c : ascii) : is_ascii c = true -> char_to_uppercase (String c "") = String (ascii_upper c) "";
}.

Definition continues (s : string) : bool := match s with String c _ => is_continuation c | EmptyString => false end.

(** [str::chars], each as its bytes. *)
Fixpoint chars (s : string) : list string :=
  match s with
  | EmptyString => []
  | String c s' =>
      match chars s' with
      | first :: rest => if continues s' then String c first :: rest else String c "" :: first :: rest
      | [] => [String c ""]
      end
  end.

Definition HEX_UPPER : string := "0123456789ABCDEF".
Definition hex_upper (nibble : Z) : ascii := default "0"%char (String.get (Z.to_nat nibble) HEX_UPPER).

Definition is_ascii_alphanumeric (c : ascii) : bool :=
  is_ascii_digit c || bool_decide (65 <= byte_z c <= 90) || bool_decide (97 <= byte_z c <= 122).

Definition unreserved (c : ascii) : bool :=
  is_ascii_alphanumeric c || bool_decide (c ∈ ["-"%char; "_"%char; "."%char; "~"%char]).

Fixpoint percent_encode (input : string) : string :=
  match input with
  | EmptyString => EmptyString
  | String byte rest =>
      if unreserved byte then String byte (percent_encode rest)
      else String "%" (String (hex_upper (Z.shiftr (byte_z byte) 4))
                         (String (hex_upper (Z.land (byte_z byte) 15)) (percent_encode rest)))
  end.

Section text.
Context `{Base32, UnicodeChars}.

Definition encode_secret_base32 (secret : string) : string := b32_encode secret.

Definition clean_secret (secret : string) : string :=
  foldr (fun c cleaned => if char_is_whitespace c || bool_decide (c = "-") then cleaned else char_to_uppercase c +:+ cleaned)
    "" (chars secret).

Definition decode_secret_base32 (secret : string) : result CryptoError string :=
  ok_or CryptoEncoding (b32_decode (clean_secret secret)).

Definition provisioning_uri (secret account issuer : string) : string :=
  let secret_b32 := encode_secret_base32 secret in
  let issuer_enc := percent_encode issuer in
  "otpauth://totp/" +:+ issuer_enc +:+ ":" +:+ percent_encode account +:+ "?secret=" +:+ secret_b32 +:+
  "&issuer=" +:+ issuer_enc +:+ "&period=" +:+ z_to_string TOTP_STEP_SECS +:+ "&digits=" +:+
  z_to_string TOTP_DIGITS +:+ "&algorithm=SHA1".

Lemma chars_ascii (c : ascii) (s : string) : is_ascii c = true -> string_all is_ascii s = true -> chars (String c s) = String c "" :: chars s.
Proof.
  intros Hc Hs. cbn [chars]. destruct (chars s) as [|first rest]; [done|]. destruct s as [|d s]; [done|]. cbn [continues].
  cbn [string_all] in Hs. apply andb_true_iff in Hs as [Hd _]. unfold is_ascii in Hd. apply bool_decide_eq_true in Hd.
  unfold is_continuation. by rewrite bool_decide_eq_false_2 by lia.
Qed.

Lemma base32_plain (c : ascii) :
  is_base32 c = true -> is_ascii c = true /\ ascii_whitespace c = false /\ ascii_upper c = c /\ c <> "-"%char.
Proof.
  intros Hc. unfold is_base32, is_ascii, ascii_whitespace, ascii_upper in *. apply orb_true_iff in Hc.
  rewrite !bool_decide_eq_true in Hc. rewrite bool_decide_eq_true, orb_false_iff, !bool_decide_eq_false.
  rewrite bool_decide_eq_false_2 by lia. split_and!; [lia.. | done |]. intros ->. by destruct Hc as [[[] ?]|[[] ?]].
Qed.

Lemma clean_base32 (s : string) `{!UnicodeCharsLaws} : string_all is_base32 s = true -> clean_secret s = s.
Proof.
  intros Hs. induction s as [|c s IH]; [done|]. cbn [string_all] in Hs. apply andb_true_iff in Hs as [Hc Hs].
  destruct (base32_plain c Hc) as (Ha & Hw & Hu & Hd).
  assert (Has : string_all is_ascii s = true).
  { clear -Hs. induction s as [|d s IH]; [done|]. cbn [string_all] in *. apply andb_true_iff in Hs as [Hd Hs].
    destruct (base32_plain d Hd) as (-> & _). by rewrite IH. }
  unfold clean_secret in *. rewrite chars_ascii by done. cbn [foldr]. rewrite (IH Hs), whitespace_ascii, Hw, uppercase_ascii, Hu by done.
  by rewrite bool_decide_eq_false_2 by congruence.
Qed.

(** A displayed secret reads back as the bytes it shows. *)
Lemma decode_encode_secret `{!Base32Laws, !UnicodeCharsLaws} (secret : string) :
  decode_secret_base32 (encode_secret_base32 secret) = Ok secret.
Proof.
  unfold decode_secret_base32, encode_secret_base32. rewrite (clean_base32 _ (b32_encode_alphabet secret)).
  by rewrite b32_decode_encode.
Qed.

End text.

(** ** Encryption at rest *)

Definition NONCE_LEN : nat := 12.
Definition TAG_LEN : nat := 16.

(** [aes_gcm::Aes256Gcm]: encryption yields the ciphertext and then the tag. *)
Class Aes256Gcm : Type := {
  gcm_encrypt : string -> string -> string -> option string;
  gcm_decrypt : string -> string -> string -> option string;
}.

Class Aes256GcmLaws `{Aes256Gcm} : Prop := {
  gcm_opens (key nonce plaintext combined : string) :
    gcm_encrypt key nonce plaintext = Some combined -> gcm_decrypt key nonce combined = Some plaintext;
  gcm_length (key nonce plaintext combined : string) :
    gcm_encrypt key nonce plaintext = Some combined -> String.length combined = (String.length plaintext + TAG_LEN)%nat;
}.

(** [data_encoding::BASE64]. *)
Class Base64Std : Type := {
  base64_encode : string -> string;
  base64_decode : string -> option string;
}.

Class Base64StdLaws `{Base64Std} : Prop := {
  base64_decode_encode (s : string) : base64_decode (base64_encode s) = Some s;
  base64_encode_no_colon (s : string) : contains_char ":" (base64_encode s) = false;
}.

(** [slice::split_at]. *)
Fixpoint split_at (n : nat) (s : string) : string * string :=
  match n, s with
  | Datatypes.S n', String c s' => let '(a, b) := split_at n' s' in (String c a, b)
  | _, _ => (EmptyString, s)
  end.

Section aead.
Context `{Host, Aes256Gcm, Base64Std}.

Definition seal (draw : nat) (plaintext key : string) : result CryptoError string :=
  let nonce_bytes := entropy draw NONCE_LEN in
  ok_or CryptoInvalidParams (
    combined ← gcm_encrypt key nonce_bytes plaintext;
    let '(ciphertext, tag) := split_at (String.length combined - TAG_LEN) combined in
    Some (base64_encode nonce_bytes +:+ ":" +:+ base64_encode tag +:+ ":" +:+ base64_encode ciphertext)).

Definition open_wire (wire key : string) : option string :=
  match split_on ":" wire with
  | [nonce_b64; tag_b64; ct_b64] =>
      nonce ← base64_decode nonce_b64;
      tag ← base64_decode tag_b64;
      ciphertext ← base64_decode ct_b64;
      if negb (Nat.eqb (String.length nonce) NONCE_LEN) || negb (Nat.eqb (String.length tag) TAG_LEN) then None
      else gcm_decrypt key nonce (ciphertext +:+ tag)
  | _ => None
  end.

Definition unseal (wire key : string) : result CryptoError string := ok_or CryptoDecrypt (open_wire wire key).

Lemma split_at_app (n : nat) (s : string) : (split_at n s).1 +:+ (split_at n s).2 = s.
Proof.
  revert s. induction n as [|n IH]; intros [|c s]; [done..|]. cbn [split_at]. specialize (IH s).
  destruct (split_at n s) as [a b]. cbn [fst snd] in *. by rewrite string_app_cons, IH.
Qed.

Lemma split_at_tail (n : nat) (s : string) : String.length (split_at n s).2 = (String.length s - n)%nat.
Proof.
  revert s. induction n as [|n IH]; intros [|c s]; [done..|]. cbn [split_at]. specialize (IH s). by destruct (split_at n s).
Qed.

(** What is sealed opens under the same key, whatever the plaintext. *)
Lemma unseal_seal `{!HostLaws, !Aes256GcmLaws, !Base64StdLaws} (draw : nat) (plaintext key wire : string) :
  seal draw plaintext key = Ok wire -> unseal wire key = Ok plaintext.
Proof.
  unfold seal. intros Hs. destruct (gcm_encrypt _ _ _) as [combined|] eqn:He; [|done]. cbn in Hs.
  pose proof (gcm_length _ _ _ _ He) as Hlen. apply gcm_opens in He.
  pose proof (split_at_app (String.length combined - TAG_LEN) combined) as Happ.
  pose proof (split_at_tail (String.length combined - TAG_LEN) combined) as Htag.
  destruct (split_at _ _) as [ciphertext tag]. injection Hs as <-. cbn [fst snd] in *.
  unfold unseal, open_wire. do 2 change (":" +:+ ?x) with (String ":" x).
  rewrite !split_on_app, split_on_no_sep by apply base64_encode_no_colon. rewrite !base64_decode_encode. cbn [mbind option_bind].
  rewrite entropy_length, Nat.eqb_refl. rewrite (proj2 (Nat.eqb_eq _ _)) by lia. cbn [negb orb]. by rewrite Happ, He.
Qed.

End aead.

(** ** Sample *)

Module TotpSample.

(** The digest of RFC 4226, section 5.4: its dynamic offset is 10. *)
Definition digest : string := String.string_of_list_ascii (map z_byte [31; 134; 152; 105; 14; 2; 202; 22; 97; 133; 80; 239; 127; 25; 218; 142; 148; 91; 85; 90]).

Definition fixed : Crypto := {| sha256 := fun s => s; hmac_sha256 := fun _ s => s; hmac_sha1 := fun _ _ => digest |}.

(** The code the RFC computes from it. *)
Example rfc4226_section_5_4 : hotp (H := fixed) "" 0 6 = 872921.
Proof. by vm_compute. Qed.

Lemma verify_totp_exact_witness : exists step, Z.abs (step - 59 / 30) <= Z.min 1 2 /\ 0 <= step /\ "872921" = pad_left 6 (z_to_string (rfc4226 digest 6)).
Proof. apply (verify_totp_exact (H := fixed) "" "872921" 59 1); [unfold u64_max; lia | lia | by vm_compute]. Defined.

End TotpSample.
