(* ===== verification/SideStores.v ===== *)
(** * The stores beside the sessions

    The traits [BruteForceStore], [OtpStore], [PasswordResetStore],
    [UserStatusCacheStore] of [crates/bymax-auth-core/src/traits], their Redis
    implementations, and what a flow that also handles sessions needs of them:
    whatever they answer, they leave every session, index, family and epoch
    alone. *)

From S2P Require Import Prelude Errors Types Crypto Redis RedisSession SessionSpec RedisRefine SessionStore RedisStores MfaStore.

Class BruteForceStore (S : Type) : Type := {
  bf_is_locked : string -> Z -> M S AuthError bool;
  bf_record_failure : string -> Z -> M S AuthError Z;
  bf_reset : string -> M S AuthError unit;
  bf_remaining_lockout_secs : string -> M S AuthError Z;
}.

Class OtpStore (S : Type) : Type := {
  os_put : OtpPurpose -> string -> string -> Z -> M S AuthError unit;
  os_verify : OtpPurpose -> string -> string -> Z -> M S AuthError unit;
  os_try_begin_resend : OtpPurpose -> string -> Z -> M S AuthError bool;
}.

Class PasswordResetStore (S : Type) : Type := {
  pr_put_token : string -> ResetContext -> Z -> M S AuthError unit;
  pr_consume_token : string -> M S AuthError (option ResetContext);
  pr_delete_token : string -> M S AuthError unit;
  pr_put_verified : string -> ResetContext -> Z -> M S AuthError unit;
  pr_consume_verified : string -> M S AuthError (option ResetContext);
  pr_put_email_change : string -> EmailChangeContext -> Z -> M S AuthError unit;
  pr_consume_email_change : string -> M S AuthError (option EmailChangeContext);
}.

Class UserStatusCacheStore (S : Type) : Type := {
  us_get_status : string -> M S AuthError (option string);
  us_put_status : string -> string -> Z -> M S AuthError unit;
  us_get_verified : string -> M S AuthError (option bool);
  us_put_verified : string -> bool -> Z -> M S AuthError unit;
  us_invalidate : string -> M S AuthError unit;
}.

(** A call that, whatever it answers, leaves the sessions as they were. *)
Definition quiet {S A} `{StoreView S} (m : M S AuthError A) : Prop :=
  forall s, ready s -> ready (m s).2 /\ stands_for (m s).2 ≡ stands_for s.

Class BruteForceStoreLaws (S : Type) `{BruteForceStore S, StoreView S} : Prop := {
  quiet_is_locked id max : quiet (bf_is_locked id max);
  quiet_record_failure id window : quiet (bf_record_failure id window);
  quiet_reset id : quiet (bf_reset id);
  quiet_remaining id : quiet (bf_remaining_lockout_secs id);
  reset_served id s : ready s -> (bf_reset id s).1 = Ok tt;
}.

Class OtpStoreLaws (S : Type) `{OtpStore S, StoreView S} : Prop := {
  quiet_otp_put purpose id code ttl : quiet (os_put purpose id code ttl);
  quiet_otp_verify purpose id code max : quiet (os_verify purpose id code max);
  quiet_otp_resend purpose id cooldown : quiet (os_try_begin_resend purpose id cooldown);
}.

Class PasswordResetStoreLaws (S : Type) `{PasswordResetStore S, StoreView S} : Prop := {
  quiet_put_token t c ttl : quiet (pr_put_token t c ttl);
  quiet_consume_token t : quiet (pr_consume_token t);
  quiet_delete_token t : quiet (pr_delete_token t);
  quiet_put_verified t c ttl : quiet (pr_put_verified t c ttl);
  quiet_consume_verified t : quiet (pr_consume_verified t);
  quiet_put_email_change t c ttl : quiet (pr_put_email_change t c ttl);
  quiet_consume_email_change t : quiet (pr_consume_email_change t);
}.

Class UserStatusCacheLaws (S : Type) `{UserStatusCacheStore S, StoreView S} : Prop := {
  quiet_get_status h : quiet (us_get_status h);
  quiet_put_status h v ttl : quiet (us_put_status h v ttl);
  quiet_get_verified h : quiet (us_get_verified h);
  quiet_put_verified_flag h v ttl : quiet (us_put_verified h v ttl);
  quiet_invalidate h : quiet (us_invalidate h);
}.

(** The MFA store beyond its challenge markers. *)
Class MfaQuietLaws (S : Type) `{MfaStore S, StoreView S} : Prop := {
  quiet_put_setup h v ttl : quiet (mfa_put_setup_nx h v ttl);
  quiet_get_setup h : quiet (mfa_get_setup h);
  quiet_take_setup h : quiet (mfa_take_setup h);
  quiet_mark_totp id ttl : quiet (mfa_mark_totp_used id ttl);
  quiet_claim_code id ttl : quiet (mfa_claim_recovery_code id ttl);
  quiet_acquire id token ttl : quiet (mfa_acquire_lock id token ttl);
  quiet_release id token : quiet (mfa_release_lock id token);
  quiet_challenge_consume id j ttl : quiet (mfa_challenge_consume id j ttl);
  quiet_put_temp j u ttl : quiet (mfa_put_temp j u ttl);
  quiet_get_temp j : quiet (mfa_get_temp j);
  quiet_del_temp j : quiet (mfa_del_temp j);
}.

(** ** Redis: a change confined to the keyspaces beside the sessions *)

Section confined.
Context `{SessionJsonLaws} (ns : string).

(** The keyspaces no session operation reads. *)
Definition beside (p : Prefix) : bool :=
  match p with
  | Lf | Otp | Resend | Wst | PwReset | PwVtok | Inv | Rcu | Ec | Invidx | Us | Uev | MfaSetup | Mfalock | Tu | Os => true
  | _ => false
  end.

Record confined (r r' : Redis) : Prop := {
  c_now : r_now r' = r_now r;
  c_pool : r_pool r' = r_pool r;
  c_ent p h : beside p = false -> p <> Mfa -> ent ns r' p h = ent ns r p h;
  c_mfa h e : ent ns r' Mfa h = Some e -> ok_string e;
}.

Definition mfa_typed (r : Redis) : Prop := forall h e, ent ns r Mfa h = Some e -> ok_string e.

Lemma confined_refl (r : Redis) : mfa_typed r -> confined r r.
Proof. by split. Qed.

Lemma confined_trans (r1 r2 r3 : Redis) : confined r1 r2 -> confined r2 r3 -> confined r1 r3.
Proof.
  intros C1 C2. split; [by rewrite (c_now _ _ C2), (c_now _ _ C1) | by rewrite (c_pool _ _ C2), (c_pool _ _ C1) | | apply C2].
  intros p h Hb Hne. by rewrite (c_ent _ _ C2), (c_ent _ _ C1).
Qed.

Lemma confined_mfa (r r' : Redis) : confined r r' -> mfa_typed r'.
Proof. intros C h e. by apply (c_mfa _ _ C). Qed.

Lemma confined_wf (r r' : Redis) : confined r r' -> wf ns r -> wf ns r' /\ abs ns r' ≡ abs ns r.
Proof.
  intros C [Ht Ha]. split; [split|].
  - intros p h e He. destruct (beside p) eqn:Hb; [by destruct p|].
    destruct (decide (p = Mfa)) as [->|Hp]; [by apply (c_mfa _ _ C h)|]. rewrite (c_ent _ _ C) in He by done. by eapply Ht.
  - intros p h e Hx He. destruct (beside p) eqn:Hb; [by destruct p|].
    destruct (decide (p = Mfa)) as [->|Hp]; [done|]. rewrite (c_ent _ _ C) in He by done. by eapply Ha.
  - split; intros; cbn; [by apply (c_now _ _ C)|..];
      repeat match goal with k : SessionKind |- _ => destruct k end; cbn; by rewrite (c_ent _ _ C).
Qed.

(** A computation all of whose effects are confined. *)
Definition confines {A} (m : R A) : Prop :=
  forall r, r_pool r = [] -> mfa_typed r -> confined r (m r).2.

Lemma confines_quiet {A} (m : R A) : confines m -> @quiet _ _ (redis_view ns) (served m).
Proof.
  intros Hm r [Hwf Hp]. unfold served, catch_map.
  assert (Hmfa : mfa_typed r) by (intros h e He; destruct Hwf as [Ht _]; apply (Ht Mfa h e He)).
  pose proof (Hm r Hp Hmfa) as C. destruct (m r) as [a r']. simpl in *.
  destruct (confined_wf _ _ C Hwf). pose proof (c_pool _ _ C). split; [split; [done|congruence] | done].
Qed.

Lemma confines_ret {A} (a : A) : confines (mret a).
Proof. intros r _ Hm. by apply confined_refl. Qed.

Lemma confines_throw {A} (e : RedisStoreError) : confines (throw e : R A).
Proof. intros r _ Hm. by apply confined_refl. Qed.

Lemma confines_lift {A} (x : result RedisStoreError A) : confines (lift x).
Proof. intros r _ Hm. by apply confined_refl. Qed.

Lemma confines_bind {A B} (m : R A) (f : A -> R B) : confines m -> (forall a, confines (f a)) -> confines (m ≫= f).
Proof.
  intros Hm Hf r Hp Hmfa. pose proof (Hm r Hp Hmfa) as C. unfold mbind, M_bind. destruct (m r) as [[a|e] r1]; [|done].
  simpl in C. eapply confined_trans; [exact C|]. apply Hf; [|by eapply confined_mfa]. rewrite (c_pool _ _ C). done.
Qed.

Lemma confines_fmap {A B} (g : A -> B) (m : R A) : confines m -> confines (g <$> m).
Proof. intros Hm r Hp Hmfa. pose proof (Hm r Hp Hmfa). unfold fmap, M_fmap. by destruct (m r). Qed.

Lemma confines_ignore {A} (m : R A) : confines m -> confines (ignore m).
Proof. intros Hm r Hp Hmfa. pose proof (Hm r Hp Hmfa). unfold ignore. by destruct (m r). Qed.

Lemma confines_multi (cmds : list (R unit)) : Forall confines cmds -> confines (multi cmds).
Proof.
  induction 1 as [|m cmds Hm _ IH]; intros r Hp Hmfa; [by apply confined_refl|]. simpl.
  pose proof (Hm r Hp Hmfa) as C. destruct (m r) as [x r1]. simpl in C.
  pose proof (IH r1 ltac:(rewrite (c_pool _ _ C); done) (confined_mfa _ _ C)) as C1.
  destruct (multi cmds r1) as [y r2]. by eapply confined_trans.
Qed.

Lemma confines_connection : confines connection.
Proof. intros r Hp Hm. unfold connection. rewrite Hp. by apply confined_refl. Qed.

(** ** One write *)

Lemma confined_put (r : Redis) (p : Prefix) (h : string) (v : rvalue) (x : option Z) :
  mfa_typed r -> beside p = true -> confined r (put (key ns p h) v x r).
Proof.
  intros Hm Hp. split; [done..| |].
  - intros p' h' Hp' _. unfold ent. apply rlookup_put_ne. intros [-> _]%key_inj. congruence.
  - intros h' e. unfold ent. rewrite rlookup_put_ne; [apply Hm|]. intros [-> _]%key_inj. done.
Qed.

Lemma confined_remove (r : Redis) (p : Prefix) (h : string) :
  mfa_typed r -> beside p || bool_decide (p = Mfa) = true -> confined r (remove (key ns p h) r).
Proof.
  intros Hm Hp. split; [done..| |].
  - intros p' h' Hp' Hne. unfold ent. apply rlookup_remove_ne. intros [-> _]%key_inj.
    rewrite Hp', bool_decide_eq_false_2 in Hp by done. done.
  - intros h' e. unfold ent. destruct (decide (key ns p h = key ns Mfa h')) as [->|Hne].
    + by rewrite rlookup_remove.
    + rewrite rlookup_remove_ne by done. apply Hm.
Qed.

End confined.

Create HintDb quiet discriminated.
#[export] Hint Resolve confines_ret confines_throw confines_lift confines_bind confines_fmap confines_ignore
  confines_connection : quiet.

(** A command on a key beside the sessions. *)
Ltac confine_cmd := intros r ? ?; unfold wrongtype, throw; repeat case_match; simpl;
  first [ by apply confined_refl | by apply confined_put | by apply confined_remove ].

Section commands.
Context `{SessionJsonLaws} (ns : string) (p : Prefix) (h : string).

Lemma confines_get : confines ns (cmd_get (key ns p h)).
Proof. unfold cmd_get. confine_cmd. Qed.
Lemma confines_hget field : confines ns (cmd_hget (key ns p h) field).
Proof. unfold cmd_hget. confine_cmd. Qed.
Lemma confines_ttl : confines ns (cmd_ttl (key ns p h)).
Proof. unfold cmd_ttl. intros r ? ?. by apply confined_refl. Qed.

Lemma confines_del : beside p || bool_decide (p = Mfa) = true -> confines ns (cmd_del (key ns p h)).
Proof. intros. unfold cmd_del. intros r ? ?. by apply confined_remove. Qed.

Lemma confines_set_mfa v ttl : confines ns (cmd_set_ex (key ns Mfa h) v ttl).
Proof.
  unfold cmd_set_ex. intros r ? Hm. case_bool_decide; [by apply confined_refl|]. simpl.
  assert (B := ent_put ns r Mfa h (RStr v) (Some (r_now r + ttl * 1000)) ltac:(apply fresh_alive; lia)).
  split; [done..| |].
  - intros p' h' _ Hp. rewrite (b_ent _ _ _ _ B). by apply overlay_ne.
  - intros h' e. rewrite (b_ent _ _ _ _ B), overlay_at. case_decide; [intros [= <-]; by eexists | apply Hm].
Qed.

Context (Hp : beside p = true).

Lemma confines_set_ex v ttl : confines ns (cmd_set_ex (key ns p h) v ttl).
Proof. unfold cmd_set_ex. confine_cmd. Qed.
Lemma confines_set_nx_ex v ttl : confines ns (cmd_set_nx_ex (key ns p h) v ttl).
Proof. unfold cmd_set_nx_ex. confine_cmd. Qed.
Lemma confines_getdel : confines ns (cmd_getdel (key ns p h)).
Proof. unfold cmd_getdel. intros r ? ?. unfold wrongtype, throw. repeat case_match; simpl; (by apply confined_refl) || (apply confined_remove; [done | by rewrite Hp]). Qed.
Lemma confines_expire ttl : confines ns (cmd_expire (key ns p h) ttl).
Proof. unfold cmd_expire. intros r ? ?. repeat case_match; simpl; (by apply confined_refl) || (by apply confined_put) || (apply confined_remove; [done | by rewrite Hp]). Qed.
Lemma confines_incr : confines ns (cmd_incr (key ns p h)).
Proof. unfold cmd_incr. confine_cmd. Qed.
Lemma confines_hset field v : confines ns (cmd_hset (key ns p h) field v).
Proof. unfold cmd_hset. confine_cmd. Qed.
Lemma confines_hincrby field n : confines ns (cmd_hincrby (key ns p h) field n).
Proof. unfold cmd_hincrby. confine_cmd. Qed.

End commands.

#[export] Hint Resolve confines_get confines_hget confines_ttl confines_del confines_set_mfa confines_set_ex
  confines_set_nx_ex confines_getdel confines_expire confines_incr confines_hset confines_hincrby : quiet.

#[export] Hint Unfold is_locked_inner record_failure_inner reset_inner remaining_lockout_secs_inner otp_put_inner
  otp_verify_inner try_begin_resend_inner put_value consume_value delete_value read_key write_key delete_key
  put_setup_nx_inner get_setup_inner take_setup_inner put_temp_inner get_temp_inner del_temp_inner
  release_mfa_lock_inner mark_totp_used_inner set_nx_marker set_nx_value challenge_consume_inner decode_i64
  otp_key token_key Scripts.otp_verify Scripts.brute_force_incr Scripts.mfa_challenge Scripts.release_lock : quiet.

(** Follow the shape of a store method; each command's keyspace is known. *)
Ltac confine :=
  repeat first
    [ progress intros
    | progress autounfold with quiet
    | progress cbv zeta
    | apply confines_bind | apply confines_fmap | apply confines_ignore | apply confines_multi
    | solve [eauto with quiet]
    | match goal with |- Forall _ _ => constructor end
    | match goal with |- confines _ (if ?b then _ else _) => destruct b end
    | match goal with |- confines _ (match ?o with Some _ => _ | None => _ end) => destruct o end ].

Section redis.
Context `{Crypto, SessionJsonLaws, Json ResetContext, Json EmailChangeContext} (ns : string).

#[local] Instance view_here : StoreView Redis := redis_view ns.

#[export] Instance redis_brute_force_store : BruteForceStore Redis := {|
  bf_is_locked := is_locked ns;
  bf_record_failure := record_failure ns;
  bf_reset := reset ns;
  bf_remaining_lockout_secs := remaining_lockout_secs ns;
|}.

#[export] Instance redis_otp_store : OtpStore Redis := {|
  os_put := otp_put ns;
  os_verify := otp_verify ns;
  os_try_begin_resend := try_begin_resend ns;
|}.

#[export] Instance redis_password_reset_store : PasswordResetStore Redis := {|
  pr_put_token := put_token ns;
  pr_consume_token := consume_token ns;
  pr_delete_token := delete_token ns;
  pr_put_verified := put_verified ns;
  pr_consume_verified := consume_verified ns;
  pr_put_email_change := put_email_change ns;
  pr_consume_email_change := consume_email_change ns;
|}.

#[export] Instance redis_user_status_cache : UserStatusCacheStore Redis := {|
  us_get_status := get_status ns;
  us_put_status := put_status ns;
  us_get_verified := get_verified ns;
  us_put_verified := put_verified_flag ns;
  us_invalidate := invalidate ns;
|}.

Lemma quiet_bind {S A B} `{StoreView S} (m : M S AuthError A) (f : A -> M S AuthError B) :
  quiet m -> (forall a, quiet (f a)) -> quiet (m ≫= f).
Proof.
  intros Hm Hf s Hs. destruct (Hm s Hs) as [Hr1 He1]. unfold mbind, M_bind. destruct (m s) as [[a|e] s1]; [|done].
  simpl in *. destruct (Hf a s1 Hr1) as [Hr2 He2]. split; [done|]. by etrans.
Qed.

Lemma quiet_lift {S A} `{StoreView S} (x : result AuthError A) : quiet (lift x).
Proof. done. Qed.

Lemma quiet_ret {S A} `{StoreView S} (x : A) : quiet (mret x).
Proof. done. Qed.

#[export] Instance redis_brute_force_laws : BruteForceStoreLaws Redis.
Proof.
  split; intros; try (apply confines_quiet; confine).
  match goal with Hr : ready _ |- _ => destruct Hr as [_ Hp] end.
  cbn. unfold reset, served, catch_map, reset_inner. unfold mbind, M_bind, connection. by rewrite Hp.
Qed.

#[export] Instance redis_otp_laws : OtpStoreLaws Redis.
Proof.
  split; intros; [apply confines_quiet; confine | | apply confines_quiet; confine].
  apply quiet_bind; [apply confines_quiet; confine | intros; apply quiet_lift].
Qed.

#[export] Instance redis_password_reset_laws : PasswordResetStoreLaws Redis.
Proof. split; intros; apply confines_quiet; confine. Qed.

#[export] Instance redis_user_status_laws : UserStatusCacheLaws Redis.
Proof.
  split; intros; try (apply confines_quiet; confine);
    (apply quiet_bind; [apply confines_quiet; confine | intros]); [apply quiet_ret | apply confines_quiet; confine].
Qed.

#[local] Instance mfa_here : MfaStore Redis := redis_mfa_store ns.

#[export] Instance redis_mfa_quiet : MfaQuietLaws Redis.
Proof. split; intros; apply confines_quiet; confine. Qed.

End redis.
