(* ===== verification/OtpService.v ===== *)
(** * One-time passwords: generation and the timing floor

    Models [crates/bymax-auth-core/src/services/otp.rs]: digits drawn by
    rejection, the keyed fingerprint a code is stored under, and verification
    padded to a floor so that an absent record and a wrong code take the same
    time.  The attempt bound is the store's ([StoreClaims]). *)

From S2P Require Import Prelude Errors Types Crypto Concrete Engine SideStores.

Definition MAX_ATTEMPTS : Z := 5.
Definition MIN_VERIFY_MS : Z := 100.

Definition digit_from_byte (byte : Z) : option ascii :=
  if bool_decide (byte < 250) then Some (z_byte (48 + byte mod 10)) else None.

(** [random_array::<1>()[0]], as the [i]-th draw. *)
Definition drawn_byte `{Host} (i : nat) : Z :=
  match entropy i 1 with EmptyString => 0 | String b _ => byte_z b end.

(** How many consecutive rejected bytes the generator may yield.  The loop of
    [draw_digit] has no bound of its own; this is what makes it end. *)
Class DigitSource `{Host} : Type := {
  redraws : nat;
  accepted_within (i : nat) : exists j, (j < redraws)%nat /\ drawn_byte (i + j) < 250;
}.

(** [draw_digit]: the digit and the draw after it. *)
Fixpoint draw_digit (draw : nat -> Z) (fuel i : nat) : option (ascii * nat) :=
  match fuel with
  | O => None
  | Datatypes.S fuel' =>
      match digit_from_byte (draw i) with
      | Some digit => Some (digit, Datatypes.S i)
      | None => draw_digit draw fuel' (Datatypes.S i)
      end
  end.

(** The bytes of draws [i .. i + n - 1] that the sampler keeps, as digits. *)
Definition kept_digits (draw : nat -> Z) (i n : nat) : list ascii :=
  omap (fun j => digit_from_byte (draw j)) (seq i n).

Lemma draw_digit_spec (draw : nat -> Z) (fuel i : nat) :
  (exists j, (j < fuel)%nat /\ draw (i + j)%nat < 250) ->
  exists digit n, draw_digit draw fuel i = Some (digit, (i + Datatypes.S n)%nat) /\
    kept_digits draw i n = [] /\ kept_digits draw i (Datatypes.S n) = [digit].
Proof.
  revert i. induction fuel as [|fuel IH]; intros i (j & Hj & Hb); [lia|]. cbn [draw_digit].
  destruct (digit_from_byte (draw i)) as [digit|] eqn:Hd.
  - exists digit, 0%nat. unfold kept_digits. cbn. rewrite Hd. split; [do 2 f_equal; lia | done].
  - destruct j as [|j]; [rewrite Nat.add_0_r in Hb; unfold digit_from_byte in Hd; case_bool_decide; done || lia|].
    destruct (IH (Datatypes.S i)) as (digit & n & Hrun & Hnone & Hsome).
    { exists j. split; [lia|]. by replace (Datatypes.S i + j)%nat with (i + Datatypes.S j)%nat by lia. }
    exists digit, (Datatypes.S n). unfold kept_digits in *. cbn [seq omap list_omap] in *. rewrite Hd.
    split; [rewrite Hrun; do 2 f_equal; lia | done].
Qed.

Section otp.
Context `{Crypto, DigitSource} {S U : Type} `{OtpStore S} (identifier_key : string).

Abbreviation Eng := (E S U).

Definition with_draws (n : nat) (w : World S U) : World S U :=
  MkWorld (w_store w) (w_users w) n (w_reads w) (w_slept w) (w_hooks w).

Definition random_digit : Eng ascii := fun w =>
  match draw_digit drawn_byte redraws (w_draws w) with
  | Some (digit, next) => (Ok digit, with_draws next w)
  | None => (Err (internal_error "the byte source never yields a digit"), w)
  end.

Fixpoint generate (length : nat) : Eng string :=
  match length with
  | O => mret ""
  | Datatypes.S length' => digit ← random_digit; rest ← generate length'; mret (String digit rest)
  end.

Definition fingerprint (identifier code : string) : string :=
  to_hex (hmac_sha256 identifier_key (identifier +:+ ":" +:+ code)).

Definition store (purpose : OtpPurpose) (identifier code : string) (ttl_secs : Z) : Eng unit :=
  on_store (os_put purpose identifier (fingerprint identifier code) ttl_secs).

Definition verify (purpose : OtpPurpose) (identifier code : string) : Eng unit :=
  started ← instant_now;
  result ← attempt (on_store (os_verify purpose identifier (fingerprint identifier code) MAX_ATTEMPTS));
  _ ← normalize_to_floor MIN_VERIFY_MS started;
  lift result.

Definition try_begin_resend (purpose : OtpPurpose) (identifier : string) (cooldown_secs : Z) : Eng bool :=
  on_store (os_try_begin_resend purpose identifier cooldown_secs).

Lemma random_digit_run (w : World S U) :
  exists digit n, random_digit w = (Ok digit, with_draws (w_draws w + Datatypes.S n) w) /\
    kept_digits drawn_byte (w_draws w) n = [] /\ kept_digits drawn_byte (w_draws w) (Datatypes.S n) = [digit].
Proof.
  destruct (draw_digit_spec drawn_byte redraws (w_draws w) (accepted_within (w_draws w))) as (digit & n & Hr & Hn1 & Hn2).
  exists digit, n. unfold random_digit. by rewrite Hr.
Qed.

End otp.

Lemma kept_app (draw : nat -> Z) (i n m : nat) :
  kept_digits draw i (n + m) = kept_digits draw i n ++ kept_digits draw (i + n) m.
Proof. unfold kept_digits. by rewrite seq_app, omap_app. Qed.

Lemma kept_mono (draw : nat -> Z) (i n' n : nat) :
  (n' <= n)%nat -> (length (kept_digits draw i n') <= length (kept_digits draw i n))%nat.
Proof.
  intros Hn. replace n with (n' + (n - n'))%nat by lia. rewrite kept_app, length_app. lia.
Qed.

Lemma digit_is_digit `{Host} (i : nat) (d : ascii) : digit_from_byte (drawn_byte i) = Some d -> is_ascii_digit d = true.
Proof.
  assert (0 <= drawn_byte i) by (unfold drawn_byte, byte_z; case_match; lia).
  unfold digit_from_byte, is_ascii_digit. case_bool_decide; [|done]. intros [= <-].
  pose proof (Z.mod_pos_bound (drawn_byte i) 10 ltac:(lia)).
  apply bool_decide_eq_true_2. unfold byte_z, z_byte. rewrite N_ascii_embedding by lia. lia.
Qed.


(** A byte source that rejects every other draw: the sampler skips them. *)
Module OtpSource.

#[export] Instance host : Host := {|
  entropy i n := Concrete.fit n (String (z_byte (if Nat.even i then 255 else Z.of_nat i mod 200)) "");
  clock _ := 0;
|}.

Lemma drawn_odd (i : nat) : Nat.even i = false -> drawn_byte i < 250.
Proof.
  intros Hi. unfold drawn_byte.
  change (entropy i 1) with (String (z_byte (if Nat.even i then 255 else Z.of_nat i mod 200)) "").
  rewrite Hi. unfold byte_z, z_byte.
  pose proof (Z.mod_pos_bound (Z.of_nat i) 200 ltac:(lia)). rewrite N_ascii_embedding by lia. lia.
Qed.

#[export] Instance source : DigitSource.
Proof.
  refine {| redraws := 2 |}. intros i. destruct (Nat.even i) eqn:Hi.
  - exists 1%nat. split; [lia|]. apply drawn_odd. rewrite Nat.add_1_r, Nat.even_succ, <-Nat.negb_even, Hi. done.
  - exists 0%nat. split; [lia|]. apply drawn_odd. by rewrite Nat.add_0_r.
Defined.


End OtpSource.
