(* ===== verification/TokenManager.v ===== *)
(** * Tokens

    Models [crates/bymax-auth-core/src/services/token_manager.rs]: signing and
    verification under rotating keys, issuance, rotation with its grace window
    and reuse detection, the absolute lifetime cap, the denylist and epoch
    checks, and the MFA challenge token, on both identity planes.  The stores
    are reached through [SessionStore] and [MfaStore] only. *)

From S2P Require Import Prelude Errors Types Crypto Jwt SessionSpec SessionStore MfaStore Engine.

Definition MFA_TEMP_TOKEN_TTL_SECONDS : Z := 300.
Definition RECENT_AUTH_TTL_SECS : Z := 300.

Record MfaTempVerified : Set := {
  mv_user_id : string;
  mv_context : MfaContext;
  mv_tenant_id : option string;
  mv_jti : string;
}.

Inductive CredentialProof : Set := Proved | Unproven.

#[export] Instance CredentialProof_eq_dec : EqDecision CredentialProof.
Proof. solve_decision. Defined.

(** A [Duration] is its whole seconds here: nothing reads the rest. *)
Record TokenLifetimes : Set := {
  tl_access_ttl : Z;
  tl_refresh_expires_in_days : Z;
  tl_grace_window : Z;
  tl_absolute_session_lifetime_days : Z;
}.

Record TokenBinding : Set := { tb_issuer : option string; tb_audience : option string }.

(** The service's fields; the stores and the hooks are the world's. *)
Record TokenManagerService : Set := {
  tm_key : string;
  tm_previous_keys : list string;
  tm_access_ttl : Z;
  tm_refresh_ttl_secs : Z;
  tm_grace_ttl_secs : Z;
  tm_absolute_lifetime_secs : Z;
  tm_binding : TokenBinding;
  tm_identifier_key : string;
  tm_mfa : bool;
}.

Definition new (key : string) (previous_keys : list string) (lifetimes : TokenLifetimes)
    (identifier_key : string) : TokenManagerService := {|
  tm_key := key;
  tm_previous_keys := previous_keys;
  tm_access_ttl := tl_access_ttl lifetimes;
  tm_refresh_ttl_secs := tl_refresh_expires_in_days lifetimes * 86400;
  tm_grace_ttl_secs := tl_grace_window lifetimes;
  tm_absolute_lifetime_secs := tl_absolute_session_lifetime_days lifetimes * 86400;
  tm_binding := {| tb_issuer := None; tb_audience := None |};
  tm_identifier_key := identifier_key;
  tm_mfa := false;
|}.

Definition with_binding (binding : TokenBinding) (tm : TokenManagerService) : TokenManagerService := {|
  tm_key := tm_key tm; tm_previous_keys := tm_previous_keys tm; tm_access_ttl := tm_access_ttl tm;
  tm_refresh_ttl_secs := tm_refresh_ttl_secs tm; tm_grace_ttl_secs := tm_grace_ttl_secs tm;
  tm_absolute_lifetime_secs := tm_absolute_lifetime_secs tm; tm_binding := binding;
  tm_identifier_key := tm_identifier_key tm; tm_mfa := tm_mfa tm |}.

Definition with_mfa_support (tm : TokenManagerService) : TokenManagerService := {|
  tm_key := tm_key tm; tm_previous_keys := tm_previous_keys tm; tm_access_ttl := tm_access_ttl tm;
  tm_refresh_ttl_secs := tm_refresh_ttl_secs tm; tm_grace_ttl_secs := tm_grace_ttl_secs tm;
  tm_absolute_lifetime_secs := tm_absolute_lifetime_secs tm; tm_binding := tm_binding tm;
  tm_identifier_key := tm_identifier_key tm; tm_mfa := true |}.

(** ** Stamping *)

Class Stampable (C : Type) : Type := { stamped : C -> option string -> option string -> C }.

#[export] Instance DashboardClaims_stampable : Stampable DashboardClaims := {|
  stamped c issuer audience :=
    {| dc_sub := dc_sub c; dc_jti := dc_jti c; dc_tenant_id := dc_tenant_id c; dc_role := dc_role c;
       dc_status := dc_status c; dc_mfa_enabled := dc_mfa_enabled c; dc_mfa_verified := dc_mfa_verified c;
       dc_iat := dc_iat c; dc_exp := dc_exp c; dc_epoch := dc_epoch c; dc_iss := issuer; dc_aud := audience |}
|}.
#[export] Instance PlatformClaims_stampable : Stampable PlatformClaims := {|
  stamped c issuer audience :=
    {| pc_sub := pc_sub c; pc_jti := pc_jti c; pc_role := pc_role c; pc_mfa_enabled := pc_mfa_enabled c;
       pc_mfa_verified := pc_mfa_verified c; pc_iat := pc_iat c; pc_exp := pc_exp c; pc_epoch := pc_epoch c;
       pc_iss := issuer; pc_aud := audience |}
|}.
#[export] Instance MfaTempClaims_stampable : Stampable MfaTempClaims := {|
  stamped c issuer audience :=
    {| mc_sub := mc_sub c; mc_jti := mc_jti c; mc_context := mc_context c; mc_tenant_id := mc_tenant_id c;
       mc_epoch := mc_epoch c; mc_iat := mc_iat c; mc_exp := mc_exp c; mc_iss := issuer; mc_aud := audience |}
|}.

(** ** Pure helpers *)

Definition signing_failed (_ : JwtError) : AuthError := internal_error "token signing failed".

Definition map_jwt_error (error : JwtError) : AuthError :=
  match error with Expired => TokenExpired | _ => TokenInvalid end.

Definition names_a_tenant (record : SessionRecord) : bool :=
  match sr_tenant_id record with Some tenant => negb (string_is_empty tenant) | None => false end.

Definition plane_tenant_is_well_formed (ctx : MfaContext) (tenant_id : option string) : bool :=
  match ctx, tenant_id with
  | McDashboard, Some tenant => negb (string_is_empty tenant)
  | McPlatform, None => true
  | _, _ => false
  end.

Definition session_kind (ctx : MfaContext) : SessionKind :=
  match ctx with McDashboard => SkDashboard | McPlatform => SkPlatform end.

Definition jti_hash `{Crypto} (jti : string) : string := to_hex (sha256 jti).

Section manager.
Context `{Crypto, Host, Base64, HeaderJson}.
Context `{ClaimsJson DashboardClaims, ClaimsJson PlatformClaims, ClaimsJson MfaTempClaims}.
Context {S U : Type} `{SessionStore S, MfaStore S}.

Abbreviation Eng := (E S U).

(** ** Session records *)

Definition identity_record (seed : SessionRecord) (ip user_agent : string) : Eng SessionRecord :=
  let '(device, stored_ip) := normalize_session_metadata user_agent ip in
  now ← now_offset;
  mret {|
    sr_user_id := sr_user_id seed;
    sr_tenant_id := sr_tenant_id seed;
    sr_role := sr_role seed;
    sr_device := device;
    sr_ip := stored_ip;
    sr_created_at := now;
    sr_mfa_enabled := sr_mfa_enabled seed;
    sr_mfa_verified := sr_mfa_verified seed;
    sr_family_id := sr_family_id seed;
    sr_family_created_at := sr_family_created_at seed;
  |}.

Definition platform_identity_record (seed : SessionRecord) (ip user_agent : string) : Eng SessionRecord :=
  let '(device, stored_ip) := normalize_session_metadata user_agent ip in
  now ← now_offset;
  mret {|
    sr_user_id := sr_user_id seed;
    sr_tenant_id := None;
    sr_role := sr_role seed;
    sr_device := device;
    sr_ip := stored_ip;
    sr_created_at := now;
    sr_mfa_enabled := sr_mfa_enabled seed;
    sr_mfa_verified := sr_mfa_verified seed;
    sr_family_id := sr_family_id seed;
    sr_family_created_at := sr_family_created_at seed;
  |}.

Definition placeholder_record (ip user_agent : string) : Eng SessionRecord :=
  let '(device, stored_ip) := normalize_session_metadata user_agent ip in
  now ← now_offset;
  mret {|
    sr_user_id := "";
    sr_tenant_id := None;
    sr_role := "";
    sr_device := device;
    sr_ip := stored_ip;
    sr_created_at := now;
    sr_mfa_enabled := false;
    sr_mfa_verified := false;
    sr_family_id := "";
    sr_family_created_at := None;
  |}.

Section service.
Context (tm : TokenManagerService).

Definition subject_hash (kind : SessionKind) (tenant_id : option string) (user_id : string) : string :=
  session_subject_hash (tm_identifier_key tm) kind tenant_id user_id.

(** ** Verification under rotating keys *)

Definition try_verify {C} `{JwtClaims C, ClaimsJson C} (token key : string) (opts : VerifyOptions) :
    Eng (result JwtError C) :=
  take_reading (fun i => verify token key opts (clock i)).

Fixpoint verify_previous {C} `{JwtClaims C, ClaimsJson C} (token : string) (keys : list string)
    (opts : VerifyOptions) (current : result JwtError C) : Eng (result JwtError C) :=
  match keys with
  | [] => mret current
  | key :: rest =>
      r ← try_verify token key opts;
      match r with
      | Ok claims => mret (Ok claims)
      | Err _ => verify_previous token rest opts current
      end
  end.

Definition bound_options (opts : VerifyOptions) : VerifyOptions := {|
  leeway_secs := leeway_secs opts;
  validate_exp := validate_exp opts;
  validate_iat := validate_iat opts;
  now_unix := now_unix opts;
  expected_iss := tb_issuer (tm_binding tm);
  expected_aud := tb_audience (tm_binding tm);
|}.

Definition verify_rotating_with {C} `{JwtClaims C, ClaimsJson C} (token : string) (opts : VerifyOptions) :
    Eng (result JwtError C) :=
  let opts := bound_options opts in
  current ← try_verify token (tm_key tm) opts;
  match current with
  | Ok claims => mret (Ok claims)
  | Err _ => verify_previous token (tm_previous_keys tm) opts current
  end.

Definition verify_rotating {C} `{JwtClaims C, ClaimsJson C} (token : string) : Eng (result JwtError C) :=
  verify_rotating_with token default_options.

Definition ignoring_expiry : VerifyOptions := {|
  leeway_secs := leeway_secs default_options;
  validate_exp := false;
  validate_iat := validate_iat default_options;
  now_unix := now_unix default_options;
  expected_iss := expected_iss default_options;
  expected_aud := expected_aud default_options;
|}.

Definition verify_access_ignoring_expiry (token : string) : Eng DashboardClaims :=
  r ← verify_rotating_with token ignoring_expiry;
  lift (map_err map_jwt_error r).

Definition verify_platform_access_ignoring_expiry (token : string) : Eng PlatformClaims :=
  r ← verify_rotating_with token ignoring_expiry;
  lift (map_err map_jwt_error r).

(** ** Signing *)

Definition stamp {C} `{Stampable C} (claims : C) : C :=
  stamped claims (tb_issuer (tm_binding tm)) (tb_audience (tm_binding tm)).

Definition issue_access (claims : DashboardClaims) : result AuthError string :=
  map_err signing_failed (sign (stamp claims) (tm_key tm)).

Definition issue_platform_access (claims : PlatformClaims) : result AuthError string :=
  map_err signing_failed (sign (stamp claims) (tm_key tm)).

(** [now.saturating_add(access_ttl.as_secs().min(i64::MAX as u64) as i64)]. *)
Definition access_expiry (now : Z) : Z := sat_add now (u64_to_i64_sat (tm_access_ttl tm)).

(** ** Issuance *)

Definition issue_tokens (user : SafeAuthUser) (ip user_agent : string) (mfa_verified : bool)
    (proof : CredentialProof) : Eng AuthResult :=
  refresh ← generate_refresh;
  now ← now_unix_secs;
  let subject := subject_hash SkDashboard (Some (su_tenant_id user)) (su_id user) in
  epoch ← on_store (current_epoch SkDashboard subject);
  jti ← draw_uuid;
  let claims := {|
    dc_sub := su_id user; dc_jti := jti; dc_tenant_id := su_tenant_id user; dc_role := su_role user;
    dc_status := su_status user; dc_mfa_enabled := su_mfa_enabled user; dc_mfa_verified := mfa_verified;
    dc_iat := now; dc_exp := access_expiry now; dc_epoch := epoch; dc_iss := None; dc_aud := None |} in
  access_token ← lift (issue_access claims);
  let '(device, stored_ip) := normalize_session_metadata user_agent ip in
  created_at ← now_offset;
  family_id ← draw_uuid;
  family_created_at ← now_offset;
  let record := {|
    sr_user_id := su_id user; sr_tenant_id := Some (su_tenant_id user); sr_role := su_role user;
    sr_device := device; sr_ip := stored_ip; sr_created_at := created_at;
    sr_mfa_enabled := su_mfa_enabled user; sr_mfa_verified := mfa_verified; sr_family_id := family_id;
    sr_family_created_at := Some family_created_at |} in
  _ ← on_store (create_session SkDashboard subject (redis_hash refresh) record (tm_refresh_ttl_secs tm));
  _ ← (if bool_decide (proof = Proved) then on_store (mark_recent_auth subject RECENT_AUTH_TTL_SECS) else mret tt);
  mret {| ar_user := user; ar_access_token := access_token; ar_refresh_token := refresh |}.

Definition issue_platform_tokens (admin : SafeAuthPlatformUser) (ip user_agent : string) (mfa_verified : bool) :
    Eng PlatformAuthResult :=
  refresh ← generate_refresh;
  now ← now_unix_secs;
  let subject := subject_hash SkPlatform None (sp_id admin) in
  epoch ← on_store (current_epoch SkPlatform subject);
  jti ← draw_uuid;
  let claims := {|
    pc_sub := sp_id admin; pc_jti := jti; pc_role := sp_role admin; pc_mfa_enabled := sp_mfa_enabled admin;
    pc_mfa_verified := mfa_verified; pc_iat := now; pc_exp := access_expiry now; pc_epoch := epoch;
    pc_iss := None; pc_aud := None |} in
  access_token ← lift (issue_platform_access claims);
  let '(device, stored_ip) := normalize_session_metadata user_agent ip in
  created_at ← now_offset;
  family_id ← draw_uuid;
  family_created_at ← now_offset;
  let record := {|
    sr_user_id := sp_id admin; sr_tenant_id := None; sr_role := sp_role admin; sr_device := device;
    sr_ip := stored_ip; sr_created_at := created_at; sr_mfa_enabled := sp_mfa_enabled admin;
    sr_mfa_verified := mfa_verified; sr_family_id := family_id;
    sr_family_created_at := Some family_created_at |} in
  _ ← on_store (create_session SkPlatform subject (redis_hash refresh) record (tm_refresh_ttl_secs tm));
  mret {| pr_admin := admin; pr_access_token := access_token; pr_refresh_token := refresh |}.

(** ** Rotation *)

(** The cap, measured from the lineage's birth. *)
Definition outlived (cap_secs now born_at : Z) : bool :=
  let age := now - born_at in
  bool_decide (cap_secs < Z.abs (Z.quot age 1000000000)) && bool_decide (0 < age).

Definition assert_within_absolute_lifetime (record : SessionRecord) : Eng unit :=
  if bool_decide (tm_absolute_lifetime_secs tm = 0) then mret tt else
  match sr_family_created_at record with
  | None => mret tt
  | Some born_at =>
      now ← now_offset;
      if outlived (tm_absolute_lifetime_secs tm) now born_at then throw RefreshTokenInvalid else mret tt
  end.

Definition rotated_claims (record : SessionRecord) (epoch : Z) : Eng DashboardClaims :=
  now ← now_unix_secs;
  jti ← draw_uuid;
  mret {|
    dc_sub := sr_user_id record; dc_jti := jti; dc_tenant_id := default "" (sr_tenant_id record);
    dc_role := sr_role record; dc_status := ""; dc_mfa_enabled := sr_mfa_enabled record;
    dc_mfa_verified := sr_mfa_verified record; dc_iat := now; dc_exp := access_expiry now;
    dc_epoch := epoch; dc_iss := None; dc_aud := None |}.

Definition rotated_platform_claims (record : SessionRecord) (epoch : Z) : Eng PlatformClaims :=
  now ← now_unix_secs;
  jti ← draw_uuid;
  mret {|
    pc_sub := sr_user_id record; pc_jti := jti; pc_role := sr_role record;
    pc_mfa_enabled := sr_mfa_enabled record; pc_mfa_verified := sr_mfa_verified record;
    pc_iat := now; pc_exp := access_expiry now; pc_epoch := epoch; pc_iss := None; pc_aud := None |}.

Definition fire_reuse_detected (plane : HookPlane) (user_id : option string) (family_id ip user_agent : string) :
    Eng unit :=
  match user_id with
  | None => mret tt
  | Some user_id => spawn_hook (OnRefreshTokenReuseDetected user_id family_id (detached plane user_id ip user_agent))
  end.

(** The access token of a session just stored under [subject]. *)
Definition sign_rotated (subject : string) (record : SessionRecord) (refresh : string) : Eng RotatedTokens :=
  epoch ← on_store (current_epoch SkDashboard subject);
  claims ← rotated_claims record epoch;
  access_token ← lift (issue_access claims);
  mret {| rt_access_token := access_token; rt_refresh_token := refresh |}.

Definition sign_rotated_platform (subject : string) (record : SessionRecord) (refresh : string) : Eng RotatedTokens :=
  epoch ← on_store (current_epoch SkPlatform subject);
  claims ← rotated_platform_claims record epoch;
  access_token ← lift (issue_platform_access claims);
  mret {| rt_access_token := access_token; rt_refresh_token := refresh |}.

(** The [Grace] arm of [reissue_tokens]. *)
Definition recover_session (recovered : SessionRecord) (ip user_agent : string) : Eng RotatedTokens :=
  _ ← assert_within_absolute_lifetime recovered;
  if negb (names_a_tenant recovered) then throw RefreshTokenInvalid else
  fresh ← generate_refresh;
  fresh_record ← identity_record recovered ip user_agent;
  let recovered_subject := subject_hash SkDashboard (sr_tenant_id fresh_record) (sr_user_id fresh_record) in
  written ← on_store (create_recovered_session SkDashboard recovered_subject (redis_hash fresh) fresh_record
                        (tm_refresh_ttl_secs tm));
  if negb written then throw RefreshTokenInvalid else
  sign_rotated recovered_subject fresh_record fresh.

(** The [Reused] arm of [reissue_tokens]. *)
Definition refuse_reuse (family ip user_agent : string) : Eng RotatedTokens :=
  owner ← on_store (find_family_owner SkDashboard family);
  let owner_subject := (fun record => subject_hash SkDashboard (sr_tenant_id record) (sr_user_id record)) <$> owner in
  _ ← on_store (revoke_family SkDashboard family owner_subject);
  _ ← fire_reuse_detected HpDashboard (sr_user_id <$> owner) family ip user_agent;
  throw RefreshTokenInvalid.

Definition rotation_of (kind : SessionKind) (old_hash new : string) (record : SessionRecord) (subject : string) :
    SessionRotation := {|
  ro_old_hash := old_hash; ro_new_hash := redis_hash new; ro_new_raw := new; ro_new_record := record;
  ro_subject_hash := subject; ro_refresh_ttl := tm_refresh_ttl_secs tm; ro_grace_ttl := tm_grace_ttl_secs tm |}.

Definition reissue_tokens (raw_refresh ip user_agent : string) : Eng RotatedTokens :=
  if negb (is_refresh_token_shape raw_refresh) then throw RefreshTokenInvalid else
  let old_hash := redis_hash raw_refresh in
  new ← generate_refresh;
  live ← on_store (find_session SkDashboard old_hash);
  if match live with Some record => negb (names_a_tenant record) | None => false end
  then throw RefreshTokenInvalid else
  seed ← match live with Some record => mret record | None => placeholder_record ip user_agent end;
  _ ← assert_within_absolute_lifetime seed;
  new_record ← identity_record seed ip user_agent;
  let subject := subject_hash SkDashboard (sr_tenant_id new_record) (sr_user_id new_record) in
  outcome ← on_store (rotate SkDashboard (rotation_of SkDashboard old_hash new new_record subject));
  match outcome with
  | Rotated _ => sign_rotated subject new_record new
  | Grace recovered => recover_session recovered ip user_agent
  | Reused family => refuse_reuse family ip user_agent
  | Invalid => throw RefreshTokenInvalid
  end.

Definition recover_platform_session (recovered : SessionRecord) (ip user_agent : string) : Eng RotatedTokens :=
  _ ← assert_within_absolute_lifetime recovered;
  fresh ← generate_refresh;
  fresh_record ← platform_identity_record recovered ip user_agent;
  let recovered_subject := subject_hash SkPlatform None (sr_user_id fresh_record) in
  written ← on_store (create_recovered_session SkPlatform recovered_subject (redis_hash fresh) fresh_record
                        (tm_refresh_ttl_secs tm));
  if negb written then throw RefreshTokenInvalid else
  sign_rotated_platform recovered_subject fresh_record fresh.

Definition refuse_platform_reuse (family ip user_agent : string) : Eng RotatedTokens :=
  owner ← on_store (find_family_owner SkPlatform family);
  let owner_subject := (fun record => subject_hash SkPlatform None (sr_user_id record)) <$> owner in
  _ ← on_store (revoke_family SkPlatform family owner_subject);
  _ ← fire_reuse_detected HpPlatform (sr_user_id <$> owner) family ip user_agent;
  throw RefreshTokenInvalid.

Definition reissue_platform_tokens (raw_refresh ip user_agent : string) : Eng RotatedTokens :=
  if negb (is_refresh_token_shape raw_refresh) then throw RefreshTokenInvalid else
  let old_hash := redis_hash raw_refresh in
  new ← generate_refresh;
  live ← on_store (find_session SkPlatform old_hash);
  seed ← match live with Some record => mret record | None => placeholder_record ip user_agent end;
  _ ← assert_within_absolute_lifetime seed;
  new_record ← platform_identity_record seed ip user_agent;
  let subject := subject_hash SkPlatform None (sr_user_id new_record) in
  outcome ← on_store (rotate SkPlatform (rotation_of SkPlatform old_hash new new_record subject));
  match outcome with
  | Rotated _ => sign_rotated_platform subject new_record new
  | Grace recovered => recover_platform_session recovered ip user_agent
  | Reused family => refuse_platform_reuse family ip user_agent
  | Invalid => throw RefreshTokenInvalid
  end.

(** ** Access tokens *)

Definition verify_access (token : string) : Eng DashboardClaims :=
  r ← verify_rotating token;
  claims ← lift (map_err map_jwt_error r);
  revoked ← on_store (is_blacklisted (dc_jti claims));
  if revoked : bool then throw TokenRevoked else
  epoch ← on_store (current_epoch SkDashboard (subject_hash SkDashboard (Some (dc_tenant_id claims)) (dc_sub claims)));
  if bool_decide (dc_epoch claims < epoch) then throw TokenRevoked else
  mret claims.

Definition verify_platform_access (token : string) : Eng PlatformClaims :=
  r ← verify_rotating token;
  claims ← lift (map_err map_jwt_error r);
  revoked ← on_store (is_blacklisted (pc_jti claims));
  if revoked : bool then throw TokenRevoked else
  epoch ← on_store (current_epoch SkPlatform (subject_hash SkPlatform None (pc_sub claims)));
  if bool_decide (pc_epoch claims < epoch) then throw TokenRevoked else
  mret claims.

Definition revoke_access (jti : string) (remaining_ttl_secs : Z) : Eng unit :=
  on_store (blacklist_access jti remaining_ttl_secs).

Definition reissue_access_with_authority (claims : DashboardClaims) (role tenant_id : string) (mfa_enabled : bool) :
    Eng string :=
  now ← now_unix_secs;
  epoch ← on_store (current_epoch SkDashboard (subject_hash SkDashboard (Some tenant_id) (dc_sub claims)));
  jti ← draw_uuid;
  lift (issue_access {|
    dc_sub := dc_sub claims; dc_jti := jti; dc_tenant_id := tenant_id; dc_role := role;
    dc_status := dc_status claims; dc_mfa_enabled := mfa_enabled; dc_mfa_verified := dc_mfa_verified claims;
    dc_iat := now; dc_exp := access_expiry now; dc_epoch := epoch; dc_iss := dc_iss claims; dc_aud := dc_aud claims |}).

Definition reissue_platform_access_with_authority (claims : PlatformClaims) (role : string) (mfa_enabled : bool) :
    Eng string :=
  now ← now_unix_secs;
  epoch ← on_store (current_epoch SkPlatform (subject_hash SkPlatform None (pc_sub claims)));
  jti ← draw_uuid;
  lift (issue_platform_access {|
    pc_sub := pc_sub claims; pc_jti := jti; pc_role := role; pc_mfa_enabled := mfa_enabled;
    pc_mfa_verified := pc_mfa_verified claims; pc_iat := now; pc_exp := access_expiry now; pc_epoch := epoch;
    pc_iss := pc_iss claims; pc_aud := pc_aud claims |}).

(** ** MFA challenge tokens *)

Definition build_mfa_temp_token (user_id : string) (context : MfaContext) (tenant_id : option string) (epoch : Z) :
    Eng (string * string) :=
  now ← now_unix_secs;
  jti ← draw_uuid;
  let claims := {|
    mc_sub := user_id; mc_jti := jti; mc_context := context; mc_tenant_id := tenant_id; mc_epoch := epoch;
    mc_iat := now; mc_exp := sat_add now MFA_TEMP_TOKEN_TTL_SECONDS; mc_iss := None; mc_aud := None |} in
  token ← lift (map_err signing_failed (sign (stamp claims) (tm_key tm)));
  mret (token, jti).

Definition tenant_field_error : AuthError :=
  Validation [{| fe_field := "tenantId";
                 fe_message := "a dashboard MFA challenge requires a non-empty tenantId, and a platform one requires none" |}].

Definition issue_mfa_temp_token (user_id : string) (context : MfaContext) (tenant_id : option string) : Eng string :=
  if negb (plane_tenant_is_well_formed context tenant_id) then throw tenant_field_error else
  let kind := session_kind context in
  epoch ← on_store (current_epoch kind (subject_hash kind tenant_id user_id));
  '(token, jti) ← build_mfa_temp_token user_id context tenant_id epoch;
  _ ← (if tm_mfa tm then on_store (mfa_put_temp (jti_hash jti) user_id (Z.abs MFA_TEMP_TOKEN_TTL_SECONDS)) else mret tt);
  mret token.

Definition verify_mfa_temp_token (token : string) : Eng MfaTempVerified :=
  r ← verify_rotating token;
  claims ← lift (map_err (fun _ => MfaTempTokenInvalid) r : result AuthError MfaTempClaims);
  if negb (tm_mfa tm) then throw MfaTempTokenInvalid else
  stored ← on_store (mfa_get_temp (jti_hash (mc_jti claims)));
  match stored with
  | None => throw MfaTempTokenInvalid
  | Some stored_user =>
      if negb (constant_time_eq stored_user (mc_sub claims)) then throw MfaTempTokenInvalid else
      let kind := session_kind (mc_context claims) in
      epoch ← on_store (current_epoch kind (subject_hash kind (mc_tenant_id claims) (mc_sub claims)));
      if bool_decide (mc_epoch claims < epoch) then throw MfaTempTokenInvalid else
      if negb (plane_tenant_is_well_formed (mc_context claims) (mc_tenant_id claims)) then throw MfaTempTokenInvalid else
      mret {| mv_user_id := mc_sub claims; mv_context := mc_context claims; mv_tenant_id := mc_tenant_id claims;
              mv_jti := mc_jti claims |}
  end.

Definition consume_mfa_temp_token (jti : string) : Eng bool :=
  if negb (tm_mfa tm) then throw MfaTempTokenInvalid else
  on_store (mfa_del_temp (jti_hash jti)).

End service.
End manager.
