(* ===== verification/TokenVerify.v ===== *)
(** * What the access-token verifiers accept

    Verification under rotating keys accepts exactly what one of the configured
    keys authenticates; on top of it, a token is served exactly when it is
    neither denylisted nor stamped below its account's epoch. *)

From S2P Require Import Prelude Errors Types Crypto Jwt Redis RedisSession SessionSpec SessionStore MfaStore Engine TokenManager.

Section rotating.
Context `{Crypto, Host, Base64, HeaderJson} {C : Type} `{JwtClaims C, ClaimsJson C}.
Context {S U : Type}.

(** The keys in the order they are tried. *)
Definition keyring (tm : TokenManagerService) : list string := tm_key tm :: tm_previous_keys tm.

(** The [i]-th attempt of a verification that starts at clock reading [at_]. *)
Definition accepts_at (tm : TokenManagerService) (token : string) (opts : VerifyOptions) (at_ i : nat) (claims : C) : Prop :=
  exists key, keyring tm !! i = Some key /\ authentic token key claims /\
    timely claims (bound_options tm opts) (clock (at_ + i)) /\ bound_to claims (bound_options tm opts).

Definition attempt_at (token : string) (opts : VerifyOptions) (at_ : nat) (keys : list string) (i : nat) : option (result JwtError C) :=
  (fun key => verify token key opts (clock (at_ + i))) <$> keys !! i.

(** The payload decides the claims, whatever the keys. *)
Lemma authentic_det (token key key' : string) (c c' : C) :
  authentic token key c -> authentic token key' c' -> c = c'.
Proof.
  intros (h & p & s & hb & pb & Hs & _ & _ & _ & Hp & Hc) (h' & p' & s' & hb' & pb' & Hs' & _ & _ & _ & Hp' & Hc').
  congruence.
Qed.

Lemma verify_previous_spec (token : string) (keys : list string) (opts : VerifyOptions) (current : result JwtError C)
    (w : World S U) :
  exists r w', verify_previous token keys opts current w = (Ok r, w') /\ w_store w' = w_store w /\
    ((exists i claims, r = Ok claims /\ attempt_at token opts (w_reads w) keys i = Some (Ok claims) /\
        forall j, (j < i)%nat -> exists e, attempt_at token opts (w_reads w) keys j = Some (Err e)) \/
     (r = current /\ forall i claims, attempt_at token opts (w_reads w) keys i <> Some (Ok claims))).
Proof.
  revert w. induction keys as [|key keys IH]; intros w.
  - exists current, w. split; [done|]. split; [done|]. right. split; [done|]. by intros [|i].
  - cbn [verify_previous]. rewrite bind_run. unfold try_verify, take_reading.
    set (w1 := MkWorld _ _ _ _ _ _).
    destruct (verify token key opts (clock (w_reads w))) as [claims|e] eqn:Hv.
    + exists (Ok claims), w1. split; [done|]. split; [done|]. left. exists 0%nat, claims.
      unfold attempt_at. cbn. rewrite Nat.add_0_r, Hv. split; [done|]. split; [done|]. intros j Hj. lia.
    + destruct (IH w1) as (r & w' & Hrun & Hst & Hr). exists r, w'. split; [done|]. split; [done|].
      assert (Hshift : forall i, attempt_at token opts (w_reads w) (key :: keys) (Datatypes.S i)
                               = attempt_at token opts (w_reads w1) keys i)
        by (intros i; unfold attempt_at; cbn; by rewrite Nat.add_succ_r).
      assert (Hfirst : attempt_at token opts (w_reads w) (key :: keys) 0 = Some (Err e))
        by (unfold attempt_at; cbn; by rewrite Nat.add_0_r, Hv).
      destruct Hr as [(i & claims & -> & Hi & Hj)|[-> Hno]].
      * left. exists (Datatypes.S i), claims. rewrite Hshift. split; [done|]. split; [done|].
        intros [|j] Hlt; [by exists e|]. rewrite Hshift. apply Hj. lia.
      * right. split; [done|]. intros [|i] claims; [by rewrite Hfirst|]. rewrite Hshift. apply Hno.
Qed.

Lemma verify_rotating_with_spec (tm : TokenManagerService) (token : string) (opts : VerifyOptions) (w : World S U) :
  exists r w', verify_rotating_with tm token opts w = (Ok r, w') /\ w_store w' = w_store w /\
    ((exists i claims, r = Ok claims /\ accepts_at tm token opts (w_reads w) i claims /\
        forall j c, (j < i)%nat -> ~ accepts_at tm token opts (w_reads w) j c) \/
     (r = verify token (tm_key tm) (bound_options tm opts) (clock (w_reads w)) /\
      forall i c, ~ accepts_at tm token opts (w_reads w) i c)).
Proof.
  unfold verify_rotating_with. rewrite bind_run. unfold try_verify at 1, take_reading at 1.
  set (w1 := MkWorld _ _ _ _ _ _).
  assert (Hacc : forall i c, accepts_at tm token opts (w_reads w) i c <->
      attempt_at token (bound_options tm opts) (w_reads w) (keyring tm) i = Some (Ok c)).
  { intros i c. unfold accepts_at, attempt_at. destruct (keyring tm !! i) as [key|]; cbn; [|naive_solver].
    split; [intros (? & [= <-] & ?) | intros [= Hv]; exists key; split; [done|]].
    - f_equal. by apply verify_ok_iff.
    - by apply verify_ok_iff. }
  set (o := bound_options tm opts) in *.
  assert (Hfirst : attempt_at token o (w_reads w) (keyring tm) 0 = Some (verify (C:=C) token (tm_key tm) o (clock (w_reads w))))
    by (unfold attempt_at; cbn; by rewrite Nat.add_0_r).
  assert (Hshift : forall i, attempt_at token o (w_reads w) (keyring tm) (Datatypes.S i)
                           = attempt_at token o (w_reads w1) (tm_previous_keys tm) i)
    by (intros i; unfold attempt_at; cbn; by rewrite Nat.add_succ_r).
  destruct (verify token (tm_key tm) o (clock (w_reads w))) as [claims|e].
  - exists (Ok claims), w1. split; [done|]. split; [done|]. left. exists 0%nat, claims. rewrite Hacc, Hfirst.
    split; [done|]. split; [done|]. intros j c Hj. lia.
  - destruct (verify_previous_spec token (tm_previous_keys tm) o (Err e) w1) as (r & w' & Hrun & Hst & Hr).
    exists r, w'. split; [done|]. split; [done|]. destruct Hr as [(i & claims & -> & Hi & Hj)|[-> Hno]].
    + left. exists (Datatypes.S i), claims. split; [done|]. rewrite Hacc, Hshift. split; [done|].
      intros [|j] c Hlt; rewrite Hacc; [by rewrite Hfirst|]. rewrite Hshift.
      destruct (Hj j) as [e' ->]; [lia | done].
    + right. split; [done|]. intros [|i] c; rewrite Hacc; [by rewrite Hfirst|]. rewrite Hshift. apply Hno.
Qed.

End rotating.

(** Verification under rotating keys: it returns claims exactly when one of
    the configured keys, current or retired, authenticates them under the pinned
    algorithm, inside their time window and with the configured issuer and
    audience, and then the first key in order to do so decides; otherwise the
    failure reported is the current key's, whichever keys were tried. *)
Theorem verify_rotating_exact `{Crypto, Host, Base64, HeaderJson} {C S U : Type} `{JwtClaims C, ClaimsJson C}
    (tm : TokenManagerService) (token : string) (opts : VerifyOptions) (w : World S U) :
  exists r : result JwtError C, (verify_rotating_with tm token opts w).1 = Ok r /\
    (forall claims, r = Ok claims <->
       exists i, accepts_at tm token opts (w_reads w) i claims /\
         forall j c, (j < i)%nat -> ~ accepts_at (C:=C) tm token opts (w_reads w) j c) /\
    (is_ok r = false -> r = verify token (tm_key tm) (bound_options tm opts) (clock (w_reads w))).
Proof.
  destruct (verify_rotating_with_spec (C:=C) tm token opts w) as (r & w' & Hrun & _ & Hr).
  exists r. rewrite Hrun. split; [done|]. destruct Hr as [(i & claims & -> & Hi & Hj)|[-> Hno]].
  - split; [|done]. intros c. split; [intros [= <-]; eauto|]. intros (i' & Hi' & Hj').
    destruct (Nat.lt_trichotomy i i') as [Hlt|[<-|Hlt]]; [by destruct (Hj' i claims)| | by destruct (Hj i' c)].
    destruct Hi as (key & Hk & Ha & _), Hi' as (key' & Hk' & Ha' & _). simplify_eq. f_equal.
    by eapply authentic_det.
  - split; [|done]. intros c. split; [|by intros (i & Hi & _); destruct (Hno i c)].
    intros Hv. destruct (Hno 0%nat c). exists (tm_key tm). rewrite Nat.add_0_r. split; [done|].
    by apply verify_ok_iff.
Qed.

(** ** Serving an access token *)

Section access.
Context `{Crypto, Host, Base64, HeaderJson}.
Context `{ClaimsJson DashboardClaims, ClaimsJson PlatformClaims, ClaimsJson MfaTempClaims}.
Context {S U : Type} `{SessionStoreLaws S} `{MfaStore S}.
Context (tm : TokenManagerService).

(** The claims [verify_rotating] answers in [w], if any. *)
Definition rotating_claims {C} `{JwtClaims C, ClaimsJson C} (token : string) (w : World S U) : result JwtError C :=
  match (verify_rotating tm token w).1 with Ok r => r | Err _ => Err Malformed end.

Lemma ewp_verify_rotating {C} `{JwtClaims C, ClaimsJson C} (token : string) (w : World S U) (a : AStore)
    (Q : result AuthError (result JwtError C) -> World S U -> Prop) :
  at_state w a -> (forall w', at_state w' a -> Q (Ok (rotating_claims token w)) w') ->
  ewp (verify_rotating tm token) Q w.
Proof.
  intros Hw HQ. unfold rotating_claims in HQ. unfold ewp, verify_rotating in *.
  destruct (verify_rotating_with_spec (C:=C) tm token default_options w) as (r & w' & Hrun & Hst & _).
  rewrite Hrun in HQ |- *. apply HQ. unfold at_state. cbn. by rewrite Hst.
Qed.

Lemma verify_access_ewp (token : string) (w : World S U) (a : AStore) :
  at_state w a ->
  ewp (verify_access tm token)
    (fun r w' => at_state w' a /\
       r = match rotating_claims token w with
           | Err e => Err (map_jwt_error e)
           | Ok claims =>
               if a_is_blacklisted (dc_jti claims) a ||
                  bool_decide (dc_epoch claims < a_current_epoch SkDashboard
                                 (subject_hash tm SkDashboard (Some (dc_tenant_id claims)) (dc_sub claims)) a)
               then Err TokenRevoked else Ok claims
           end) w.
Proof.
  intros Hw. unfold verify_access. estep. eapply ewp_verify_rotating; [exact Hw|]. intros w1 Hw1.
  destruct (rotating_claims token w) as [claims|e]; estep; estep; cbn; [|done].
  estep. estep. destruct (a_is_blacklisted (dc_jti claims) a); [by estep|].
  estep. estep. case_bool_decide; by estep.
Qed.

Lemma verify_platform_access_ewp (token : string) (w : World S U) (a : AStore) :
  at_state w a ->
  ewp (verify_platform_access tm token)
    (fun r w' => at_state w' a /\
       r = match rotating_claims token w with
           | Err e => Err (map_jwt_error e)
           | Ok claims =>
               if a_is_blacklisted (pc_jti claims) a ||
                  bool_decide (pc_epoch claims < a_current_epoch SkPlatform
                                 (subject_hash tm SkPlatform None (pc_sub claims)) a)
               then Err TokenRevoked else Ok claims
           end) w.
Proof.
  intros Hw. unfold verify_platform_access. estep. eapply ewp_verify_rotating; [exact Hw|]. intros w1 Hw1.
  destruct (rotating_claims token w) as [claims|e]; estep; estep; cbn; [|done].
  estep. estep. destruct (a_is_blacklisted (pc_jti claims) a); [by estep|].
  estep. estep. case_bool_decide; by estep.
Qed.

End access.

(** * Issuing and serving a session *)

Section issue.
Context `{Crypto, Host, Base64, HeaderJson}.
Context `{ClaimsJson DashboardClaims, ClaimsJson PlatformClaims, ClaimsJson MfaTempClaims}.
Context {S U : Type} `{SessionStoreLaws S} `{MfaStore S}.
Context (tm : TokenManagerService).

(** The third-party serializer accepts every claim set and session record, and
    the refresh lifetime is a positive number of seconds. *)
Record serviceable : Prop := {
  sv_record (rec : SessionRecord) : storable rec;
  sv_dashboard (c : DashboardClaims) : is_Some (to_vec c);
  sv_platform (c : PlatformClaims) : is_Some (to_vec c);
  sv_mfa (c : MfaTempClaims) : is_Some (to_vec c);
  sv_ttl : 0 < tm_refresh_ttl_secs tm <= i64_max;
}.

Lemma sign_total {C} `{ClaimsJson C} (c : C) (key : string) : is_Some (to_vec c) -> exists t, sign c key = Ok t.
Proof. intros [j Hj]. unfold sign. rewrite Hj. eauto. Qed.

(** What an issuance in [w], on a store standing for [a], signs and stores. *)
Definition issued_claims (user : SafeAuthUser) (mfa_verified : bool) (w : World S U) (a : AStore) : DashboardClaims :=
  let now := unix_timestamp (clock (w_reads w)) in {|
  dc_sub := su_id user; dc_jti := new_uuid_v4 (Datatypes.S (w_draws w)); dc_tenant_id := su_tenant_id user;
  dc_role := su_role user; dc_status := su_status user; dc_mfa_enabled := su_mfa_enabled user;
  dc_mfa_verified := mfa_verified; dc_iat := now; dc_exp := access_expiry tm now;
  dc_epoch := a_current_epoch SkDashboard (subject_hash tm SkDashboard (Some (su_tenant_id user)) (su_id user)) a;
  dc_iss := None; dc_aud := None |}.

Definition issued_record (user : SafeAuthUser) (ip user_agent : string) (mfa_verified : bool) (w : World S U) : SessionRecord := {|
  sr_user_id := su_id user; sr_tenant_id := Some (su_tenant_id user); sr_role := su_role user;
  sr_device := parse_user_agent user_agent; sr_ip := truncate_ip ip; sr_created_at := clock (Datatypes.S (w_reads w));
  sr_mfa_enabled := su_mfa_enabled user; sr_mfa_verified := mfa_verified;
  sr_family_id := new_uuid_v4 (Datatypes.S (Datatypes.S (w_draws w)));
  sr_family_created_at := Some (clock (Datatypes.S (Datatypes.S (w_reads w)))) |}.

Definition issued_refresh (w : World S U) : string := generate_secure_token (w_draws w) REFRESH_TOKEN_BYTES.

Lemma issue_tokens_ewp (user : SafeAuthUser) (ip user_agent : string) (mfa_verified : bool) (proof : CredentialProof)
    (w : World S U) (a : AStore) :
  serviceable -> at_state w a ->
  let subject := subject_hash tm SkDashboard (Some (su_tenant_id user)) (su_id user) in
  let created := a_create SkDashboard subject (redis_hash (issued_refresh w))
                   (issued_record user ip user_agent mfa_verified w) (tm_refresh_ttl_secs tm) a in
  ewp (issue_tokens tm user ip user_agent mfa_verified proof)
    (fun r w' => exists token, sign (stamp tm (issued_claims user mfa_verified w a)) (tm_key tm) = Ok token /\
       r = Ok {| ar_user := user; ar_access_token := token; ar_refresh_token := issued_refresh w |} /\
       at_state w' (if bool_decide (proof = Proved) then a_mark_recent subject RECENT_AUTH_TTL_SECS created else created)) w.
Proof.
  intros Hsv Hw subject created. unfold issue_tokens. do 2 estep. do 2 estep. do 2 estep. do 2 estep.
  destruct (sign_total (stamp tm (issued_claims user mfa_verified w a)) (tm_key tm)) as [token Htok];
    [apply sv_dashboard, Hsv|].
  do 2 estep. unfold issue_access. change (sign _ _) with (sign (stamp tm (issued_claims user mfa_verified w a)) (tm_key tm)).
  rewrite Htok. cbn. do 2 estep. do 2 estep. do 2 estep. estep. estep; [apply Hsv | apply Hsv |].
  estep. case_bool_decide; estep; [by vm_compute| |]; estep; eauto.
Qed.

End issue.

(** ** A signed token verifies *)

Class StampableLaws (C : Type) `{Stampable C, JwtClaims C} : Prop := {
  stamped_iss (c : C) i a : cl_iss (stamped c i a) = i;
  stamped_aud (c : C) i a : cl_aud (stamped c i a) = a;
}.

#[export] Instance DashboardClaims_stampable_laws : StampableLaws DashboardClaims.
Proof. by split. Qed.
#[export] Instance PlatformClaims_stampable_laws : StampableLaws PlatformClaims.
Proof. by split. Qed.
#[export] Instance MfaTempClaims_stampable_laws : StampableLaws MfaTempClaims.
Proof. by split. Qed.

Section signed.
Context `{Crypto, Host, Base64Laws, HeaderJsonLaws} {C : Type} `{ClaimsJsonLaws C} `{StampableLaws C}.
Context {S U : Type} (tm : TokenManagerService).

Lemma sign_authentic (c : C) (key token : string) : sign c key = Ok token -> authentic token key c.
Proof.
  intros Hs. unfold sign in Hs. case_match; simplify_eq. do 5 eexists. split_and!.
  - apply split_segments_join; apply b64_encode_no_dot.
  - apply b64_decode_encode.
  - apply header_alg_HEADER_JSON.
  - apply b64_decode_encode.
  - apply b64_decode_encode.
  - by apply from_slice_to_vec.
Qed.

(** A token the manager signed verifies to its claims while they are timely,
    and never to anything else. *)
Lemma rotating_claims_signed (c : C) (token : string) (w : World S U) :
  sign (stamp tm c) (tm_key tm) = Ok token ->
  (timely (stamp tm c) (bound_options tm default_options) (clock (w_reads w)) ->
   rotating_claims tm token w = Ok (stamp tm c)) /\
  (forall c', rotating_claims tm token w = Ok c' -> c' = stamp tm c).
Proof.
  intros Hs%sign_authentic. unfold rotating_claims, verify_rotating.
  destruct (verify_rotating_with_spec (C:=C) tm token default_options w) as (r & w' & -> & _ & Hr). cbn.
  assert (Hb : bound_to (stamp tm c) (bound_options tm default_options)).
  { split; cbn; unfold stamp; rewrite ?stamped_iss, ?stamped_aud; done. }
  destruct Hr as [(i & c1 & -> & (key & _ & Ha & _) & _)|[-> Hno]].
  - assert (c1 = stamp tm c) as -> by by eapply authentic_det. split; [done|]. by intros c' [= <-].
  - split.
    + intros Ht. destruct (Hno 0%nat (stamp tm c)). exists (tm_key tm). rewrite Nat.add_0_r. done.
    + intros c' Hv. apply verify_ok_iff in Hv as (Ha & _). by eapply authentic_det.
Qed.

End signed.

Lemma a_find_create (k : SessionKind) (subject h : string) (rec : SessionRecord) (ttl : Z) (a : AStore) :
  a_find k h (a_create k subject h rec ttl a) = Some rec.
Proof.
  unfold a_find, a_create, family_add. cbv zeta.
  destruct (string_is_empty _); cbn; unfold upd; by rewrite decide_True.
Qed.

(** A sign-in is served: issuing tokens succeeds; the refresh token is well
    shaped and names a stored session of exactly that user, tenant, role and
    second-factor state; the access token carries the same identity and the
    account's current epoch, and is accepted in its time window unless its id
    is denylisted; and the recent-authentication mark is planted when, and only
    when, a credential was proved. *)
Theorem issued_session_is_served `{Crypto, HostLaws, Base64Laws, HeaderJsonLaws}
    `{ClaimsJsonLaws DashboardClaims, ClaimsJson PlatformClaims, ClaimsJson MfaTempClaims}
    {S U : Type} `{SessionStoreLaws S} `{MfaStore S} (tm : TokenManagerService)
    (user : SafeAuthUser) (ip user_agent : string) (mfa_verified : bool) (proof : CredentialProof) (w : World S U) :
  serviceable (S:=S) tm -> ready (w_store w) ->
  let subject := subject_hash tm SkDashboard (Some (su_tenant_id user)) (su_id user) in
  exists res w', issue_tokens tm user ip user_agent mfa_verified proof w = (Ok res, w') /\ ready (w_store w') /\
    is_refresh_token_shape (ar_refresh_token res) = true /\
    (exists rec, a_find SkDashboard (redis_hash (ar_refresh_token res)) (stands_for (w_store w')) = Some rec /\
       sr_user_id rec = su_id user /\ sr_tenant_id rec = Some (su_tenant_id user) /\
       sr_role rec = su_role user /\ sr_mfa_verified rec = mfa_verified) /\
    a_has_recent subject (stands_for (w_store w')) =
      bool_decide (proof = Proved) || a_has_recent subject (stands_for (w_store w)) /\
    exists claims, dc_sub claims = su_id user /\ dc_tenant_id claims = su_tenant_id user /\
      dc_role claims = su_role user /\ dc_mfa_verified claims = mfa_verified /\
      dc_epoch claims = a_current_epoch SkDashboard subject (stands_for (w_store w)) /\
      forall w2 : World S U, w_store w2 = w_store w' ->
        timely claims (bound_options tm default_options) (clock (w_reads w2)) ->
        a_is_blacklisted (dc_jti claims) (stands_for (w_store w)) = false ->
        (verify_access tm (ar_access_token res) w2).1 = Ok claims.
Proof.
  intros Hsv Hr subject. set (a := stands_for (w_store w)).
  assert (Hw : at_state w a) by done.
  pose proof (issue_tokens_ewp tm user ip user_agent mfa_verified proof w a Hsv Hw) as Hi.
  unfold ewp in Hi. destruct (issue_tokens tm user ip user_agent mfa_verified proof w) as [r w'] eqn:Hrun. cbn [fst snd] in Hi.
  destruct Hi as (token & Htok & -> & [Hr' Hs']). fold subject in Hs'.
  do 2 eexists. split; [done|]. cbn [ar_refresh_token ar_access_token].
  split; [done|]. split; [apply generate_secure_token_shape|]. split; [|split].
  - exists (issued_record user ip user_agent mfa_verified w). split; [|done]. rewrite (a_find_proper _ _ _ _ Hs').
    case_match; apply a_find_create.
  - rewrite (a_has_recent_proper _ _ _ Hs'). unfold a_create, family_add, a_has_recent. cbv zeta.
    case_bool_decide; destruct (string_is_empty _); cbn; unfold upd1; rewrite ?decide_True by done; done.
  - exists (stamp tm (issued_claims tm user mfa_verified w a)). split_and!; try done.
    intros w2 Hst Ht Hbl.
    assert (Hw2 : at_state w2 (stands_for (w_store w'))) by (unfold at_state; by rewrite Hst).
    pose proof (verify_access_ewp tm token w2 _ Hw2) as [_ ->].
    rewrite (proj1 (rotating_claims_signed tm _ token w2 Htok) Ht).
    rewrite (a_is_blacklisted_proper _ _ _ Hs'), (a_current_epoch_proper _ _ _ _ Hs').
    unfold a_is_blacklisted, a_current_epoch, a_create, family_add in *. cbv zeta. unfold subject.
    destruct (bool_decide (proof = Proved)), (string_is_empty _); cbn in Hbl |- *; rewrite Hbl; cbn;
      by rewrite bool_decide_eq_false_2 by exact (Z.lt_irrefl _).
Qed.
