(* ===== verification/TokenRotate.v ===== *)
(** * Rotation

    A run of [reissue_tokens] is one of: a refusal that changes nothing, a live
    rotation, a grace recovery, or a detected replay that revokes the lineage.
    Each is described exactly in terms of the contract's operations. *)

From S2P Require Import Prelude Errors Types Crypto Jwt Redis RedisSession SessionSpec SessionStore Lineage MfaStore Engine TokenManager TokenVerify.

(** The record a rotation writes for [seed]. *)
Definition inherited (k : SessionKind) (seed : SessionRecord) (ip user_agent : string) (now : Z) : SessionRecord := {|
  sr_user_id := sr_user_id seed;
  sr_tenant_id := match k with SkDashboard => sr_tenant_id seed | SkPlatform => None end;
  sr_role := sr_role seed; sr_device := parse_user_agent user_agent; sr_ip := truncate_ip ip; sr_created_at := now;
  sr_mfa_enabled := sr_mfa_enabled seed; sr_mfa_verified := sr_mfa_verified seed; sr_family_id := sr_family_id seed;
  sr_family_created_at := sr_family_created_at seed |}.

(** The lineage is older than the cap at instant [now]. *)
Definition capped (tm : TokenManagerService) (rec : SessionRecord) (now : Z) : bool :=
  negb (bool_decide (tm_absolute_lifetime_secs tm = 0)) &&
  match sr_family_created_at rec with
  | None => false
  | Some born_at => outlived (tm_absolute_lifetime_secs tm) now born_at
  end.

Section rotate.
Context `{CryptoLaws, Host, Base64, HeaderJson}.
Context `{ClaimsJson DashboardClaims, ClaimsJson PlatformClaims, ClaimsJson MfaTempClaims}.
Context {S U : Type} `{SessionStoreLaws S} `{MfaStore S}.
Context (tm : TokenManagerService).

(** Only the clock moved since [w]. *)
Definition later (w w' : World S U) : Prop :=
  w_store w' = w_store w /\ w_users w' = w_users w /\ w_draws w' = w_draws w /\ w_hooks w' = w_hooks w /\
  (w_reads w <= w_reads w')%nat.

Lemma later_at (w w' : World S U) (a : AStore) : later w w' -> at_state w a -> at_state w' a.
Proof. intros (Hst & _). unfold at_state. by rewrite Hst. Qed.

Lemma ewp_assert_lifetime (rec : SessionRecord) (w : World S U) (Q : result AuthError unit -> World S U -> Prop) :
  (capped tm rec (clock (w_reads w)) = true -> forall w', later w w' -> Q (Err RefreshTokenInvalid) w') ->
  (capped tm rec (clock (w_reads w)) = false -> forall w', later w w' -> Q (Ok tt) w') ->
  ewp (assert_within_absolute_lifetime tm rec) Q w.
Proof.
  unfold assert_within_absolute_lifetime, capped. intros HE HO.
  assert (Hsame : later w w) by (split_and!; [done..|lia]).
  destruct (bool_decide (tm_absolute_lifetime_secs tm = 0)); cbn in *; [estep; by apply HO|].
  destruct (sr_family_created_at rec) as [born|]; [|estep; by apply HO].
  estep. estep. destruct (outlived _ _ _); estep; [apply HE | apply HO]; (done || (split_and!; [done..|cbn; lia])).
Qed.

(** The rotation [reissue_tokens] asks the store for. *)
Definition rotation_ro (k : SessionKind) (raw new : string) (rec : SessionRecord) : SessionRotation :=
  rotation_of tm k (redis_hash raw) new rec
    (subject_hash tm k (match k with SkDashboard => sr_tenant_id rec | SkPlatform => None end) (sr_user_id rec)).

Lemma rotation_ro_served (k : SessionKind) (raw new : string) (rec : SessionRecord) :
  serviceable (S:=S) tm -> rotation_served S (rotation_ro k raw new rec).
Proof.
  intros Hsv. split; cbn; [apply Hsv | apply to_hex_no_colon | apply Hsv].
Qed.

(** A session [rec] filed under [refresh] was given an access token of its own
    identity and the account's epoch. *)
Definition signed_for (rec : SessionRecord) (a : AStore) (tokens : RotatedTokens) (refresh : string) : Prop :=
  rt_refresh_token tokens = refresh /\
  exists claims, sign (stamp tm claims) (tm_key tm) = Ok (rt_access_token tokens) /\
    dc_sub claims = sr_user_id rec /\ dc_tenant_id claims = default "" (sr_tenant_id rec) /\
    dc_role claims = sr_role rec /\ dc_mfa_enabled claims = sr_mfa_enabled rec /\
    dc_mfa_verified claims = sr_mfa_verified rec /\
    dc_epoch claims = a_current_epoch SkDashboard (subject_hash tm SkDashboard (sr_tenant_id rec) (sr_user_id rec)) a.

Lemma sign_rotated_ewp (rec : SessionRecord) (refresh : string) (w : World S U) (a : AStore) :
  serviceable (S:=S) tm -> at_state w a ->
  ewp (sign_rotated tm (subject_hash tm SkDashboard (sr_tenant_id rec) (sr_user_id rec)) rec refresh)
    (fun r w' => at_state w' a /\ w_hooks w' = w_hooks w /\ exists t, r = Ok t /\ signed_for rec a t refresh) w.
Proof.
  intros Hsv Hw. unfold sign_rotated, rotated_claims. do 2 estep. do 3 estep. do 2 estep. estep.
  unfold issue_access. estep. estep.
  match goal with |- context [stamp tm ?c] =>
    destruct (sign_total (stamp tm c) (tm_key tm) (sv_dashboard tm Hsv _)) as [t Ht] end.
  rewrite Ht. cbn. estep. split_and!; [at_here | done |]. eexists. split; [done|]. split; [done|]. by eexists.
Qed.

(** ** A presented token that is not live *)

(** What presenting a token that is not live answers: it depends on the token
    alone, not on what the caller offered to store. *)
Definition dead_rotate (k : SessionKind) (h : string) (a : AStore) : RotateOutcome * AStore :=
  match a_grace a k h with
  | Some (successor, rec, _) =>
      let a' := set_grace k h None a in
      match a_live a k successor with
      | Some _ => (if family_alive k (sr_family_id rec) a' then Grace rec else Invalid, a')
      | None => (a_reuse_check k h a', a')
      end
  | None => (a_reuse_check k h a, a)
  end.

Lemma a_rotate_dead (k : SessionKind) (ro : SessionRotation) (a : AStore) :
  a_live a k (ro_old_hash ro) = None -> a_rotate k ro a = dead_rotate k (ro_old_hash ro) a.
Proof. unfold a_rotate, dead_rotate. by intros ->. Qed.

Lemma dead_rotate_not_live (k : SessionKind) (h : string) (a a1 : AStore) (rec : SessionRecord) :
  dead_rotate k h a <> (Rotated rec, a1).
Proof. unfold dead_rotate, a_reuse_check. by repeat case_match. Qed.

Definition recovery (rec : SessionRecord) (ip user_agent : string) (now : Z) (fresh : string) (a : AStore) : bool * AStore :=
  let rec' := inherited SkDashboard rec ip user_agent now in
  a_create_recovered SkDashboard (subject_hash tm SkDashboard (sr_tenant_id rec') (sr_user_id rec'))
    (redis_hash fresh) rec' (tm_refresh_ttl_secs tm) a.

(** The outcomes of presenting a token, given what the store held. *)
Definition refused (r : result AuthError RotatedTokens) (w w' : World S U) (a : AStore) : Prop :=
  r = Err RefreshTokenInvalid /\ at_state w' a /\ w_hooks w' = w_hooks w.

Definition reuse_hook (owner : option SessionRecord) (family ip user_agent : string) : list HookCall :=
  match owner with
  | None => []
  | Some rec => [OnRefreshTokenReuseDetected (sr_user_id rec) family (detached HpDashboard (sr_user_id rec) ip user_agent)]
  end.

Definition owner_subject (rec : SessionRecord) : string :=
  subject_hash tm SkDashboard (sr_tenant_id rec) (sr_user_id rec).

Definition replay_refused (family ip user_agent : string) (r : result AuthError RotatedTokens) (w w' : World S U) (a : AStore) : Prop :=
  r = Err RefreshTokenInvalid /\ exists o, family_owner SkDashboard family a o /\
    at_state w' (a_revoke_family SkDashboard family (owner_subject <$> o) a) /\
    w_hooks w' = w_hooks w ++ reuse_hook o family ip user_agent.

Definition recovered (rec : SessionRecord) (ip user_agent : string) (r : result AuthError RotatedTokens) (w w' : World S U)
    (a : AStore) : Prop :=
  exists i, (w_reads w <= i)%nat /\ if names_a_tenant rec && negb (capped tm rec (clock i)) then
    exists now' fresh, match recovery rec ip user_agent now' fresh a with
    | (true, a2) => at_state w' a2 /\ w_hooks w' = w_hooks w /\
        exists t, r = Ok t /\ signed_for (inherited SkDashboard rec ip user_agent now') a2 t fresh
    | (false, a2) => refused r w w' a2
    end
  else refused r w w' a.

Lemma refuse_reuse_ewp (family ip user_agent : string) (w : World S U) (a : AStore) :
  at_state w a ->
  ewp (refuse_reuse tm family ip user_agent) (fun r w' => replay_refused family ip user_agent r w w' a) w.
Proof.
  intros Hw. unfold refuse_reuse, fire_reuse_detected. do 2 estep. do 2 estep. estep.
  match goal with Ho : family_owner _ _ _ ?o |- _ => destruct o as [rec|]; cbv [fmap option_fmap option_map]; estep; estep;
    (split; [done|]); [exists (Some rec) | exists None]; (split; [exact Ho|]) end;
    (split; [at_here|]); cbn; [done | by rewrite app_nil_r].
Qed.

Lemma recover_session_ewp (rec : SessionRecord) (ip user_agent : string) (w : World S U) (a : AStore) :
  serviceable (S:=S) tm -> at_state w a ->
  ewp (recover_session tm rec ip user_agent) (fun r w' => recovered rec ip user_agent r w w' a) w.
Proof.
  intros Hsv Hw. unfold recover_session. estep. unfold recovered.
  apply ewp_assert_lifetime; intros Hc w1 Hl; (assert (Hw1 : at_state w1 a) by by eapply later_at);
    destruct Hl as (_ & _ & _ & Hh & Hreads).
  - exists (w_reads w). by rewrite Hc, andb_false_r.
  - destruct (names_a_tenant rec); cbn [negb]; [|estep; by exists (w_reads w)].
    estep. estep. unfold identity_record, normalize_session_metadata. cbv beta iota.
    do 5 estep. estep; [apply Hsv | apply Hsv |].
    match goal with |- context [a_create_recovered _ _ (redis_hash ?f) ?r' _ _] => set (fresh := f) in *;
      change r' with (inherited SkDashboard rec ip user_agent (clock (w_reads w1))) in * end.
    change (a_create_recovered _ _ _ _ _ a) with (recovery rec ip user_agent (clock (w_reads w1)) fresh a) in *.
    destruct (recovery rec ip user_agent (clock (w_reads w1)) fresh a) as [written a2] eqn:Hrec.
    destruct written; cbn [negb fst snd] in *.
    + eapply ewp_mono; [apply (sign_rotated_ewp _ _ _ a2 Hsv); at_here|]. intros r w' (Hw' & Hh' & t & Hr & Ht).
      exists (w_reads w). split; [done|]. rewrite Hc. cbn [negb andb]. exists (clock (w_reads w1)), fresh. rewrite Hrec.
      split; [done|]. split; [cbn in Hh'; congruence|]. by exists t.
    + estep. exists (w_reads w). split; [done|]. rewrite Hc. cbn [negb andb]. exists (clock (w_reads w1)), fresh. by rewrite Hrec.
Qed.

Lemma reissue_dead_ewp (raw ip user_agent : string) (w : World S U) (a : AStore) :
  serviceable (S:=S) tm -> at_state w a -> is_refresh_token_shape raw = true ->
  a_live a SkDashboard (redis_hash raw) = None ->
  ewp (reissue_tokens tm raw ip user_agent) (fun r w' =>
    match dead_rotate SkDashboard (redis_hash raw) a with
    | (Grace rec, a1) => recovered rec ip user_agent r w w' a1
    | (Reused family, a1) => replay_refused family ip user_agent r w w' a1
    | (_, a1) => refused r w w' a1
    end) w.
Proof.
  intros Hsv Hw Hshape Hlive. unfold reissue_tokens. rewrite Hshape. cbn [negb].
  estep. estep. estep. estep. unfold a_find. rewrite Hlive.
  estep. unfold placeholder_record, normalize_session_metadata. cbv beta iota. estep. estep. estep. estep.
  apply ewp_assert_lifetime; unfold capped; cbn; rewrite andb_false_r; [done|]. intros _ w1 Hl.
  assert (Hw1 : at_state w1 a) by (eapply later_at; [exact Hl | at_here]). destruct Hl as (_ & _ & _ & Hh & Hreads).
  unfold identity_record, normalize_session_metadata. cbv beta iota. estep. estep. estep. estep. estep.
  match goal with |- context [rotation_of tm SkDashboard _ ?n ?rec _] =>
    change (rotation_of tm SkDashboard _ _ _ _) with (rotation_ro SkDashboard raw n rec) end.
  cbn [w_users w_draws w_reads w_hooks w_store] in *.
  estep; [by apply rotation_ro_served|].
  rewrite a_rotate_dead in * by done. cbn [rotation_ro rotation_of ro_old_hash] in *.
  destruct (dead_rotate SkDashboard (redis_hash raw) a) as [[rec|rec|family|] a1] eqn:Hdead; cbn [fst snd] in *.
  - by destruct (dead_rotate_not_live _ _ _ _ _ Hdead).
  - eapply ewp_mono; [apply (recover_session_ewp rec ip user_agent _ a1 Hsv); at_here|].
    unfold recovered, refused. cbn in *. rewrite Hh. intros r w' (i & Hi & Hq). exists i. split; [lia | done].
  - eapply ewp_mono; [apply (refuse_reuse_ewp family ip user_agent _ a1); at_here|].
    unfold replay_refused. cbn. by rewrite Hh.
  - estep. split_and!; [done | at_here | done].
Qed.

(** ** A presented token that is live *)

Lemma reissue_live_ewp (raw ip user_agent : string) (w : World S U) (a : AStore) (rec : SessionRecord) (t : Z) :
  serviceable (S:=S) tm -> at_state w a -> is_refresh_token_shape raw = true ->
  a_live a SkDashboard (redis_hash raw) = Some (rec, t) ->
  ewp (reissue_tokens tm raw ip user_agent) (fun r w' =>
    if names_a_tenant rec && negb (capped tm rec (clock (w_reads w))) then
      exists now tokens,
        let new := issued_refresh w in
        let rec' := inherited SkDashboard rec ip user_agent now in
        let a' := a_rotated SkDashboard (rotation_ro SkDashboard raw new rec') a in
        r = Ok tokens /\ at_state w' a' /\ w_hooks w' = w_hooks w /\ signed_for rec' a' tokens new
    else refused r w w' a) w.
Proof.
  intros Hsv Hw Hshape Hlive. unfold reissue_tokens. rewrite Hshape. cbn [negb].
  estep. estep. estep. estep. unfold a_find. rewrite Hlive.
  destruct (names_a_tenant rec); cbn [negb andb]; [|estep; split_and!; [done | at_here | done]].
  estep. estep. estep. apply ewp_assert_lifetime; intros Hc w1 Hl;
    (assert (Hw1 : at_state w1 a) by (eapply later_at; [exact Hl | at_here]); destruct Hl as (_ & _ & _ & Hh & Hreads));
    cbn [w_reads with_store] in Hc; rewrite Hc; cbn [negb]; [done|].
  unfold identity_record, normalize_session_metadata. cbv beta iota. do 5 estep.
  match goal with |- context [rotation_of tm SkDashboard _ ?n ?r' _] =>
    change (rotation_of tm SkDashboard _ _ _ _) with (rotation_ro SkDashboard raw n r');
    change r' with (inherited SkDashboard rec ip user_agent (clock (w_reads w1))); change n with (issued_refresh w) end.
  set (rec' := inherited SkDashboard rec ip user_agent (clock (w_reads w1))).
  estep; [by apply rotation_ro_served|].
  assert (Hrot : a_rotate SkDashboard (rotation_ro SkDashboard raw (issued_refresh w) rec') a =
                 (Rotated rec, a_rotated SkDashboard (rotation_ro SkDashboard raw (issued_refresh w) rec') a))
    by (unfold a_rotate; cbn [rotation_ro rotation_of ro_old_hash]; by rewrite Hlive).
  rewrite Hrot in *. cbn [fst snd] in *.
  eapply ewp_mono; [apply (sign_rotated_ewp rec' _ _ (a_rotated SkDashboard (rotation_ro SkDashboard raw (issued_refresh w) rec') a) Hsv); at_here|]. intros r w' (Hw' & Hh' & tk & Hr & Ht).
  exists (clock (w_reads w1)), tk. split_and!; [done | done | cbn in Hh, Hh'; congruence | done].
Qed.

End rotate.

(** * Issuance and rotation on the platform plane

    The platform twins of [TokenVerify] and [TokenRotate]: their sessions live in
    the platform keyspace, their subject and records never carry a tenant, and
    the cap, the grace window and the reuse response are the same. *)

Section platform.
Context `{CryptoLaws, Host, Base64, HeaderJson}.
Context `{ClaimsJson DashboardClaims, ClaimsJson PlatformClaims, ClaimsJson MfaTempClaims}.
Context {S U : Type} `{SessionStoreLaws S} `{MfaStore S}.
Context (tm : TokenManagerService).

Definition admin_subject (user_id : string) : string := subject_hash tm SkPlatform None user_id.

Definition admin_record (admin : SafeAuthPlatformUser) (ip user_agent : string) (mfa_verified : bool) (w : World S U) :
    SessionRecord := {|
  sr_user_id := sp_id admin; sr_tenant_id := None; sr_role := sp_role admin;
  sr_device := parse_user_agent user_agent; sr_ip := truncate_ip ip; sr_created_at := clock (Datatypes.S (w_reads w));
  sr_mfa_enabled := sp_mfa_enabled admin; sr_mfa_verified := mfa_verified;
  sr_family_id := new_uuid_v4 (Datatypes.S (Datatypes.S (w_draws w)));
  sr_family_created_at := Some (clock (Datatypes.S (Datatypes.S (w_reads w)))) |}.

Lemma issue_platform_tokens_ewp (admin : SafeAuthPlatformUser) (ip user_agent : string) (mfa_verified : bool)
    (w : World S U) (a : AStore) :
  serviceable (S:=S) tm -> at_state w a ->
  ewp (issue_platform_tokens tm admin ip user_agent mfa_verified)
    (fun r w' => exists token,
       r = Ok {| pr_admin := admin; pr_access_token := token; pr_refresh_token := issued_refresh w |} /\
       at_state w' (a_create SkPlatform (admin_subject (sp_id admin)) (redis_hash (issued_refresh w))
                      (admin_record admin ip user_agent mfa_verified w) (tm_refresh_ttl_secs tm) a)) w.
Proof.
  intros Hsv Hw. unfold issue_platform_tokens. do 2 estep. do 2 estep. do 2 estep. do 2 estep. do 2 estep.
  unfold issue_platform_access.
  match goal with |- context [stamp tm ?c] =>
    destruct (sign_total (stamp tm c) (tm_key tm) (sv_platform tm Hsv _)) as [token Htok] end.
  rewrite Htok. cbn. do 2 estep. do 2 estep. do 2 estep. estep. estep; [apply Hsv | apply Hsv |].
  estep. eexists. split; [done | at_here].
Qed.

Definition admin_signed (rec : SessionRecord) (a : AStore) (tokens : RotatedTokens) (refresh : string) : Prop :=
  rt_refresh_token tokens = refresh /\
  exists claims, sign (stamp tm claims) (tm_key tm) = Ok (rt_access_token tokens) /\
    pc_sub claims = sr_user_id rec /\ pc_role claims = sr_role rec /\ pc_mfa_enabled claims = sr_mfa_enabled rec /\
    pc_mfa_verified claims = sr_mfa_verified rec /\
    pc_epoch claims = a_current_epoch SkPlatform (admin_subject (sr_user_id rec)) a.

Lemma sign_rotated_platform_ewp (rec : SessionRecord) (refresh : string) (w : World S U) (a : AStore) :
  serviceable (S:=S) tm -> at_state w a ->
  ewp (sign_rotated_platform tm (admin_subject (sr_user_id rec)) rec refresh)
    (fun r w' => at_state w' a /\ w_hooks w' = w_hooks w /\ exists t, r = Ok t /\ admin_signed rec a t refresh) w.
Proof.
  intros Hsv Hw. unfold sign_rotated_platform, rotated_platform_claims. do 2 estep. do 3 estep. do 2 estep. estep.
  unfold issue_platform_access. estep. estep.
  match goal with |- context [stamp tm ?c] =>
    destruct (sign_total (stamp tm c) (tm_key tm) (sv_platform tm Hsv _)) as [t Ht] end.
  rewrite Ht. cbn. estep. split_and!; [at_here | done |]. eexists. split; [done|]. split; [done|]. by eexists.
Qed.

Definition admin_recovery (rec : SessionRecord) (ip user_agent : string) (now : Z) (fresh : string) (a : AStore) : bool * AStore :=
  let rec' := inherited SkPlatform rec ip user_agent now in
  a_create_recovered SkPlatform (admin_subject (sr_user_id rec')) (redis_hash fresh) rec' (tm_refresh_ttl_secs tm) a.

Definition admin_reuse_hook (owner : option SessionRecord) (family ip user_agent : string) : list HookCall :=
  match owner with
  | None => []
  | Some rec => [OnRefreshTokenReuseDetected (sr_user_id rec) family (detached HpPlatform (sr_user_id rec) ip user_agent)]
  end.

Definition admin_replay_refused (family ip user_agent : string) (r : result AuthError RotatedTokens) (w w' : World S U)
    (a : AStore) : Prop :=
  r = Err RefreshTokenInvalid /\ exists o, family_owner SkPlatform family a o /\
    at_state w' (a_revoke_family SkPlatform family ((fun rec => admin_subject (sr_user_id rec)) <$> o) a) /\
    w_hooks w' = w_hooks w ++ admin_reuse_hook o family ip user_agent.

Definition admin_recovered (rec : SessionRecord) (ip user_agent : string) (r : result AuthError RotatedTokens)
    (w w' : World S U) (a : AStore) : Prop :=
  exists i, (w_reads w <= i)%nat /\ if negb (capped tm rec (clock i)) then
    exists now' fresh, match admin_recovery rec ip user_agent now' fresh a with
    | (true, a2) => at_state w' a2 /\ w_hooks w' = w_hooks w /\
        exists t, r = Ok t /\ admin_signed (inherited SkPlatform rec ip user_agent now') a2 t fresh
    | (false, a2) => refused r w w' a2
    end
  else refused r w w' a.

Lemma refuse_platform_reuse_ewp (family ip user_agent : string) (w : World S U) (a : AStore) :
  at_state w a ->
  ewp (refuse_platform_reuse tm family ip user_agent) (fun r w' => admin_replay_refused family ip user_agent r w w' a) w.
Proof.
  intros Hw. unfold refuse_platform_reuse, fire_reuse_detected. do 2 estep. do 2 estep. estep.
  match goal with Ho : family_owner _ _ _ ?o |- _ => destruct o as [rec|]; cbv [fmap option_fmap option_map]; estep; estep;
    (split; [done|]); [exists (Some rec) | exists None]; (split; [exact Ho|]) end;
    (split; [at_here|]); cbn; [done | by rewrite app_nil_r].
Qed.

Lemma recover_platform_session_ewp (rec : SessionRecord) (ip user_agent : string) (w : World S U) (a : AStore) :
  serviceable (S:=S) tm -> at_state w a ->
  ewp (recover_platform_session tm rec ip user_agent) (fun r w' => admin_recovered rec ip user_agent r w w' a) w.
Proof.
  intros Hsv Hw. unfold recover_platform_session. estep. unfold admin_recovered.
  apply ewp_assert_lifetime; intros Hc w1 Hl; (assert (Hw1 : at_state w1 a) by by eapply later_at);
    destruct Hl as (_ & _ & _ & Hh & Hreads).
  - exists (w_reads w). by rewrite Hc.
  - estep. estep. unfold platform_identity_record, normalize_session_metadata. cbv beta iota.
    do 5 estep. estep; [apply Hsv | apply Hsv |].
    match goal with |- context [a_create_recovered _ _ (redis_hash ?f) ?r' _ _] => set (fresh := f) in *;
      change r' with (inherited SkPlatform rec ip user_agent (clock (w_reads w1))) in * end.
    change (a_create_recovered _ _ _ _ _ a) with (admin_recovery rec ip user_agent (clock (w_reads w1)) fresh a) in *.
    destruct (admin_recovery rec ip user_agent (clock (w_reads w1)) fresh a) as [written a2] eqn:Hrec.
    destruct written; cbn [negb fst snd] in *.
    + eapply ewp_mono; [apply (sign_rotated_platform_ewp _ _ _ a2 Hsv); at_here|]. intros r w' (Hw' & Hh' & t & Hr & Ht).
      exists (w_reads w). split; [done|]. rewrite Hc. cbn [negb]. exists (clock (w_reads w1)), fresh. rewrite Hrec.
      split; [done|]. split; [cbn in Hh'; congruence|]. by exists t.
    + estep. exists (w_reads w). split; [done|]. rewrite Hc. cbn [negb]. exists (clock (w_reads w1)), fresh. by rewrite Hrec.
Qed.

Lemma reissue_platform_dead_ewp (raw ip user_agent : string) (w : World S U) (a : AStore) :
  serviceable (S:=S) tm -> at_state w a -> is_refresh_token_shape raw = true ->
  a_live a SkPlatform (redis_hash raw) = None ->
  ewp (reissue_platform_tokens tm raw ip user_agent) (fun r w' =>
    match dead_rotate SkPlatform (redis_hash raw) a with
    | (Grace rec, a1) => admin_recovered rec ip user_agent r w w' a1
    | (Reused family, a1) => admin_replay_refused family ip user_agent r w w' a1
    | (_, a1) => refused r w w' a1
    end) w.
Proof.
  intros Hsv Hw Hshape Hlive. unfold reissue_platform_tokens. rewrite Hshape. cbn [negb].
  estep. estep. estep. estep. unfold a_find. rewrite Hlive.
  estep. unfold placeholder_record, normalize_session_metadata. cbv beta iota. estep. estep. estep. estep.
  apply ewp_assert_lifetime; unfold capped; cbn; rewrite andb_false_r; [done|]. intros _ w1 Hl.
  assert (Hw1 : at_state w1 a) by (eapply later_at; [exact Hl | at_here]). destruct Hl as (_ & _ & _ & Hh & Hreads).
  unfold platform_identity_record, normalize_session_metadata. cbv beta iota. estep. estep. estep. estep. estep.
  match goal with |- context [rotation_of tm SkPlatform _ ?n ?rec _] =>
    change (rotation_of tm SkPlatform _ _ _ _) with (rotation_ro tm SkPlatform raw n rec) end.
  cbn [w_users w_draws w_reads w_hooks w_store] in *.
  estep; [by apply rotation_ro_served|].
  rewrite a_rotate_dead in * by done. cbn [rotation_ro rotation_of ro_old_hash] in *.
  destruct (dead_rotate SkPlatform (redis_hash raw) a) as [[rec|rec|family|] a1] eqn:Hdead; cbn [fst snd] in *.
  - by destruct (dead_rotate_not_live _ _ _ _ _ Hdead).
  - eapply ewp_mono; [apply (recover_platform_session_ewp rec ip user_agent _ a1 Hsv); at_here|].
    unfold admin_recovered, refused. cbn in *. rewrite Hh. intros r w' (i & Hi & Hq). exists i. split; [lia | done].
  - eapply ewp_mono; [apply (refuse_platform_reuse_ewp family ip user_agent _ a1); at_here|].
    unfold admin_replay_refused. cbn. by rewrite Hh.
  - estep. split_and!; [done | at_here | done].
Qed.

Lemma reissue_platform_live_ewp (raw ip user_agent : string) (w : World S U) (a : AStore) (rec : SessionRecord) (t : Z) :
  serviceable (S:=S) tm -> at_state w a -> is_refresh_token_shape raw = true ->
  a_live a SkPlatform (redis_hash raw) = Some (rec, t) ->
  ewp (reissue_platform_tokens tm raw ip user_agent) (fun r w' =>
    if negb (capped tm rec (clock (w_reads w))) then
      exists now tokens,
        let new := issued_refresh w in
        let rec' := inherited SkPlatform rec ip user_agent now in
        let a' := a_rotated SkPlatform (rotation_ro tm SkPlatform raw new rec') a in
        r = Ok tokens /\ at_state w' a' /\ w_hooks w' = w_hooks w /\ admin_signed rec' a' tokens new
    else refused r w w' a) w.
Proof.
  intros Hsv Hw Hshape Hlive. unfold reissue_platform_tokens. rewrite Hshape. cbn [negb].
  estep. estep. estep. estep. unfold a_find. rewrite Hlive.
  estep. estep. estep. apply ewp_assert_lifetime; intros Hc w1 Hl;
    (assert (Hw1 : at_state w1 a) by (eapply later_at; [exact Hl | at_here]); destruct Hl as (_ & _ & _ & Hh & _));
    cbn [w_reads with_store] in Hc; rewrite Hc; cbn [negb]; [done|].
  unfold platform_identity_record, normalize_session_metadata. cbv beta iota. do 5 estep.
  match goal with |- context [rotation_of tm SkPlatform _ ?n ?r' _] =>
    change (rotation_of tm SkPlatform _ _ _ _) with (rotation_ro tm SkPlatform raw n r');
    change r' with (inherited SkPlatform rec ip user_agent (clock (w_reads w1))); change n with (issued_refresh w) end.
  set (rec' := inherited SkPlatform rec ip user_agent (clock (w_reads w1))).
  estep; [by apply rotation_ro_served|].
  assert (Hrot : a_rotate SkPlatform (rotation_ro tm SkPlatform raw (issued_refresh w) rec') a =
                 (Rotated rec, a_rotated SkPlatform (rotation_ro tm SkPlatform raw (issued_refresh w) rec') a))
    by (unfold a_rotate; cbn [rotation_ro rotation_of ro_old_hash]; by rewrite Hlive).
  rewrite Hrot in *. cbn [fst snd] in *.
  eapply ewp_mono; [apply (sign_rotated_platform_ewp rec' _ _ (a_rotated SkPlatform (rotation_ro tm SkPlatform raw (issued_refresh w) rec') a) Hsv); at_here|].
  intros r w' (Hw' & Hh' & tk & Hr & Ht).
  exists (clock (w_reads w1)), tk. split_and!; [done | done | cbn in Hh, Hh'; congruence | done].
Qed.

End platform.
