(* ===== verification/RotationClaims.v ===== *)
(** * What a refresh preserves, refuses and detects *)

From S2P Require Import Prelude Errors Types Crypto Jwt Redis RedisSession SessionSpec RedisRefine SessionStore Lineage MfaStore Engine TokenManager TokenVerify TokenRotate.

(** The record a presented refresh token leads to: that of its live session, or
    the one its single-shot recovery pointer carries while the successor lives
    and the lineage is not revoked. *)
Definition presents (k : SessionKind) (h : string) (a : AStore) (rec : SessionRecord) : Prop :=
  (exists t, a_live a k h = Some (rec, t)) \/
  (a_live a k h = None /\ exists s t, a_grace a k h = Some (s, rec, t) /\ is_Some (a_live a k s) /\
     family_alive k (sr_family_id rec) a = true).

(** The account a record belongs to, as the manager files it. *)
Definition tm_owner `{Crypto} (tm : TokenManagerService) (k : SessionKind) (rec : SessionRecord) : string :=
  subject_hash tm k (match k with SkDashboard => sr_tenant_id rec | SkPlatform => None end) (sr_user_id rec).

(** The identity and authority a rotation carries from one record to the next. *)
Definition carried (rec : SessionRecord) :=
  (sr_user_id rec, sr_tenant_id rec, sr_role rec, (sr_mfa_enabled rec, sr_mfa_verified rec),
   (sr_family_id rec, sr_family_created_at rec)).

Definition claimed (claims : DashboardClaims) :=
  (dc_sub claims, Some (dc_tenant_id claims), dc_role claims, (dc_mfa_enabled claims, dc_mfa_verified claims)).

Lemma dead_rotate_grace (k : SessionKind) (h : string) (a a1 : AStore) (rec : SessionRecord) :
  a_live a k h = None -> dead_rotate k h a = (Grace rec, a1) ->
  presents k h a rec /\ a1 = set_grace k h None a.
Proof.
  intros Hl. unfold dead_rotate, a_reuse_check.
  destruct (a_grace a k h) as [[[s rec'] t]|] eqn:Hg; [|by repeat case_match].
  destruct (a_live a k s) as [x|] eqn:Hs; [|cbn; by repeat case_match].
  destruct (family_alive k (sr_family_id rec') (set_grace k h None a)) eqn:Hf; [|done].
  intros [= <- <-]. split; [|done]. right. split; [done|]. exists s, t. by rewrite Hs.
Qed.

Section refresh.
Context `{CryptoLaws, Host, Base64, HeaderJson}.
Context `{ClaimsJson DashboardClaims, ClaimsJson PlatformClaims, ClaimsJson MfaTempClaims}.
Context {S U : Type} `{SessionStoreLaws S} `{MfaStore S}.
Context (tm : TokenManagerService) (Hsv : serviceable (S:=S) tm).

Lemma reissue_malformed (raw ip user_agent : string) (w : World S U) :
  is_refresh_token_shape raw = false -> reissue_tokens tm raw ip user_agent w = (Err RefreshTokenInvalid, w).
Proof. intros Hs. unfold reissue_tokens. by rewrite Hs. Qed.

(** Every run is one of four: see [reissue_live_ewp] and [reissue_dead_ewp]. *)
Lemma reissue_run (raw ip user_agent : string) (w w' : World S U) (r : result AuthError RotatedTokens) :
  ready (w_store w) -> reissue_tokens tm raw ip user_agent w = (r, w') ->
  let a := stands_for (w_store w) in
  refused r w w' a \/
  (exists rec now tokens, (exists t, a_live a SkDashboard (redis_hash raw) = Some (rec, t)) /\
     names_a_tenant rec = true /\ capped tm rec (clock (w_reads w)) = false /\
     let rec' := inherited SkDashboard rec ip user_agent now in
     let a' := a_rotated SkDashboard (rotation_ro tm SkDashboard raw (issued_refresh w) rec') a in
     r = Ok tokens /\ at_state w' a' /\ signed_for tm rec' a' tokens (issued_refresh w)) \/
  (exists rec a1, a_live a SkDashboard (redis_hash raw) = None /\
     dead_rotate SkDashboard (redis_hash raw) a = (Grace rec, a1) /\ recovered tm rec ip user_agent r w w' a1) \/
  (exists family a1, a_live a SkDashboard (redis_hash raw) = None /\
     dead_rotate SkDashboard (redis_hash raw) a = (Reused family, a1) /\
     replay_refused tm family ip user_agent r w w' a1) \/
  (exists a1, a_live a SkDashboard (redis_hash raw) = None /\
     dead_rotate SkDashboard (redis_hash raw) a = (Invalid, a1) /\ refused r w w' a1).
Proof.
  intros Hr Hrun a. assert (Hw : at_state w a) by done.
  destruct (is_refresh_token_shape raw) eqn:Hshape.
  2: { rewrite reissue_malformed in Hrun by done. simplify_eq. by left. }
  destruct (a_live a SkDashboard (redis_hash raw)) as [[rec t]|] eqn:Hl.
  - pose proof (ewp_run _ _ _ _ _ (reissue_live_ewp tm raw ip user_agent w a rec t Hsv Hw Hshape Hl) Hrun) as Hq.
    cbv beta in Hq. destruct (names_a_tenant rec) eqn:Hn; cbn [andb] in Hq; [|by left].
    destruct (capped tm rec (clock (w_reads w))) eqn:Hc; cbn [negb] in Hq; [by left|].
    destruct Hq as (now & tokens & Hres & Hw' & _ & Hsig). right. left. exists rec, now, tokens. split_and!; eauto.
  - pose proof (ewp_run _ _ _ _ _ (reissue_dead_ewp tm raw ip user_agent w a Hsv Hw Hshape Hl) Hrun) as Hq.
    cbv beta in Hq. destruct (dead_rotate SkDashboard (redis_hash raw) a) as [[rec|rec|family|] a1] eqn:Hd.
    + by destruct (dead_rotate_not_live _ _ _ _ _ Hd).
    + right. right. left. by exists rec, a1.
    + right. right. right. left. by exists family, a1.
    + right. right. right. right. by exists a1.
Qed.

Lemma find_rotated (k : SessionKind) (ro : SessionRotation) (a : AStore) :
  ro_old_hash ro <> ro_new_hash ro -> a_find k (ro_new_hash ro) (a_rotated k ro a) = Some (ro_new_record ro).
Proof.
  intros Hne. unfold a_find.
  assert (Hl : exists t, a_live (a_rotated k ro a) k (ro_new_hash ro) = Some (ro_new_record ro, t)).
  { unfold a_rotated. eexists. cbn. rewrite upd_at, decide_False by done.
    destruct (string_is_empty _), (bool_decide _); cbn; by rewrite upd_at, decide_True. }
  destruct Hl as [t ->]. done.
Qed.

Lemma find_recovered (rec : SessionRecord) (ip user_agent : string) (now : Z) (fresh : string) (a a2 : AStore) :
  recovery tm rec ip user_agent now fresh a = (true, a2) ->
  a_find SkDashboard (redis_hash fresh) a2 = Some (inherited SkDashboard rec ip user_agent now).
Proof.
  unfold recovery, a_create_recovered. cbv zeta. case_match; [|done]. intros [= <-]. apply a_find_create.
Qed.

Lemma signed_claims (rec : SessionRecord) (a : AStore) (tokens : RotatedTokens) (refresh ip user_agent : string) (now : Z) :
  names_a_tenant rec = true -> signed_for tm (inherited SkDashboard rec ip user_agent now) a tokens refresh ->
  exists claims, sign (stamp tm claims) (tm_key tm) = Ok (rt_access_token tokens) /\ claimed claims = (carried rec).1 /\
    dc_epoch claims = a_current_epoch SkDashboard (tm_owner tm SkDashboard rec) a.
Proof.
  unfold names_a_tenant. intros Hn (_ & claims & Hs & E1 & E2 & E3 & E4 & E5 & E6).
  exists claims. split; [done|]. cbn in *. unfold claimed, carried, tm_owner. cbn.
  destruct (sr_tenant_id rec) as [tenant|]; [|done]. cbn in *. by rewrite E1, E2, E3, E4, E5, E6.
Qed.

End refresh.

(** C4. A refresh carries the identity and nothing more: when [reissue_tokens]
    hands out a pair, the presented token led to a session record naming a
    tenant and not older than the absolute lifetime at a clock reading taken by
    the call; the new refresh token names a stored session of the same user,
    tenant, role, second-factor state, family and birth time; and the new access
    token is signed with that identity and the account's epoch, so a refresh can
    neither gain nor lose authority.  (Two refresh tokens with one digest would
    be a SHA-256 collision, which the last hypothesis excludes.) *)
Theorem refresh_carries_identity `{CryptoLaws, Host, Base64, HeaderJson}
    `{ClaimsJson DashboardClaims, ClaimsJson PlatformClaims, ClaimsJson MfaTempClaims}
    {S U : Type} `{SessionStoreLaws S} `{MfaStore S} (tm : TokenManagerService)
    (raw ip user_agent : string) (w w' : World S U) (tokens : RotatedTokens) :
  serviceable (S:=S) tm -> ready (w_store w) ->
  reissue_tokens tm raw ip user_agent w = (Ok tokens, w') ->
  redis_hash raw <> redis_hash (rt_refresh_token tokens) ->
  exists rec rec' claims i,
    presents SkDashboard (redis_hash raw) (stands_for (w_store w)) rec /\
    names_a_tenant rec = true /\ (w_reads w <= i)%nat /\ capped tm rec (clock i) = false /\
    a_find SkDashboard (redis_hash (rt_refresh_token tokens)) (stands_for (w_store w')) = Some rec' /\
    carried rec' = carried rec /\
    sign (stamp tm claims) (tm_key tm) = Ok (rt_access_token tokens) /\ claimed claims = (carried rec).1 /\
    dc_epoch claims = a_current_epoch SkDashboard (tm_owner tm SkDashboard rec) (stands_for (w_store w')).
Proof.
  intros Hsv Hr Hrun Hne. pose proof (reissue_run tm Hsv raw ip user_agent w w' _ Hr Hrun) as Hcases. cbv zeta in Hcases.
  destruct Hcases as [(? & _)|[Hrot|[Hrec|[(f & a1 & _ & _ & ? & _)|(a1 & _ & _ & ? & _)]]]]; try done.
  - destruct Hrot as (rec & now & tk & [t Hl] & Hn & Hc & [= <-] & [_ Hs] & Hsig).
    pose proof Hsig as [Href _]. rewrite Href in *.
    destruct (signed_claims tm rec _ tokens _ ip user_agent now Hn Hsig) as (claims & Htok & Hcl & He).
    exists rec, (inherited SkDashboard rec ip user_agent now), claims, (w_reads w). split_and!; try done; [by left; eauto | | ].
    + rewrite (a_find_proper _ _ _ _ Hs). by apply (find_rotated SkDashboard (rotation_ro tm SkDashboard raw (issued_refresh w) _)).
    + by rewrite He, (a_current_epoch_proper _ _ _ _ Hs).
  - destruct Hrec as (rec & a1 & Hl & Hd & i & Hi & Hrec). apply dead_rotate_grace in Hd as [Hp ->]; [|done].
    destruct (names_a_tenant rec) eqn:Hn; cbn [andb] in Hrec; [|by destruct Hrec as (? & _)].
    destruct (capped tm rec (clock i)) eqn:Hc; cbn [negb] in Hrec; [by destruct Hrec as (? & _)|].
    destruct Hrec as (now' & fresh & Hrec). destruct (recovery _ _ _ _ _ _ _) as [[] a2] eqn:Hcr;
      [|by destruct Hrec as (? & _)].
    destruct Hrec as ([_ Hs] & _ & tk & [= <-] & Hsig). pose proof Hsig as [Href _]. rewrite Href in *.
    destruct (signed_claims tm rec _ tokens _ ip user_agent now' Hn Hsig) as (claims & Htok & Hcl & He).
    exists rec, (inherited SkDashboard rec ip user_agent now'), claims, i. split_and!; try done.
    + rewrite (a_find_proper _ _ _ _ Hs). by eapply find_recovered.
    + by rewrite He, (a_current_epoch_proper _ _ _ _ Hs).
Qed.

(** The store creates no session between [a] and [a']. *)
Definition creates_none (a a' : AStore) : Prop :=
  forall k h x, a_live a' k h = Some x -> a_live a k h = Some x.

(** C25. The absolute lifetime binds on both doors: when every record the
    presented token could lead to, live or through its recovery pointer, is
    past the cap at every clock reading the call can take, the refresh is
    refused as an invalid token and no session is created. *)
Theorem capped_lineage_never_refreshes `{CryptoLaws, Host, Base64, HeaderJson}
    `{ClaimsJson DashboardClaims, ClaimsJson PlatformClaims, ClaimsJson MfaTempClaims}
    {S U : Type} `{SessionStoreLaws S} `{MfaStore S} (tm : TokenManagerService)
    (raw ip user_agent : string) (w w' : World S U) (r : result AuthError RotatedTokens) :
  serviceable (S:=S) tm -> ready (w_store w) ->
  (forall rec i, presents SkDashboard (redis_hash raw) (stands_for (w_store w)) rec -> (w_reads w <= i)%nat ->
     capped tm rec (clock i) = true) ->
  reissue_tokens tm raw ip user_agent w = (r, w') ->
  r = Err RefreshTokenInvalid /\ creates_none (stands_for (w_store w)) (stands_for (w_store w')).
Proof.
  intros Hsv Hr Hcap Hrun. pose proof (reissue_run tm Hsv raw ip user_agent w w' _ Hr Hrun) as Hcases. cbv zeta in Hcases.
  assert (Hdead : forall out a1, dead_rotate SkDashboard (redis_hash raw) (stands_for (w_store w)) = (out, a1) ->
            creates_none (stands_for (w_store w)) a1).
  { intros out a1. unfold dead_rotate. repeat case_match; intros [= _ <-] k h x; done. }
  destruct Hcases as [(-> & [_ Hs] & _)|[Hrot|[Hrec|[Hreu|(a1 & _ & Hd & -> & [_ Hs] & _)]]]].
  - split; [done|]. intros k h x. by rewrite (eqv_live _ _ Hs).
  - destruct Hrot as (rec & now & tk & [t Hl] & Hn & Hc & _). rewrite Hcap in Hc; [done | by left; eauto | done].
  - destruct Hrec as (rec & a1 & Hl & Hd & i & Hi & Hrec). pose proof (dead_rotate_grace _ _ _ _ _ Hl Hd) as [Hp _].
    rewrite (Hcap rec i Hp Hi), andb_false_r in Hrec. destruct Hrec as (-> & [_ Hs] & _).
    split; [done|]. intros k h x. rewrite (eqv_live _ _ Hs). by eapply Hdead.
  - destruct Hreu as (f & a1 & _ & Hd & -> & o & _ & [_ Hs] & _). split; [done|]. intros k h x.
    rewrite (eqv_live _ _ Hs). unfold a_revoke_family. destruct (string_is_empty f); [by eapply Hdead|].
    destruct o; cbn; case_decide; try done; by eapply Hdead.
  - split; [done|]. intros k h x. rewrite (eqv_live _ _ Hs). by eapply Hdead.
Qed.

(** C5. A replay ends the lineage: presenting a consumed token outside its
    grace window answers an invalid token, leaves no live session of its family
    and forgets the family (so no recovery pointer of it can be used), and tells
    the hooks the account, read from a live member of the family before it was
    revoked, whenever there was one. *)
Theorem replay_ends_lineage `{CryptoLaws, Host, Base64, HeaderJson}
    `{ClaimsJson DashboardClaims, ClaimsJson PlatformClaims, ClaimsJson MfaTempClaims}
    {S U : Type} `{SessionStoreLaws S} `{MfaStore S} (tm : TokenManagerService) (ttl : Z)
    (raw ip user_agent family : string) (w w' : World S U) (r : result AuthError RotatedTokens) (a1 : AStore) :
  serviceable (S:=S) tm -> ready (w_store w) -> is_refresh_token_shape raw = true ->
  sound (tm_owner tm) ttl (stands_for (w_store w)) ->
  a_live (stands_for (w_store w)) SkDashboard (redis_hash raw) = None ->
  dead_rotate SkDashboard (redis_hash raw) (stands_for (w_store w)) = (Reused family, a1) -> family <> "" ->
  reissue_tokens tm raw ip user_agent w = (r, w') ->
  r = Err RefreshTokenInvalid /\ dead_family (stands_for (w_store w')) SkDashboard family /\
  exists owner, family_owner SkDashboard family (stands_for (w_store w)) owner /\
    w_hooks w' = w_hooks w ++ reuse_hook owner family ip user_agent.
Proof.
  intros Hsv Hr Hshape Hsound Hl Hd Hne Hrun.
  pose proof (ewp_run _ _ _ _ _ (reissue_dead_ewp tm raw ip user_agent w _ Hsv (conj Hr (reflexivity _)) Hshape Hl) Hrun) as Hq.
  cbv beta in Hq. rewrite Hd in Hq. destruct Hq as (-> & o & Ho & [_ Hs] & Hh). split; [done|].
  assert (Ha1 : a1 = stands_for (w_store w) \/ a1 = set_grace SkDashboard (redis_hash raw) None (stands_for (w_store w))).
  { unfold dead_rotate in Hd. repeat case_match; simplify_eq; auto. }
  assert (Hsound1 : sound (tm_owner tm) ttl a1)
    by (destruct Ha1 as [->| ->]; [done | by apply set_grace_none_sound]).
  split.
  - eapply dead_family_equiv; [symmetry; apply equiv_same; exact Hs|]. by eapply revoke_family_kills.
  - exists o. split; [|done]. destruct Ha1 as [->| ->]; [done|]. exact Ho.
Qed.
