(* ===== verification/EngineLife.v ===== *)
(** * The life of the engine

    Sequences of token-manager calls on both planes, revocations and time
    passing, in any order and for any accounts, over any store that keeps the
    contract.  Each call asks the store only for operations [Lineage] admits,
    so its invariants hold of every world the engine reaches. *)

From S2P Require Import Prelude Errors Types Crypto Jwt Redis RedisSession SessionSpec RedisRefine SessionStore Lineage MfaStore Engine TokenManager TokenVerify TokenRotate RotationClaims.

Section life.
Context `{CryptoLaws, Host, Base64, HeaderJson}.
Context `{ClaimsJson DashboardClaims, ClaimsJson PlatformClaims, ClaimsJson MfaTempClaims}.
Context {S U : Type} `{SessionStoreLaws S} `{MfaStore S}.
Context (tm : TokenManagerService).

(** What a call may do to an account: only a sign-in opens a session for it. *)
Inductive EngineEvent : Type := EvSignIn (k : SessionKind) (subject : string) | EvOther.

Inductive engine_call (w : World S U) : EngineEvent -> World S U -> Prop :=
| ec_issue user ip ua mfa proof r w' :
    issue_tokens tm user ip ua mfa proof w = (r, w') ->
    engine_call w (EvSignIn SkDashboard (subject_hash tm SkDashboard (Some (su_tenant_id user)) (su_id user))) w'
| ec_issue_platform admin ip ua mfa r w' :
    issue_platform_tokens tm admin ip ua mfa w = (r, w') ->
    engine_call w (EvSignIn SkPlatform (subject_hash tm SkPlatform None (sp_id admin))) w'
| ec_reissue raw ip ua r w' : reissue_tokens tm raw ip ua w = (r, w') -> engine_call w EvOther w'
| ec_reissue_platform raw ip ua r w' : reissue_platform_tokens tm raw ip ua w = (r, w') -> engine_call w EvOther w'
| ec_revoke k subject h r w' : on_store (revoke_session k subject h) w = (r, w') -> engine_call w EvOther w'
| ec_revoke_all k subject r w' : on_store (revoke_all k subject) w = (r, w') -> engine_call w EvOther w'
| ec_wait ms w' : at_state w' (a_advance ms (stands_for (w_store w))) -> engine_call w EvOther w'.

Inductive engine_life : World S U -> list EngineEvent -> World S U -> Prop :=
| el_nil w : engine_life w [] w
| el_cons w ev w1 evs w' : engine_call w ev w1 -> engine_life w1 evs w' -> engine_life w (ev :: evs) w'.

Definition other_account (k : SessionKind) (subject : string) (ev : EngineEvent) : Prop :=
  match ev with EvSignIn k' s => k' = k -> s <> subject | EvOther => True end.

Definition owner := tm_owner tm.
Definition ttl : Z := tm_refresh_ttl_secs tm.

(** The call ran as operations the contract admits, none of them a sign-in of
    another account than the one its label names. *)
Definition admitted (a : AStore) (ev : EngineEvent) (a' : AStore) : Prop :=
  exists ops, steps owner ttl a ops a' /\
    forall k subject, other_account k subject ev -> Forall (no_sign_in k subject) ops.

Context (Hsv : serviceable (S:=S) tm) (Hgrace : tm_grace_ttl_secs tm <= tm_refresh_ttl_secs tm).

Lemma admitted_none (a : AStore) (ev : EngineEvent) (a' : AStore) : same_sessions a' a -> admitted a ev a'.
Proof. intros Ha. exists []. split; [by constructor | done]. Qed.

Lemma admitted_one (a : AStore) (ev : EngineEvent) (op : Op) (a' : AStore) :
  admissible owner ttl a op -> same_sessions a' (apply ttl op a) ->
  (forall k subject, other_account k subject ev -> no_sign_in k subject op) -> admitted a ev a'.
Proof.
  intros Hadm Ha Hno. exists [op]. split.
  - eapply steps_cons; [by apply step_apply | by constructor].
  - intros k subject He. constructor; [by apply Hno | constructor].
Qed.

Lemma admitted_two (a a1 : AStore) (op1 op2 : Op) (a' : AStore) :
  admissible owner ttl a op1 -> a1 = apply ttl op1 a -> admissible owner ttl a1 op2 ->
  same_sessions a' (apply ttl op2 a1) ->
  (forall k subject, no_sign_in k subject op1 /\ no_sign_in k subject op2) -> admitted a EvOther a'.
Proof.
  intros Hadm -> Hadm2 Ha Hno. exists [op1; op2]. split.
  - eapply steps_cons; [by apply step_apply|]. eapply steps_cons; [by apply step_apply | by constructor].
  - intros k subject _. destruct (Hno k subject). by repeat constructor.
Qed.

(** The rotation asked for keeps the account and family of what it replaces. *)
Lemma rotation_admissible (k : SessionKind) (raw new ip ua : string) (rec : SessionRecord) (now : Z) (a : AStore) :
  (forall rec0 t, a_live a k (redis_hash raw) = Some (rec0, t) -> rec0 = rec) ->
  admissible owner ttl a (OpRotate k (rotation_ro tm k raw new (inherited k rec ip ua now))).
Proof.
  intros Hlive. split_and!; cbn; [done | done | done |]. intros rec0 t Hl. rewrite (Hlive rec0 t Hl).
  destruct k; by split.
Qed.

Lemma dead_rotation (k : SessionKind) (raw : string) (a a1 : AStore) (out : RotateOutcome) :
  a_live a k (redis_hash raw) = None -> dead_rotate k (redis_hash raw) a = (out, a1) ->
  exists op, admissible owner ttl a op /\ a1 = apply ttl op a /\ forall k' s, no_sign_in k' s op.
Proof.
  intros Hl Hd.
  set (ro := rotation_ro tm k raw "" (inherited k {| sr_user_id := ""; sr_tenant_id := None; sr_role := ""; sr_device := "";
    sr_ip := ""; sr_created_at := 0; sr_mfa_enabled := false; sr_mfa_verified := false; sr_family_id := "";
    sr_family_created_at := None |} "" "" 0)).
  exists (OpRotate k ro). split; [|split; [|done]].
  - apply rotation_admissible. intros rec0 t. by rewrite Hl.
  - cbn. rewrite a_rotate_dead by done. change (ro_old_hash ro) with (redis_hash raw). by rewrite Hd.
Qed.

Lemma reissue_admitted (raw ip ua : string) (w w' : World S U) (r : result AuthError RotatedTokens) :
  ready (w_store w) -> reissue_tokens tm raw ip ua w = (r, w') ->
  ready (w_store w') /\ admitted (stands_for (w_store w)) EvOther (stands_for (w_store w')).
Proof.
  intros Hr Hrun. pose proof (reissue_run tm Hsv raw ip ua w w' _ Hr Hrun) as Hc. cbv zeta in Hc.
  set (a := stands_for (w_store w)) in *.
  destruct Hc as [(_ & [Hr' Hs] & _)|[Hrot|[Hrec|[Hreu|(a1 & Hl & Hd & _ & [Hr' Hs] & _)]]]].
  - split; [done|]. by apply admitted_none, equiv_same.
  - destruct Hrot as (rec & now & tk & [t Hl] & _ & _ & _ & [Hr' Hs] & _). split; [done|].
    eapply (admitted_one _ _ (OpRotate SkDashboard (rotation_ro tm SkDashboard raw (issued_refresh w) (inherited SkDashboard rec ip ua now)))).
    + apply rotation_admissible. intros rec0 t0. rewrite Hl. by intros [= <- <-].
    + apply equiv_same. rewrite Hs. cbn. unfold a_rotate. cbn [rotation_ro rotation_of ro_old_hash]. by rewrite Hl.
    + done.
  - destruct Hrec as (rec & a1 & Hl & Hd & i & _ & Hrec). destruct (dead_rotation _ _ _ _ _ Hl Hd) as (op & Hadm & Ha1 & Hno).
    assert (Hone : forall b, at_state w' b -> b = a1 -> ready (w_store w') /\ admitted a EvOther (stands_for (w_store w'))).
    { intros b [Hr' Hs] ->. split; [done|]. eapply admitted_one; [done | by rewrite <-Ha1; apply equiv_same | eauto]. }
    destruct (_ && _); [|by eapply Hone; [apply Hrec|]].
    destruct Hrec as (now' & fresh & Hrec). unfold recovery, a_create_recovered in Hrec. cbv zeta in Hrec.
    set (rec' := inherited SkDashboard rec ip ua now') in *.
    destruct (_ && _) eqn:Hcond; [|by eapply Hone; [apply Hrec|]]. destruct Hrec as ([Hr' Hs] & _). split; [done|].
    eapply (admitted_two _ a1 op (OpRecover SkDashboard (owner SkDashboard rec') (redis_hash fresh) rec')); [done | done | done | | by split; [apply Hno|]].
    apply equiv_same. rewrite Hs. cbn [apply]. unfold a_create_recovered.
    change (owner SkDashboard rec') with (subject_hash tm SkDashboard (sr_tenant_id rec') (sr_user_id rec')). by rewrite Hcond.
  - destruct Hreu as (f & a1 & Hl & Hd & _ & o & _ & [Hr' Hs] & _). split; [done|].
    destruct (dead_rotation _ _ _ _ _ Hl Hd) as (op & Hadm & Ha1 & Hno).
    eapply (admitted_two _ a1 op (OpRevokeFamily SkDashboard f _)); [done | done | done | by apply equiv_same | by split; [apply Hno|]].
  - split; [done|]. destruct (dead_rotation _ _ _ _ _ Hl Hd) as (op & Hadm & Ha1 & Hno).
    eapply admitted_one; [done | by rewrite <-Ha1; apply equiv_same | eauto].
Qed.

Lemma reissue_platform_admitted (raw ip ua : string) (w w' : World S U) (r : result AuthError RotatedTokens) :
  ready (w_store w) -> reissue_platform_tokens tm raw ip ua w = (r, w') ->
  ready (w_store w') /\ admitted (stands_for (w_store w)) EvOther (stands_for (w_store w')).
Proof.
  intros Hr Hrun. set (a := stands_for (w_store w)) in *. assert (Hw : at_state w a) by done.
  destruct (is_refresh_token_shape raw) eqn:Hshape.
  2: { unfold reissue_platform_tokens in Hrun. rewrite Hshape in Hrun. injection Hrun as _ <-. split; [done|]. by apply admitted_none. }
  destruct (a_live a SkPlatform (redis_hash raw)) as [[rec t]|] eqn:Hl.
  - pose proof (ewp_run _ _ _ _ _ (reissue_platform_live_ewp tm raw ip ua w a rec t Hsv Hw Hshape Hl) Hrun) as Hq. cbv beta in Hq.
    destruct (capped tm rec _); cbn [negb] in Hq.
    { destruct Hq as (_ & [Hr' Hs] & _). split; [done|]. by apply admitted_none, equiv_same. }
    destruct Hq as (now & tk & _ & [Hr' Hs] & _). split; [done|].
    eapply (admitted_one _ _ (OpRotate SkPlatform (rotation_ro tm SkPlatform raw (issued_refresh w) (inherited SkPlatform rec ip ua now)))).
    + apply rotation_admissible. intros rec0 t0. rewrite Hl. by intros [= <- <-].
    + apply equiv_same. rewrite Hs. cbn. unfold a_rotate. cbn [rotation_ro rotation_of ro_old_hash]. by rewrite Hl.
    + done.
  - pose proof (ewp_run _ _ _ _ _ (reissue_platform_dead_ewp tm raw ip ua w a Hsv Hw Hshape Hl) Hrun) as Hq. cbv beta in Hq.
    destruct (dead_rotate SkPlatform (redis_hash raw) a) as [out a1] eqn:Hd.
    destruct (dead_rotation _ _ _ _ _ Hl Hd) as (op & Hadm & Ha1 & Hno).
    assert (Hone : forall b, at_state w' b -> b = a1 -> ready (w_store w') /\ admitted a EvOther (stands_for (w_store w'))).
    { intros b [Hr' Hs] ->. split; [done|]. eapply admitted_one; [done | by rewrite <-Ha1; apply equiv_same | eauto]. }
    destruct out as [rec|rec|family|]; [by eapply Hone; [apply Hq|]| | |by eapply Hone; [apply Hq|]].
    + destruct Hq as (i & _ & Hq). destruct (negb _); [|by eapply Hone; [apply Hq|]].
      destruct Hq as (now' & fresh & Hq). unfold admin_recovery, a_create_recovered in Hq. cbv zeta in Hq.
      set (rec' := inherited SkPlatform rec ip ua now') in *.
      destruct (_ && _) eqn:Hcond; [|by eapply Hone; [apply Hq|]]. destruct Hq as ([Hr' Hs] & _). split; [done|].
      eapply (admitted_two _ a1 op (OpRecover SkPlatform (owner SkPlatform rec') (redis_hash fresh) rec')); [done | done | done | | by split; [apply Hno|]].
      apply equiv_same. rewrite Hs. cbn [apply]. unfold a_create_recovered.
      change (owner SkPlatform rec') with (admin_subject tm (sr_user_id rec')). by rewrite Hcond.
    + destruct Hq as (_ & o & _ & [Hr' Hs] & _). split; [done|].
      eapply (admitted_two _ a1 op (OpRevokeFamily SkPlatform family _)); [done | done | done | by apply equiv_same | by split; [apply Hno|]].
Qed.

Lemma issue_admitted (user : SafeAuthUser) (ip ua : string) (mfa : bool) (proof : CredentialProof) (w w' : World S U)
    (r : result AuthError AuthResult) :
  ready (w_store w) -> issue_tokens tm user ip ua mfa proof w = (r, w') ->
  ready (w_store w') /\
  admitted (stands_for (w_store w)) (EvSignIn SkDashboard (subject_hash tm SkDashboard (Some (su_tenant_id user)) (su_id user)))
    (stands_for (w_store w')).
Proof.
  intros Hr Hrun. assert (Hw : at_state w (stands_for (w_store w))) by done.
  pose proof (issue_tokens_ewp tm user ip ua mfa proof w _ Hsv Hw) as Hi. cbv zeta in Hi.
  destruct (ewp_run _ _ _ _ _ Hi Hrun) as (token & _ & _ & Hr' & Hs).
  split; [done|]. set (subject := subject_hash _ _ _ _) in *.
  eapply (admitted_one _ _ (OpCreate SkDashboard subject (redis_hash (issued_refresh w)) (issued_record user ip ua mfa w))).
  - done.
  - apply equiv_same in Hs. etrans; [exact Hs|]. cbn [apply]. case_match; [|done]. by split.
  - intros k s He Hk <-. by apply He.
Qed.

Lemma issue_platform_admitted (admin : SafeAuthPlatformUser) (ip ua : string) (mfa : bool) (w w' : World S U)
    (r : result AuthError PlatformAuthResult) :
  ready (w_store w) -> issue_platform_tokens tm admin ip ua mfa w = (r, w') ->
  ready (w_store w') /\
  admitted (stands_for (w_store w)) (EvSignIn SkPlatform (subject_hash tm SkPlatform None (sp_id admin))) (stands_for (w_store w')).
Proof.
  intros Hr Hrun. assert (Hw : at_state w (stands_for (w_store w))) by done.
  destruct (ewp_run _ _ _ _ _ (issue_platform_tokens_ewp tm admin ip ua mfa w _ Hsv Hw) Hrun) as (token & _ & Hr' & Hs).
  split; [done|].
  eapply (admitted_one _ _ (OpCreate SkPlatform (admin_subject tm (sp_id admin)) (redis_hash (issued_refresh w))
    (admin_record admin ip ua mfa w))); [done | by apply equiv_same |].
  intros k s He Hk <-. by apply He.
Qed.

Lemma engine_call_admitted (w w' : World S U) (ev : EngineEvent) :
  ready (w_store w) -> engine_call w ev w' ->
  ready (w_store w') /\ admitted (stands_for (w_store w)) ev (stands_for (w_store w')).
Proof.
  intros Hr Hc. destruct Hc as [user ip ua mfa proof r w' Hrun|admin ip ua mfa r w' Hrun|raw ip ua r w' Hrun
    |raw ip ua r w' Hrun|k subject h r w' Hrun|k subject r w' Hrun|ms w' [Hr' Hs]].
  - by eapply issue_admitted.
  - by eapply issue_platform_admitted.
  - by eapply reissue_admitted.
  - by eapply reissue_platform_admitted.
  - pose proof (law_revoke (w_store w) k subject h Hr) as Hl. unfold on_store in Hrun.
    destruct (a_revoke k subject h (stands_for (w_store w))).1 eqn:Ho; destruct Hl as (s' & Hm & Hr' & Hs);
      rewrite Hm in Hrun; simplify_eq; cbn; (split; [done|]).
    + by eapply (admitted_one _ _ (OpRevoke k subject h)); [| apply equiv_same |].
    + by apply admitted_none, equiv_same.
  - destruct (law_revoke_all (w_store w) k subject Hr) as (s' & Hm & Hr' & Hs). unfold on_store in Hrun.
    rewrite Hm in Hrun. simplify_eq. cbn. split; [done|].
    by eapply (admitted_one _ _ (OpRevokeAll k subject)); [| apply equiv_same |].
  - split; [done|]. by eapply (admitted_one _ _ (OpAdvance ms)); [| apply equiv_same |].
Qed.

Lemma engine_life_sound (w w' : World S U) (evs : list EngineEvent) :
  ready (w_store w) -> sound owner ttl (stands_for (w_store w)) -> engine_life w evs w' ->
  ready (w_store w') /\ sound owner ttl (stands_for (w_store w')).
Proof.
  intros Hr Hs Hl. revert Hr Hs. induction Hl as [w|w ev w1 evs w' Hc Hl IH]; intros Hr Hs; [done|].
  destruct (engine_call_admitted w w1 ev Hr Hc) as (Hr1 & ops & Hst & _). apply IH; [done|]. by eapply steps_sound.
Qed.

Lemma engine_life_signed_out (w w' : World S U) (evs : list EngineEvent) (k : SessionKind) (subject : string) :
  ready (w_store w) -> engine_life w evs w' -> Forall (other_account k subject) evs ->
  signed_out owner (stands_for (w_store w)) k subject ->
  ready (w_store w') /\ signed_out owner (stands_for (w_store w')) k subject.
Proof.
  intros Hr Hl. revert Hr. induction Hl as [w|w ev w1 evs w' Hc Hl IH]; intros Hr Hall Hout; [done|].
  apply Forall_cons_1 in Hall as [He Hall]. destruct (engine_call_admitted w w1 ev Hr Hc) as (Hr1 & ops & Hst & Hno).
  apply IH; [done | done |]. eapply signed_out_steps; [exact Hst | by apply Hno | done].
Qed.

End life.

(** C1. Sign out everywhere, for the whole engine: once the store has answered
    [revoke_all] for an account, then whatever token-manager calls, revocations
    and delays follow, on either plane and for any accounts, short of a new
    sign-in of that account, no refresh token is exchanged for an access token
    of that account, not even one inside its grace window. *)
Theorem engine_sign_out_everywhere `{CryptoLaws, Host, Base64, HeaderJson}
    `{ClaimsJson DashboardClaims, ClaimsJson PlatformClaims, ClaimsJson MfaTempClaims}
    {S U : Type} `{SessionStoreLaws S} `{MfaStore S} (tm : TokenManagerService)
    (w0 w1 w2 w3 w4 : World S U) (before after : list EngineEvent) (subject raw ip ua : string) (tokens : RotatedTokens) :
  serviceable (S:=S) tm -> tm_grace_ttl_secs tm <= tm_refresh_ttl_secs tm ->
  ready (w_store w0) -> stands_for (w_store w0) ≡ a_empty (a_now (stands_for (w_store w0))) ->
  engine_life tm w0 before w1 ->
  on_store (revoke_all SkDashboard subject) w1 = (Ok tt, w2) ->
  engine_life tm w2 after w3 -> Forall (other_account SkDashboard subject) after ->
  reissue_tokens tm raw ip ua w3 = (Ok tokens, w4) ->
  exists claims, sign (stamp tm claims) (tm_key tm) = Ok (rt_access_token tokens) /\
    subject_hash tm SkDashboard (Some (dc_tenant_id claims)) (dc_sub claims) <> subject.
Proof.
  intros Hsv Hgrace Hr0 Hempty Hbefore Hrev Hafter Hno Hrun.
  destruct (engine_life_sound tm Hsv Hgrace w0 w1 before Hr0) as [Hr1 Hs1]; [|done|].
  { eapply sound_equiv; [symmetry; apply equiv_same; exact Hempty | by split]. }
  destruct (law_revoke_all (w_store w1) SkDashboard subject Hr1) as (s2 & Hm & Hr2 & Hs2).
  unfold on_store in Hrev. rewrite Hm in Hrev. injection Hrev as <-.
  destruct (engine_life_signed_out tm Hsv Hgrace (with_store s2 w1) w3 after SkDashboard subject Hr2 Hafter Hno) as [Hr3 [Hlive [Hgr _]]].
  { cbn. eapply signed_out_equiv; [symmetry; apply equiv_same; exact Hs2|]. by eapply revoke_all_signs_out. }
  assert (Hrec : forall rec, presents SkDashboard (redis_hash raw) (stands_for (w_store w3)) rec -> tm_owner tm SkDashboard rec <> subject).
  { intros rec [[t Hl]|(_ & s & t & Hg & _)]; [by eapply Hlive | by eapply Hgr]. }
  assert (Hfin : forall rec a refresh now, presents SkDashboard (redis_hash raw) (stands_for (w_store w3)) rec ->
    names_a_tenant rec = true -> signed_for tm (inherited SkDashboard rec ip ua now) a tokens refresh ->
    exists claims, sign (stamp tm claims) (tm_key tm) = Ok (rt_access_token tokens) /\
      subject_hash tm SkDashboard (Some (dc_tenant_id claims)) (dc_sub claims) <> subject).
  { intros rec a refresh now Hp Hn Hsig. destruct (signed_claims tm rec a tokens refresh ip ua now Hn Hsig) as (claims & Htok & Hcl & _).
    exists claims. split; [done|]. injection Hcl as Hsub Hten _ _ _. rewrite Hsub, Hten. by apply Hrec. }
  pose proof (reissue_run tm Hsv raw ip ua w3 w4 _ Hr3 Hrun) as Hc. cbv zeta in Hc.
  destruct Hc as [(? & _)|[Hrot|[Hrecov|[(f & a1 & _ & _ & ? & _)|(a1 & _ & _ & ? & _)]]]]; try done.
  - destruct Hrot as (rec & now & tk & [t Hl] & Hn & _ & [= <-] & _ & Hsig). eapply Hfin; [by left; eauto | done | done].
  - destruct Hrecov as (rec & a1 & Hl & Hd & i & _ & Hq). apply dead_rotate_grace in Hd as [Hp _]; [|done].
    destruct (names_a_tenant rec) eqn:Hn; cbn [andb] in Hq; [|by destruct Hq as (? & _)].
    destruct (negb _); [|by destruct Hq as (? & _)]. destruct Hq as (now' & fresh & Hq).
    destruct (recovery _ _ _ _ _ _ _) as [[] a2]; [|by destruct Hq as (? & _)].
    destruct Hq as (_ & _ & tk & [= <-] & Hsig). by eapply Hfin.
Qed.
