(* ===== verification/AccessClaims.v ===== *)
(** * Serving and ending access tokens, and the MFA challenge token *)

From S2P Require Import Prelude Errors Types Crypto Jwt Redis RedisSession SessionSpec RedisRefine RefineRevoke SessionStore MfaStore Engine TokenManager TokenVerify.

(** C26. An access token is served exactly when it verifies under the configured
    keys, its id is not denylisted and it is not stamped below its account's
    epoch; any other token is refused, and checking one changes no session. *)
Theorem access_token_served_iff `{Crypto, Host, Base64, HeaderJson}
    `{ClaimsJson DashboardClaims, ClaimsJson PlatformClaims, ClaimsJson MfaTempClaims}
    {S U : Type} `{SessionStoreLaws S} `{MfaStore S} (tm : TokenManagerService)
    (token : string) (w w' : World S U) (r : result AuthError DashboardClaims) :
  ready (w_store w) -> verify_access tm token w = (r, w') ->
  ready (w_store w') /\ stands_for (w_store w') ≡ stands_for (w_store w) /\
  forall claims, r = Ok claims <->
    rotating_claims tm token w = Ok claims /\
    a_is_blacklisted (dc_jti claims) (stands_for (w_store w)) = false /\
    a_current_epoch SkDashboard (subject_hash tm SkDashboard (Some (dc_tenant_id claims)) (dc_sub claims))
      (stands_for (w_store w)) <= dc_epoch claims.
Proof.
  intros Hr Hrun. assert (Hw : at_state w (stands_for (w_store w))) by done.
  destruct (ewp_run _ _ _ _ _ (verify_access_ewp tm token w _ Hw) Hrun) as [[Hr' Hs'] ->].
  split; [done|]. split; [done|]. intros claims.
  destruct (rotating_claims tm token w) as [c|e]; [|split; [done | by intros (? & _)]].
  destruct (a_is_blacklisted (dc_jti c) (stands_for (w_store w))) eqn:Hb; cbn [orb].
  - split; [done|]. intros ([= <-] & Hnb & _). congruence.
  - case_bool_decide as He.
    + split; [done|]. intros ([= <-] & _ & Hle). lia.
    + split; [intros [= <-]; split_and!; [done..|lia] | by intros ([= <-] & _)].
Qed.

(** Advancing an account's epoch ends its access tokens: once [bump_epoch] has
    answered for an account, every access token of that account stamped with an
    epoch no newer than the one in force before is refused as revoked, at any
    time within the retention of the epoch (thirty days), whichever of the
    configured keys it verifies under. *)
Theorem bumped_epoch_ends_access `{Crypto, Host, Base64, HeaderJson, SessionJsonLaws}
    `{ClaimsJson DashboardClaims, ClaimsJson PlatformClaims, ClaimsJson MfaTempClaims}
    {U : Type} (ns : string) (tm : TokenManagerService) (subject : string) (r r1 : Redis) (n ms : Z)
    (token : string) (claims : DashboardClaims) (w : World Redis U) :
  wf ns r -> r_pool r = [] -> a_current_epoch SkDashboard subject (abs ns r) < i64_max ->
  served (bump_epoch_inner ns SkDashboard subject) r = (Ok n, r1) ->
  0 <= ms <= TOKEN_EPOCH_RETENTION_SECS * 1000 -> w_store w = advance ms r1 ->
  rotating_claims tm token w = Ok claims ->
  subject_hash tm SkDashboard (Some (dc_tenant_id claims)) (dc_sub claims) = subject ->
  dc_epoch claims <= a_current_epoch SkDashboard subject (abs ns r) ->
  (@verify_access _ _ _ _ _ Redis U (redis_session_store ns) tm token w).1 = Err TokenRevoked.
Proof.
  intros Hwf Hp Hmax Hbump Hms Hst Hcl Hsub Hep.
  destruct (yields_answers ns _ r _ _ Hp (bump_epoch_yields ns r SkDashboard subject Hwf Hp Hmax)) as (r1' & Hr1 & [Hwf1 Hp1] & Hs1).
  rewrite Hbump in Hr1. injection Hr1 as _ <-. cbn [stands_for redis_view] in Hs1.
  destruct (advance_refines ns ms r1 Hwf1) as [Hwf2 Hs2].
  assert (Hw : @at_state Redis U (redis_view ns) w (a_advance ms (abs ns r1))).
  { split; rewrite Hst; [by split | done]. }
  destruct (@verify_access_ewp _ _ _ _ _ Redis U (redis_session_store ns) (redis_view ns) (redis_session_store_laws ns)
              tm token w _ Hw) as [_ Hres].
  rewrite Hres, Hcl, Hsub. destruct (a_is_blacklisted _ _); [done|]. cbn [orb].
  rewrite bool_decide_eq_true_2; [done|]. unfold a_current_epoch at 1, a_advance. cbn [a_epoch a_now].
  rewrite (eqv_epoch _ _ Hs1), (eqv_now _ _ Hs1). cbn -[abs]. rewrite upd_at, decide_True by done. unfold survives, until. cbn [a_now abs].
  rewrite bool_decide_eq_false_2 by lia. lia.
Qed.

(** ** The MFA challenge token *)

Section challenge.
Context `{Crypto, Host, Base64Laws, HeaderJsonLaws}.
Context `{ClaimsJson DashboardClaims, ClaimsJson PlatformClaims, ClaimsJsonLaws MfaTempClaims}.
Context {S U : Type} `{SessionStoreLaws S} `{MfaStore S, MfaView S, !MfaStoreLaws S}.
Context (tm : TokenManagerService).

Lemma ewp_marks {A} (m : M S AuthError A) (Q : result AuthError A -> World S U -> Prop) (w : World S U) (a : AStore)
    (x : A) (markers : string -> option string) :
  at_state w a -> marks m (w_store w) x markers ->
  (forall s', at_state (with_store s' w) a -> (forall j, temp_marker s' j = markers j) -> Q (Ok x) (with_store s' w)) ->
  ewp (on_store m) Q w.
Proof.
  intros [Hr Hs] (s' & Hm & Hr' & Hs' & Hj) HQ. eapply ewp_store; [exact Hm|]. apply HQ; [|done]. split; [done|].
  cbn. by rewrite Hs'.
Qed.

Definition challenge_subject (context : MfaContext) (tenant_id : option string) (user_id : string) : string :=
  subject_hash tm (session_kind context) tenant_id user_id.

Definition challenge_claims (user_id : string) (context : MfaContext) (tenant_id : option string) (w : World S U) (a : AStore) :
    MfaTempClaims :=
  let now := unix_timestamp (clock (w_reads w)) in {|
  mc_sub := user_id; mc_jti := new_uuid_v4 (w_draws w); mc_context := context; mc_tenant_id := tenant_id;
  mc_epoch := a_current_epoch (session_kind context) (challenge_subject context tenant_id user_id) a;
  mc_iat := now; mc_exp := sat_add now MFA_TEMP_TOKEN_TTL_SECONDS; mc_iss := None; mc_aud := None |}.

Lemma issue_mfa_ewp (user_id : string) (context : MfaContext) (tenant_id : option string) (w : World S U) (a : AStore) :
  serviceable (S:=S) tm -> tm_mfa tm = true -> plane_tenant_is_well_formed context tenant_id = true -> at_state w a ->
  let claims := challenge_claims user_id context tenant_id w a in
  ewp (issue_mfa_temp_token tm user_id context tenant_id)
    (fun r w' => exists token, r = Ok token /\ sign (stamp tm claims) (tm_key tm) = Ok token /\ at_state w' a /\
       temp_marker (w_store w') (jti_hash (mc_jti claims)) = Some user_id) w.
Proof.
  intros Hsv Hm Hwf Hw claims. unfold issue_mfa_temp_token. rewrite Hwf. cbn [negb]. estep. estep. estep.
  unfold build_mfa_temp_token. do 2 estep. do 2 estep. do 2 estep.
  destruct (sign_total (stamp tm claims) (tm_key tm) (sv_mfa tm Hsv _)) as [token Htok].
  change (sign _ (tm_key tm)) with (sign (stamp tm claims) (tm_key tm)). rewrite Htok. cbn [map_err]. estep.
  estep. rewrite Hm. eapply (ewp_marks _ _ _ a); [at_here | apply law_put_temp; [|done] |].
  { match goal with Hs : at_state (with_store ?s _) a |- _ => by destruct Hs end. }
  intros s2 Hw2 Hj. cbv beta iota. estep. exists token. split_and!; [done | done | at_here |].
  cbn. rewrite Hj. unfold upd1. by rewrite decide_True.
Qed.

Lemma verify_mfa_ewp (token : string) (w : World S U) (a : AStore) :
  tm_mfa tm = true -> at_state w a ->
  ewp (verify_mfa_temp_token tm token)
    (fun r w' => at_state w' a /\
       r = match rotating_claims tm token w with
           | Err _ => Err MfaTempTokenInvalid
           | Ok c =>
               if bool_decide (temp_marker (w_store w) (jti_hash (mc_jti c)) = Some (mc_sub c)) &&
                  bool_decide (a_current_epoch (session_kind (mc_context c))
                                 (challenge_subject (mc_context c) (mc_tenant_id c) (mc_sub c)) a <= mc_epoch c) &&
                  plane_tenant_is_well_formed (mc_context c) (mc_tenant_id c)
               then Ok {| mv_user_id := mc_sub c; mv_context := mc_context c; mv_tenant_id := mc_tenant_id c; mv_jti := mc_jti c |}
               else Err MfaTempTokenInvalid
           end) w.
Proof.
  intros Hm Hw. unfold verify_mfa_temp_token. estep.
  destruct (verify_rotating_with_spec (C:=MfaTempClaims) tm token default_options w) as (r & w1 & Hrun & Hst & _).
  unfold rotating_claims, verify_rotating, ewp at 1. rewrite Hrun. cbn [fst snd].
  assert (Hw1 : at_state w1 a) by (unfold at_state; by rewrite Hst).
  destruct r as [c|e]; estep; estep; cbn [map_err]; [|done]. rewrite Hm. cbn [negb]. estep.
  eapply (ewp_marks _ _ _ a); [exact Hw1 | apply law_get_temp; by destruct Hw1 |]. rewrite Hst.
  intros s2 Hw2 Hj. cbv beta iota. destruct (temp_marker (w_store w) (jti_hash (mc_jti c))) as [u|]; [|by estep].
  unfold constant_time_eq. destruct (decide (u = mc_sub c)) as [->|Hne].
  2: { rewrite (bool_decide_eq_false_2 (u = _)) by done. rewrite (bool_decide_eq_false_2 (Some u = _)) by congruence.
       cbn [negb andb]. by estep. }
  rewrite (bool_decide_eq_true_2 (mc_sub c = _)), (bool_decide_eq_true_2 (Some _ = _)) by done.
  cbn [negb andb]. estep. estep. unfold challenge_subject.
  case_bool_decide as He.
  - rewrite (bool_decide_eq_false_2 (_ <= mc_epoch c)) by lia. by estep.
  - rewrite (bool_decide_eq_true_2 (_ <= mc_epoch c)) by lia. cbn [andb].
    destruct (plane_tenant_is_well_formed _ _); cbn [negb]; by estep.
Qed.

End challenge.

(** The MFA challenge token round trips and is redeemed once: for a plane
    and tenant that belong together, issuing one succeeds, leaves a marker, and
    inside its window the token verifies, repeatedly, to exactly the user, plane
    and tenant it was issued for; consuming it answers true, and afterwards the
    token never verifies again.  For a plane and tenant that do not belong
    together, issuing is refused and nothing is written. *)
Theorem mfa_challenge_round_trip `{Crypto, Host, Base64Laws, HeaderJsonLaws}
    `{ClaimsJson DashboardClaims, ClaimsJson PlatformClaims, ClaimsJsonLaws MfaTempClaims}
    {S U : Type} `{SessionStoreLaws S} `{MfaStore S, MfaView S, !MfaStoreLaws S} (tm : TokenManagerService)
    (user_id : string) (context : MfaContext) (tenant_id : option string) (w : World S U) :
  serviceable (S:=S) tm -> tm_mfa tm = true -> ready (w_store w) ->
  if plane_tenant_is_well_formed context tenant_id then
    exists token claims w', issue_mfa_temp_token tm user_id context tenant_id w = (Ok token, w') /\
      (forall w2 : World S U, w_store w2 = w_store w' ->
         timely claims (bound_options tm default_options) (clock (w_reads w2)) ->
         (verify_mfa_temp_token tm token w2).1 =
           Ok {| mv_user_id := user_id; mv_context := context; mv_tenant_id := tenant_id; mv_jti := mc_jti claims |}) /\
      (forall w2 w3 w4 : World S U, w_store w2 = w_store w' -> forall r, consume_mfa_temp_token tm (mc_jti claims) w2 = (r, w3) ->
         r = Ok true /\ (w_store w4 = w_store w3 -> (verify_mfa_temp_token tm token w4).1 = Err MfaTempTokenInvalid))
  else issue_mfa_temp_token tm user_id context tenant_id w = (Err tenant_field_error, w).
Proof.
  intros Hsv Hm Hr. destruct (plane_tenant_is_well_formed context tenant_id) eqn:Hwf.
  2: { unfold issue_mfa_temp_token. by rewrite Hwf. }
  assert (Hw : at_state w (stands_for (w_store w))) by done.
  pose proof (issue_mfa_ewp tm user_id context tenant_id w _ Hsv Hm Hwf Hw) as Hi. unfold ewp in Hi.
  set (claims := challenge_claims tm user_id context tenant_id w (stands_for (w_store w))) in *.
  destruct (issue_mfa_temp_token tm user_id context tenant_id w) as [r w'] eqn:Hrun. cbn [fst snd] in Hi.
  destruct Hi as (token & -> & Htok & Hw' & Hmark).
  exists token, (stamp tm claims), w'. split; [done|]. split.
  - intros w2 Hst Ht. assert (Hw2 : at_state w2 (stands_for (w_store w))) by (unfold at_state; by rewrite Hst).
    destruct (verify_mfa_ewp tm token w2 _ Hm Hw2) as [_ ->].
    rewrite (proj1 (rotating_claims_signed tm claims token w2 Htok) Ht), Hst. cbn -[bool_decide] in *.
    rewrite Hmark, Hwf. rewrite !bool_decide_eq_true_2 by (done || exact (Z.le_refl _)). done.
  - intros w2 w3 w4 Hst r Hcons. unfold consume_mfa_temp_token in Hcons. rewrite Hm in Hcons. cbn [negb] in Hcons.
    assert (Hr2 : ready (w_store w2)) by (rewrite Hst; by destruct Hw').
    destruct (law_del_temp (w_store w2) (jti_hash (mc_jti (stamp tm claims))) Hr2) as (s3 & Hdel & Hr3 & Hs3 & Hj).
    unfold on_store in Hcons. rewrite Hdel in Hcons. injection Hcons as <- <-. rewrite Hst.
    change (mc_jti claims) with (new_uuid_v4 (w_draws w)) in Hmark. rewrite Hmark. split; [done|]. intros Hst4.
    assert (Hw4 : at_state w4 (stands_for s3)) by (unfold at_state; by rewrite Hst4).
    destruct (verify_mfa_ewp tm token w4 _ Hm Hw4) as [_ ->].
    destruct (rotating_claims tm token w4) as [c|e] eqn:Hc; [|done].
    apply (proj2 (rotating_claims_signed tm claims token w4 Htok)) in Hc as ->. rewrite Hst4. cbn -[bool_decide temp_marker].
    rewrite Hj. unfold upd1. rewrite decide_True by done.
    by rewrite bool_decide_eq_false_2.
Qed.
