(* ===== verification/Sessions.v ===== *)
(** * Session management

    Models [crates/bymax-auth-core/src/services/session.rs]: the concurrent
    session cap with FIFO eviction, listing, ownership-checked revocation,
    "sign out my other devices" and the detail rotation.  The user repository
    and the per-user limit resolver are the host application's. *)

From S2P Require Import Prelude Errors Types Crypto SessionSpec SessionStore Engine Repository.
From Stdlib Require Import Sorting.Permutation Sorting.Sorted.

(** The fields the service reads; the resolver is the host's. *)
Record SessionConfig : Type := {
  sc_default_max_sessions : Z;
  sc_max_sessions_resolver : option (AuthUser -> Z);
}.

(** ** [sort_by_key]: a stable sort *)

Section sort.
Context {A : Type} (le : A -> A -> bool).

Fixpoint insert_sorted (x : A) (xs : list A) : list A :=
  match xs with
  | [] => [x]
  | y :: ys => if le x y then x :: xs else y :: insert_sorted x ys
  end.

Definition stable_sort (xs : list A) : list A := foldr insert_sorted [] xs.

Lemma insert_sorted_perm (x : A) (xs : list A) : Permutation (insert_sorted x xs) (x :: xs).
Proof.
  induction xs as [|y ys IH]; [done|]. cbn. case_match; [done|]. rewrite IH. constructor.
Qed.

Lemma stable_sort_perm (xs : list A) : Permutation (stable_sort xs) xs.
Proof. induction xs as [|x xs IH]; [done|]. cbn. by rewrite insert_sorted_perm, IH. Qed.

Context (le_total : forall x y, le x y = false -> le y x = true).
Context (le_trans : forall x y z, le x y = true -> le y z = true -> le x z = true).

Lemma insert_sorted_sorted (x : A) (xs : list A) :
  StronglySorted (fun a b => le a b = true) xs -> StronglySorted (fun a b => le a b = true) (insert_sorted x xs).
Proof.
  induction 1 as [|y ys Hys IH Hall]; [by repeat constructor|]. cbn. destruct (le x y) eqn:E.
  - constructor; [by constructor|]. constructor; [done|]. eapply Forall_impl; [|exact Hall]. eauto.
  - constructor; [done|]. apply List.Forall_forall. intros z Hz.
    apply (Permutation_in _ (insert_sorted_perm x ys)) in Hz as [<-|Hz]; [by apply le_total|].
    by apply (proj1 (List.Forall_forall _ _) Hall).
Qed.

Lemma stable_sort_sorted (xs : list A) : StronglySorted (fun a b => le a b = true) (stable_sort xs).
Proof. induction xs as [|x xs IH]; [constructor|]. cbn. by apply insert_sorted_sorted. Qed.

End sort.

(** Oldest first; no readable detail sorts before every creation time. *)
Definition entry_key (e : SessionEntry) : option Z := sd_created_at <$> se_detail e.

Definition key_le (x y : option Z) : bool :=
  match x, y with
  | None, _ => true
  | Some _, None => false
  | Some a, Some b => bool_decide (a <= b)
  end.

Definition older (x y : SessionEntry) : bool := key_le (entry_key x) (entry_key y).

(** Newest first. *)
Definition newer (x y : SessionDetail) : bool := bool_decide (sd_created_at y <= sd_created_at x).

Lemma older_total x y : older x y = false -> older y x = true.
Proof. unfold older, key_le. repeat case_match; try done. rewrite bool_decide_eq_false, bool_decide_eq_true. lia. Qed.

Lemma older_trans x y z : older x y = true -> older y z = true -> older x z = true.
Proof. unfold older, key_le. repeat case_match; try done. rewrite !bool_decide_eq_true. lia. Qed.

(** ** Display *)

Record SessionInfo : Set := {
  si_id : string;
  si_session_hash : string;
  si_device : string;
  si_ip : string;
  si_is_current : bool;
  si_created_at : OffsetDateTime;
  si_last_activity_at : OffsetDateTime;
}.

Definition to_info (detail : SessionDetail) (current : string) : SessionInfo := {|
  si_id := short_hash (sd_session_hash detail);
  si_session_hash := sd_session_hash detail;
  si_device := sd_device detail;
  si_ip := sd_ip detail;
  si_is_current := constant_time_eq (sd_session_hash detail) current;
  si_created_at := sd_created_at detail;
  si_last_activity_at := sd_last_activity_at detail;
|}.

(** ** Eviction *)

Definition u32_max_1 (limit : Z) : Z := Z.max limit 1.

(** The sessions the cap evicts: the oldest [over], the new one excluded. *)
Definition victims_of (limit : Z) (new_hash : string) (sessions : list SessionEntry) : list SessionEntry :=
  let sessions := stable_sort older sessions in
  let over := (length sessions - Z.to_nat (u32_max_1 limit))%nat in
  take over (List.filter (fun entry => negb (constant_time_eq (se_session_hash entry) new_hash)) sessions).

Record SessionServiceCfg : Type := {
  ss_config : SessionConfig;
  ss_refresh_ttl_secs : Z;
  ss_identifier_key : string;
}.

Module SessionService.
Section service.
Context `{Crypto} {S U : Type} `{SessionStore S, UserRepository U} (svc : SessionServiceCfg).

Abbreviation Eng := (E S U).

Definition subject (tenant_id : option string) (user_id : string) : string :=
  session_subject_hash (ss_identifier_key svc) SkDashboard tenant_id user_id.

Definition resolve_session_limit (tenant_id : option string) (user_id : string) : Eng Z :=
  match sc_max_sessions_resolver (ss_config svc) with
  | None => mret (sc_default_max_sessions (ss_config svc))
  | Some resolver =>
      found ← on_users (repo_find_by_id user_id tenant_id);
      mret (match found with
            | Ok (Some user) => resolver user
            | _ => sc_default_max_sessions (ss_config svc)
            end)
  end.

Definition fire_session_evicted (user_id evicted_hash : string) (ctx : HookContext) : Eng unit :=
  spawn_hook (OnSessionEvicted user_id evicted_hash ctx).

(** The eviction loop: a refused revocation is swallowed, the hook fires anyway. *)
Fixpoint evict (subject user_id : string) (ctx : HookContext) (victims : list SessionEntry) : Eng unit :=
  match victims with
  | [] => mret tt
  | victim :: rest =>
      _ ← attempt (on_store (SessionStore.revoke_session SkDashboard subject (se_session_hash victim)));
      _ ← fire_session_evicted user_id (se_session_hash victim) ctx;
      evict subject user_id ctx rest
  end.

Definition enforce_session_limit (record : SessionRecord) (new_hash : string) (ctx : HookContext) : Eng unit :=
  let user_id := sr_user_id record in
  let subject := subject (sr_tenant_id record) user_id in
  listed ← attempt (on_store (SessionStore.list_session_entries SkDashboard subject));
  match listed with
  | Err _ => mret tt
  | Ok sessions =>
      limit ← resolve_session_limit (sr_tenant_id record) user_id;
      evict subject user_id ctx (victims_of limit new_hash sessions)
  end.

Definition fire_new_session (record : SessionRecord) (new_hash : string) (ctx : HookContext) : Eng unit :=
  found ← on_users (repo_find_by_id (sr_user_id record) (sr_tenant_id record));
  match found with
  | Ok (Some user) =>
      spawn_hook (OnNewSession (safe_user user)
        {| hs_device := sr_device record; hs_ip := sr_ip record; hs_session_hash := short_hash new_hash |} ctx)
  | _ => mret tt
  end.

Definition after_session_created (record : SessionRecord) (new_hash : string) (ctx : HookContext) : Eng unit :=
  _ ← enforce_session_limit record new_hash ctx;
  _ ← fire_new_session record new_hash ctx;
  mret tt.

Definition list_sessions (tenant_id user_id : string) (current_hash : option string) : Eng (list SessionInfo) :=
  let current := default "" current_hash in
  sessions ← on_store (SessionStore.list_sessions SkDashboard (subject (Some tenant_id) user_id));
  mret ((fun detail => to_info detail current) <$> stable_sort newer sessions).

Definition revoke_session (tenant_id user_id session_hash : string) : Eng unit :=
  if negb (is_session_hash session_hash) then throw SessionNotFound else
  on_store (SessionStore.revoke_session SkDashboard (subject (Some tenant_id) user_id) session_hash).

Definition names (entries : list SessionEntry) (hash : string) : bool :=
  existsb (fun entry => constant_time_eq (se_session_hash entry) hash) entries.

Definition resolve_live_session (tenant_id user_id presented_hash : string) : Eng string :=
  if negb (is_session_hash presented_hash) then throw SessionNotFound else
  let subject := subject (Some tenant_id) user_id in
  entries ← on_store (SessionStore.list_session_entries SkDashboard subject);
  if names entries presented_hash then mret presented_hash else
  successor ← on_store (SessionStore.grace_successor SkDashboard presented_hash);
  match successor with
  | Some successor => if names entries successor then mret successor else throw SessionNotFound
  | None => throw SessionNotFound
  end.

(** The loop of [revoke_all_except_current]: a session already gone is fine, any
    other failure stops it. *)
Fixpoint revoke_others (subject current_hash : string) (sessions : list SessionEntry) : Eng unit :=
  match sessions with
  | [] => mret tt
  | entry :: rest =>
      if constant_time_eq (se_session_hash entry) current_hash then revoke_others subject current_hash rest else
      revoked ← attempt (on_store (SessionStore.revoke_session SkDashboard subject (se_session_hash entry)));
      match revoked with
      | Ok _ | Err SessionNotFound => revoke_others subject current_hash rest
      | Err other => throw other
      end
  end.

Definition revoke_all_except_current (tenant_id user_id current_hash : string) : Eng unit :=
  kept ← resolve_live_session tenant_id user_id current_hash;
  let subject := subject (Some tenant_id) user_id in
  sessions ← on_store (SessionStore.list_session_entries SkDashboard subject);
  _ ← revoke_others subject kept sessions;
  _ ← on_store (SessionStore.sweep_grace_pointers SkDashboard subject);
  _ ← on_store (SessionStore.bump_epoch SkDashboard subject);
  mret tt.

Definition rotate_session (old_hash new_hash : string) (record : SessionRecord) : Eng unit :=
  if negb (is_session_hash old_hash) || negb (is_session_hash new_hash) then throw SessionNotFound else
  if constant_time_eq old_hash new_hash then mret tt else
  _ ← on_store (SessionStore.rotate SkDashboard {|
    ro_old_hash := old_hash; ro_new_hash := new_hash; ro_new_raw := ""; ro_new_record := record;
    ro_subject_hash := subject (sr_tenant_id record) (sr_user_id record);
    ro_refresh_ttl := ss_refresh_ttl_secs svc; ro_grace_ttl := 0 |});
  mret tt.

End service.
End SessionService.
