(* ===== verification/SessionClaims.v ===== *)
(** * What session management guarantees *)

From S2P Require Import Prelude Errors Types Crypto Redis RedisSession SessionSpec RedisRefine RefineRevoke SessionStore Lineage MfaStore Engine Repository Sessions.
From Stdlib Require Import Sorting.Permutation Sorting.Sorted.

(** ** The choice of victims *)

Lemma strongly_sorted_filter {A} (R : A -> A -> Prop) (f : A -> bool) (xs : list A) :
  StronglySorted R xs -> StronglySorted R (List.filter f xs).
Proof.
  induction 1 as [|x xs Hs IH Hall]; [constructor|]. cbn. destruct (f x); [|done]. constructor; [done|].
  apply List.Forall_forall. intros y [Hy _]%List.filter_In. by apply (proj1 (List.Forall_forall _ _) Hall).
Qed.

Lemma strongly_sorted_take_drop {A} (R : A -> A -> Prop) (n : nat) (xs : list A) :
  StronglySorted R xs -> forall x y, List.In x (take n xs) -> List.In y (drop n xs) -> R x y.
Proof.
  revert n. induction xs as [|z xs IH]; intros [|n] Hs x y; cbn; try done. inversion_clear Hs as [|? ? Hs' Hall].
  intros [<-|Hx] Hy; [|by eapply IH]. apply (proj1 (List.Forall_forall _ _) Hall).
  rewrite <-(take_drop n xs). apply List.in_app_iff. by right.
Qed.

Definition hashes (es : list SessionEntry) : list string := se_session_hash <$> es.

Lemma others_length (new_hash : string) (es : list SessionEntry) :
  NoDup (hashes es) ->
  (length es <= Datatypes.S (length (List.filter (fun e => negb (constant_time_eq (se_session_hash e) new_hash)) es)))%nat.
Proof.
  intros Hnd. induction es as [|e es IH]; cbn -[constant_time_eq]; [lia|]. inversion_clear Hnd as [|? ? Hnin Hnd'].
  unfold constant_time_eq at 1. case_bool_decide as He; cbn -[constant_time_eq]; [|specialize (IH Hnd'); lia].
  apply le_n_S. clear IH Hnd'. induction es as [|e' es IH]; cbn -[constant_time_eq]; [lia|].
  cbn in Hnin. apply not_elem_of_cons in Hnin as [Hne Hnin]. unfold constant_time_eq at 1.
  rewrite bool_decide_eq_false_2 by congruence. cbn -[constant_time_eq]. specialize (IH Hnin). lia.
Qed.

(** Eviction takes exactly the excess over the cap, never the new session, and
    no survivor other than the new session is older than a victim. *)
Lemma victims_spec (limit : Z) (new_hash : string) (es : list SessionEntry) :
  NoDup (hashes es) ->
  let vs := victims_of limit new_hash es in
  length vs = (length es - Z.to_nat (Z.max limit 1))%nat /\
  (forall v, List.In v vs -> List.In v es /\ se_session_hash v <> new_hash) /\
  (forall v e, List.In v vs -> List.In e es -> ~ List.In e vs -> se_session_hash e <> new_hash -> older v e = true) /\
  exists rest, Permutation es (vs ++ rest).
Proof.
  intros Hnd. unfold victims_of, u32_max_1. cbv zeta.
  set (f := fun e : SessionEntry => negb (constant_time_eq (se_session_hash e) new_hash)).
  pose proof (stable_sort_perm older es) as Hp. pose proof (stable_sort_sorted older older_total older_trans es) as Hs.
  set (xs := stable_sort older es) in *. rewrite <-(Permutation_length Hp).
  assert (Hnd' : NoDup (hashes xs)) by (unfold hashes; rewrite Hp; done).
  pose proof (others_length new_hash xs Hnd') as Hlen. fold f in Hlen.
  set (over := (length xs - Z.to_nat (Z.max limit 1))%nat).
  split_and!.
  - rewrite length_take. lia.
  - intros v Hv. assert (Hvf : List.In v (List.filter f xs)) by (rewrite <-(take_drop over); apply List.in_app_iff; by left).
    apply List.filter_In in Hvf as [Hvx Hvn]. split; [by eapply Permutation_in|].
    unfold f, constant_time_eq in Hvn. rewrite negb_true_iff, bool_decide_eq_false in Hvn. done.
  - intros v e Hv He Hne Hnew. apply (strongly_sorted_take_drop (fun a b => older a b = true) over (List.filter f xs));
      [by apply strongly_sorted_filter | exact Hv |].
    assert (Hef : List.In e (List.filter f xs)).
    { apply List.filter_In. split; [by eapply Permutation_in; [symmetry|]|]. unfold f, constant_time_eq.
      by rewrite bool_decide_eq_false_2. }
    rewrite <-(take_drop over) in Hef. apply List.in_app_iff in Hef as [Hef|Hef]; [done | exact Hef].
  - exists (drop over (List.filter f xs) ++ List.filter (fun e => negb (f e)) xs). rewrite app_assoc, take_drop.
    rewrite <-Hp at 1. clear. induction xs as [|x xs IH]; [done|]. cbn. destruct (f x); cbn; [by constructor|].
    rewrite <-Permutation_middle. by constructor.
Qed.

(** ** Revoking a list of sessions *)

Definition a_evict (subject : string) (hs : list string) (a : AStore) : AStore :=
  foldl (fun a h => (a_revoke SkDashboard subject h a).2) a hs.

Lemma revoke_live (subject h : string) (a : AStore) (k : SessionKind) (h' : string) :
  a_live (a_revoke SkDashboard subject h a).2 k h' =
  if decide (k = SkDashboard /\ h' = h /\ live_member SkDashboard h ∈ members_of (a_index a SkDashboard subject))
  then None else a_live a k h'.
Proof.
  unfold a_revoke. case_bool_decide as Hm; cbn; unfold upd; repeat case_decide; naive_solver.
Qed.

Lemma revoke_index (subject h : string) (a : AStore) :
  members_of (a_index (a_revoke SkDashboard subject h a).2 SkDashboard subject) =
  members_of (a_index a SkDashboard subject) ∖ {[live_member SkDashboard h]}.
Proof.
  unfold a_revoke. case_bool_decide as Hm; cbn; [|set_solver]. rewrite upd_at, decide_True by done. apply members_drop.
Qed.

Lemma evict_live (subject : string) (hs : list string) (a : AStore) (k : SessionKind) (h : string) :
  a_live (a_evict subject hs a) k h =
  if decide (k = SkDashboard /\ h ∈ hs /\ live_member SkDashboard h ∈ members_of (a_index a SkDashboard subject))
  then None else a_live a k h.
Proof.
  revert a. induction hs as [|h0 hs IH]; intros a; cbn [a_evict foldl].
  - case_decide as Hd; [|done]. destruct Hd as (_ & Hd & _). set_solver.
  - change (foldl _ _ hs) with (a_evict subject hs (a_revoke SkDashboard subject h0 a).2).
    rewrite IH, revoke_live, revoke_index. destruct (decide (h = h0)) as [->|Hne].
    + repeat case_decide; try done; set_solver.
    + assert (live_member SkDashboard h <> live_member SkDashboard h0) by by apply live_member_ne.
      repeat case_decide; try done; set_solver.
Qed.

Lemma evict_index (subject : string) (hs : list string) (a : AStore) (x : string) :
  x ∈ members_of (a_index (a_evict subject hs a) SkDashboard subject) <->
  x ∈ members_of (a_index a SkDashboard subject) /\ x ∉ (live_member SkDashboard <$> hs).
Proof.
  revert a. induction hs as [|h0 hs IH]; intros a; cbn [a_evict foldl]; [set_solver|].
  change (foldl _ _ hs) with (a_evict subject hs (a_revoke SkDashboard subject h0 a).2).
  rewrite IH, revoke_index. set_solver.
Qed.

Lemma evict_frame (subject : string) (hs : list string) (a : AStore) :
  (forall k h, a_grace (a_evict subject hs a) k h = a_grace a k h) /\
  (forall k s, a_epoch (a_evict subject hs a) k s = a_epoch a k s) /\ a_now (a_evict subject hs a) = a_now a.
Proof.
  revert a. induction hs as [|h0 hs IH]; intros a; cbn [a_evict foldl]; [done|].
  change (foldl _ _ hs) with (a_evict subject hs (a_revoke SkDashboard subject h0 a).2).
  destruct (IH (a_revoke SkDashboard subject h0 a).2) as (Hg & He & Hn). unfold a_revoke in *.
  split_and!; intros; rewrite ?Hg, ?He, ?Hn; by case_match.
Qed.

(** ** Running the service *)

Lemma listing_equiv (k : SessionKind) (subject : string) (a b : AStore) (es : list SessionEntry) (a' : AStore) :
  a ≡ b -> listing k subject a es a' -> listing k subject b es a'.
Proof.
  intros E (Hnd & Hin & Hall & pruned & Hp & Ha'). pose proof E as [_ El Eg _ _ Ei _ _ _].
  split_and!; [done | intros e; rewrite <-Ei; apply Hin | intros h rec t; rewrite <-El, <-Ei; apply Hall |].
  exists pruned. split.
  - intros x Hx. destruct (Hp x Hx) as [h Hh]. exists h. by rewrite <-El, <-Eg.
  - rewrite Ha'. rewrite Ei. by apply set_index_proper.
Qed.

Section rules.
Context {S U : Type} `{SessionStoreLaws S}.

Lemma ewp_attempt {A} (m : E S U A) Q (w : World S U) :
  ewp m (fun r w' => Q (Ok r) w') w -> ewp (attempt m) Q w.
Proof. unfold ewp, attempt. by destruct (m w). Qed.

Lemma ewp_list_entries (w : World S U) (a : AStore) (k : SessionKind) (subject : string) Q :
  at_state w a ->
  (forall es a' s', listing k subject a es a' -> at_state (with_store s' w) a' -> Q (Ok es) (with_store s' w)) ->
  ewp (on_store (list_session_entries k subject)) Q w.
Proof.
  intros [Hr Hs] HQ. destruct (law_list_entries (w_store w) k subject Hr) as (es & s' & Hm & Hr' & Hl).
  eapply ewp_store; [exact Hm|]. eapply HQ; [by eapply listing_equiv|]. by split.
Qed.

Lemma ewp_revoke (w : World S U) (a : AStore) (k : SessionKind) (subject h : string) Q :
  at_state w a ->
  (forall r s', r = Ok tt \/ r = Err SessionNotFound -> at_state (with_store s' w) (a_revoke k subject h a).2 ->
     Q r (with_store s' w)) ->
  ewp (on_store (revoke_session k subject h)) Q w.
Proof.
  intros [Hr Hs] HQ. pose proof (law_revoke (w_store w) k subject h Hr) as Hl.
  destruct (a_revoke_equiv k subject h _ _ Hs) as [_ E2].
  destruct (a_revoke k subject h (stands_for (w_store w))).1 eqn:Ho; destruct Hl as (s' & Hm & Hr' & Hs').
  - eapply ewp_store; [exact Hm|]. apply HQ; [by left | split; [done|]]. by etrans.
  - eapply ewp_store; [exact Hm|]. apply HQ; [by right | split; [done|]]. cbn. rewrite Hs', <-E2.
    unfold a_revoke in Ho |- *. by case_match.
Qed.

Lemma ewp_grace_successor (w : World S U) (a : AStore) (k : SessionKind) (h : string) Q :
  at_state w a ->
  (forall s', at_state (with_store s' w) a -> Q (Ok (a_grace_successor k h a)) (with_store s' w)) ->
  ewp (on_store (grace_successor k h)) Q w.
Proof.
  intros [Hr Hs] HQ. rewrite <-(a_grace_successor_proper k h _ _ Hs) in HQ.
  eapply ewp_answers; [eapply answers_equiv; [exact Hs | by apply law_grace_successor] | exact HQ].
Qed.

End rules.

(** The cap in force, given what the repository answered. *)
Definition limit_of (svc : SessionServiceCfg) (found : result RepositoryError (option AuthUser)) : Z :=
  match sc_max_sessions_resolver (ss_config svc), found with
  | Some resolver, Ok (Some user) => resolver user
  | _, _ => sc_default_max_sessions (ss_config svc)
  end.

Section service.
Context `{Crypto} {S U : Type} `{SessionStoreLaws S, UserRepository U} (svc : SessionServiceCfg).

Lemma evict_ewp (subject user_id : string) (ctx : HookContext) (vs : list SessionEntry) (w : World S U) (a : AStore) :
  at_state w a ->
  ewp (SessionService.evict subject user_id ctx vs)
    (fun r w' => r = Ok tt /\ at_state w' (a_evict subject (hashes vs) a) /\
       w_hooks w' = w_hooks w ++ ((fun v => OnSessionEvicted user_id (se_session_hash v) ctx) <$> vs)) w.
Proof.
  revert w a. induction vs as [|v vs IH]; intros w a Hw; cbn [SessionService.evict].
  - estep. split_and!; [done | done | by rewrite app_nil_r].
  - estep. apply ewp_attempt. eapply ewp_revoke; [exact Hw|]. intros r s' _ Hw1. cbv beta iota. estep.
    unfold SessionService.fire_session_evicted. estep.
    eapply ewp_mono; [eapply IH; exact Hw1|]. intros r1 w' (-> & Hw' & Hh). split_and!; [done | done |].
    rewrite Hh. cbn. by rewrite <-app_assoc.
Qed.

Definition found_user (record : SessionRecord) (w : World S U) : result RepositoryError (option AuthUser) :=
  (repo_find_by_id (sr_user_id record) (sr_tenant_id record) (w_users w)).1.

Lemma resolve_limit_ewp (record : SessionRecord) (w : World S U) (a : AStore)
    (Q : result AuthError Z -> World S U -> Prop) :
  at_state w a ->
  (forall w', at_state w' a -> w_hooks w' = w_hooks w -> Q (Ok (limit_of svc (found_user record w))) w') ->
  ewp (SessionService.resolve_session_limit svc (sr_tenant_id record) (sr_user_id record)) Q w.
Proof.
  intros Hw HQ. unfold SessionService.resolve_session_limit, limit_of, found_user in *.
  destruct (sc_max_sessions_resolver (ss_config svc)) as [resolver|]; [|estep; by apply HQ].
  estep. unfold ewp, on_users. destruct (repo_find_by_id _ _ (w_users w)) as [found u]. cbn in HQ |- *.
  destruct found as [[user|]|e]; by apply HQ.
Qed.

(** The eviction a sign-in triggers, in terms of the listing it read. *)
Definition evicted (subject new_hash : string) (limit : Z) (a a' : AStore) (evictions : list string) : Prop :=
  exists es a1, listing SkDashboard subject a es a1 /\
    evictions = hashes (victims_of limit new_hash es) /\ a' = a_evict subject evictions a1.

Lemma enforce_ewp (record : SessionRecord) (new_hash : string) (ctx : HookContext) (w : World S U) (a : AStore) :
  at_state w a ->
  ewp (SessionService.enforce_session_limit svc record new_hash ctx)
    (fun r w' => r = Ok tt /\ exists a' hs, at_state w' a' /\
       evicted (SessionService.subject svc (sr_tenant_id record) (sr_user_id record)) new_hash
         (limit_of svc (found_user record w)) a a' hs /\
       w_hooks w' = w_hooks w ++ ((fun h => OnSessionEvicted (sr_user_id record) h ctx) <$> hs)) w.
Proof.
  intros Hw. unfold SessionService.enforce_session_limit. estep. apply ewp_attempt.
  eapply ewp_list_entries; [exact Hw|]. intros es a1 s' Hl Hw1. cbv beta iota. estep.
  eapply resolve_limit_ewp; [exact Hw1|]. intros w2 Hw2 Hh2. cbv beta iota.
  eapply ewp_mono; [apply evict_ewp; exact Hw2|]. intros r w' (-> & Hw' & Hh). split; [done|].
  do 2 eexists. split; [exact Hw'|]. split.
  - exists es, a1. split_and!; [done | done | done].
  - rewrite Hh, Hh2. unfold hashes. rewrite <-list_fmap_compose. done.
Qed.

End service.

(** ** The consequences *)

Lemma dead_live (k : SessionKind) (a : AStore) (h : string) : dead_member k a (live_member k h) -> a_live a k h = None.
Proof.
  intros [h' [[E Hl]|[E _]]]; [apply live_member_inj in E; by subst|]. symmetry in E. by destruct (grace_live_ne k h' h).
Qed.

Lemma listing_store (k : SessionKind) (subject : string) (a : AStore) (es : list SessionEntry) (a1 : AStore) :
  listing k subject a es a1 ->
  (forall k' h, a_live a1 k' h = a_live a k' h) /\ (forall k' h, a_grace a1 k' h = a_grace a k' h) /\
  (forall k' s, a_epoch a1 k' s = a_epoch a k' s) /\
  (forall x, x ∈ members_of (a_index a1 k subject) -> x ∈ members_of (a_index a k subject)) /\
  (forall h, live_member k h ∈ members_of (a_index a k subject) -> is_Some (a_live a k h) ->
     live_member k h ∈ members_of (a_index a1 k subject)).
Proof.
  intros (_ & _ & _ & pruned & Hp & Ha1). pose proof Ha1 as [_ El Eg _ _ Ei Ee _ _]. cbn in *.
  split_and!; intros *; rewrite ?El, ?Eg, ?Ee, ?Ei; try done; rewrite upd_at, decide_True, members_drops by done.
  - set_solver.
  - intros Hm [x Hx]. apply elem_of_difference. split; [done|]. intros Hd%Hp%dead_live. congruence.
Qed.

Lemma evicted_spec (subject new_hash : string) (limit : Z) (a a' : AStore) (hs : list string) :
  evicted subject new_hash limit a a' hs ->
  new_hash ∉ hs /\
  (forall k h, a_live a' k h = if decide (k = SkDashboard /\ h ∈ hs) then None else a_live a k h) /\
  (forall live, NoDup live ->
     (forall h, h ∈ live -> is_Some (a_live a' SkDashboard h) /\
        live_member SkDashboard h ∈ members_of (a_index a' SkDashboard subject)) ->
     (length live <= Z.to_nat (Z.max limit 1))%nat).
Proof.
  intros (es & a1 & Hl & -> & ->). pose proof Hl as (Hnd & Hin & Hall & _).
  destruct (victims_spec limit new_hash es Hnd) as (Hlen & Hvic & _ & rest & Hperm).
  destruct (listing_store _ _ _ _ _ Hl) as (El & _ & _ & Hsub & Hkeep).
  set (vs := victims_of limit new_hash es) in *. split_and!.
  - intros (v & Hv & Hvs)%list_elem_of_fmap. apply list_elem_of_In in Hvs. destruct (Hvic v Hvs) as [_ Hne]. by subst.
  - intros k h. rewrite evict_live, El. repeat case_decide; destruct_and?; try done; [naive_solver|]. subst k.
    destruct (a_live a SkDashboard h) as [x|] eqn:Hx; [exfalso | done].
    match goal with Hn : ~ _ |- _ => apply Hn end. split_and!; [done..|]. apply Hkeep; [|by rewrite Hx].
    match goal with Hh : h ∈ hashes vs |- _ => apply list_elem_of_fmap in Hh as (v & -> & Hv) end.
    apply Hin. apply list_elem_of_In in Hv. apply list_elem_of_In. by apply Hvic.
  - intros live Hndl Hlive.
    assert (Hincl : forall h, h ∈ live -> h ∈ hashes rest).
    { intros h Hh. destruct (Hlive h Hh) as [[[rec t] Hx] Hm]. rewrite evict_live, El in Hx.
      apply evict_index in Hm as [Hm Hnv]. case_decide; [done|].
      destruct (Hall h rec t Hx (Hsub _ Hm)) as (e & He & <-).
      assert (He' : e ∈ vs ++ rest) by by rewrite <-Hperm. apply elem_of_app in He' as [Hv|Hr]; [|set_solver].
      exfalso. apply Hnv. apply list_elem_of_fmap_2. by apply list_elem_of_fmap_2. }
    transitivity (length (hashes rest)).
    + apply NoDup_incl_length; [by apply NoDup_ListNoDup|]. intros h Hh%list_elem_of_In. apply list_elem_of_In. by apply Hincl.
    + unfold hashes. rewrite length_fmap. apply Permutation_length in Hperm. rewrite length_app in Hperm. lia.
Qed.


(** Eviction is first in, first out: the sessions evicted are exactly as
    many as exceed the cap, none of them is the session just created, and none
    is younger than a session that stays (a session with no readable creation
    time counting as oldest). *)
Theorem eviction_is_fifo (limit : Z) (new_hash : string) (sessions : list SessionEntry) :
  NoDup (hashes sessions) ->
  let victims := victims_of limit new_hash sessions in
  length victims = (length sessions - Z.to_nat (Z.max limit 1))%nat /\
  (forall v, List.In v victims -> List.In v sessions /\ se_session_hash v <> new_hash) /\
  (forall v e, List.In v victims -> List.In e sessions -> ~ List.In e victims -> se_session_hash e <> new_hash ->
     older v e = true).
Proof.
  intros Hnd victims. destruct (victims_spec limit new_hash sessions Hnd) as (Hlen & Hvic & Hold & _). done.
Qed.

(** ** Sign out my other devices *)

Section others.
Context `{Crypto} {S U : Type} `{SessionStoreLaws S, UserRepository U} (svc : SessionServiceCfg).

Lemma names_elem (es : list SessionEntry) (h : string) :
  SessionService.names es h = true <-> exists e, e ∈ es /\ se_session_hash e = h.
Proof.
  unfold SessionService.names. rewrite List.existsb_exists. unfold constant_time_eq.
  split; intros (e & He & Hh); exists e; rewrite bool_decide_eq_true in *; by rewrite <-list_elem_of_In in *.
Qed.

(** The session a presented hash stands for. *)
Definition stands_as (subject h : string) (a : AStore) (kept : string) : Prop :=
  (kept = h \/ a_grace_successor SkDashboard h a = Some kept) /\
  live_member SkDashboard kept ∈ members_of (a_index a SkDashboard subject).

Lemma resolve_live_ewp (tenant_id user_id h : string) (w : World S U) (a : AStore) :
  at_state w a ->
  let subject := SessionService.subject svc (Some tenant_id) user_id in
  ewp (SessionService.resolve_live_session svc tenant_id user_id h)
    (fun r w' => (r = Err SessionNotFound \/ exists kept, r = Ok kept /\ stands_as subject h a kept) /\
       exists a1, (at_state w' a1 /\ (a1 = a \/ exists es, listing SkDashboard subject a es a1))) w.
Proof.
  intros Hw subject. unfold SessionService.resolve_live_session.
  destruct (is_session_hash h); cbn [negb]; [|estep; split; [by left | exists a; auto]].
  estep. eapply ewp_list_entries; [exact Hw|]. intros es a1 s' Hl Hw1. cbv beta iota. pose proof Hl as (_ & Hin & _).
  assert (Hnames : forall x, SessionService.names es x = true -> live_member SkDashboard x ∈ members_of (a_index a SkDashboard subject)).
  { intros x (e & He & <-)%names_elem. by apply Hin. }
  assert (Hsame : a_grace_successor SkDashboard h a1 = a_grace_successor SkDashboard h a).
  { unfold a_grace_successor. destruct (listing_store _ _ _ _ _ Hl) as (_ & Eg & _). by rewrite Eg. }
  destruct (SessionService.names es h) eqn:Hh.
  - estep. split; [right; exists h; split; [done|]; split; [by left | by apply Hnames] | eauto 6].
  - estep. eapply ewp_grace_successor; [exact Hw1|]. intros s2 Hw2. cbv beta iota. rewrite Hsame in *.
    destruct (a_grace_successor SkDashboard h a) as [kept|] eqn:Hg; [|estep; split; [by left | eauto 6]].
    destruct (SessionService.names es kept) eqn:Hk; [|estep; split; [by left | eauto 6]].
    estep. split; [right; exists kept; split; [done|]; split; [by right | by apply Hnames] | eauto 6].
Qed.

Lemma revoke_others_ewp (subject kept : string) (es : list SessionEntry) (w : World S U) (a : AStore) :
  at_state w a ->
  ewp (SessionService.revoke_others subject kept es)
    (fun r w' => r = Ok tt /\ at_state w' (a_evict subject (List.filter (fun h => negb (constant_time_eq h kept)) (hashes es)) a)) w.
Proof.
  revert w a. induction es as [|e es IH]; intros w a Hw; cbn [SessionService.revoke_others hashes fmap list_fmap List.filter].
  - estep. done.
  - destruct (constant_time_eq (se_session_hash e) kept); cbn [negb]; [by apply IH|].
    estep. apply ewp_attempt. eapply ewp_revoke; [exact Hw|]. intros r s' Hr Hw1. cbv beta iota.
    destruct Hr as [-> | ->]; cbv beta iota; by apply IH.
Qed.

End others.

(** The same sessions, pointers and epochs, the index having lost at most
    members whose entry is gone. *)
Definition tidied (subject : string) (a a1 : AStore) : Prop :=
  (forall k h, a_live a1 k h = a_live a k h) /\ (forall k h, a_grace a1 k h = a_grace a k h) /\
  (forall k s, a_epoch a1 k s = a_epoch a k s) /\
  (forall x, x ∈ members_of (a_index a SkDashboard subject) ->
     x ∈ members_of (a_index a1 SkDashboard subject) \/ dead_member SkDashboard a x).

Lemma tidied_refl (subject : string) (a : AStore) : tidied subject a a.
Proof. split_and!; auto. Qed.

Lemma tidied_listing (subject : string) (a : AStore) (es : list SessionEntry) (a1 : AStore) :
  listing SkDashboard subject a es a1 -> tidied subject a a1.
Proof.
  intros Hl. pose proof (listing_store _ _ _ _ _ Hl) as (El & Eg & Ee & _ & _). split_and!; [done..|].
  destruct Hl as (_ & _ & _ & pruned & Hp & Ha1). intros x Hx. rewrite (eqv_index _ _ Ha1). cbn.
  rewrite upd_at, decide_True, members_drops by done. destruct (decide (x ∈ pruned)); [right; auto | left; set_solver].
Qed.

Lemma tidied_trans (subject : string) (a a1 a2 : AStore) :
  tidied subject a a1 -> tidied subject a1 a2 -> tidied subject a a2.
Proof.
  intros (L1 & G1 & E1 & I1) (L2 & G2 & E2 & I2). split_and!; intros; rewrite ?L2, ?G2, ?E2; auto.
  destruct (I1 x) as [Hx|Hx]; [done | | by right]. destruct (I2 x Hx) as [?|[h Hd]]; [by left | right].
  exists h. by rewrite <-L1, <-G1.
Qed.

(** The store [revoke_all_except_current] leaves. *)
Definition others_revoked (subject kept : string) (es : list SessionEntry) (a : AStore) : AStore :=
  (a_bump_epoch SkDashboard subject
     (a_sweep_grace SkDashboard subject
        (a_evict subject (List.filter (fun h => negb (constant_time_eq h kept)) (hashes es)) a))).2.

Lemma others_revoked_spec (subject kept : string) (es : list SessionEntry) (a a1 a2 : AStore) :
  tidied subject a a1 -> listing SkDashboard subject a1 es a2 ->
  let b := others_revoked subject kept es a2 in
  a_live b SkDashboard kept = a_live a SkDashboard kept /\
  (forall h, h <> kept -> live_member SkDashboard h ∈ members_of (a_index a SkDashboard subject) ->
     a_live b SkDashboard h = None) /\
  (forall h, grace_member SkDashboard h ∈ members_of (a_index a SkDashboard subject) -> a_grace b SkDashboard h = None) /\
  a_current_epoch SkDashboard subject b = a_current_epoch SkDashboard subject a + 1 /\
  (forall k h x, a_live b k h = Some x -> a_live a k h = Some x) /\
  (forall k h x, a_grace b k h = Some x -> a_grace a k h = Some x).
Proof.
  intros T1 Hl b. pose proof (tidied_trans _ _ _ _ T1 (tidied_listing _ _ _ _ Hl)) as (L & G & Ep & I).
  destruct T1 as (L1 & _ & _ & I1). pose proof (listing_store _ _ _ _ _ Hl) as (L2 & _ & _ & _ & Hkeep).
  set (hs := List.filter (fun h => negb (constant_time_eq h kept)) (hashes es)).
  assert (Hhs : forall h, h ∈ hs <-> h ∈ hashes es /\ h <> kept).
  { intros h. unfold hs, constant_time_eq. rewrite !list_elem_of_In, List.filter_In, negb_true_iff, bool_decide_eq_false. done. }
  destruct (evict_frame subject hs a2) as (Fg & Fe & _).
  split_and!.
  - unfold b, others_revoked. cbn -[a_evict]. fold hs. rewrite evict_live, L. rewrite decide_False; [done|].
    intros (_ & Hk%Hhs & _). by destruct Hk.
  - intros h Hne Hm. unfold b, others_revoked. cbn -[a_evict]. fold hs. rewrite evict_live, L.
    destruct (a_live a SkDashboard h) as [[rec t]|] eqn:Hx; [|by case_decide].
    assert (Hm1 : live_member SkDashboard h ∈ members_of (a_index a1 SkDashboard subject)).
    { destruct (I1 _ Hm) as [?|Hd%dead_live]; [done | congruence]. }
    destruct Hl as (_ & _ & Hall & _). destruct (Hall h rec t) as (e & He & <-); [by rewrite L1 | done |].
    rewrite decide_True; [done|]. split; [done|]. split; [apply Hhs; split; [by apply list_elem_of_fmap_2 | done]|].
    apply Hkeep; [done|]. by rewrite L1, Hx.
  - intros h Hm. unfold b, others_revoked. cbn -[a_evict]. fold hs. case_decide as Hd; [done|]. rewrite Fg, G.
    destruct (I _ Hm) as [Hm2|Hdead].
    + destruct Hd. split; [done|]. apply evict_index. split; [done|].
      intros (x & Hx & _)%list_elem_of_fmap. by destruct (grace_live_ne SkDashboard h x).
    + destruct Hdead as [h' [[E _]|[E Hg]]]; [by destruct (grace_live_ne SkDashboard h h')|].
      unfold grace_member, index_member in E. apply string_app_inj_l in E. apply (string_app_inj_l ":") in E. by subst.
  - unfold b, others_revoked, a_current_epoch at 1. cbn -[a_evict]. fold hs. rewrite upd_at, decide_True by done.
    unfold a_current_epoch. cbn -[a_evict]. by rewrite Fe, Ep.
  - intros k h x. unfold b, others_revoked. cbn -[a_evict]. fold hs. rewrite evict_live, L. by case_decide.
  - intros k h x. unfold b, others_revoked. cbn -[a_evict]. fold hs. rewrite Fg, G. by case_decide.
Qed.

(** Every session of the account but the one [h] stands for is over. *)
Definition others_ended (subject h : string) (a b : AStore) : Prop :=
  exists kept, stands_as subject h a kept /\
    a_live b SkDashboard kept = a_live a SkDashboard kept /\
    (forall h', h' <> kept -> live_member SkDashboard h' ∈ members_of (a_index a SkDashboard subject) ->
       a_live b SkDashboard h' = None) /\
    (forall h', grace_member SkDashboard h' ∈ members_of (a_index a SkDashboard subject) -> a_grace b SkDashboard h' = None) /\
    a_current_epoch SkDashboard subject b = a_current_epoch SkDashboard subject a + 1 /\
    (forall k h' x, a_live b k h' = Some x -> a_live a k h' = Some x) /\
    (forall k h' x, a_grace b k h' = Some x -> a_grace a k h' = Some x).

Lemma others_ended_equiv (subject h : string) (a b b' : AStore) :
  b ≡ b' -> others_ended subject h a b -> others_ended subject h a b'.
Proof.
  intros Hb (kept & Hk & H1' & H2' & H3' & H4' & H5' & H6'). pose proof Hb as [_ El Eg _ _ _ _ _ _].
  exists kept. rewrite <-El, <-(a_current_epoch_proper _ _ _ _ Hb). split_and!; [done | done | | | done | |];
    intros *; rewrite <-?El, <-?Eg; auto.
Qed.

Section sweep.
Context `{Crypto} {S U : Type} `{SessionStoreLaws S, UserRepository U} (svc : SessionServiceCfg).

Lemma revoke_except_ewp (tenant_id user_id h : string) (w : World S U) (a : AStore) :
  let subject := SessionService.subject svc (Some tenant_id) user_id in
  at_state w a -> a_current_epoch SkDashboard subject a < i64_max ->
  ewp (SessionService.revoke_all_except_current svc tenant_id user_id h)
    (fun r w' => exists b, at_state w' b /\
       ((r = Err SessionNotFound /\ (b = a \/ exists es, listing SkDashboard subject a es b)) \/
        (r = Ok tt /\ others_ended subject h a b))) w.
Proof.
  intros subject Hw Hep. unfold SessionService.revoke_all_except_current. estep.
  eapply ewp_mono; [apply (resolve_live_ewp svc tenant_id user_id h w a Hw)|].
  intros r1 w1 [Hres (a1 & Hw1 & Ha1)]. fold subject in Hres, Ha1.
  assert (Htidy : tidied subject a a1).
  { destruct Ha1 as [->|[es Hl]]; [apply tidied_refl | by eapply tidied_listing]. }
  destruct Hres as [->|(kept & -> & Hk)]; cbv beta iota; [exists a1; auto|].
  estep. eapply ewp_list_entries; [exact Hw1|]. intros es a2 s2 Hl Hw2. cbv beta iota. estep.
  eapply ewp_mono; [eapply revoke_others_ewp; exact Hw2|]. intros r3 w3 [-> Hw3]. cbv beta iota.
  pose proof (others_revoked_spec subject kept es a a1 a2 Htidy Hl) as (K1 & K2 & K3 & K4 & K5 & K6).
  estep. estep. estep. estep.
  { destruct (tidied_trans _ _ _ _ Htidy (tidied_listing _ _ _ _ Hl)) as (_ & _ & Ep & _).
    destruct (evict_frame subject (List.filter (fun h => negb (constant_time_eq h kept)) (hashes es)) a2) as (_ & Fe & _).
    unfold a_current_epoch in *. cbn -[a_evict]. by rewrite Fe, Ep. }
  estep. eexists. split; [at_here|]. right. split; [done|]. exists kept. split_and!; done.
Qed.

End sweep.

(** Signing out other devices: on a ready store the call either refuses with
    an unknown session and changes no session, or keeps exactly the session the
    presented token stands for (itself, or the successor it rotated into).  Then
    every other live session the account's index named is gone, the kept one is
    as it was, no recovery pointer the index named is left, so no predecessor of
    the kept session can come back through its grace window, and the account's
    epoch has advanced, so every access token issued before is refused; no
    session or recovery pointer of anyone appears or changes. *)
Theorem sign_out_other_devices `{Crypto} {S U : Type} `{SessionStoreLaws S, UserRepository U} (svc : SessionServiceCfg)
    (tenant_id user_id current_hash : string) (w w' : World S U) (r : result AuthError unit) :
  ready (w_store w) ->
  let subject := SessionService.subject svc (Some tenant_id) user_id in
  let a := stands_for (w_store w) in
  a_current_epoch SkDashboard subject a < i64_max ->
  SessionService.revoke_all_except_current svc tenant_id user_id current_hash w = (r, w') ->
  let a' := stands_for (w_store w') in
  ready (w_store w') /\
  ((r = Err SessionNotFound /\ forall k h, a_live a' k h = a_live a k h) \/
   (r = Ok tt /\ others_ended subject current_hash a a')).
Proof.
  intros Hr subject a Hep Hrun a'. assert (Hw : at_state w a) by done.
  destruct (ewp_run _ _ _ _ _ (revoke_except_ewp svc tenant_id user_id current_hash w a Hw Hep) Hrun) as (b & [Hr' Hs'] & Hb).
  split; [done|]. destruct Hb as [[-> Hb]|[-> Hb]]; [left | right]; (split; [done|]).
  - intros k h. unfold a'. rewrite (eqv_live _ _ Hs'). destruct Hb as [->|[es Hl]]; [done|]. by destruct (tidied_listing _ _ _ _ Hl).
  - by eapply others_ended_equiv; [symmetry|].
Qed.
