(* ===== verification/EngineSample.v ===== *)
(** * A concrete engine

    The token manager over a Redis database, with the codecs of [Concrete]:
    worlds the witnesses run the services in. *)

From S2P Require Import Prelude Errors Types Crypto Concrete Jwt Redis RedisSession SessionSpec RedisRefine RefineRevoke SessionStore Lineage RedisLife RedisContract MfaStore Engine Repository TokenManager TokenVerify TokenRotate RotationClaims EngineLife AccessClaims Sessions SessionClaims.

Module EngineSample.
Import Concrete JwtConcrete Sample.

#[export] Instance MfaContext_text : Text MfaContext.
Proof.
  apply (text_via (fun c => match c with McDashboard => true | McPlatform => false end)
    (fun b : bool => if b then McDashboard else McPlatform)). by intros [].
Defined.

#[export] Instance PlatformClaims_text : Text PlatformClaims.
Proof.
  apply (text_via
    (fun c => ((pc_sub c, pc_jti c, pc_role c), (pc_mfa_enabled c, pc_mfa_verified c),
               (pc_iat c, pc_exp c, pc_epoch c), (pc_iss c, pc_aud c)))
    (fun '((a, b, c), (d, e), (f, g, h), (i, j)) => Build_PlatformClaims a b c d e f g h i j)).
  by intros [].
Defined.

#[export] Instance MfaTempClaims_text : Text MfaTempClaims.
Proof.
  apply (text_via
    (fun c => ((mc_sub c, mc_jti c, mc_context c, mc_tenant_id c), (mc_epoch c, mc_iat c, mc_exp c), (mc_iss c, mc_aud c)))
    (fun '((a, b, c, d), (e, f, g), (h, i)) => Build_MfaTempClaims a b c d e f g h i)).
  by intros [].
Defined.

#[export] Instance host : Host := host_at 1000000.
#[export] Instance host_laws : HostLaws := host_at_laws 1000000.

#[export] Instance store : SessionStore Redis := redis_session_store ns.
#[export] Instance view : StoreView Redis := redis_view ns.
#[export] Instance laws : SessionStoreLaws Redis := redis_session_store_laws ns.
#[export] Instance mfa : MfaStore Redis := redis_mfa_store ns.
#[export] Instance mfa_view : MfaView Redis := redis_mfa_view ns.
#[export] Instance mfa_laws : MfaStoreLaws Redis := redis_mfa_store_laws ns.

(** An absolute cap of one day, thirty-day refresh tokens, thirty seconds of grace. *)
Definition tm : TokenManagerService :=
  with_mfa_support (new "k" ["old"] {| tl_access_ttl := 900; tl_refresh_expires_in_days := 30; tl_grace_window := 30;
                                       tl_absolute_session_lifetime_days := 1 |} "idkey").

Lemma tm_serviceable : serviceable (S:=Redis) tm.
Proof. split; intros; cbn; by eexists. Qed.

Definition user : SafeAuthUser := {|
  su_id := "u1"; su_email := "u1@acme.test"; su_name := "U"; su_role := "USER"; su_status := "active";
  su_tenant_id := "acme"; su_email_verified := true; su_mfa_enabled := false; su_oauth_provider := None;
  su_oauth_provider_id := None; su_last_login_at := None; su_created_at := 0 |}.

Definition world0 : World Redis unit := MkWorld (fresh 0) tt 0 0 0 [].

Lemma world0_ready : ready (w_store world0).
Proof. apply fresh_ready. Qed.

Lemma issued_session_is_served_witness :
  exists res w', issue_tokens tm user "203.0.113.9" "Chrome Linux" false Proved world0 = (Ok res, w').
Proof.
  destruct (issued_session_is_served tm user "203.0.113.9" "Chrome Linux" false Proved world0 tm_serviceable world0_ready)
    as (res & w' & Hrun & _).
  exists res, w'. exact Hrun.
Defined.

Definition result_of {E A} (d : A) (r : result E A) : A := match r with Ok a => a | Err _ => d end.

Lemma run_ok {A W} (d : A) (p : result AuthError A * W) : is_ok p.1 = true -> p = (Ok (result_of d p.1), p.2).
Proof. by destruct p as [[a|e] w]. Qed.

Lemma pair_fst {A B} (p : A * B) (x : A) : p.1 = x -> p = (x, p.2).
Proof. destruct p. by intros <-. Qed.

Definition no_tokens : RotatedTokens := {| rt_access_token := ""; rt_refresh_token := "" |}.
Definition no_auth : AuthResult := {| ar_user := user; ar_access_token := ""; ar_refresh_token := "" |}.

(** The world after a sign-in, and the refresh token it handed out. *)
Definition signed_run := issue_tokens tm user "203.0.113.9" "Chrome Linux" false Proved world0.
Definition signed_world : World Redis unit := signed_run.2.
Definition signed_refresh : string := ar_refresh_token (result_of no_auth signed_run.1).

Lemma signed_life : engine_life tm world0
  [EvSignIn SkDashboard (subject_hash tm SkDashboard (Some (su_tenant_id user)) (su_id user))] signed_world.
Proof.
  eapply el_cons; [|apply el_nil]. eapply (ec_issue tm world0 user "203.0.113.9" "Chrome Linux" false Proved signed_run.1).
  unfold signed_world, signed_run. apply surjective_pairing.
Qed.

Lemma signed_world_sound : ready (w_store signed_world) /\ sound (tm_owner tm) (tm_refresh_ttl_secs tm) (stands_for (w_store signed_world)).
Proof.
  eapply (engine_life_sound tm tm_serviceable ltac:(done) world0 signed_world); [apply world0_ready | | apply signed_life].
  eapply sound_equiv; [reflexivity | by split].
Qed.

Definition refreshed_run := reissue_tokens tm signed_refresh "203.0.113.9" "Chrome Linux" signed_world.

Lemma refreshed_ok : refreshed_run = (Ok (result_of no_tokens refreshed_run.1), refreshed_run.2).
Proof. apply run_ok. vm_compute. reflexivity. Qed.

Lemma refresh_carries_identity_witness :
  exists rec rec', presents SkDashboard (redis_hash signed_refresh) (stands_for (w_store signed_world)) rec /\
    a_find SkDashboard (redis_hash (rt_refresh_token (result_of no_tokens refreshed_run.1)))
      (stands_for (w_store refreshed_run.2)) = Some rec' /\ carried rec' = carried rec.
Proof.
  destruct (refresh_carries_identity tm signed_refresh "203.0.113.9" "Chrome Linux" signed_world refreshed_run.2
    (result_of no_tokens refreshed_run.1) tm_serviceable (proj1 signed_world_sound) refreshed_ok) as (rec & rec' & c & i & Hp & _ & _ & _ & Hf & Hc & _).
  - vm_compute. discriminate.
  - exists rec, rec'. exact (conj Hp (conj Hf Hc)).
Defined.

(** ** The absolute lifetime *)

(** The same manager with a cap of ten seconds, and a world whose clock is past it. *)
Definition tm_capped : TokenManagerService := {|
  tm_key := "k"; tm_previous_keys := []; tm_access_ttl := 900; tm_refresh_ttl_secs := 2592000; tm_grace_ttl_secs := 30;
  tm_absolute_lifetime_secs := 10; tm_binding := {| tb_issuer := None; tb_audience := None |};
  tm_identifier_key := "idkey"; tm_mfa := false |}.

Lemma tm_capped_serviceable : serviceable (S:=Redis) tm_capped.
Proof. split; intros; cbn; by eexists. Qed.

Definition late_world : World Redis unit := MkWorld (w_store signed_world) tt 10 30 0 [].

Lemma late_record (rec : SessionRecord) :
  presents SkDashboard (redis_hash signed_refresh) (stands_for (w_store late_world)) rec ->
  sr_family_created_at rec = Some 1000002000000000.
Proof.
  intros [[t Hl]|(_ & s & t & Hg & _)].
  - vm_compute in Hl. by simplify_eq/=.
  - vm_compute in Hg. done.
Qed.

Lemma capped_lineage_never_refreshes_witness :
  (reissue_tokens tm_capped signed_refresh "" "" late_world).1 = Err RefreshTokenInvalid.
Proof.
  apply (capped_lineage_never_refreshes tm_capped signed_refresh "" "" late_world
    (reissue_tokens tm_capped signed_refresh "" "" late_world).2 _ tm_capped_serviceable (proj1 signed_world_sound));
    [|apply surjective_pairing].
  intros rec i Hp Hi. unfold capped. rewrite (late_record rec Hp). cbn in Hi |- *. unfold outlived.
  assert (Hage : 0 < (1000000 + Z.of_nat i) * 1000000000 - 1000002000000000) by lia.
  rewrite (bool_decide_eq_true_2 _ Hage), andb_true_r. apply bool_decide_eq_true.
  rewrite Z.abs_eq by (apply Z.quot_pos; lia). rewrite Z.quot_div_nonneg by lia.
  enough (11 <= ((1000000 + Z.of_nat i) * 1000000000 - 1000002000000000) / 1000000000) by lia.
  apply Z.div_le_lower_bound; lia.
Defined.

(** ** A replay forty seconds after the rotation *)

Lemma wait_call (w : World Redis unit) (ms : Z) :
  ready (w_store w) -> engine_call tm w EvOther (with_store (advance ms (w_store w)) w).
Proof.
  intros [Hwf Hp]. apply (ec_wait tm w ms). destruct (advance_refines ns ms _ Hwf) as [Hwf' Hs].
  split; [split; [exact Hwf' | exact Hp] | exact Hs].
Qed.

Definition replay_world : World Redis unit := with_store (advance 40000 (w_store refreshed_run.2)) refreshed_run.2.

Lemma replay_world_sound : ready (w_store replay_world) /\ sound (tm_owner tm) (tm_refresh_ttl_secs tm) (stands_for (w_store replay_world)).
Proof.
  eapply (engine_life_sound tm tm_serviceable ltac:(done) signed_world replay_world [EvOther; EvOther]);
    [exact (proj1 signed_world_sound) | exact (proj2 signed_world_sound) |].
  eapply el_cons; [eapply (ec_reissue tm signed_world signed_refresh "203.0.113.9" "Chrome Linux" refreshed_run.1); apply surjective_pairing|].
  eapply el_cons; [|apply el_nil]. apply wait_call.
  eapply (reissue_admitted tm tm_serviceable ltac:(done)); [exact (proj1 signed_world_sound) | apply surjective_pairing].
Qed.

Definition sample_family : string := sr_family_id (issued_record user "203.0.113.9" "Chrome Linux" false world0).

Lemma replay_ends_lineage_witness :
  dead_family (stands_for (w_store (reissue_tokens tm signed_refresh "" "" replay_world).2)) SkDashboard sample_family.
Proof.
  apply (replay_ends_lineage tm (tm_refresh_ttl_secs tm) signed_refresh "" "" sample_family replay_world
    (reissue_tokens tm signed_refresh "" "" replay_world).2 (reissue_tokens tm signed_refresh "" "" replay_world).1
    (dead_rotate SkDashboard (redis_hash signed_refresh) (stands_for (w_store replay_world))).2 tm_serviceable
    (proj1 replay_world_sound)).
  - vm_compute. reflexivity.
  - exact (proj2 replay_world_sound).
  - vm_compute. reflexivity.
  - apply pair_fst. vm_compute. reflexivity.
  - vm_compute. discriminate.
  - apply surjective_pairing.
Defined.

(** ** Signing an account out of everything leaves the others alone *)

Definition swept_world : World Redis unit := (on_store (revoke_all SkDashboard "someone else") signed_world : _ * World Redis unit).2.
Definition swept_run := reissue_tokens tm signed_refresh "" "" swept_world.

Lemma engine_sign_out_everywhere_witness :
  exists claims, sign (stamp tm claims) (tm_key tm) = Ok (rt_access_token (result_of no_tokens swept_run.1)) /\
    subject_hash tm SkDashboard (Some (dc_tenant_id claims)) (dc_sub claims) <> "someone else".
Proof.
  apply (engine_sign_out_everywhere tm world0 signed_world swept_world swept_world swept_run.2
    [EvSignIn SkDashboard (subject_hash tm SkDashboard (Some (su_tenant_id user)) (su_id user))] [] "someone else"
    signed_refresh "" "").
  - exact tm_serviceable.
  - done.
  - exact world0_ready.
  - reflexivity.
  - exact signed_life.
  - unfold swept_world. apply pair_fst. vm_compute. reflexivity.
  - apply el_nil.
  - constructor.
  - apply run_ok. vm_compute. reflexivity.
Defined.

(** ** Access tokens *)

Definition signed_token : string := ar_access_token (result_of no_auth signed_run.1).

Lemma access_token_served_iff_witness :
  ready (w_store (verify_access tm signed_token signed_world).2).
Proof.
  apply (access_token_served_iff tm signed_token signed_world (verify_access tm signed_token signed_world).2
    (verify_access tm signed_token signed_world).1 (proj1 signed_world_sound)).
  apply surjective_pairing.
Defined.

Definition user_subject_key : string := subject_hash tm SkDashboard (Some "acme") "u1".
Definition bumped_run := served (bump_epoch_inner ns SkDashboard user_subject_key) (w_store signed_world).
Definition bumped_world : World Redis unit := MkWorld (advance 5000 bumped_run.2) tt 10 10 0 [].
Definition bumped_claims : DashboardClaims :=
  result_of sample_claims (rotating_claims tm signed_token bumped_world).

Lemma bumped_epoch_ends_access_witness : (verify_access tm signed_token bumped_world).1 = Err TokenRevoked.
Proof.
  apply (bumped_epoch_ends_access ns tm user_subject_key (w_store signed_world) bumped_run.2 1 5000 signed_token bumped_claims
    bumped_world (proj1 (proj1 signed_world_sound)) (proj2 (proj1 signed_world_sound))).
  - vm_compute. reflexivity.
  - apply pair_fst. vm_compute. reflexivity.
  - unfold TOKEN_EPOCH_RETENTION_SECS. lia.
  - reflexivity.
  - vm_compute. reflexivity.
  - vm_compute. reflexivity.
  - vm_compute. discriminate.
Defined.

Lemma mfa_challenge_round_trip_witness :
  exists token w', issue_mfa_temp_token tm "u1" McDashboard (Some "acme") world0 = (Ok token, w').
Proof.
  destruct (mfa_challenge_round_trip tm "u1" McDashboard (Some "acme") world0 tm_serviceable eq_refl world0_ready)
    as (token & claims & w' & Hrun & _).
  exists token, w'. exact Hrun.
Defined.

(** ** Sessions *)

(** A host whose repository knows no account. *)
#[export] Instance users : UserRepository unit := {|
  repo_find_by_id _ _ u := (Ok None, u); repo_find_by_email _ _ u := (Ok None, u);
  repo_create _ u := (Err (Backend "read only"), u); repo_update_password _ _ _ u := (Ok tt, u);
  repo_update_mfa _ _ _ u := (Ok tt, u); repo_update_last_login _ _ u := (Ok tt, u);
  repo_update_status _ _ _ u := (Ok tt, u); repo_update_email_verified _ _ _ u := (Ok tt, u);
  repo_update_email _ _ _ u := (Ok tt, u); repo_find_by_oauth_id _ _ _ u := (Ok None, u);
  repo_link_oauth _ _ _ u := (Ok tt, u); repo_create_with_oauth _ u := (Err (Backend "read only"), u)
|}.

Definition svc : SessionServiceCfg := {|
  ss_config := {| sc_default_max_sessions := 1; sc_max_sessions_resolver := None |};
  ss_refresh_ttl_secs := 2592000; ss_identifier_key := "idkey" |}.

Definition no_ctx : HookContext := detached HpDashboard "u1" "" "".


Definition two_entries : list SessionEntry :=
  [ {| se_session_hash := "a"; se_detail := None |}; {| se_session_hash := "b"; se_detail := None |} ].

Lemma eviction_is_fifo_witness : length (victims_of 1 "a" two_entries) = 1%nat.
Proof.
  apply (eviction_is_fifo 1 "a" two_entries).
  apply NoDup_ListNoDup. repeat constructor; set_solver.
Defined.

Definition kept_run := SessionService.revoke_all_except_current svc "acme" "u1" (redis_hash signed_refresh) signed_world.

Lemma sign_out_other_devices_witness : ready (w_store kept_run.2) /\ kept_run.1 = Ok tt.
Proof.
  split.
  - apply (sign_out_other_devices svc "acme" "u1" (redis_hash signed_refresh) signed_world kept_run.2 kept_run.1
      (proj1 signed_world_sound)).
    + vm_compute. reflexivity.
    + apply surjective_pairing.
  - vm_compute. reflexivity.
Defined.

End EngineSample.
