(* ===== verification/AuthCore.v ===== *)
(** * The engine and its shared gates

    Models the assembly of [crates/bymax-auth-core/src/engine/mod.rs], the gates
    every flow goes through ([status_gate.rs], [services/tenant_binding.rs],
    [services/brute_force.rs], [services/account_status.rs], [normalize.rs]) and
    the shared helpers of [services/auth/mod.rs]. *)

From S2P Require Import Prelude Errors Types Crypto Jwt Redis RedisSession SessionSpec SessionStore MfaStore Engine Repository Password SideStores OtpService TokenManager Sessions.

(** ** Text *)

(** The Unicode tables behind [str::trim] and [str::to_lowercase]. *)
Class UnicodeText : Type := {
  str_trim : string -> string;
  str_to_lowercase : string -> string;
}.

Definition normalize_email `{UnicodeText} (email : string) : string := str_to_lowercase (str_trim email).

Definition ascii_lower (c : ascii) : ascii :=
  if bool_decide (65 <= byte_z c <= 90) then z_byte (byte_z c + 32) else c.

Fixpoint to_ascii_lowercase (s : string) : string :=
  match s with EmptyString => EmptyString | String c s' => String (ascii_lower c) (to_ascii_lowercase s') end.

Definition eq_ignore_ascii_case (a b : string) : bool := bool_decide (to_ascii_lowercase a = to_ascii_lowercase b).

(** ** The status gate *)

Definition assert_not_blocked (status : string) (blocked_statuses : list string) : result AuthError unit :=
  if negb (existsb (fun blocked => eq_ignore_ascii_case blocked status) blocked_statuses) then Ok tt else
  let lower := to_ascii_lowercase status in
  Err (if bool_decide (lower = "banned") then AccountBanned
       else if bool_decide (lower = "inactive") then AccountInactive
       else if bool_decide (lower = "suspended") then AccountSuspended
       else if bool_decide (lower = "pending") || bool_decide (lower = "pending_approval") then PendingApproval
       else AccountInactive).

(** ** The engine *)

Inductive ResetMethod : Set := RmToken | RmOtp.

(** The settings the flows read. *)
Record AuthConfig (U : Type) : Type := {
  cf_hmac_key : string;
  cf_blocked_statuses : list string;
  cf_verification_required : bool;
  cf_verification_otp_ttl : Z;
  cf_tenant_id_resolver : option (TenantIdResolver U);
  cf_enforce_tenant_binding : bool;
  cf_sessions_enabled : bool;
  cf_reset_method : ResetMethod;
  cf_reset_otp_length : nat;
  cf_reset_otp_ttl : Z;
  cf_reset_token_ttl : Z;
  cf_email_change_token_ttl : Z;
  cf_user_status_cache_ttl : Z;
}.
Arguments cf_hmac_key {U} _.
Arguments cf_blocked_statuses {U} _.
Arguments cf_verification_required {U} _.
Arguments cf_verification_otp_ttl {U} _.
Arguments cf_tenant_id_resolver {U} _.
Arguments cf_enforce_tenant_binding {U} _.
Arguments cf_sessions_enabled {U} _.
Arguments cf_reset_method {U} _.
Arguments cf_reset_otp_length {U} _.
Arguments cf_reset_otp_ttl {U} _.
Arguments cf_reset_token_ttl {U} _.
Arguments cf_email_change_token_ttl {U} _.
Arguments cf_user_status_cache_ttl {U} _.

Record BruteForceService : Set := { bf_max_attempts : Z; bf_window_secs : Z }.

Record AuthEngine (U : Type) : Type := {
  en_config : AuthConfig U;
  en_tokens : TokenManagerService;
  en_sessions : SessionServiceCfg;
  en_brute_force : BruteForceService;
  en_passwords : PasswordService;
  en_password_reset_store : bool;
  en_user_status_cache : bool;
}.
Arguments en_config {U} _.
Arguments en_tokens {U} _.
Arguments en_sessions {U} _.
Arguments en_brute_force {U} _.
Arguments en_passwords {U} _.
Arguments en_password_reset_store {U} _.
Arguments en_user_status_cache {U} _.

(** ** The lockout service *)

Definition MAX_IDENTIFIER_LENGTH : nat := 512.

Module BruteForce.
Section service.
Context {S U : Type} `{BruteForceStore S} (bf : BruteForceService).

Definition validate_identifier (identifier : string) : result AuthError unit :=
  if Nat.ltb MAX_IDENTIFIER_LENGTH (String.length identifier)
     || contains_char ":" identifier || contains_char "010" identifier || contains_char "013" identifier
  then Err Forbidden else Ok tt.

Definition is_locked (identifier : string) : E S U bool :=
  _ ← lift (validate_identifier identifier);
  on_store (bf_is_locked identifier (bf_max_attempts bf)).

Definition record_failure (identifier : string) : E S U unit :=
  _ ← lift (validate_identifier identifier);
  _ ← on_store (bf_record_failure identifier (bf_window_secs bf));
  mret tt.

Definition reset (identifier : string) : E S U unit :=
  _ ← lift (validate_identifier identifier);
  on_store (bf_reset identifier).

Definition remaining_lockout_secs (identifier : string) : E S U Z :=
  _ ← lift (validate_identifier identifier);
  on_store (bf_remaining_lockout_secs identifier).

End service.
End BruteForce.

(** A hexadecimal digest always passes the guard. *)
Lemma hex_identifier_valid (bytes : string) :
  (String.length bytes <= 256)%nat -> BruteForce.validate_identifier (to_hex bytes) = Ok tt.
Proof.
  intros Hlen. unfold BruteForce.validate_identifier. rewrite to_hex_length.
  rewrite (proj2 (Nat.ltb_ge _ _)) by (unfold MAX_IDENTIFIER_LENGTH; lia).
  rewrite !lower_hex_lacks by (apply to_hex_lower || done). done.
Qed.

Definition ANTI_ENUM_MIN_MS : Z := 300.
Definition BODY_TENANT_REFUSAL : string := "tenantId is decided by this deployment and must not be sent".
Definition TENANT_REQUIRED : string :=
  "tenantId is required unless the deployment configures a TenantIdResolver".

Definition map_tenant_error (error : TenantResolveError) : AuthError :=
  match error with
  | TreEmpty => Forbidden
  | TreInternal _ => internal_error "tenant resolution failed"
  end.

Definition request_parts_from_context (ctx : RequestContext) : RequestParts := {|
  rp_method := "";
  rp_uri := "";
  rp_host := rc_sanitized_headers ctx !! "host";
  rp_headers := rc_sanitized_headers ctx;
|}.

Definition tenant_scoped (user : option AuthUser) (tenant_id : string) : option AuthUser :=
  match user with
  | Some candidate => if bool_decide (au_tenant_id candidate = tenant_id) then Some candidate else None
  | None => None
  end.

Section engine.
Context `{Crypto, Host} {S U : Type} (en : AuthEngine U).

Abbreviation Eng := (E S U).
Abbreviation config := (en_config en).

Definition session_subject (kind : SessionKind) (tenant_id : option string) (user_id : string) : string :=
  session_subject_hash (cf_hmac_key config) kind tenant_id user_id.

Definition normalize_anti_enum (started : Z) : Eng unit := normalize_to_floor ANTI_ENUM_MIN_MS started.

Definition resolve_tenant (body_tenant : option string) (ctx : RequestContext) : Eng string :=
  match cf_tenant_id_resolver config with
  | Some resolver =>
      if bool_decide (is_Some body_tenant)
      then throw (Validation [{| fe_field := "tenantId"; fe_message := BODY_TENANT_REFUSAL |}])
      else from_users map_tenant_error (resolver (request_parts_from_context ctx))
  | None =>
      match body_tenant with
      | Some tenant => mret tenant
      | None => throw (Validation [{| fe_field := "tenantId"; fe_message := TENANT_REQUIRED |}])
      end
  end.

Definition assert_tenant_binding (token_tenant : string) (ctx : RequestContext) : Eng unit :=
  match cf_tenant_id_resolver config with
  | Some resolver =>
      if negb (cf_enforce_tenant_binding config) then mret tt else
      request_tenant ← from_users map_tenant_error (resolver (request_parts_from_context ctx));
      if bool_decide (request_tenant = token_tenant) then mret tt else throw TokenInvalid
  | None => mret tt
  end.

Definition lockout_identifier (tenant_id email : string) : string :=
  to_hex (hmac_sha256 (cf_hmac_key config) ("dashboard:" +:+ tenant_id +:+ ":" +:+ email)).

Definition reproof_identifier (flow user_id : string) : string :=
  to_hex (hmac_sha256 (cf_hmac_key config) ("reauth:" +:+ flow +:+ ":" +:+ user_id)).

Definition invitee_identifier (email : string) : string := to_hex (hmac_sha256 (cf_hmac_key config) email).

Definition hashed_identifier (tenant_id email : string) : string :=
  to_hex (hmac_sha256 (cf_hmac_key config) (tenant_id +:+ ":" +:+ email)).

Definition assert_user_not_blocked (status : string) : result AuthError unit :=
  assert_not_blocked status (cf_blocked_statuses config).

(** ** The session cap after an issue *)

Definition enforce_sessions_after_issue `{SessionStore S, UserRepository U} (result : AuthResult) (ip user_agent : string)
    (hook_ctx : HookContext) : Eng unit :=
  if negb (cf_sessions_enabled config) then mret tt else
  let new_hash := redis_hash (ar_refresh_token result) in
  let '(device, stored_ip) := normalize_session_metadata user_agent ip in
  now ← now_offset;
  SessionService.after_session_created (en_sessions en) {|
    sr_user_id := su_id (ar_user result);
    sr_tenant_id := Some (su_tenant_id (ar_user result));
    sr_role := su_role (ar_user result);
    sr_device := device;
    sr_ip := stored_ip;
    sr_created_at := now;
    sr_mfa_enabled := su_mfa_enabled (ar_user result);
    sr_mfa_verified := false;
    sr_family_id := "";
    sr_family_created_at := None |} new_hash hook_ctx.

(** ** Account facts, cached *)

Record AccountFacts : Set := { af_status : string; af_verified : option bool }.

Section facts.
Context `{UserRepository U, UserStatusCacheStore S}.

(** The cache and its lifetime, when one is configured. *)
Definition status_cache : option Z :=
  let ttl := cf_user_status_cache_ttl config in
  if en_user_status_cache en && bool_decide (0 < ttl) then Some ttl else None.

Definition cached_facts (subject : string) (want_verified : bool) : Eng (option string * option bool) :=
  match status_cache with
  | None => mret (None, None)
  | Some _ =>
      status ← on_store (us_get_status subject);
      verified ← (if want_verified then on_store (us_get_verified subject) else mret None);
      mret (status, verified)
  end.

(** The repository's answer, written to the cache when there is one. *)
Definition fetch_facts (subject sub tenant_id : string) : Eng AccountFacts :=
  found ← from_users map_repository_error (repo_find_by_id sub (Some tenant_id));
  user ← lift (ok_or TokenInvalid found);
  _ ← match status_cache with
      | None => mret tt
      | Some ttl =>
          _ ← on_store (us_put_status subject (au_status user) ttl);
          if cf_verification_required config then on_store (us_put_verified subject (au_email_verified user) ttl)
          else mret tt
      end;
  mret {| af_status := au_status user; af_verified := Some (au_email_verified user) |}.

Definition account_facts (sub tenant_id : string) (want_verified : bool) : Eng AccountFacts :=
  let subject := session_subject SkDashboard (Some tenant_id) sub in
  '(status, verified) ← cached_facts subject want_verified;
  match status with
  | Some st =>
      if negb want_verified || bool_decide (is_Some verified)
      then mret {| af_status := st; af_verified := verified |}
      else fetch_facts subject sub tenant_id
  | None => fetch_facts subject sub tenant_id
  end.

Definition assert_account_usable (sub tenant_id : string) (check_verified : bool) : Eng unit :=
  let require_verified := check_verified && cf_verification_required config in
  facts ← account_facts sub tenant_id require_verified;
  _ ← lift (assert_user_not_blocked (af_status facts));
  if require_verified && bool_decide (af_verified facts = Some false) then throw EmailNotVerified else mret tt.

Definition is_blank `{UnicodeText} (s : string) : bool := bool_decide (str_trim s = "").

Definition invalidate_account_status `{UnicodeText} (user_id tenant_id : string) : Eng unit :=
  match status_cache with
  | None => mret tt
  | Some _ =>
      if is_blank user_id || is_blank tenant_id then mret tt else
      on_store (us_invalidate (session_subject SkDashboard (Some tenant_id) user_id))
  end.

Definition drop_cached_account_facts `{UnicodeText} (user_id tenant_id : string) : Eng unit :=
  _ ← attempt (invalidate_account_status user_id tenant_id);
  mret tt.

End facts.
End engine.

(** * Reasoning about the flows

    Two ways to look at a method that mixes sessions with the stores beside
    them: [equiet] says that it leaves every session, index, family and epoch as
    they were, whatever it answers; [einv] reads a successful run backwards, one
    awaited call at a time. *)

Section equiet.
Context {S U : Type} `{StoreView S}.

Definition equiet {A} (m : E S U A) : Prop :=
  forall w, ready (w_store w) -> ready (w_store (m w).2) /\ stands_for (w_store (m w).2) ≡ stands_for (w_store w).

Lemma equiet_bind {A B} (m : E S U A) (f : A -> E S U B) : equiet m -> (forall a, equiet (f a)) -> equiet (m ≫= f).
Proof.
  intros Hm Hf w Hr. destruct (Hm w Hr) as [Hr1 He1]. rewrite bind_run. destruct (m w) as [[a|e] w1]; [|done].
  simpl in *. destruct (Hf a w1 Hr1) as [Hr2 He2]. split; [done|]. by etrans.
Qed.

Lemma equiet_ret {A} (a : A) : equiet (mret a).
Proof. done. Qed.
Lemma equiet_throw {A} (e : AuthError) : equiet (throw e : E S U A).
Proof. done. Qed.
Lemma equiet_lift {A} (r : result AuthError A) : equiet (lift r).
Proof. done. Qed.
Lemma equiet_draw {A} (f : nat -> A) : equiet (take_draw f).
Proof. done. Qed.
Lemma equiet_reading {A} (f : nat -> A) : equiet (take_reading f).
Proof. done. Qed.
Lemma equiet_hook (h : HookCall) : equiet (spawn_hook h).
Proof. done. Qed.
Lemma equiet_sleep (n : Z) : equiet (sleep n).
Proof. done. Qed.
Lemma equiet_floor `{Host} (floor started : Z) : equiet (normalize_to_floor floor started).
Proof. done. Qed.

Lemma equiet_attempt {A} (m : E S U A) : equiet m -> equiet (attempt m).
Proof. intros Hm w Hr. pose proof (Hm w Hr). unfold attempt. by destruct (m w). Qed.

Lemma equiet_store {A} (m : M S AuthError A) : quiet m -> equiet (on_store m).
Proof. intros Hm w Hr. pose proof (Hm _ Hr). unfold on_store. by destruct (m (w_store w)). Qed.

Lemma equiet_users {F A} (m : M U F A) : equiet (on_users m).
Proof. intros w Hr. unfold on_users. by destruct (m (w_users w)). Qed.

Lemma equiet_from_users {F A} (f : F -> AuthError) (m : M U F A) : equiet (from_users f m).
Proof. apply equiet_bind; [apply equiet_users | intros; apply equiet_lift]. Qed.

Lemma equiet_runtime (f : U -> bool * U) : equiet (PasswordService.on_runtime f).
Proof. intros w Hr. unfold PasswordService.on_runtime. by destruct (f (w_users w)). Qed.

Lemma equiet_breached `{PasswordBreachChecker U} (password : string) : equiet (breached password).
Proof. intros w Hr. unfold breached. by destruct (is_breached password (w_users w)). Qed.

(** A quiet step of a run from a known state. *)
Lemma equiet_at {A} (m : E S U A) (w w' : World S U) (a : AStore) (r : result AuthError A) :
  equiet m -> at_state w a -> m w = (r, w') -> at_state w' a.
Proof. intros Hm [Hr Hs] Hrun. destruct (Hm w Hr) as [Hr' Hs']. rewrite Hrun in *. split; [done|]. by etrans. Qed.

Lemma ewp_quiet {A} (m : E S U A) (Q : result AuthError A -> World S U -> Prop) (w : World S U) (a : AStore) :
  at_state w a -> equiet m -> (forall r w', m w = (r, w') -> at_state w' a -> Q r w') -> ewp m Q w.
Proof.
  intros Hw Hm HQ. unfold ewp. destruct (m w) as [r w'] eqn:Hrun. apply HQ; [done|]. by eapply equiet_at.
Qed.

End equiet.

Create HintDb equiet discriminated.
#[export] Hint Resolve equiet_ret equiet_throw equiet_lift equiet_draw equiet_reading equiet_hook equiet_sleep equiet_floor
  equiet_users equiet_from_users equiet_runtime equiet_breached : equiet.
#[export] Hint Resolve quiet_is_locked quiet_record_failure quiet_reset quiet_remaining quiet_otp_put quiet_otp_verify
  quiet_otp_resend quiet_put_token quiet_consume_token quiet_delete_token quiet_put_verified quiet_consume_verified
  quiet_put_email_change quiet_consume_email_change quiet_get_status quiet_put_status quiet_get_verified
  quiet_put_verified_flag quiet_invalidate quiet_put_setup quiet_get_setup quiet_take_setup quiet_mark_totp
  quiet_claim_code quiet_acquire quiet_release quiet_challenge_consume quiet_put_temp quiet_get_temp quiet_del_temp
  : equiet.
#[export] Hint Unfold generate_refresh draw_uuid now_offset now_unix_secs now_unix_ceil instant_now
  BruteForce.is_locked BruteForce.record_failure BruteForce.reset BruteForce.remaining_lockout_secs
  PasswordService.acquire_kdf_permit PasswordService.assert_not_compromised PasswordService.assert_acceptable
  PasswordService.hash PasswordService.verify PasswordService.verify_sentinel normalize_anti_enum
  resolve_tenant assert_tenant_binding OtpService.store OtpService.verify OtpService.try_begin_resend
  invalidate_account_status drop_cached_account_facts : equiet.

(** Follow the shape of a method down to its calls. *)
Ltac hush :=
  repeat first
    [ progress intros
    | progress autounfold with equiet
    | progress cbv zeta
    | apply equiet_bind | apply equiet_attempt | apply equiet_store
    | solve [eauto with equiet]
    | match goal with |- equiet (match ?x with _ => _ end) => destruct x end ].

Section reads.
Context {S : Type} `{SessionStoreLaws S}.

Lemma quiet_answers {A} (m : M S AuthError A) (f : AStore -> A) :
  (forall s, ready s -> answers m s (f (stands_for s)) (stands_for s)) -> quiet m.
Proof. intros Hm s Hr. destruct (Hm s Hr) as (s' & -> & Hr' & Hs'). done. Qed.

Lemma quiet_find k h : quiet (find_session k h).
Proof. eapply (quiet_answers _ (a_find k h)). intros. by apply law_find. Qed.
Lemma quiet_epoch k subject : quiet (current_epoch k subject).
Proof. eapply (quiet_answers _ (a_current_epoch k subject)). intros. by apply law_current_epoch. Qed.
Lemma quiet_blacklisted j : quiet (is_blacklisted j).
Proof. eapply (quiet_answers _ (a_is_blacklisted j)). intros. by apply law_is_blacklisted. Qed.
Lemma quiet_has_recent u : quiet (has_recent_auth u).
Proof. eapply (quiet_answers _ (a_has_recent u)). intros. by apply law_has_recent. Qed.

End reads.

#[export] Hint Resolve quiet_find quiet_epoch quiet_blacklisted quiet_has_recent : equiet.

Section services.
Context `{Crypto, DigitSource} {S U : Type} `{StoreView S, OtpStore S, !OtpStoreLaws S}.

Lemma equiet_generate (n : nat) : equiet (OtpService.generate n : E S U string).
Proof.
  induction n as [|n IH]; cbn [generate]; [apply equiet_ret|].
  apply equiet_bind; [|intros; apply equiet_bind; [exact IH | intros; apply equiet_ret]].
  intros w Hr. unfold random_digit. by destruct (draw_digit _ _ _) as [[]|].
Qed.

End services.

#[export] Hint Resolve equiet_generate : equiet.

(** ** Reading a successful run backwards *)

Lemma attempt_inv {S E A} (m : M S E A) (s s' : S) (r : result E A) :
  attempt m s = (Ok r, s') -> m s = (r, s').
Proof. unfold attempt. destruct (m s). by intros [= -> ->]. Qed.

Lemma lift_inv {S E A} (r : result E A) (s s' : S) (a : A) : lift r s = (Ok a, s') -> r = Ok a /\ s' = s.
Proof. unfold lift. by intros [= -> ->]. Qed.

Lemma ret_inv {S E A} (a b : A) (s s' : S) : (mret a : M S E A) s = (Ok b, s') -> b = a /\ s' = s.
Proof. rewrite ret_run. by intros [= -> ->]. Qed.

Lemma from_users_inv {S U F A} (f : F -> AuthError) (m : M U F A) (w w' : World S U) (a : A) :
  from_users f m w = (Ok a, w') -> m (w_users w) = (Ok a, w_users w') /\ w_store w' = w_store w.
Proof. rewrite from_users_run. destruct (m (w_users w)) as [[x|e] u]; [|done]. simpl. by intros [= -> <-]. Qed.

Lemma store_inv {S U A} (m : M S AuthError A) (w w' : World S U) (r : result AuthError A) :
  on_store m w = (r, w') -> m (w_store w) = (r, w_store w') /\ w_users w' = w_users w /\ w_reads w' = w_reads w.
Proof. unfold on_store. destruct (m (w_store w)). by intros [= -> <-]. Qed.

Lemma throw_inv {S E A} (e : E) (s s' : S) (a : A) : throw e s = (Ok a, s') -> False.
Proof. done. Qed.

Ltac einv1 H :=
  lazymatch type of H with
  | (mbind _ _) _ = (Ok _, _) =>
      let x := fresh "x" in let w := fresh "w" in let H1 := fresh "Hrun" in let H2 := fresh "Hrun" in
      apply bind_ok_inv in H; destruct H as (x & w & H1 & H2); einv1 H1; einv1 H2
  | (match ?x with pair _ _ => _ end) _ = (Ok _, _) => destruct x; einv1 H
  | (attempt _) _ = (Ok _, _) => apply attempt_inv in H
  | (lift _) _ = (Ok _, _) => apply lift_inv in H; destruct H as [? ?]; subst
  | (mret _) _ = (Ok _, _) => apply ret_inv in H; destruct H as [? ?]; subst
  | (throw _) _ = (Ok _, _) => exfalso; by apply throw_inv in H
  | _ => idtac
  end.

(** [einv H]: split a successful run into the runs of its calls, in order. *)
Tactic Notation "einv" hyp(H) := einv1 H.
