(* ===== verification/IssueServed.v ===== *)
(** * Issuing a session and enforcing the cap, as the flows compose them *)

From S2P Require Import Prelude Errors Types Crypto Jwt Redis RedisSession SessionSpec SessionStore MfaStore Engine Repository SideStores TokenManager TokenVerify Sessions SessionClaims AuthCore.

Lemma evict_recent (subject : string) (hs : list string) (a : AStore) (u : string) :
  a_recent (a_evict subject hs a) u = a_recent a u.
Proof.
  revert a. induction hs as [|h0 hs IH]; intros a; cbn [a_evict foldl]; [done|].
  change (foldl _ _ hs) with (a_evict subject hs (a_revoke SkDashboard subject h0 a).2).
  rewrite IH. unfold a_revoke. by case_match.
Qed.

Lemma evicted_frame (subject new_hash : string) (limit : Z) (a a' : AStore) (hs : list string) :
  evicted subject new_hash limit a a' hs ->
  (forall u, a_recent a' u = a_recent a u) /\ (forall k s, a_epoch a' k s = a_epoch a k s).
Proof.
  intros (es & a1 & Hl & _ & ->). pose proof (listing_store _ _ _ _ _ Hl) as (_ & _ & He & _).
  destruct Hl as (_ & _ & _ & pruned & _ & Ha1). destruct (evict_frame subject hs a1) as (_ & He' & _).
  split; intros; [rewrite evict_recent; by rewrite (eqv_recent _ _ Ha1) | by rewrite He', He].
Qed.

(** The session the tokens name is the account's own, and is live. *)
Definition serves_session `{Crypto} (user : SafeAuthUser) (mfa_verified : bool) (res : AuthResult) (a : AStore) : Prop :=
  ar_user res = user /\ is_refresh_token_shape (ar_refresh_token res) = true /\
  exists rec, a_find SkDashboard (redis_hash (ar_refresh_token res)) a = Some rec /\
    sr_user_id rec = su_id user /\ sr_tenant_id rec = Some (su_tenant_id user) /\
    sr_role rec = su_role user /\ sr_mfa_enabled rec = su_mfa_enabled user /\ sr_mfa_verified rec = mfa_verified.

Lemma serves_session_equiv `{Crypto} (user : SafeAuthUser) (mfa : bool) (res : AuthResult) (a b : AStore) :
  (forall h, a_find SkDashboard h b = a_find SkDashboard h a) \/ a ≡ b ->
  serves_session user mfa res a -> serves_session user mfa res b.
Proof.
  intros Hab (Hu & Hs & rec & Hf & Hrec). split_and!; [done..|]. exists rec. split; [|done].
  destruct Hab as [Hab|Hab]; [by rewrite Hab | by rewrite <-(a_find_proper _ _ _ _ Hab)].
Qed.

Section served.
Context `{Crypto, HostLaws, Base64, HeaderJson}.
Context `{ClaimsJson DashboardClaims, ClaimsJson PlatformClaims, ClaimsJson MfaTempClaims}.
Context {S U : Type} `{SessionStoreLaws S, UserRepository U}.
Context (en : AuthEngine U).

Lemma issue_serves (user : SafeAuthUser) (ip ua : string) (mfa : bool) (proof : CredentialProof) (w : World S U) (a : AStore) :
  serviceable (S := S) (en_tokens en) -> at_state w a ->
  ewp (issue_tokens (en_tokens en) user ip ua mfa proof)
    (fun r w' => exists res a', r = Ok res /\ at_state w' a' /\ serves_session user mfa res a' /\
       (proof = Proved -> a_has_recent (subject_hash (en_tokens en) SkDashboard (Some (su_tenant_id user)) (su_id user)) a' = true)) w.
Proof.
  intros Hsv Hw. eapply ewp_mono; [by apply issue_tokens_ewp|]. intros r w' (token & _ & -> & Hw').
  do 2 eexists. split; [done|]. split; [exact Hw'|]. split.
  - split_and!; [done | apply generate_secure_token_shape |]. exists (issued_record user ip ua mfa w).
    split; [|done]. cbn. case_match; apply a_find_create.
  - intros ->. rewrite bool_decide_eq_true_2 by done. unfold a_has_recent. cbn. unfold upd1. by rewrite decide_True.
Qed.

Lemma enforce_after_ewp (res : AuthResult) (ip ua : string) (ctx : HookContext) (w : World S U) (a : AStore) :
  at_state w a ->
  ewp (enforce_sessions_after_issue en res ip ua ctx)
    (fun r w' => r = Ok tt /\ exists a', at_state w' a' /\
       a_find SkDashboard (redis_hash (ar_refresh_token res)) a' = a_find SkDashboard (redis_hash (ar_refresh_token res)) a /\
       (forall u, a_has_recent u a' = a_has_recent u a) /\
       (cf_sessions_enabled (en_config en) = true -> exists found, forall live, NoDup live ->
          (forall h, h ∈ live -> is_Some (a_live a' SkDashboard h) /\
             live_member SkDashboard h ∈ members_of (a_index a' SkDashboard
               (SessionService.subject (en_sessions en) (Some (su_tenant_id (ar_user res))) (su_id (ar_user res))))) ->
          (length live <= Z.to_nat (Z.max (limit_of (en_sessions en) found) 1))%nat)) w.
Proof.
  intros Hw. unfold enforce_sessions_after_issue. destruct (cf_sessions_enabled (en_config en)); cbn [negb].
  2: { estep. split; [done|]. exists a. by split_and!. }
  destruct (normalize_session_metadata ua ip) as [device stored_ip]. do 2 estep.
  unfold SessionService.after_session_created. estep. eapply ewp_mono; [apply enforce_ewp; at_here|].
  intros r w1 (-> & a1 & hs & Hw1 & Hev & _). destruct (evicted_spec _ _ _ _ _ _ Hev) as (Hnew & Hlive & Hcap).
  destruct (evicted_frame _ _ _ _ _ _ Hev) as (Hrec & _).
  estep. unfold SessionService.fire_new_session. estep. unfold ewp at 1, on_users.
  set (out := repo_find_by_id _ _ (w_users w1)). destruct out as [found u]. cbn [fst snd].
  assert (Hw2 : at_state (with_users u w1) a1) by exact Hw1.
  destruct found as [[user|]|e]; repeat estep; (split; [done|]; exists a1; split_and!; [exact Hw2 | | | ]);
    try (unfold a_find; rewrite Hlive; by rewrite decide_False by naive_solver);
    try (intros; unfold a_has_recent; by rewrite Hrec); intros _; eexists; exact Hcap.
Qed.

End served.
