(* ===== verification/Login.v ===== *)
(** * Sign-in, sign-out and refresh

    Models [crates/bymax-auth-core/src/services/auth/login.rs],
    [session_ops.rs] and [register.rs]'s peers in [detached.rs]: the login flow
    with its lockout, its uniform refusal and its MFA branch, logout, the
    account-checked refresh, and issuance for a user the host vouches for. *)

From S2P Require Import Prelude Errors Types Crypto Jwt Redis RedisSession SessionSpec SessionStore MfaStore Engine Repository Password SideStores TokenManager Sessions AuthCore.

Record LoginInput : Set := {
  li_email : string;
  li_password : string;
  li_tenant_id : option string;
}.

Record RefreshedSession : Set := { rs_tokens : RotatedTokens; rs_user : SafeAuthUser }.

Definition has_local_hash (user : AuthUser) : bool := bool_decide (is_Some (au_password_hash user)).

(** [Option::filter]. *)
Definition option_filter {A} (p : A -> bool) (o : option A) : option A :=
  match o with Some a => if p a then Some a else None | None => None end.

(** [i64::saturating_sub]. *)
Definition sat_sub (a b : Z) : Z := Z.max i64_min (Z.min i64_max (a - b)).

Definition note_logout_failure (first : option AuthError) (result : result AuthError unit) : option AuthError :=
  match result with
  | Err _ => match first with Some e => Some e | None => Some (internal_error "a logout revocation write failed") end
  | Ok _ => first
  end.

Definition identity_only_context (user_id : string) (email tenant_id : option string) : HookContext := {|
  hc_plane := HpDashboard;
  hc_user_id := Some user_id;
  hc_email := email;
  hc_tenant_id := tenant_id;
  hc_ip := "";
  hc_user_agent := "";
  hc_sanitized_headers := ∅;
|}.

Section flows.
Context `{Crypto, Host, Base64, HeaderJson, UnicodeText, PasswordHashLib}.
Context `{ClaimsJson DashboardClaims, ClaimsJson PlatformClaims, ClaimsJson MfaTempClaims}.
Context {S U : Type} `{SessionStore S, MfaStore S, BruteForceStore S}.
Context `{UserRepository U, AuthHooks U, KdfRuntime U}.
Context (en : AuthEngine U).

Abbreviation Eng := (E S U).
Abbreviation bf := (en_brute_force en).
Abbreviation tm := (en_tokens en).

(** ** Login *)

Definition fire_login_failed (email tenant_id : string) (user_id : option string) (reason : LoginFailureReason)
    (hook_ctx : HookContext) : Eng unit :=
  spawn_hook (OnLoginFailed {| lf_email := email; lf_tenant_id := tenant_id; lf_user_id := user_id; lf_reason := reason |}
                hook_ctx).

Definition fire_lockout_if_crossed (identifier email tenant_id : string) (hook_ctx : HookContext) : Eng unit :=
  crossed ← attempt (BruteForce.is_locked bf identifier);
  match crossed with
  | Ok true =>
      remaining ← attempt (BruteForce.remaining_lockout_secs identifier);
      let retry := match remaining with Ok secs => secs | Err _ => bf_window_secs bf end in
      spawn_hook (OnLockout email tenant_id retry hook_ctx)
  | _ => mret tt
  end.

Definition record_failure_and_reject {T} (identifier : string) (started : Z) (email tenant_id : string)
    (user_id : option string) (hook_ctx : HookContext) : Eng T :=
  _ ← BruteForce.record_failure bf identifier;
  _ ← fire_login_failed email tenant_id user_id LfInvalidCredentials hook_ctx;
  _ ← fire_lockout_if_crossed identifier email tenant_id hook_ctx;
  _ ← normalize_anti_enum started;
  throw InvalidCredentials.

Definition assert_not_locked (identifier : string) : Eng unit :=
  locked ← BruteForce.is_locked bf identifier;
  if locked : bool
  then (retry ← BruteForce.remaining_lockout_secs identifier; throw (AccountLocked (Some retry)))
  else mret tt.

Definition issue_session_result (user : AuthUser) (ip user_agent : string) (hook_ctx : HookContext) : Eng LoginResult :=
  let safe := safe_user user in
  result ← issue_tokens tm safe ip user_agent false Proved;
  _ ← enforce_sessions_after_issue en result ip user_agent hook_ctx;
  _ ← spawn_hook (UpdateLastLogin (su_tenant_id safe) (su_id safe));
  _ ← spawn_hook (AfterLogin safe hook_ctx);
  mret (LoginSuccess result).

(** The rest of [login], once the password is proved. *)
Definition login_proved (email tenant_id identifier password : string) (user : AuthUser) (phc : string)
    (outcome : VerifyOutcome) (ctx : RequestContext) (hook_ctx : HookContext) : Eng LoginResult :=
  match assert_user_not_blocked en (au_status user) with
  | Err error =>
      _ ← fire_login_failed email tenant_id (Some (au_id user)) LfAccountBlocked hook_ctx;
      throw error
  | Ok _ =>
      if cf_verification_required (en_config en) && negb (au_email_verified user) then
        _ ← fire_login_failed email tenant_id (Some (au_id user)) LfEmailNotVerified hook_ctx;
        throw EmailNotVerified
      else
      _ ← BruteForce.reset identifier;
      _ ← (if ps_rehash_on_verify (en_passwords en) && vo_needs_rehash outcome
           then spawn_hook (RehashPassword password (au_tenant_id user) (au_id user) phc) else mret tt);
      if au_mfa_enabled user then
        mfa_temp_token ← issue_mfa_temp_token tm (au_id user) McDashboard (Some (au_tenant_id user));
        mret (LoginMfaChallenge {| ch_mfa_required := true; ch_mfa_temp_token := mfa_temp_token |})
      else issue_session_result user (rc_ip ctx) (rc_user_agent ctx) hook_ctx
  end.

(** The rest of [login], once the lockout and the host's hook let it pass. *)
Definition login_credentials (email tenant_id identifier password : string) (ctx : RequestContext)
    (hook_ctx : HookContext) : Eng LoginResult :=
  started ← instant_now;
  found ← from_users map_repository_error (repo_find_by_email email tenant_id);
  match option_filter has_local_hash (tenant_scoped found tenant_id) with
  | None =>
      _ ← PasswordService.verify_sentinel (en_passwords en) password;
      record_failure_and_reject identifier started email tenant_id None hook_ctx
  | Some user =>
      let phc := default "" (au_password_hash user) in
      outcome ← PasswordService.verify (en_passwords en) password phc;
      if negb (vo_matched outcome)
      then record_failure_and_reject identifier started email tenant_id (Some (au_id user)) hook_ctx
      else login_proved email tenant_id identifier password user phc outcome ctx hook_ctx
  end.

Definition login (input : LoginInput) (ctx : RequestContext) : Eng LoginResult :=
  let email := normalize_email (li_email input) in
  tenant_id ← resolve_tenant en (li_tenant_id input) ctx;
  let identifier := lockout_identifier en tenant_id email in
  let hook_ctx := from_request HpDashboard ctx None (Some email) (Some tenant_id) in
  locked ← attempt (assert_not_locked identifier);
  match locked with
  | Err error =>
      _ ← fire_login_failed email tenant_id None LfLockedOut hook_ctx;
      throw error
  | Ok _ =>
      _ ← from_users (fun _ => Forbidden) (before_login email tenant_id hook_ctx);
      login_credentials email tenant_id identifier (li_password input) ctx hook_ctx
  end.

Definition unlock_account (email tenant_id : string) : Eng unit :=
  BruteForce.reset (lockout_identifier en tenant_id (normalize_email email)).

(** ** Sign-out *)

Definition revoke_logout_session (session_hash : string) (owner : option SessionRecord) (failure : option AuthError) :
    Eng (option AuthError) :=
  let subject := session_subject en SkDashboard (match owner with Some record => sr_tenant_id record | None => None end)
                   (match owner with Some record => sr_user_id record | None => "" end) in
  revoked ← attempt (on_store (SessionStore.revoke_session SkDashboard subject session_hash));
  let revoked := match revoked with Err SessionNotFound => Ok tt | other => other end in
  let failure := note_logout_failure failure revoked in
  grace ← attempt (on_store (SessionStore.delete_grace_pointer SkDashboard session_hash));
  mret (note_logout_failure failure grace).

(** Denylisting the access token presented at sign-out, when it verifies. *)
Definition revoke_logout_access (access_token : string) (failure : option AuthError) : Eng (option AuthError) :=
  verified ← attempt (verify_access_ignoring_expiry tm access_token);
  match verified with
  | Err _ => mret failure
  | Ok claims =>
      now ← now_unix_secs;
      let ttl := Z.max 0 (sat_sub (dc_exp claims) now) in
      revoked ← attempt (revoke_access (dc_jti claims) ttl);
      mret (note_logout_failure failure revoked)
  end.

Definition find_logout_owner (session_hash : option string) : Eng (option SessionRecord) :=
  match session_hash with
  | None => mret None
  | Some hash =>
      found ← attempt (on_store (SessionStore.find_session SkDashboard hash));
      match found with
      | Ok owner => mret owner
      | Err _ => throw (internal_error "a logout could not read its session")
      end
  end.

Definition logout (access_token raw_refresh : string) : Eng unit :=
  let session_hash := if is_refresh_token_shape raw_refresh then Some (redis_hash raw_refresh) else None in
  owner ← find_logout_owner session_hash;
  let user_id := match owner with Some record => sr_user_id record | None => "" end in
  failure ← revoke_logout_access access_token None;
  failure ← match session_hash with
            | Some hash => revoke_logout_session hash owner failure
            | None => mret failure
            end;
  match failure with
  | Some error => throw error
  | None =>
      if bool_decide (user_id = "") then mret tt else
      spawn_hook (AfterLogout user_id
        (identity_only_context user_id None (match owner with Some record => sr_tenant_id record | None => None end)))
  end.

(** ** Refresh *)

Definition revoke_all_sessions (tenant_id user_id : string) : Eng unit :=
  let subject := session_subject en SkDashboard (Some tenant_id) user_id in
  _ ← on_store (SessionStore.revoke_all SkDashboard subject);
  _ ← on_store (SessionStore.bump_epoch SkDashboard subject);
  mret tt.

Definition me (user_id : string) (tenant_id : option string) : Eng SafeAuthUser :=
  found ← from_users map_repository_error (repo_find_by_id user_id tenant_id);
  match found with
  | Some user => mret (safe_user user)
  | None => throw TokenInvalid
  end.

(** The tokens a refresh answers with: signed again when the account's role or
    MFA state moved since the session was written. *)
Definition refreshed_tokens (claims : DashboardClaims) (user : AuthUser) (rotated : RotatedTokens) : Eng RotatedTokens :=
  if bool_decide (dc_role claims = au_role user) && Bool.eqb (dc_mfa_enabled claims) (au_mfa_enabled user) then mret rotated
  else
    access_token ← reissue_access_with_authority tm claims (au_role user) (au_tenant_id user) (au_mfa_enabled user);
    mret {| rt_access_token := access_token; rt_refresh_token := rt_refresh_token rotated |}.

Definition refresh (old_refresh ip user_agent : string) : Eng RefreshedSession :=
  rotated ← reissue_tokens tm old_refresh ip user_agent;
  claims ← verify_access tm (rt_access_token rotated);
  let user_id := dc_sub claims in
  found ← from_users map_repository_error (repo_find_by_id user_id (Some (dc_tenant_id claims)));
  match found with
  | None =>
      _ ← revoke_all_sessions (dc_tenant_id claims) user_id;
      throw TokenInvalid
  | Some user =>
      match assert_user_not_blocked en (au_status user) with
      | Err error =>
          _ ← revoke_all_sessions (au_tenant_id user) user_id;
          throw error
      | Ok _ =>
          if cf_verification_required (en_config en) && negb (au_email_verified user) then throw EmailNotVerified else
          tokens ← refreshed_tokens claims user rotated;
          mret {| rs_tokens := tokens; rs_user := safe_user user |}
      end
  end.

(** ** Issuance without a credential *)

Definition issue_tokens_for_user_id (tenant_id user_id ip user_agent : string) : Eng AuthResult :=
  found ← from_users map_repository_error (repo_find_by_id user_id (Some tenant_id));
  match found with
  | None => throw TokenInvalid
  | Some user =>
      _ ← lift (assert_user_not_blocked en (au_status user));
      if cf_verification_required (en_config en) && negb (au_email_verified user) then throw EmailNotVerified else
      if au_mfa_enabled user then throw MfaRequired else
      let safe := safe_user user in
      result ← issue_tokens tm safe ip user_agent false Unproven;
      let hook_ctx := identity_only_context (su_id safe) (Some (su_email safe)) (Some (su_tenant_id safe)) in
      _ ← enforce_sessions_after_issue en result ip user_agent hook_ctx;
      _ ← spawn_hook (UpdateLastLogin (su_tenant_id safe) (su_id safe));
      _ ← spawn_hook (AfterLogin safe hook_ctx);
      mret result
  end.

End flows.

(** * What login gives away, and whom it lets in *)

(** ** Two runs side by side

    Two worlds that an observer of the answers, of the stores and of the time
    taken cannot tell apart: only the host's own state differs, and what the
    failure hook is told of the account. *)

Definition anonymous (h : HookCall) : HookCall :=
  match h with
  | OnLoginFailed f ctx =>
      OnLoginFailed {| lf_email := lf_email f; lf_tenant_id := lf_tenant_id f; lf_user_id := None; lf_reason := lf_reason f |} ctx
  | other => other
  end.

Record alike {S U} (w1 w2 : World S U) : Prop := {
  al_store : w_store w1 = w_store w2;
  al_draws : w_draws w1 = w_draws w2;
  al_reads : w_reads w1 = w_reads w2;
  al_slept : w_slept w1 = w_slept w2;
  al_hooks : anonymous <$> w_hooks w1 = anonymous <$> w_hooks w2;
}.

(** Run in alike worlds, the two computations answer the same and stay alike. *)
Definition matched {S U A} (m1 m2 : E S U A) : Prop :=
  forall w1 w2, alike w1 w2 -> (m1 w1).1 = (m2 w2).1 /\ alike (m1 w1).2 (m2 w2).2.

Section matching.
Context {S U : Type}.

#[export] Instance alike_equivalence : Equivalence (@alike S U).
Proof.
  split.
  - by intros w.
  - intros w1 w2 []. by split.
  - intros w1 w2 w3 [] []. split; congruence.
Qed.

Lemma matched_bind {A B} (m1 m2 : E S U A) (f1 f2 : A -> E S U B) :
  matched m1 m2 -> (forall a, matched (f1 a) (f2 a)) -> matched (m1 ≫= f1) (m2 ≫= f2).
Proof.
  intros Hm Hf w1 w2 Hw. destruct (Hm w1 w2 Hw) as [Hr Hw']. rewrite !bind_run.
  destruct (m1 w1) as [r1 w1'], (m2 w2) as [r2 w2']. simpl in *. subst r2.
  destruct r1; [by apply Hf | done].
Qed.

Lemma matched_ret {A} (a : A) : matched (mret a : E S U A) (mret a).
Proof. by intros w1 w2 Hw. Qed.

Lemma matched_throw {A} (e : AuthError) : matched (throw e : E S U A) (throw e).
Proof. by intros w1 w2 Hw. Qed.

Lemma matched_lift {A} (r : result AuthError A) : matched (lift r : E S U A) (lift r).
Proof. by intros w1 w2 Hw. Qed.

Lemma matched_attempt {A} (m : E S U A) : matched m m -> matched (attempt m) (attempt m).
Proof.
  intros Hm w1 w2 Hw. destruct (Hm w1 w2 Hw) as [Hr Hw']. unfold attempt.
  destruct (m w1), (m w2). simpl in *. by subst.
Qed.

Lemma matched_store {A} (m : M S AuthError A) : matched (on_store m : E S U A) (on_store m).
Proof.
  intros w1 w2 [Hs Hd Hr Hl Hh]. unfold on_store. rewrite Hs. destruct (m (w_store w2)). by split.
Qed.

Lemma matched_reading {A} (f : nat -> A) : matched (take_reading f : E S U A) (take_reading f).
Proof. intros w1 w2 [Hs Hd Hr Hl Hh]. unfold take_reading. simpl. rewrite Hr. by split. Qed.

Lemma matched_sleep (n : Z) : matched (sleep n : E S U unit) (sleep n).
Proof. intros w1 w2 [Hs Hd Hr Hl Hh]. unfold sleep. simpl. rewrite Hl. by split. Qed.

Lemma matched_hook (h1 h2 : HookCall) : anonymous h1 = anonymous h2 -> matched (spawn_hook h1 : E S U unit) (spawn_hook h2).
Proof.
  intros E w1 w2 [Hs Hd Hr Hl Hh]. unfold spawn_hook. split; [done|].
  split; simpl; [done..|]. by rewrite !fmap_app, Hh; cbn; rewrite E.
Qed.

End matching.

Create HintDb alike discriminated.
#[export] Hint Resolve matched_bind matched_ret matched_throw matched_lift matched_attempt matched_store
  matched_reading matched_sleep matched_hook : alike.

Section refusals.
Context `{Crypto, Host, Base64, HeaderJson, UnicodeText, PasswordHashLib}.
Context `{ClaimsJson DashboardClaims, ClaimsJson PlatformClaims, ClaimsJson MfaTempClaims}.
Context {S U : Type} `{SessionStore S, MfaStore S, BruteForceStore S}.
Context `{UserRepository U, AuthHooks U, KdfRuntime U}.
Context (en : AuthEngine U).

(** The password does not open the account: none of that address in the tenant,
    none with a local password, or one whose hash the password does not match. *)
Definition does_not_open (password tenant_id : string) (found : option AuthUser) : Prop :=
  match option_filter has_local_hash (tenant_scoped found tenant_id) with
  | None => True
  | Some user => verify_phc password (default "" (au_password_hash user)) = false
  end.

(** In host state [u] the look-up answers, the credential fails, and the
    derivation runs. *)
Definition refuses (email tenant_id password : string) (u : U) : Prop :=
  exists found u1 u2 u3, repo_find_by_email email tenant_id u = (Ok found, u1) /\
    does_not_open password tenant_id found /\ kdf_permit u1 = (true, u2) /\ kdf_join u2 = (true, u3).

(** The host lets the attempt through and refuses its credential. *)
Definition attempt_refused (input : LoginInput) (ctx : RequestContext) (tenant_id : string) (w : World S U) : Prop :=
  exists u1 u2,
    resolve_tenant en (li_tenant_id input) ctx w = (Ok tenant_id, with_users u1 w) /\
    before_login (normalize_email (li_email input)) tenant_id
      (from_request HpDashboard ctx None (Some (normalize_email (li_email input))) (Some tenant_id)) u1 = (Ok tt, u2) /\
    refuses (normalize_email (li_email input)) tenant_id (li_password input) u2.

Lemma verify_granted (ps : PasswordService) (password phc : string) (w : World S U) (u2 u3 : U) :
  kdf_permit (w_users w) = (true, u2) -> kdf_join u2 = (true, u3) ->
  PasswordService.verify ps password phc w = (Ok (PasswordService.outcome_of ps password phc), with_users u3 w).
Proof.
  intros Hp Hj. unfold PasswordService.verify, PasswordService.acquire_kdf_permit, PasswordService.on_runtime.
  mrun. rewrite Hp. simpl. rewrite Hj. simpl. destruct w. done.
Qed.

Lemma refused_credentials (email tenant_id identifier password : string) (ctx : RequestContext) (hook_ctx : HookContext)
    (w : World S U) :
  refuses email tenant_id password (w_users w) ->
  exists user_id u3, login_credentials en email tenant_id identifier password ctx hook_ctx w =
    record_failure_and_reject en identifier (clock (w_reads w)) email tenant_id user_id hook_ctx
      (MkWorld (w_store w) u3 (w_draws w) (Datatypes.S (w_reads w)) (w_slept w) (w_hooks w)).
Proof.
  intros (found & u1 & u2 & u3 & Hf & Hno & Hp & Hj). unfold login_credentials.
  rewrite bind_run. change (instant_now w) with (Ok (E := AuthError) (clock (w_reads w)),
    MkWorld (w_store w) (w_users w) (w_draws w) (Datatypes.S (w_reads w)) (w_slept w) (w_hooks w)). cbv beta iota.
  rewrite bind_run, from_users_run. cbn [w_users]. rewrite Hf. cbn [fst snd map_err].
  set (w1 := with_users u1 _). unfold does_not_open in Hno. destruct (option_filter _ _) as [user|].
  - cbv zeta. rewrite (bind_ok _ _ _ _ _ (verify_granted (en_passwords en) password _ w1 u2 u3 Hp Hj)).
    unfold PasswordService.outcome_of, pw_verify. cbn [vo_matched]. rewrite Hno. cbn [negb]. eauto.
  - unfold PasswordService.verify_sentinel.
    rewrite bind_assoc, (bind_ok _ _ _ _ _ (verify_granted (en_passwords en) password _ w1 u2 u3 Hp Hj)).
    rewrite bind_run, ret_run. eauto.
Qed.

Lemma matched_reject {T} (identifier : string) (started : Z) (email tenant_id : string) (id1 id2 : option string)
    (hook_ctx : HookContext) :
  matched (record_failure_and_reject (T := T) en identifier started email tenant_id id1 hook_ctx)
    (record_failure_and_reject en identifier started email tenant_id id2 hook_ctx).
Proof.
  unfold record_failure_and_reject, BruteForce.record_failure, fire_login_failed, normalize_anti_enum, normalize_to_floor,
    fire_lockout_if_crossed, BruteForce.is_locked, BruteForce.remaining_lockout_secs, instant_now.
  repeat first [ progress intros | apply matched_bind | solve [eauto with alike]
               | match goal with |- matched (match ?x with _ => _ end) _ => destruct x end ].
Qed.

Lemma matched_not_locked (identifier : string) :
  matched (assert_not_locked en identifier) (assert_not_locked (S := S) en identifier).
Proof.
  unfold assert_not_locked, BruteForce.is_locked, BruteForce.remaining_lockout_secs.
  repeat first [ progress intros | apply matched_bind | solve [eauto with alike]
               | match goal with |- matched (if ?x then _ else _) _ => destruct x end ].
Qed.

Lemma not_locked_users (identifier : string) (w : World S U) :
  w_users (assert_not_locked en identifier w).2 = w_users w.
Proof.
  unfold assert_not_locked, BruteForce.is_locked, BruteForce.remaining_lockout_secs, on_store. mrun.
  destruct (BruteForce.validate_identifier identifier) as [[]|]; [|done].
  destruct (bf_is_locked _ _ _) as [[[]|] s]; [|done..].
  cbn [w_store with_store]. by destruct (bf_remaining_lockout_secs _ _) as [[] ?].
Qed.

(** A refused attempt, seen from its lockout check on. *)
Definition refusal (email tenant_id : string) (user_id : option string) (hook_ctx : HookContext) : E S U LoginResult :=
  let identifier := lockout_identifier en tenant_id email in
  locked ← attempt (assert_not_locked en identifier);
  match locked with
  | Err error =>
      _ ← fire_login_failed email tenant_id None LfLockedOut hook_ctx;
      throw error
  | Ok _ =>
      started ← instant_now;
      record_failure_and_reject en identifier started email tenant_id user_id hook_ctx
  end.

Lemma refused_login (input : LoginInput) (ctx : RequestContext) (tenant_id : string) (w : World S U) :
  attempt_refused input ctx tenant_id w ->
  let email := normalize_email (li_email input) in
  exists user_id u, 
    let run := refusal email tenant_id user_id (from_request HpDashboard ctx None (Some email) (Some tenant_id)) w in
    (login en input ctx w).1 = run.1 /\ alike (login en input ctx w).2 run.2 /\ w_users (login en input ctx w).2 = u.
Proof.
  intros (u1 & u2 & Hres & Hbef & Href) email. fold email in Hbef, Href.
  set (identifier := lockout_identifier en tenant_id email). set (hook_ctx := from_request _ _ _ _ _) in *.
  assert (Hlogin : login en input ctx w = match assert_not_locked en identifier (with_users u1 w) with
    | (Ok _, w1) => (from_users (fun _ => Forbidden) (before_login email tenant_id hook_ctx) ≫= fun _ =>
                       login_credentials en email tenant_id identifier (li_password input) ctx hook_ctx) w1
    | (Err e, w1) => (fire_login_failed email tenant_id None LfLockedOut hook_ctx ≫= fun _ => throw e) w1 end).
  { unfold login. rewrite bind_run, Hres. cbv beta iota zeta. rewrite bind_run. unfold attempt.
    fold email identifier hook_ctx. by destruct (assert_not_locked en identifier (with_users u1 w)) as [[]]. }
  assert (Href' : forall user_id, refusal email tenant_id user_id hook_ctx w = match assert_not_locked en identifier w with
    | (Ok _, w1) => record_failure_and_reject en identifier (clock (w_reads w1)) email tenant_id user_id hook_ctx
        (MkWorld (w_store w1) (w_users w1) (w_draws w1) (Datatypes.S (w_reads w1)) (w_slept w1) (w_hooks w1))
    | (Err e, w1) => (fire_login_failed email tenant_id None LfLockedOut hook_ctx ≫= fun _ => throw e) w1 end).
  { intros user_id. unfold refusal. cbv zeta. fold identifier. rewrite bind_run. unfold attempt.
    by destruct (assert_not_locked en identifier w) as [[]]. }
  assert (Hw : alike (with_users u1 w) w) by by split.
  destruct (matched_not_locked identifier _ _ Hw) as [Hr Hal].
  pose proof (not_locked_users identifier (with_users u1 w)) as Hu.
  destruct (assert_not_locked en identifier (with_users u1 w)) as [r1 w1], (assert_not_locked en identifier w) as [r2 w2].
  cbn [fst snd w_users with_users] in *. subst r2. destruct r1 as [[]|e].
  - rewrite bind_run, from_users_run, Hu, Hbef in Hlogin. cbn [map_err fst snd] in Hlogin.
    destruct (refused_credentials email tenant_id identifier (li_password input) ctx hook_ctx (with_users u2 w1) Href)
      as (user_id & u3 & Hcred).
    exists user_id. eexists. cbv zeta. rewrite Href', Hlogin, Hcred.
    cbn [w_reads with_users w_store w_draws w_slept w_hooks]. rewrite (al_reads _ _ Hal).
    split_and!; [| | reflexivity]; apply matched_reject; destruct Hal; by split.
  - exists None. eexists. cbv zeta. rewrite Href', Hlogin. split_and!; [done | | reflexivity].
    by apply (matched_hook (OnLoginFailed _ hook_ctx) _ eq_refl).
Qed.

Lemma matched_refusal (email tenant_id : string) (id1 id2 : option string) (hook_ctx : HookContext) :
  matched (refusal email tenant_id id1 hook_ctx) (refusal email tenant_id id2 hook_ctx).
Proof.
  unfold refusal, fire_login_failed, instant_now. cbv zeta.
  repeat first [ progress intros | apply matched_bind | apply matched_attempt | apply matched_not_locked | apply matched_reject
               | solve [eauto with alike] | match goal with |- matched (match ?x with _ => _ end) _ => destruct x end ].
Qed.

End refusals.

