(* ===== verification/LoginSound.v ===== *)
(** * Whom login lets in *)

From S2P Require Import Prelude Errors Types Crypto Jwt Redis RedisSession SessionSpec SessionStore MfaStore Engine Repository Password SideStores TokenManager TokenVerify AccessClaims Sessions SessionClaims AuthCore IssueServed Login.

Section soundness.
Context `{Crypto, Host, Base64, HeaderJson, UnicodeText, PasswordHashLib}.
Context `{ClaimsJson DashboardClaims, ClaimsJson PlatformClaims, ClaimsJson MfaTempClaims}.
Context {S U : Type} `{SessionStoreLaws S, MfaStore S, !MfaQuietLaws S, BruteForceStore S, !BruteForceStoreLaws S}.
Context `{UserRepository U, AuthHooks U, KdfRuntime U}.
Context (en : AuthEngine U).

(** The identifier had fewer failures on record than the ceiling when it was read. *)
Definition under_ceiling (identifier : string) (w : World S U) : Prop :=
  exists s, bf_is_locked identifier (bf_max_attempts (en_brute_force en)) (w_store w) = (Ok false, s).

Lemma not_locked_inv (identifier : string) (w w' : World S U) (r : unit) :
  assert_not_locked en identifier w = (Ok r, w') -> under_ceiling identifier w /\ w_users w' = w_users w.
Proof.
  intros Hrun. pose proof (not_locked_users en identifier w) as Hu. rewrite Hrun in Hu. split; [|done].
  unfold assert_not_locked, BruteForce.is_locked in Hrun. apply bind_ok_inv in Hrun as (locked & w1 & Hl & Hrun). einv Hl.
  match goal with Hs : on_store _ _ = _ |- _ => apply store_inv in Hs as (Hs & _) end.
  destruct locked; [einv Hrun|]. by eexists.
Qed.

Lemma not_locked_valid (identifier : string) (w w' : World S U) (r : unit) :
  assert_not_locked en identifier w = (Ok r, w') -> BruteForce.validate_identifier identifier = Ok tt.
Proof.
  intros Hrun. unfold assert_not_locked, BruteForce.is_locked in Hrun. einv Hrun.
  by destruct (BruteForce.validate_identifier identifier) as [[]|].
Qed.

Lemma verify_inv (ps : PasswordService) (password phc : string) (w w' : World S U) (o : VerifyOutcome) :
  PasswordService.verify ps password phc w = (Ok o, w') -> o = PasswordService.outcome_of ps password phc.
Proof. intros Hrun. unfold PasswordService.verify in Hrun. apply bind_ok_inv in Hrun as (? & w1 & _ & Hrun).
  apply bind_ok_inv in Hrun as (joined & w2 & _ & Hrun). destruct joined; by einv Hrun. Qed.

(** What a proved password still has to pass. *)
Definition usable (user : AuthUser) : Prop :=
  assert_user_not_blocked en (au_status user) = Ok tt /\
  (cf_verification_required (en_config en) = true -> au_email_verified user = true).

Lemma issue_tokens_user (tm : TokenManagerService) (user : SafeAuthUser) (ip ua : string) (mfa : bool) (proof : CredentialProof)
    (w w' : World S U) (res : AuthResult) :
  issue_tokens tm user ip ua mfa proof w = (Ok res, w') -> ar_user res = user.
Proof. intros Hrun. unfold issue_tokens in Hrun. einv Hrun. done. Qed.

Lemma equiet_mfa_temp (tm : TokenManagerService) (user_id : string) (context : MfaContext) (tenant_id : option string) :
  equiet (issue_mfa_temp_token tm user_id context tenant_id : E S U string).
Proof. unfold issue_mfa_temp_token, build_mfa_temp_token. hush. Qed.

Lemma login_proved_inv (email tenant_id identifier password : string) (user : AuthUser) (phc : string) (outcome : VerifyOutcome)
    (ctx : RequestContext) (hook_ctx : HookContext) (w w' : World S U) (result : LoginResult) :
  ready (w_store w) ->
  login_proved en email tenant_id identifier password user phc outcome ctx hook_ctx w = (Ok result, w') ->
  usable user /\
  match result with
  | LoginMfaChallenge _ => au_mfa_enabled user = true /\ stands_for (w_store w') ≡ stands_for (w_store w)
  | LoginSuccess res => au_mfa_enabled user = false /\ ar_user res = safe_user user
  end.
Proof.
  intros Hr Hrun. unfold login_proved in Hrun.
  destruct (assert_user_not_blocked en (au_status user)) as [[]|e] eqn:Hblk; [|einv Hrun].
  destruct (cf_verification_required (en_config en) && negb (au_email_verified user)) eqn:Hver; [einv Hrun|].
  assert (Hu : usable user).
  { split; [done|]. intros Hreq. rewrite Hreq in Hver. by destruct (au_email_verified user). }
  split; [exact Hu|]. destruct (au_mfa_enabled user) eqn:Hmfa.
  - einv Hrun. split; [done|].
    match goal with Ha : BruteForce.reset _ w = _, Hb : _ ?w1 = (Ok _, ?w2), Hc : issue_mfa_temp_token _ _ _ _ ?w2 = _ |- _ =>
      assert (at_state w1 (stands_for (w_store w))) by (eapply equiet_at; [| |exact Ha]; [hush | done]);
      assert (at_state w2 (stands_for (w_store w))) by (eapply equiet_at; [| |exact Hb]; [hush | done]);
      pose proof (equiet_at _ _ _ _ _ (equiet_mfa_temp _ _ _ _) ltac:(eassumption) Hc) as [_ Hq] end.
    exact Hq.
  - unfold issue_session_result in Hrun. einv Hrun. split; [done|]. by eapply issue_tokens_user.
Qed.

End soundness.

(** C2. Login admits only what it checked.  When it answers with anything but an
    error, the tenant is the one the deployment resolved, the lockout counter of
    that tenant and address was under its ceiling, the host's pre-login hook
    agreed, and the repository, asked in the state the hook left, gave an account
    of that very tenant, with a local password that the presented one matches,
    neither blocked nor (where the deployment requires it) unverified.  An
    account with a second factor gets a challenge and no session of anyone
    changes; an account without one gets tokens for exactly its own profile. *)
Theorem login_admits_only_proved
    `{Crypto, Host, Base64, HeaderJson, UnicodeText, PasswordHashLib}
    `{ClaimsJson DashboardClaims, ClaimsJson PlatformClaims, ClaimsJson MfaTempClaims}
    {S U : Type} `{SessionStoreLaws S, MfaStore S, !MfaQuietLaws S, BruteForceStore S, !BruteForceStoreLaws S}
    `{UserRepository U, AuthHooks U, KdfRuntime U}
    (en : AuthEngine U) (input : LoginInput) (ctx : RequestContext) (result : LoginResult) (w w' : World S U) :
  ready (w_store w) -> login en input ctx w = (Ok result, w') ->
  let email := normalize_email (li_email input) in
  exists tenant_id w1 u2 user phc,
    resolve_tenant en (li_tenant_id input) ctx w = (Ok tenant_id, w1) /\
    under_ceiling en (lockout_identifier en tenant_id email) w1 /\
    before_login email tenant_id (from_request HpDashboard ctx None (Some email) (Some tenant_id)) (w_users w1) = (Ok tt, u2) /\
    (repo_find_by_email email tenant_id u2).1 = Ok (Some user) /\
    au_tenant_id user = tenant_id /\ au_password_hash user = Some phc /\ verify_phc (li_password input) phc = true /\
    usable en user /\
    match result with
    | LoginMfaChallenge _ => au_mfa_enabled user = true /\ stands_for (w_store w') ≡ stands_for (w_store w)
    | LoginSuccess res => au_mfa_enabled user = false /\ ar_user res = safe_user user
    end.
Proof.
  intros Hr Hrun email. assert (Hw : at_state w (stands_for (w_store w))) by done.
  unfold login in Hrun. apply bind_ok_inv in Hrun as (tenant_id & w1 & Hres & Hrun). fold email in Hrun.
  assert (Hw1 : at_state w1 (stands_for (w_store w))) by (eapply equiet_at; [| |exact Hres]; [hush | done]).
  apply bind_ok_inv in Hrun as (locked & w2 & Hlock & Hrun). apply attempt_inv in Hlock.
  assert (Hw2 : at_state w2 (stands_for (w_store w)))
    by (eapply equiet_at; [| |exact Hlock]; [unfold assert_not_locked; hush | done]).
  destruct locked as [[]|e]; [|einv Hrun]. apply not_locked_inv in Hlock as [Hceil Hu2].
  apply bind_ok_inv in Hrun as ([] & w3 & Hbef & Hrun). apply from_users_inv in Hbef as [Hbef Hst3]. rewrite Hu2 in Hbef.
  unfold login_credentials in Hrun. apply bind_ok_inv in Hrun as (started & w4 & [= <- <-] & Hrun).
  apply bind_ok_inv in Hrun as (found & w5 & Hfind & Hrun). apply from_users_inv in Hfind as [Hfind Hst5]. cbn in Hfind, Hst5.
  destruct (option_filter has_local_hash (tenant_scoped found tenant_id)) as [user|] eqn:Hopt.
  2: { unfold PasswordService.verify_sentinel, record_failure_and_reject in Hrun. einv Hrun. }
  apply bind_ok_inv in Hrun as (outcome & w6 & Hver & Hrun).
  assert (Hw6 : at_state w6 (stands_for (w_store w))).
  { eapply equiet_at; [| |exact Hver]; [hush|]. unfold at_state. by rewrite Hst5, Hst3. }
  destruct (negb (vo_matched outcome)) eqn:Hm; [unfold record_failure_and_reject in Hrun; einv Hrun|].
  apply verify_inv in Hver as ->. apply negb_false_iff in Hm. cbn in Hm.
  unfold tenant_scoped, option_filter in Hopt. destruct found as [user'|]; [|done]. case_bool_decide as Ht; [|done].
  unfold has_local_hash in Hopt. case_bool_decide as Hh; [|done]. injection Hopt as ->. destruct Hh as [phc Hphc].
  rewrite Hphc in Hm, Hrun. cbn in Hm, Hrun.
  destruct (login_proved_inv en _ _ _ _ _ _ _ _ _ _ _ _ (proj1 Hw6) Hrun) as [Huse Hout].
  exists tenant_id, w1, (w_users w3), user, phc. rewrite Hfind. split_and!; try done.
  destruct result; destruct Hout as [Hmfa Hout]; (split; [exact Hmfa|]); first [exact Hout | rewrite Hout; apply Hw6].
Qed.

(** ** Whom login must let in *)

(** Every check of an attempt passes, in the host states they are made in. *)
Record login_granted `{Crypto, UnicodeText, PasswordHashLib} {S U : Type}
    `{BruteForceStore S, UserRepository U, AuthHooks U, KdfRuntime U} (en : AuthEngine U)
    (input : LoginInput) (ctx : RequestContext) (tenant_id : string) (user : AuthUser) (w : World S U) : Prop := {
  lg_host : exists u1 w2 u2 u3 u4 u5,
    let email := normalize_email (li_email input) in
    resolve_tenant en (li_tenant_id input) ctx w = (Ok tenant_id, with_users u1 w) /\
    assert_not_locked en (lockout_identifier en tenant_id email) (with_users u1 w) = (Ok tt, w2) /\
    before_login email tenant_id (from_request HpDashboard ctx None (Some email) (Some tenant_id)) (w_users w2) = (Ok tt, u2) /\
    repo_find_by_email email tenant_id u2 = (Ok (Some user), u3) /\
    kdf_permit u3 = (true, u4) /\ kdf_join u4 = (true, u5);
  lg_tenant : au_tenant_id user = tenant_id;
  lg_password : exists phc, au_password_hash user = Some phc /\ verify_phc (li_password input) phc = true;
  lg_usable : usable en user;
}.

Section liveness.
Context `{Crypto, HostLaws, Base64Laws, HeaderJsonLaws, UnicodeText, PasswordHashLib}.
Context `{ClaimsJson DashboardClaims, ClaimsJson PlatformClaims, ClaimsJsonLaws MfaTempClaims}.
Context {S U : Type} `{SessionStoreLaws S, MfaStore S, MfaView S, !MfaStoreLaws S, BruteForceStore S, !BruteForceStoreLaws S}.
Context `{UserRepository U, AuthHooks U, KdfRuntime U}.
Context (en : AuthEngine U).

Lemma reset_ewp (identifier : string) (w : World S U) (a : AStore) (Q : result AuthError unit -> World S U -> Prop) :
  BruteForce.validate_identifier identifier = Ok tt -> at_state w a ->
  (forall w', at_state w' a -> Q (Ok tt) w') -> ewp (BruteForce.reset identifier) Q w.
Proof.
  intros Hv Hw HQ. unfold BruteForce.reset. rewrite Hv. estep. estep. eapply (ewp_quiet _ _ _ a); [exact Hw | hush |].
  intros r w' Hrun Hw'. apply store_inv in Hrun as (Hs & _). pose proof (reset_served identifier _ (proj1 Hw)) as Hok.
  rewrite Hs in Hok. cbn in Hok. subst r. by apply HQ.
Qed.

Lemma issue_session_ewp (user : AuthUser) (ip ua : string) (ctx : HookContext) (w : World S U) (a : AStore) :
  serviceable (S := S) (en_tokens en) -> at_state w a ->
  ewp (issue_session_result en user ip ua ctx)
    (fun r w' => exists res a', r = Ok (LoginSuccess res) /\ at_state w' a' /\ serves_session (safe_user user) false res a') w.
Proof.
  intros Hsv Hw. unfold issue_session_result. estep. eapply ewp_mono; [by apply (issue_serves en _ _ _ _ _ _ a)|].
  intros r w1 (res & a1 & -> & Hw1 & Hserve & _). cbv beta iota. estep.
  eapply ewp_mono; [by apply (enforce_after_ewp en _ _ _ _ _ a1)|]. intros r w2 (-> & a2 & Hw2 & Hfind & _). cbv beta iota.
  do 5 estep. exists res, a2. split_and!; [done | exact Hw2 |].
  destruct Hserve as (Hu & Hs & rec & Hf & Hrec). split_and!; [done..|]. exists rec. by rewrite Hfind.
Qed.

Lemma login_proved_ewp (email tenant_id identifier password : string) (user : AuthUser) (phc : string) (outcome : VerifyOutcome)
    (ctx : RequestContext) (hook_ctx : HookContext) (w : World S U) (a : AStore) :
  serviceable (S := S) (en_tokens en) -> tm_mfa (en_tokens en) = true -> BruteForce.validate_identifier identifier = Ok tt ->
  usable en user -> au_tenant_id user <> "" -> at_state w a ->
  ewp (login_proved en email tenant_id identifier password user phc outcome ctx hook_ctx)
    (fun r (w' : World S U) => exists result, r = Ok result /\ ready (w_store w') /\
       match result with
       | LoginMfaChallenge ch => au_mfa_enabled user = true
       | LoginSuccess res => au_mfa_enabled user = false /\ serves_session (safe_user user) false res (stands_for (w_store w'))
       end) w.
Proof.
  intros Hsv Hmfa Hid [Hblk Hver] Hten Hw. unfold login_proved. rewrite Hblk.
  destruct (cf_verification_required (en_config en) && negb (au_email_verified user)) eqn:Hv.
  { destruct (cf_verification_required (en_config en)); [|done]. by rewrite Hver in Hv. }
  estep. eapply reset_ewp; [exact Hid | exact Hw |]. intros w1 Hw1. cbv beta iota. estep.
  eapply (ewp_quiet _ _ _ a); [exact Hw1 | hush |]. intros r w2 Hrun2 Hw2.
  assert (r = Ok tt) as -> by (destruct (_ && _) in Hrun2; by injection Hrun2).
  destruct (au_mfa_enabled user).
  - estep. eapply ewp_mono; [apply (issue_mfa_ewp (en_tokens en) _ _ _ _ a); try done; by destruct (au_tenant_id user)|].
     intros r w3 (token & -> & _ & Hw3 & _). cbv beta iota. estep.
    eexists. split_and!; [done | apply Hw3 | done].
  - eapply ewp_mono; [by apply (issue_session_ewp _ _ _ _ _ a)|]. intros r w3 (res & a3 & -> & Hw3 & Hserve).
    eexists. split_and!; [done | apply Hw3 |]; split; [done|]. eapply serves_session_equiv; [|exact Hserve]. right. symmetry. apply Hw3.
Qed.

End liveness.

