(* ===== verification/LoginLockout.v ===== *)
(** * Lockout, end to end over Redis

    The failure counter of [StoreClaims] under the login flow: as many refused
    sign-ins as the ceiling allows, inside one window, and the account's address
    is locked, the right password included. *)

From S2P Require Import Prelude Errors Types Crypto Jwt Redis RedisSession SessionSpec SessionStore RedisStores StoreClaims MfaStore Engine Repository Password SideStores TokenManager Sessions AuthCore Login.

Section lockout.
Context `{CryptoLaws, Host, Base64, HeaderJson, UnicodeText, PasswordHashLib}.
Context `{ClaimsJson DashboardClaims, ClaimsJson PlatformClaims, ClaimsJson MfaTempClaims}.
Context {U : Type} `{SessionStore Redis, MfaStore Redis, UserRepository U, AuthHooks U, KdfRuntime U}.
Context (ns : string) (en : AuthEngine U) (email tenant_id : string).

#[local] Existing Instance redis_brute_force_store.
#[local] Instance counters : BruteForceStore Redis := redis_brute_force_store ns.

Abbreviation identifier := (lockout_identifier en tenant_id email).
Abbreviation max := (bf_max_attempts (en_brute_force en)).
Abbreviation window := (bf_window_secs (en_brute_force en)).

Lemma identifier_valid : BruteForce.validate_identifier identifier = Ok tt.
Proof. apply hex_identifier_valid. rewrite hmac_sha256_length. lia. Qed.

(** The counter under the address: [n] failures, counted until [e]. *)
Definition failures (r : Redis) (n e : Z) : Prop :=
  r_pool r = [] /\ if bool_decide (n = 0) then no_failures ns identifier r else counts ns identifier r n e.

Lemma failures_locked (r : Redis) (n e : Z) :
  failures r n e -> 0 <= n <= i64_max -> 0 < max -> bf_is_locked identifier max r = (Ok (bool_decide (max <= n)), r).
Proof.
  intros [Hp Hf] Hn Hm. cbn. case_bool_decide as Hz.
  - subst n. rewrite locked_none by done. done.
  - by apply (locked_counts ns identifier r n e).
Qed.

Lemma failures_next (r : Redis) (n e : Z) :
  failures r n e -> 0 <= n < i64_max -> 0 < window ->
  exists r', bf_record_failure identifier window r = (Ok (n + 1), r') /\ r_now r' = r_now r /\
    failures r' (n + 1) (if bool_decide (n = 0) then r_now r + window * 1000 else e).
Proof.
  intros [Hp Hf] Hn Hw. cbn. case_bool_decide as Hz.
  - subst n. destruct (first_failure ns identifier r window Hp Hf Hw) as (r' & Hr & Hp' & Hn' & Hc). by exists r'.
  - destruct (next_failure ns identifier r window n e Hp Hf) as (r' & Hr & Hp' & Hn' & Hc); [lia|].
    exists r'. split_and!; [done..|]. split; [done|]. by rewrite bool_decide_eq_false_2 by lia.
Qed.

Lemma remaining_run (r : Redis) :
  r_pool r = [] -> exists secs, bf_remaining_lockout_secs identifier r = (Ok secs, r) /\
    (forall n e, counts ns identifier r n e -> 0 <= e - r_now r -> secs = (e - r_now r + 500) / 1000).
Proof.
  intros Hp. cbn. unfold remaining_lockout_secs, remaining_lockout_secs_inner, served, catch_map.
  unfold mbind, M_bind, connection. rewrite Hp. unfold cmd_ttl, mret, M_ret. cbn [map_err].
  eexists. split; [done|]. intros n e Hc He. unfold counts in Hc. rewrite Hc. cbn [re_expire].
  rewrite bool_decide_eq_true_2; [done|]. apply Z.div_pos; lia.
Qed.

Lemma not_locked_failures (n e : Z) (w : World Redis U) :
  failures (w_store w) n e -> 0 <= n <= i64_max -> 0 < max ->
  if bool_decide (max <= n)
  then exists secs, assert_not_locked en identifier w = (Err (AccountLocked (Some secs)), w) /\
         (n <> 0 -> 0 <= e - r_now (w_store w) -> secs = (e - r_now (w_store w) + 500) / 1000)
  else assert_not_locked en identifier w = (Ok tt, w).
Proof.
  intros Hf Hn Hm. pose proof (failures_locked _ _ _ Hf Hn Hm) as Hl.
  unfold assert_not_locked, BruteForce.is_locked, BruteForce.remaining_lockout_secs. rewrite identifier_valid.
  destruct (remaining_run (w_store w) (proj1 Hf)) as (secs & Hs & Hsecs).
  mrun. unfold on_store. rewrite Hl. destruct w as [s u d i sl h]. cbn [w_store with_store w_users w_draws w_reads w_slept w_hooks] in *.
  case_bool_decide; [|done].
  cbn [w_store with_store]. rewrite Hs. exists secs. split; [done|]. intros Hz He.
  destruct Hf as [_ Hf]. rewrite bool_decide_eq_false_2 in Hf by done. eauto.
Qed.

(** A refused attempt below the ceiling counts one more failure. *)
Lemma refusal_counts (n e : Z) (user_id : option string) (hook_ctx : HookContext) (w : World Redis U) :
  failures (w_store w) n e -> 0 <= n < max -> max <= i64_max -> 0 < window ->
  exists r', (refusal en email tenant_id user_id hook_ctx w).1 = Err InvalidCredentials /\
    w_store (refusal en email tenant_id user_id hook_ctx w).2 = r' /\ r_now r' = r_now (w_store w) /\
    failures r' (n + 1) (if bool_decide (n = 0) then r_now (w_store w) + window * 1000 else e).
Proof.
  intros Hf Hn Hm Hw. destruct (failures_next _ _ _ Hf) as (r' & Hrec & Hnow & Hf'); [lia | done |].
  pose proof (not_locked_failures n e w Hf) as Hl. rewrite bool_decide_eq_false_2 in Hl by lia. specialize (Hl ltac:(lia) ltac:(lia)).
  pose proof (failures_locked r' (n + 1) _ Hf') as Hl'. specialize (Hl' ltac:(lia) ltac:(lia)).
  destruct (remaining_run r' (proj1 Hf')) as (secs & Hsecs & _).
  exists r'. unfold refusal. cbv zeta. rewrite bind_run. unfold attempt at 1 2. rewrite Hl. cbv beta iota.
  unfold record_failure_and_reject, BruteForce.record_failure, fire_lockout_if_crossed, BruteForce.is_locked,
    BruteForce.remaining_lockout_secs, on_store, fire_login_failed. rewrite identifier_valid. mrun.
  cbn [w_store instant_now take_reading]. rewrite Hrec. cbn [with_store w_store spawn_hook w_users w_draws w_reads w_slept w_hooks].
  rewrite Hl'. destruct (bool_decide (max <= n + 1)); cbn [with_store w_store]; rewrite ?Hsecs; done.
Qed.

(** Refused attempts, with the wait after each. *)
Inductive refused_run : list Z -> World Redis U -> World Redis U -> Prop :=
| rr_nil w : refused_run [] w w
| rr_cons input ctx ms delays w w' :
    normalize_email (li_email input) = email -> attempt_refused en input ctx tenant_id w ->
    let w1 := (login en input ctx w).2 in
    refused_run delays (with_store (advance ms (w_store w1)) w1) w' ->
    refused_run (ms :: delays) w w'.

Lemma failures_wait (ms n e : Z) (r : Redis) :
  0 < n -> failures r n e -> r_now r + Z.max 0 ms <= e -> failures (advance ms r) n e.
Proof.
  intros Hn [Hp Hf] He. split; [done|]. rewrite bool_decide_eq_false_2 in Hf |- * by lia.
  pose proof (counts_advance ns identifier r n e ms Hf) as Ha. by rewrite bool_decide_eq_false_2 in Ha by lia.
Qed.

Lemma refused_run_counts (delays : list Z) (w w' : World Redis U) :
  refused_run delays w w' -> Forall (Z.le 0) delays -> 0 < window -> max <= i64_max ->
  forall n e, 0 <= n -> n + Z.of_nat (length delays) <= max -> failures (w_store w) n e ->
    (if bool_decide (n = 0) then total delays <= window * 1000 else r_now (w_store w) + total delays <= e) ->
    exists e', (delays <> [] \/ n <> 0 -> failures (w_store w') (n + Z.of_nat (length delays)) e') /\
      r_now (w_store w') = r_now (w_store w) + total delays /\
      e' = if bool_decide (n = 0) then r_now (w_store w) + window * 1000 else e.
Proof.
  intros Hrun Hd Hwin Hmax. induction Hrun as [w|input ctx ms delays w w' He Hatt w1 Hrun IH]; intros n e Hn Hlen Hf Hlim.
  { eexists. split_and!; [|cbn; lia | done]. intros [?|?]; [done|]. rewrite Z.add_0_r.
    by rewrite (bool_decide_eq_false_2 (n = 0)) by done. }
  apply Forall_cons_1 in Hd as [Hms Hd]. cbn [total length] in *.
  assert (Hsum : 0 <= total delays).
  { clear -Hd. induction delays as [|m ds IHd]; simpl; [done|]. apply Forall_cons_1 in Hd as [Hm Hd]. specialize (IHd Hd). lia. }
  destruct (refused_login en input ctx tenant_id w Hatt) as (user_id & u & _ & Hal & _). rewrite He in Hal.
  destruct (refusal_counts n e user_id (from_request HpDashboard ctx None (Some email) (Some tenant_id)) w Hf)
    as (r' & _ & Hst & Hnow & Hf'); [lia | lia | lia |].
  set (e' := if bool_decide (n = 0) then r_now (w_store w) + window * 1000 else e) in *.
  assert (Hw1 : w_store w1 = r') by (unfold w1; by rewrite (al_store _ _ Hal)).
  assert (Hend : r_now r' + Z.max 0 ms + total delays <= e') by (unfold e'; case_bool_decide; lia).
  destruct (IH Hd (n + 1) e') as (e2 & Hf2 & Hn2 & He2); [lia | lia | cbn; rewrite Hw1; apply failures_wait; [lia | done | lia] | |].
  { rewrite bool_decide_eq_false_2 by lia. cbn. rewrite Hw1. lia. }
  rewrite bool_decide_eq_false_2 in He2 by lia. subst e2. exists e'. split_and!; [|cbn in Hn2; rewrite Hw1 in Hn2; lia | done].
  intros _. replace (n + Z.of_nat (Datatypes.S (length delays))) with (n + 1 + Z.of_nat (length delays)) by lia. apply Hf2. lia.
Qed.

(** [login] with its failures counted in the namespace [ns]. *)
Definition login_over : LoginInput -> RequestContext -> E Redis U LoginResult := login en.

End lockout.

(** C22. Failed sign-ins lock the address, the right password included.  Over
    Redis, when no failure is on record and as many attempts as the ceiling
    allows are refused for one tenant and address, whatever passwords they tried
    and however they were spread inside the window, every further attempt until
    the window ends, with any password, is answered as locked, with the seconds
    left; it touches neither the repository nor the key derivation, and leaves
    the counter alone, so that it cannot extend the lock. *)
Theorem failed_logins_lock
    `{CryptoLaws, Host, Base64, HeaderJson, UnicodeText, PasswordHashLib}
    `{ClaimsJson DashboardClaims, ClaimsJson PlatformClaims, ClaimsJson MfaTempClaims}
    {U : Type} `{SessionStore Redis, MfaStore Redis, UserRepository U, AuthHooks U, KdfRuntime U}
    (ns : string) (en : AuthEngine U) (tenant_id : string) (delays : list Z) (input : LoginInput) (ctx : RequestContext)
    (w w' : World Redis U) (u : U) :
  let email := normalize_email (li_email input) in
  let identifier := lockout_identifier en tenant_id email in
  let window := bf_window_secs (en_brute_force en) in
  0 < window -> bf_max_attempts (en_brute_force en) = Z.of_nat (length delays) -> 0 < Z.of_nat (length delays) <= i64_max ->
  Forall (Z.le 0) delays -> total delays <= window * 1000 ->
  r_pool (w_store w) = [] -> no_failures ns identifier (w_store w) ->
  refused_run ns en email tenant_id delays w w' ->
  resolve_tenant en (li_tenant_id input) ctx w' = (Ok tenant_id, with_users u w') ->
  exists secs w2, login_over ns en input ctx w' = (Err (AccountLocked (Some secs)), w2) /\
    secs = (window * 1000 - total delays + 500) / 1000 /\ w_users w2 = u /\ w_store w2 = w_store w'.
Proof.
  intros email identifier window Hwin Hmax Hlen Hd Htot Hp Hno Hrun Hres.
  destruct (refused_run_counts ns en email tenant_id delays w w' Hrun Hd Hwin ltac:(lia) 0 0) as (e' & Hf & Hnow & ->);
    [lia | lia | by split | done |].
  specialize (Hf ltac:(left; destruct delays; [cbn in Hlen; lia | done])). cbn [bool_decide decide_rel] in Hf. rewrite Z.add_0_l in Hf.
  pose proof (not_locked_failures ns en email tenant_id _ _ (with_users u w') Hf ltac:(lia) ltac:(lia)) as Hl.
  rewrite bool_decide_eq_true_2 in Hl by lia. destruct Hl as (secs & Hl & Hsecs). exists secs. eexists.
  unfold login_over, login. rewrite (bind_ok _ _ _ _ _ Hres). cbv zeta. rewrite bind_run. unfold attempt.
  fold email. rewrite Hl. cbv beta iota. rewrite bind_run. cbn. split_and!; [done | | done | done].
  rewrite Hsecs; [f_equal; cbn; rewrite Hnow; fold window; lia | lia | cbn; rewrite Hnow; fold window; lia].
Qed.
