(* ===== verification/SessionOps.v ===== *)
(** * What sign-out ends and what a refresh re-checks *)

From S2P Require Import Prelude Errors Types Crypto Jwt Redis RedisSession SessionSpec SessionStore Lineage MfaStore Engine Repository Password SideStores TokenManager TokenVerify TokenRotate RotationClaims EngineLife AccessClaims Sessions SessionClaims AuthCore Login LoginSound.

Section rules.
Context {S U : Type} `{SessionStoreLaws S} (w : World S U) (a : AStore) (Hw : at_state w a).

Lemma ewp_revoke_all (k : SessionKind) (subject : string) Q :
  (forall s', at_state (with_store s' w) (a_revoke_all k subject a) -> Q (Ok tt) (with_store s' w)) ->
  ewp (on_store (revoke_all k subject)) Q w.
Proof.
  destruct Hw as [Hr Hs]. intros HQ.
  eapply ewp_answers; [eapply answers_equiv; [by apply a_revoke_all_proper | by apply law_revoke_all] | exact HQ].
Qed.

Lemma ewp_delete_grace (k : SessionKind) (h : string) Q :
  (forall s', at_state (with_store s' w) (a_delete_grace k h a) -> Q (Ok tt) (with_store s' w)) ->
  ewp (on_store (delete_grace_pointer k h)) Q w.
Proof.
  destruct Hw as [Hr Hs]. intros HQ.
  eapply ewp_answers; [eapply answers_equiv; [by apply a_delete_grace_proper | by apply law_delete_grace] | exact HQ].
Qed.

Lemma ewp_blacklist (j : string) (ttl : Z) Q :
  0 <= ttl ->
  (forall s', at_state (with_store s' w) (a_blacklist j ttl a) -> Q (Ok tt) (with_store s' w)) ->
  ewp (on_store (blacklist_access j ttl)) Q w.
Proof.
  destruct Hw as [Hr Hs]. intros Ht HQ.
  eapply ewp_answers; [eapply answers_equiv; [by apply a_blacklist_proper | by apply law_blacklist] | exact HQ].
Qed.

End rules.

(** Verification reads the clock and does nothing else. *)
Section clock_only.
Context `{Crypto, Host, Base64, HeaderJson} {C : Type} `{JwtClaims C, ClaimsJson C} {S U : Type}.

Definition only_reads (w w' : World S U) : Prop :=
  (w_reads w <= w_reads w')%nat /\ w' = MkWorld (w_store w) (w_users w) (w_draws w) (w_reads w') (w_slept w) (w_hooks w).

Lemma verify_previous_reads (token : string) (keys : list string) (opts : VerifyOptions) (current : result JwtError C)
    (w : World S U) : only_reads w (verify_previous token keys opts current w).2.
Proof.
  revert w. induction keys as [|key keys IH]; intros w; cbn [verify_previous].
  - destruct w. by split.
  - rewrite bind_run. unfold try_verify, take_reading. destruct (Jwt.verify _ _ _ _); cbn.
    + split; cbn; [lia | done].
    + destruct (IH (MkWorld (w_store w) (w_users w) (w_draws w) (Datatypes.S (w_reads w)) (w_slept w) (w_hooks w))) as [Hle Heq].
      split; [cbn in Hle; lia | exact Heq].
Qed.

Lemma verify_rotating_with_reads (tm : TokenManagerService) (token : string) (opts : VerifyOptions) (w : World S U) :
  only_reads w (verify_rotating_with (C := C) tm token opts w).2.
Proof.
  unfold verify_rotating_with. rewrite bind_run. unfold try_verify at 1, take_reading at 1.
  destruct (Jwt.verify _ _ _ _); cbn.
  - split; cbn; [lia | done].
  - match goal with |- only_reads _ (verify_previous ?t ?k ?o ?c ?w1).2 => destruct (verify_previous_reads t k o c w1) as [Hle Heq] end.
    split; [cbn in Hle; lia | exact Heq].
Qed.

Lemma verify_previous_same (token : string) (keys : list string) (opts : VerifyOptions) (current : result JwtError C)
    (w1 w2 : World S U) :
  w_reads w1 = w_reads w2 ->
  (verify_previous token keys opts current w1).1 = (verify_previous token keys opts current w2).1.
Proof.
  revert w1 w2. induction keys as [|key keys IH]; intros w1 w2 Hw; cbn [verify_previous]; [done|].
  rewrite !bind_run. unfold try_verify, take_reading. rewrite Hw. destruct (Jwt.verify _ _ _ _); [done|].
  apply IH. cbn. lia.
Qed.

Lemma verify_rotating_with_same (tm : TokenManagerService) (token : string) (opts : VerifyOptions) (w1 w2 : World S U) :
  w_reads w1 = w_reads w2 ->
  (verify_rotating_with (C := C) tm token opts w1).1 = (verify_rotating_with tm token opts w2).1.
Proof.
  intros Hw. unfold verify_rotating_with. rewrite !bind_run. unfold try_verify, take_reading. rewrite Hw.
  destruct (Jwt.verify _ _ _ _); [done|]. apply verify_previous_same. cbn. lia.
Qed.

End clock_only.

Section logout.
Context `{Crypto, Host, Base64, HeaderJson}.
Context `{ClaimsJson DashboardClaims, ClaimsJson PlatformClaims, ClaimsJson MfaTempClaims}.
Context {S U : Type} `{SessionStoreLaws S}.
Context (en : AuthEngine U).

(** The claims of a token some configured key signed, expired or not. *)
Definition signed_claims_of (token : string) (w : World S U) : option DashboardClaims :=
  match (verify_rotating_with (en_tokens en) token ignoring_expiry w).1 with Ok (Ok claims) => Some claims | _ => None end.

Lemma signed_claims_same (token : string) (w1 w2 : World S U) :
  w_reads w1 = w_reads w2 -> signed_claims_of token w1 = signed_claims_of token w2.
Proof. intros Hw. unfold signed_claims_of. by rewrite (verify_rotating_with_same _ _ _ _ _ Hw). Qed.

(** The denylist after a sign-out that presented [claims] at second [now]. *)
Definition denylisted (claims : option DashboardClaims) (now : Z) (a : AStore) : AStore :=
  match claims with
  | None => a
  | Some c => a_blacklist (dc_jti c) (Z.max 0 (sat_sub (dc_exp c) now)) a
  end.

Lemma revoke_access_ewp (token : string) (w : World S U) (a : AStore) :
  at_state w a ->
  ewp (revoke_logout_access en token None)
    (fun r w' => r = Ok None /\ exists i, (w_reads w <= i)%nat /\
       at_state w' (denylisted (signed_claims_of token w) (unix_timestamp (clock i)) a) /\ w_hooks w' = w_hooks w) w.
Proof.
  intros Hw. unfold revoke_logout_access. estep. apply ewp_attempt. unfold verify_access_ignoring_expiry. estep.
  pose proof (verify_rotating_with_reads (C := DashboardClaims) (en_tokens en) token ignoring_expiry w) as Hreads.
  unfold signed_claims_of. unfold ewp at 1.
  destruct (verify_rotating_with_spec (C := DashboardClaims) (en_tokens en) token ignoring_expiry w) as (r & w1 & Hrun & Hst & _).
  rewrite Hrun in *. cbn [fst snd] in *. destruct Hreads as [Hle Hw1].
  assert (Hat : at_state w1 a) by (unfold at_state; by rewrite Hst).
  assert (Hh : w_hooks w1 = w_hooks w) by by rewrite Hw1.
  destruct r as [claims|e]; cbn [map_err]; estep.
  - estep. estep. estep. apply ewp_attempt. unfold revoke_access. eapply ewp_blacklist; [at_here | lia |].
    intros s' Hs'. cbv beta iota. estep. split; [done|]. exists (w_reads w1). split_and!; [lia | exact Hs' | done].
  - estep. split; [done|]. exists (w_reads w). split_and!; [lia | exact Hat | done].
Qed.

(** The sessions after a sign-out with the refresh token of [h]. *)
Definition logged_out (h subject : string) (a : AStore) : AStore :=
  a_delete_grace SkDashboard h (a_revoke SkDashboard subject h a).2.

Lemma revoke_logout_session_ewp (h : string) (owner : option SessionRecord) (w : World S U) (a : AStore) :
  at_state w a ->
  let subject := session_subject en SkDashboard (match owner with Some record => sr_tenant_id record | None => None end)
                   (match owner with Some record => sr_user_id record | None => "" end) in
  ewp (revoke_logout_session en h owner None)
    (fun r w' => r = Ok None /\ at_state w' (logged_out h subject a) /\ w_hooks w' = w_hooks w) w.
Proof.
  intros Hw subject. unfold revoke_logout_session. estep. apply ewp_attempt. eapply ewp_revoke; [exact Hw|].
  intros r s' Hr Hw1. cbv beta iota. estep. apply ewp_attempt. eapply ewp_delete_grace; [exact Hw1|].
  intros s2 Hw2. cbv beta iota. estep. split_and!; [|exact Hw2 | done]. by destruct Hr as [-> | ->].
Qed.

Lemma logout_ewp (access_token raw : string) (w : World S U) (a : AStore) :
  is_refresh_token_shape raw = true -> at_state w a ->
  let h := redis_hash raw in
  let owner := a_find SkDashboard h a in
  let tenant := match owner with Some record => sr_tenant_id record | None => None end in
  let user_id := match owner with Some record => sr_user_id record | None => "" end in
  ewp (logout en access_token raw)
    (fun r w' => r = Ok tt /\ (exists i, (w_reads w <= i)%nat /\
       at_state w' (logged_out h (session_subject en SkDashboard tenant user_id)
                      (denylisted (signed_claims_of access_token w) (unix_timestamp (clock i)) a))) /\
       w_hooks w' = w_hooks w ++ (if bool_decide (user_id = "") then []
                                  else [AfterLogout user_id (identity_only_context user_id None tenant)])) w.
Proof.
  intros Hshape Hw h owner tenant user_id. unfold logout. rewrite Hshape. cbv zeta. fold h. estep.
  unfold find_logout_owner. estep. apply ewp_attempt. eapply ewp_find; [exact Hw|]. intros s1 Hw1. cbv beta iota. fold owner.
  estep. cbv zeta. fold tenant user_id. estep. eapply ewp_mono; [by apply (revoke_access_ewp _ _ a)|].
  intros r w2 (-> & i & Hi & Hw2 & Hh2). cbv beta iota. 
  rewrite (signed_claims_same _ _ w) in Hw2 by done.
  estep. eapply ewp_mono; [eapply revoke_logout_session_ewp; exact Hw2|]. intros r w3 (-> & Hw3 & Hh3). cbv beta iota.
  case_bool_decide; estep; (split; [done|]); (split; [exists i; split; [exact Hi | exact Hw3]|]);
    cbn; rewrite Hh3, Hh2; [by rewrite app_nil_r | done].
Qed.

End logout.


(** * What a refresh re-checks, and signing an account out everywhere *)

Section everywhere.
Context `{Crypto} {S U : Type} `{SessionStoreLaws S} (tm : TokenManagerService) (k : SessionKind).

(** The account is signed out on every device, and its access tokens with it:
    no session or recovery pointer of it is left, and its epoch has moved. *)
Definition signed_out_everywhere (subject : string) (a a' : AStore) : Prop :=
  signed_out (tm_owner tm) a' k subject /\ a_current_epoch k subject a' = a_current_epoch k subject a + 1.

Lemma revoke_then_bump (subject : string) (ttl : Z) (a : AStore) :
  sound (tm_owner tm) ttl a -> signed_out_everywhere subject a (a_bump_epoch k subject (a_revoke_all k subject a)).2.
Proof.
  intros Hs. split.
  - eapply signed_out_equiv; [|by eapply revoke_all_signs_out]. by split.
  - unfold a_current_epoch, a_bump_epoch. cbn. unfold upd. by rewrite decide_True.
Qed.

Lemma signed_out_everywhere_equiv (subject : string) (a b c d : AStore) :
  a ≡ b -> c ≡ d -> signed_out_everywhere subject a c -> signed_out_everywhere subject b d.
Proof.
  intros Hab Hcd [Hout He]. split; [eapply signed_out_equiv; [by apply equiv_same | done]|].
  by rewrite <-(a_current_epoch_proper _ _ _ _ Hab), <-(a_current_epoch_proper _ _ _ _ Hcd).
Qed.

Lemma revoke_bump_inv (subject : string) (ttl : Z) (w w1 w2 : World S U) (r : unit) (n : Z) (a : AStore) :
  at_state w a -> sound (tm_owner tm) ttl a -> a_current_epoch k subject a < i64_max ->
  on_store (SessionStore.revoke_all k subject) w = (Ok r, w1) ->
  on_store (SessionStore.bump_epoch k subject) w1 = (Ok n, w2) ->
  exists a', at_state w2 a' /\ signed_out_everywhere subject a a'.
Proof.
  intros Hw Hs He H1' H2'. exists (a_bump_epoch k subject (a_revoke_all k subject a)).2.
  split; [|by eapply revoke_then_bump].
  assert (Hw1 : at_state w1 (a_revoke_all k subject a)).
  { eapply (ewp_run (on_store (revoke_all k subject)) (fun _ w' => at_state w' _)); [|exact H1'].
    by eapply ewp_revoke_all. }
  eapply (ewp_run (on_store (bump_epoch k subject)) (fun _ w' => at_state w' _)); [|exact H2'].
  by eapply ewp_bump.
Qed.

End everywhere.

Section account.
Context `{Crypto} {S U : Type} `{SessionStoreLaws S} (en : AuthEngine U).

(** The engine and its token manager file sessions under the same key. *)
Definition one_key : Prop := cf_hmac_key (en_config en) = tm_identifier_key (en_tokens en).

Lemma one_key_subject (k : SessionKind) (tenant_id : option string) (user_id : string) :
  one_key -> session_subject en k tenant_id user_id = subject_hash (en_tokens en) k tenant_id user_id.
Proof. intros Hk. unfold session_subject, subject_hash. by rewrite Hk. Qed.

Lemma revoke_all_sessions_ewp (tenant_id user_id : string) (w : World S U) (a : AStore) :
  let subject := session_subject en SkDashboard (Some tenant_id) user_id in
  at_state w a -> a_current_epoch SkDashboard subject a < i64_max ->
  ewp (revoke_all_sessions en tenant_id user_id)
    (fun r w' => r = Ok tt /\ at_state w' (a_bump_epoch SkDashboard subject (a_revoke_all SkDashboard subject a)).2 /\
       w_users w' = w_users w /\ w_hooks w' = w_hooks w) w.
Proof.
  intros subject Hw He. unfold revoke_all_sessions. estep. eapply ewp_revoke_all; [exact Hw|]. intros s1 Hw1. cbv beta iota.
  fold subject. estep. estep; [exact He|]. by estep.
Qed.

End account.

Section refresh.
Context `{CryptoLaws, Host, Base64, HeaderJson, UnicodeText, PasswordHashLib}.
Context `{ClaimsJson DashboardClaims, ClaimsJson PlatformClaims, ClaimsJson MfaTempClaims}.
Context {S U : Type} `{SessionStoreLaws S, MfaStore S, UserRepository U} (en : AuthEngine U).

(** A refresh whose rotation succeeded and whose new token verified. *)
Definition rotated_to (raw ip user_agent : string) (w : World S U) (tokens : RotatedTokens) (claims : DashboardClaims)
    (w2 : World S U) : Prop :=
  exists w1, reissue_tokens (en_tokens en) raw ip user_agent w = (Ok tokens, w1) /\
    verify_access (en_tokens en) (rt_access_token tokens) w1 = (Ok claims, w2).

Lemma refresh_run (raw ip user_agent : string) (w w2 : World S U) (tokens : RotatedTokens) (claims : DashboardClaims) :
  rotated_to raw ip user_agent w tokens claims w2 ->
  refresh en raw ip user_agent w =
  (found ← from_users map_repository_error (repo_find_by_id (dc_sub claims) (Some (dc_tenant_id claims)));
   match found with
   | None => _ ← revoke_all_sessions en (dc_tenant_id claims) (dc_sub claims); throw TokenInvalid
   | Some user =>
       match assert_user_not_blocked en (au_status user) with
       | Err error => _ ← revoke_all_sessions en (au_tenant_id user) (dc_sub claims); throw error
       | Ok _ =>
           if cf_verification_required (en_config en) && negb (au_email_verified user) then throw EmailNotVerified else
           tokens ← refreshed_tokens en claims user tokens;
           mret {| rs_tokens := tokens; rs_user := safe_user user |}
       end
   end) w2.
Proof.
  intros (w1 & Hr & Hv). unfold refresh. rewrite (bind_ok _ _ _ _ _ Hr), (bind_ok _ _ _ _ _ Hv). done.
Qed.

Lemma rotated_sound_at (raw ip user_agent : string) (w w2 : World S U) (tokens : RotatedTokens) (claims : DashboardClaims) :
  serviceable (S := S) (en_tokens en) -> tm_grace_ttl_secs (en_tokens en) <= tm_refresh_ttl_secs (en_tokens en) ->
  ready (w_store w) -> sound (tm_owner (en_tokens en)) (tm_refresh_ttl_secs (en_tokens en)) (stands_for (w_store w)) ->
  rotated_to raw ip user_agent w tokens claims w2 ->
  ready (w_store w2) /\ sound (tm_owner (en_tokens en)) (tm_refresh_ttl_secs (en_tokens en)) (stands_for (w_store w2)).
Proof.
  intros Hsv Hg Hr Hs (w1 & Hrot & Hv).
  destruct (engine_life_sound (en_tokens en) Hsv Hg w w1 [EvOther] Hr Hs) as [Hr1 Hs1].
  { eapply el_cons; [by eapply ec_reissue | apply el_nil]. }
  pose proof (verify_access_ewp (en_tokens en) (rt_access_token tokens) w1 _ (conj Hr1 (reflexivity _))) as Hq.
  unfold ewp in Hq. rewrite Hv in Hq. destruct Hq as [[Hr2 Hs2] _]. split; [done|].
  eapply sound_equiv; [|exact Hs1]. apply equiv_same. by symmetry.
Qed.

End refresh.

(** A refresh serves the account as it is now.  When it succeeds, the
    rotation succeeded, the repository still knows the account the new token
    names, in its own tenant's scope, neither blocked nor (where required)
    unverified; the profile handed back is that account's, the refresh token is
    the rotated one, and the access token handed back is signed for that user
    with the role and the second-factor setting the account has now, whatever
    they were when the session began. *)
Theorem refresh_serves_current_account
    `{CryptoLaws, Host, Base64Laws, HeaderJsonLaws, UnicodeText, PasswordHashLib}
    `{ClaimsJsonLaws DashboardClaims, ClaimsJson PlatformClaims, ClaimsJson MfaTempClaims}
    {S U : Type} `{SessionStoreLaws S, MfaStore S, UserRepository U} (en : AuthEngine U)
    (raw ip user_agent : string) (w w' : World S U) (session : RefreshedSession) :
  refresh en raw ip user_agent w = (Ok session, w') ->
  exists tokens claims w2 user,
    rotated_to en raw ip user_agent w tokens claims w2 /\
    (repo_find_by_id (dc_sub claims) (Some (dc_tenant_id claims)) (w_users w2)).1 = Ok (Some user) /\
    usable en user /\ rs_user session = safe_user user /\
    rt_refresh_token (rs_tokens session) = rt_refresh_token tokens /\
    exists key claims', authentic (rt_access_token (rs_tokens session)) key claims' /\
      dc_sub claims' = dc_sub claims /\ dc_role claims' = au_role user /\ dc_mfa_enabled claims' = au_mfa_enabled user /\
      dc_mfa_verified claims' = dc_mfa_verified claims.
Proof.
  intros Hrun. unfold refresh in Hrun.
  apply bind_ok_inv in Hrun as (tokens & w1 & Hrot & Hrun). apply bind_ok_inv in Hrun as (claims & w2 & Hver & Hrun).
  cbv zeta in Hrun. apply bind_ok_inv in Hrun as (found & w3 & Hfind & Hrun). apply from_users_inv in Hfind as [Hfind _].
  destruct found as [user|]; [|einv Hrun].
  destruct (assert_user_not_blocked en (au_status user)) as [[]|e] eqn:Hblk; [|einv Hrun].
  destruct (cf_verification_required (en_config en) && negb (au_email_verified user)) eqn:Hv; [einv Hrun|].
  apply bind_ok_inv in Hrun as (tokens' & w4 & Htok & Hrun). einv Hrun. cbn.
  exists tokens, claims, w2, user. split; [by exists w1|]. rewrite Hfind. split; [done|]. split.
  { split; [done|]. intros Hreq. rewrite Hreq in Hv. by destruct (au_email_verified user). }
  unfold refreshed_tokens in Htok. destruct (bool_decide _ && _) eqn:Hsame.
  - apply andb_true_iff in Hsame as [Hrole%bool_decide_eq_true Hm%eqb_prop]. einv Htok. split_and!; [done..|].
    unfold verify_access in Hver. apply bind_ok_inv in Hver as (r & w5 & Hvr & Hver).
    apply bind_ok_inv in Hver as (c & w6 & Hlift & Hver). apply lift_inv in Hlift as [Hc ->].
    destruct (verify_rotating_with_spec (C := DashboardClaims) (en_tokens en) (rt_access_token tokens) default_options w1)
      as (r' & w7 & Hvr' & _ & Hspec).
    unfold verify_rotating in Hvr. rewrite Hvr in Hvr'. injection Hvr' as <- <-.
    destruct r as [c'|]; [|done]. injection Hc as ->.
    assert (c = claims) as ->.
    { apply bind_ok_inv in Hver as (b & w8 & _ & Hver). destruct b; [einv Hver|].
      apply bind_ok_inv in Hver as (e & w9 & _ & Hver). case_bool_decide; by einv Hver. }
    destruct Hspec as [(i & c' & [= <-] & (key & _ & Ha & _) & _)|[Hv' Hno]]; [by exists key, claims|].
    symmetry in Hv'. apply verify_ok_iff in Hv' as (Ha & _). by eexists _, claims.
  - apply bind_ok_inv in Htok as (token & w5 & Htok & Hret). einv Hret. split_and!; [done..|]. cbn.
    unfold reissue_access_with_authority in Htok. einv Htok. unfold issue_access in *.
    match goal with Hs : map_err _ (sign (stamp _ ?c) ?k) = Ok _ |- _ =>
      destruct (sign (stamp (en_tokens en) c) k) eqn:Hsig; [injection Hs as ->|done];
      exists k, (stamp (en_tokens en) c) end.
    split; [by apply sign_authentic | done].
Qed.

(** A refresh for an account that is gone or blocked signs it out
    everywhere.  On a sound store, when the rotation succeeds but the repository
    no longer knows the account, or knows it with a blocked status, the refresh
    is refused (as an invalid token, or with the status's own error), every
    session and recovery pointer of the account is removed, the one the rotation
    just created included, and the account's epoch moves, which ends its access
    tokens. *)
Theorem refresh_signs_out_unusable
    `{CryptoLaws, Host, Base64, HeaderJson, UnicodeText, PasswordHashLib}
    `{ClaimsJson DashboardClaims, ClaimsJson PlatformClaims, ClaimsJson MfaTempClaims}
    {S U : Type} `{SessionStoreLaws S, MfaStore S, UserRepository U} (en : AuthEngine U)
    (raw ip user_agent : string) (w w2 : World S U) (tokens : RotatedTokens) (claims : DashboardClaims)
    (found : option AuthUser) (e : AuthError) (tenant_id : string) :
  one_key en -> serviceable (S := S) (en_tokens en) -> tm_grace_ttl_secs (en_tokens en) <= tm_refresh_ttl_secs (en_tokens en) ->
  ready (w_store w) -> sound (tm_owner (en_tokens en)) (tm_refresh_ttl_secs (en_tokens en)) (stands_for (w_store w)) ->
  rotated_to en raw ip user_agent w tokens claims w2 ->
  (repo_find_by_id (dc_sub claims) (Some (dc_tenant_id claims)) (w_users w2)).1 = Ok found ->
  match found with
  | None => e = TokenInvalid /\ tenant_id = dc_tenant_id claims
  | Some user => assert_user_not_blocked en (au_status user) = Err e /\ tenant_id = au_tenant_id user
  end ->
  let subject := subject_hash (en_tokens en) SkDashboard (Some tenant_id) (dc_sub claims) in
  a_current_epoch SkDashboard subject (stands_for (w_store w2)) < i64_max ->
  exists w', refresh en raw ip user_agent w = (Err e, w') /\ ready (w_store w') /\
    signed_out_everywhere (en_tokens en) SkDashboard subject (stands_for (w_store w2)) (stands_for (w_store w')).
Proof.
  intros Hk Hsv Hg Hr Hs Hrot Hfind Hcase subject Hep. unfold subject in *. rewrite <-one_key_subject in * by done.
  destruct (rotated_sound_at en _ _ _ _ _ _ _ Hsv Hg Hr Hs Hrot) as [Hr2 Hs2].
  rewrite (refresh_run en _ _ _ _ _ _ _ Hrot), bind_run, from_users_run.
  destruct (repo_find_by_id _ _ _) as [r u] eqn:Hrepo. cbn in Hfind. subst r. cbn [fst snd map_err].
  set (w3 := with_users u w2). assert (Hw3 : at_state w3 (stands_for (w_store w2))) by by split.
  pose proof (revoke_all_sessions_ewp en tenant_id (dc_sub claims) w3 _ Hw3 Hep) as Hq. unfold ewp in Hq.
  destruct (revoke_all_sessions en tenant_id (dc_sub claims) w3) as [r w'] eqn:Hrv. cbn [fst snd] in Hq.
  destruct Hq as (-> & [Hr' Hs'] & _). exists w'.
  split; [|split; [done|]; eapply signed_out_everywhere_equiv; [reflexivity | symmetry; exact Hs' |]; by eapply revoke_then_bump].
  destruct found as [user|]; destruct Hcase as [He ->]; [rewrite He | subst e]; by rewrite (bind_ok _ _ _ _ _ Hrv).
Qed.
