(* ===== verification/PasswordReset.v ===== *)
(** * Password reset and password change

    Models [crates/bymax-auth-core/src/services/auth/password_reset.rs]: asking
    for a reset by link or by code, exchanging a code for a verified token,
    completing the reset with exactly one proof, and changing the password of a
    signed-in account. *)

From S2P Require Import Prelude Errors Types Crypto Jwt Redis RedisSession SessionSpec SessionStore Lineage RedisStores MfaStore Engine Repository Password SideStores OtpService TokenManager RotationClaims Sessions SessionClaims AuthCore Login SessionOps.

Definition VERIFIED_TOKEN_TTL_SECONDS : Z := 300.
Definition RESEND_COOLDOWN_SECS : Z := 60.
Definition RESET_TOKEN_BYTES : nat := 32.

Record ForgotPasswordInput : Set := { fp_email : string; fp_tenant_id : option string }.

Record ResetPasswordInput : Set := {
  ri_email : string;
  ri_tenant_id : option string;
  ri_new_password : string;
  ri_token : option string;
  ri_otp : option string;
  ri_verified_token : option string;
}.

Record VerifyResetOtpInput : Set := { vi_email : string; vi_tenant_id : option string; vi_otp : string }.

Record ResendResetOtpInput : Set := { ro_email : string; ro_tenant_id : option string }.

Inductive Proof : Set := PrToken (token : string) | PrOtp (otp : string) | PrVerified (verified : string).

Inductive ProofKind : Set := PkToken | PkVerified.

(** How an accepted proof is redeemed: the local enum of [reset_password]. *)
Inductive Dispatch : Set := DStored (token : string) (kind : ProofKind) | DOtp (otp : string).

(** Exactly one of the three fields. *)
Definition classify (token otp verified_token : option string) : option Proof :=
  match token, otp, verified_token with
  | Some token, None, None => Some (PrToken token)
  | None, Some otp, None => Some (PrOtp otp)
  | None, None, Some verified => Some (PrVerified verified)
  | _, _, _ => None
  end.

Definition pair_with_method (method : ResetMethod) (proof : Proof) : option Dispatch :=
  match method, proof with
  | RmToken, PrToken token => Some (DStored token PkToken)
  | RmOtp, PrOtp otp => Some (DOtp otp)
  | RmOtp, PrVerified verified => Some (DStored verified PkVerified)
  | _, _ => None
  end.

Definition digest_eq `{Crypto} (a b : string) : bool := constant_time_eq (sha256 a) (sha256 b).

Definition password_fingerprint `{Crypto} (user : AuthUser) : string :=
  match au_password_hash user with Some phc => to_hex (sha256 phc) | None => "" end.

Definition reset_context_hooks (context : ResetContext) : HookContext := {|
  hc_plane := HpDashboard;
  hc_user_id := Some (rc_user_id context);
  hc_email := Some (rc_email context);
  hc_tenant_id := Some (rc_tenant_id context);
  hc_ip := "";
  hc_user_agent := "";
  hc_sanitized_headers := ∅;
|}.

Section reset.
Context `{Crypto, Host, !DigitSource, UnicodeText, PasswordHashLib}.
Context {S U : Type} `{SessionStore S, BruteForceStore S, OtpStore S, PasswordResetStore S}.
Context `{UserRepository U, KdfRuntime U, PasswordBreachChecker U, EmailProvider U}.
Context (en : AuthEngine U).

Abbreviation Eng := (E S U).
Abbreviation config := (en_config en).
Abbreviation bf := (en_brute_force en).
Abbreviation otp_key := (cf_hmac_key (en_config en)).

Definition notify_password_changed (tenant_id user_id : string) : Eng unit :=
  found ← on_users (repo_find_by_id user_id (Some tenant_id));
  match found with
  | Ok (Some user) => spawn_hook (SendPasswordChanged (au_tenant_id user) (au_email user))
  | _ => mret tt
  end.

(** ** Issuing a proof *)

Definition send_reset_otp (tenant_id email : string) : Eng unit :=
  let identifier := hashed_identifier en tenant_id email in
  otp ← OtpService.generate (cf_reset_otp_length config);
  _ ← OtpService.store otp_key Types.PasswordReset identifier otp (cf_reset_otp_ttl config);
  spawn_hook (SendResetOtpEmail tenant_id email otp).

Definition send_reset_token (user : AuthUser) (email tenant_id : string) : Eng unit :=
  if negb (en_password_reset_store en) then throw (internal_error "password reset store not configured") else
  raw ← take_draw (fun i => generate_secure_token i RESET_TOKEN_BYTES);
  let context := {| rc_user_id := au_id user; rc_email := email; rc_tenant_id := tenant_id;
                    rc_password_fingerprint := password_fingerprint user |} in
  _ ← on_store (pr_put_token raw context (cf_reset_token_ttl config));
  sent ← on_users (send_password_reset_token tenant_id email raw);
  match sent with
  | Err _ => _ ← attempt (on_store (pr_delete_token raw)); mret tt
  | Ok _ => mret tt
  end.

Definition find_unblocked (tenant_id email : string) : Eng (option AuthUser) :=
  found ← from_users map_repository_error (repo_find_by_email email tenant_id);
  mret (option_filter (fun user => is_ok (assert_user_not_blocked en (au_status user))) (tenant_scoped found tenant_id)).

Definition initiate_reset_inner (tenant_id email : string) : Eng unit :=
  let identifier := hashed_identifier en tenant_id email in
  begun ← OtpService.try_begin_resend Types.PasswordReset identifier RESEND_COOLDOWN_SECS;
  if negb begun then mret tt else
  found ← find_unblocked tenant_id email;
  match found with
  | None => mret tt
  | Some user =>
      _ ← attempt (match cf_reset_method config with
                   | RmOtp => send_reset_otp tenant_id email
                   | RmToken => send_reset_token user email tenant_id
                   end);
      mret tt
  end.

Definition initiate_reset (input : ForgotPasswordInput) (ctx : RequestContext) : Eng unit :=
  tenant_id ← resolve_tenant en (fp_tenant_id input) ctx;
  let email := normalize_email (fp_email input) in
  started ← instant_now;
  outcome ← attempt (initiate_reset_inner tenant_id email);
  _ ← normalize_anti_enum started;
  lift outcome.

Definition resend_reset_otp_inner (tenant_id email : string) : Eng unit :=
  let identifier := hashed_identifier en tenant_id email in
  begun ← OtpService.try_begin_resend Types.PasswordReset identifier RESEND_COOLDOWN_SECS;
  if negb begun then mret tt else
  found ← find_unblocked tenant_id email;
  match found with
  | None => mret tt
  | Some _ => _ ← attempt (send_reset_otp tenant_id email); mret tt
  end.

Definition resend_reset_otp (input : ResendResetOtpInput) (ctx : RequestContext) : Eng unit :=
  tenant_id ← resolve_tenant en (ro_tenant_id input) ctx;
  let email := normalize_email (ro_email input) in
  started ← instant_now;
  outcome ← attempt (resend_reset_otp_inner tenant_id email);
  _ ← normalize_anti_enum started;
  lift outcome.

Definition verify_reset_otp (input : VerifyResetOtpInput) (ctx : RequestContext) : Eng string :=
  tenant_id ← resolve_tenant en (vi_tenant_id input) ctx;
  let email := normalize_email (vi_email input) in
  let identifier := hashed_identifier en tenant_id email in
  _ ← OtpService.verify otp_key Types.PasswordReset identifier (vi_otp input);
  found ← from_users map_repository_error (repo_find_by_email email tenant_id);
  user ← lift (ok_or PasswordResetTokenInvalid (tenant_scoped found tenant_id));
  if negb (en_password_reset_store en) then throw PasswordResetTokenInvalid else
  raw ← take_draw (fun i => generate_secure_token i RESET_TOKEN_BYTES);
  let context := {| rc_user_id := au_id user; rc_email := email; rc_tenant_id := tenant_id;
                    rc_password_fingerprint := password_fingerprint user |} in
  _ ← on_store (pr_put_verified raw context VERIFIED_TOKEN_TTL_SECONDS);
  mret raw.

(** ** Completing the reset *)

Definition assert_proof_still_bound (context : ResetContext) : Eng unit :=
  if string_is_empty (rc_password_fingerprint context) then mret tt else
  found ← from_users map_repository_error (repo_find_by_id (rc_user_id context) (Some (rc_tenant_id context)));
  let current := match found with Some user => password_fingerprint user | None => "" end in
  if digest_eq current (rc_password_fingerprint context) then mret tt else throw PasswordResetTokenInvalid.

Definition project_user_for_hook (context : ResetContext) : Eng (option SafeAuthUser) :=
  found ← on_users (repo_find_by_id (rc_user_id context) (Some (rc_tenant_id context)));
  mret (match found with Ok (Some user) => Some (safe_user user) | _ => None end).

Definition apply_password_reset (context : ResetContext) (new_password : string) : Eng unit :=
  new_hash ← PasswordService.hash (en_passwords en) new_password;
  _ ← from_users map_repository_error (repo_update_password (rc_user_id context) (rc_tenant_id context) new_hash);
  let subject := session_subject en SkDashboard (Some (rc_tenant_id context)) (rc_user_id context) in
  _ ← on_store (SessionStore.revoke_all SkDashboard subject);
  _ ← on_store (SessionStore.bump_epoch SkDashboard subject);
  _ ← notify_password_changed (rc_tenant_id context) (rc_user_id context);
  safe ← project_user_for_hook context;
  match safe with
  | Some safe => spawn_hook (AfterPasswordReset safe (reset_context_hooks context))
  | None => mret tt
  end.

Definition reset_with_stored_proof (token tenant_id email new_password : string) (kind : ProofKind) : Eng unit :=
  if negb (en_password_reset_store en) then throw PasswordResetTokenInvalid else
  consumed ← on_store (match kind with PkToken => pr_consume_token token | PkVerified => pr_consume_verified token end);
  context ← lift (ok_or PasswordResetTokenInvalid consumed);
  if negb (digest_eq (rc_email context) email) || negb (digest_eq (rc_tenant_id context) tenant_id)
  then throw PasswordResetTokenInvalid else
  _ ← assert_proof_still_bound context;
  apply_password_reset context new_password.

Definition reset_with_otp (otp tenant_id email new_password : string) : Eng unit :=
  let identifier := hashed_identifier en tenant_id email in
  _ ← OtpService.verify otp_key Types.PasswordReset identifier otp;
  found ← from_users map_repository_error (repo_find_by_email email tenant_id);
  user ← lift (ok_or PasswordResetTokenInvalid (tenant_scoped found tenant_id));
  apply_password_reset {| rc_user_id := au_id user; rc_email := email; rc_tenant_id := tenant_id;
                          rc_password_fingerprint := password_fingerprint user |} new_password.

Definition reset_password (input : ResetPasswordInput) (ctx : RequestContext) : Eng unit :=
  tenant_id ← resolve_tenant en (ri_tenant_id input) ctx;
  let email := normalize_email (ri_email input) in
  proof ← lift (ok_or PasswordResetTokenInvalid (classify (ri_token input) (ri_otp input) (ri_verified_token input)));
  dispatch ← lift (ok_or PasswordResetTokenInvalid (pair_with_method (cf_reset_method config) proof));
  _ ← PasswordService.assert_acceptable (en_passwords en) (ri_new_password input) "newPassword";
  match dispatch with
  | DStored token kind => reset_with_stored_proof token tenant_id email (ri_new_password input) kind
  | DOtp otp => reset_with_otp otp tenant_id email (ri_new_password input)
  end.

(** ** Changing a known password *)

Definition resolve_current_session (tenant_id user_id raw : string) : Eng string :=
  if negb (is_refresh_token_shape raw) then throw SessionNotFound else
  SessionService.resolve_live_session (en_sessions en) tenant_id user_id (redis_hash raw).

Definition end_other_sessions (tenant_id user_id : string) (kept : option string) : Eng unit :=
  let everywhere :=
    let subject := session_subject en SkDashboard (Some tenant_id) user_id in
    _ ← on_store (SessionStore.revoke_all SkDashboard subject);
    _ ← on_store (SessionStore.bump_epoch SkDashboard subject);
    mret tt in
  match kept with
  | None => everywhere
  | Some kept =>
      swept ← attempt (SessionService.revoke_all_except_current (en_sessions en) tenant_id user_id kept);
      match swept with
      | Err SessionNotFound => everywhere
      | other => lift other
      end
  end.

(** The lockout of a flow that asks a signed-in account for its password again. *)
Definition prove_password (bf_id password phc : string) : Eng unit :=
  locked ← BruteForce.is_locked bf bf_id;
  if locked : bool then
    retry ← BruteForce.remaining_lockout_secs bf_id;
    throw (AccountLocked (Some retry))
  else
  outcome ← PasswordService.verify (en_passwords en) password phc;
  if negb (vo_matched outcome) then
    _ ← BruteForce.record_failure bf bf_id;
    throw InvalidCredentials
  else BruteForce.reset bf_id.

Definition change_password (tenant_id user_id current_password new_password : string) (current_refresh : option string) :
    Eng unit :=
  found ← from_users map_repository_error (repo_find_by_id user_id (Some tenant_id));
  phc ← lift (ok_or InvalidCredentials (match found with Some user => au_password_hash user | None => None end));
  _ ← prove_password (reproof_identifier en "change-password" user_id) current_password phc;
  kept ← match current_refresh with
         | Some raw => kept ← resolve_current_session tenant_id user_id raw; mret (Some kept)
         | None => mret None
         end;
  _ ← PasswordService.assert_acceptable (en_passwords en) new_password "newPassword";
  new_hash ← PasswordService.hash (en_passwords en) new_password;
  _ ← from_users map_repository_error (repo_update_password user_id tenant_id new_hash);
  _ ← end_other_sessions tenant_id user_id kept;
  notify_password_changed tenant_id user_id.

End reset.

(** * What a password reset spends, writes and ends *)

Section laws.
Context `{Crypto, Host, !DigitSource, UnicodeText, PasswordHashLib}.
Context {S U : Type} `{SessionStoreLaws S, BruteForceStore S, !BruteForceStoreLaws S, OtpStore S, !OtpStoreLaws S,
  PasswordResetStore S, !PasswordResetStoreLaws S}.
Context `{UserRepository U, KdfRuntime U, PasswordBreachChecker U, EmailProvider U}.
Context (en : AuthEngine U).

(** The new password hashed under the configured parameters and written by the
    repository for [user_id] of [tenant_id]. *)
Definition password_written (user_id tenant_id password : string) : Prop :=
  exists salt hash u u', pw_hash salt password (ps_params (en_passwords en)) = Ok hash /\
    repo_update_password user_id tenant_id hash u = (Ok tt, u').

Lemma hash_inv (password : string) (w w' : World S U) (hash : string) :
  PasswordService.hash (en_passwords en) password w = (Ok hash, w') ->
  exists salt, pw_hash salt password (ps_params (en_passwords en)) = Ok hash.
Proof.
  intros Hrun. unfold PasswordService.hash in Hrun. apply bind_ok_inv in Hrun as ([] & w1 & _ & Hrun).
  apply bind_ok_inv in Hrun as (hashed & w2 & [= <- <-] & Hrun). apply bind_ok_inv in Hrun as (joined & w3 & _ & Hrun).
  exists (w_draws w1). apply lift_inv in Hrun as [Hf _]. unfold PasswordService.flatten_hash in Hf. destruct joined; [|done].
  destruct (pw_hash _ _ _); [|done]. by injection Hf as ->.
Qed.

Lemma equiet_notify (tenant_id user_id : string) : equiet (notify_password_changed (S := S) tenant_id user_id).
Proof. unfold notify_password_changed. hush. Qed.

Lemma equiet_project (context : ResetContext) : equiet (project_user_for_hook (S := S) context).
Proof. unfold project_user_for_hook. hush. Qed.

(** A reset that was applied signed the account out everywhere. *)
Lemma apply_reset_inv (context : ResetContext) (new_password : string) (ttl : Z) (w w' : World S U) (r : unit) :
  let subject := session_subject en SkDashboard (Some (rc_tenant_id context)) (rc_user_id context) in
  ready (w_store w) -> sound (tm_owner (en_tokens en)) ttl (stands_for (w_store w)) ->
  a_current_epoch SkDashboard subject (stands_for (w_store w)) < i64_max ->
  apply_password_reset en context new_password w = (Ok r, w') ->
  ready (w_store w') /\ signed_out_everywhere (en_tokens en) SkDashboard subject (stands_for (w_store w)) (stands_for (w_store w')).
Proof.
  intros subject Hr Hs He Hrun. unfold apply_password_reset in Hrun. fold subject in Hrun.
  apply bind_ok_inv in Hrun as (hash & w1 & Hh & Hrun).
  assert (Hw1 : at_state w1 (stands_for (w_store w))) by (eapply equiet_at; [| |exact Hh]; [hush | done]).
  apply bind_ok_inv in Hrun as ([] & w2 & Hup & Hrun). apply from_users_inv in Hup as [_ Hst].
  assert (Hw2 : at_state w2 (stands_for (w_store w))) by (unfold at_state; by rewrite Hst).
  apply bind_ok_inv in Hrun as (r1 & w3 & Hrev & Hrun). apply bind_ok_inv in Hrun as (n & w4 & Hbump & Hrun).
  destruct (revoke_bump_inv (en_tokens en) SkDashboard subject ttl w2 w3 w4 r1 n _ Hw2 Hs He Hrev Hbump) as (a' & Hw4 & Hout).
  apply bind_ok_inv in Hrun as (r5 & w5 & Hn & Hrun).
  pose proof (equiet_at _ _ _ _ _ (equiet_notify _ _) Hw4 Hn) as Hw5.
  apply bind_ok_inv in Hrun as (safe & w6 & Hp & Hrun).
  pose proof (equiet_at _ _ _ _ _ (equiet_project _) Hw5 Hp) as Hw6.
  assert (Hw' : at_state w' a') by (eapply equiet_at; [| exact Hw6 | exact Hrun]; hush).
  split; [apply Hw'|].
  eapply signed_out_everywhere_equiv; [reflexivity | symmetry; apply Hw' | done].
Qed.

(** What made the proof good. *)
Definition proof_accepted (proof : Proof) (tenant_id email : string) (context : ResetContext) : Prop :=
  match proof with
  | PrOtp otp =>
      (exists s, (os_verify Types.PasswordReset (hashed_identifier en tenant_id email)
                    (fingerprint (cf_hmac_key (en_config en)) (hashed_identifier en tenant_id email) otp) MAX_ATTEMPTS s).1 = Ok tt) /\
      (exists user u, (repo_find_by_email email tenant_id u).1 = Ok (Some user) /\ au_id user = rc_user_id context) /\
      rc_tenant_id context = tenant_id
  | PrToken token | PrVerified token =>
      (exists s, (match proof with PrToken _ => pr_consume_token token | _ => pr_consume_verified token end s).1 = Ok (Some context)) /\
      digest_eq (rc_email context) email = true /\ digest_eq (rc_tenant_id context) tenant_id = true
  end.

Lemma stored_proof_inv (token tenant_id email new_password : string) (kind : ProofKind) (w w' : World S U) (r : unit) :
  reset_with_stored_proof en token tenant_id email new_password kind w = (Ok r, w') ->
  exists context w2, ready (w_store w) -> at_state w2 (stands_for (w_store w)) /\
    apply_password_reset en context new_password w2 = (Ok r, w') /\
    proof_accepted (match kind with PkToken => PrToken token | PkVerified => PrVerified token end) tenant_id email context.
Proof.
  intros Hrun. unfold reset_with_stored_proof in Hrun. destruct (en_password_reset_store en); cbn [negb] in Hrun; [|einv Hrun].
  apply bind_ok_inv in Hrun as (consumed & w1 & Hc & Hrun). apply bind_ok_inv in Hrun as (context & w1' & Hl & Hrun).
  apply lift_inv in Hl as [Hl ->]. destruct consumed as [c|]; [|done]. injection Hl as ->.
  destruct (digest_eq (rc_email context) email) eqn:He, (digest_eq (rc_tenant_id context) tenant_id) eqn:Ht;
    cbn [negb orb] in Hrun; try (by apply throw_inv in Hrun).
  apply bind_ok_inv in Hrun as ([] & w2 & Hb & Hrun). exists context, w2. intros Hr.
  assert (Hw1 : at_state w1 (stands_for (w_store w))) by (eapply equiet_at; [| |exact Hc]; [destruct kind; hush | done]).
  assert (Hw2 : at_state w2 (stands_for (w_store w)))
    by (eapply equiet_at; [| |exact Hb]; [unfold assert_proof_still_bound; hush | done]).
  apply store_inv in Hc as (Hc & _). split_and!; [apply Hw2.. | done |].
  destruct kind; (split; [exists (w_store w); by rewrite Hc | done]).
Qed.

Lemma otp_proof_inv (otp tenant_id email new_password : string) (w w' : World S U) (r : unit) :
  reset_with_otp en otp tenant_id email new_password w = (Ok r, w') ->
  exists context w2, ready (w_store w) -> at_state w2 (stands_for (w_store w)) /\
    apply_password_reset en context new_password w2 = (Ok r, w') /\ proof_accepted (PrOtp otp) tenant_id email context.
Proof.
  intros Hrun. unfold reset_with_otp in Hrun. cbv zeta in Hrun. apply bind_ok_inv in Hrun as ([] & w1 & Hv & Hrun).
  apply bind_ok_inv in Hrun as (found & w2 & Hf & Hrun). apply bind_ok_inv in Hrun as (user & w2' & Hl & Hrun).
  apply lift_inv in Hl as [Hl ->]. do 2 eexists. intros Hr.
  assert (Hw1 : at_state w1 (stands_for (w_store w))) by (eapply equiet_at; [| |exact Hv]; [hush | done]).
  assert (Hw2 : at_state w2 (stands_for (w_store w))) by (eapply equiet_at; [| |exact Hf]; [hush | done]).
  split; [exact Hw2|]. split; [exact Hrun|]. apply from_users_inv in Hf as [Hf _].
  destruct found as [found|]; [|done]. cbn [tenant_scoped] in Hl. case_bool_decide; [|done]. injection Hl as ->.
  split_and!; [|by exists user, (w_users w1); rewrite Hf | done].
  unfold OtpService.verify in Hv. apply bind_ok_inv in Hv as (t & w3 & [= <- <-] & Hv).
  apply bind_ok_inv in Hv as (res & w4 & Ha & Hv). apply attempt_inv in Ha. apply store_inv in Ha as (Ha & _).
  apply bind_ok_inv in Hv as (t' & w5 & _ & Hv). apply lift_inv in Hv as [-> _]. eexists. by rewrite Ha.
Qed.

End laws.

(** C10. A completed reset was proved, wrote the password, and signed the account
    out everywhere.  When a reset succeeds on a sound store, the request carried
    exactly one proof, of the kind the deployment is configured for, and the new
    password met the length policy; a link or verified token had been stored for
    exactly that address and tenant, a code had verified for them and the account
    still existed; the repository wrote a hash of the new password for the proved
    account; and afterwards no session or recovery pointer of that account is
    left and its epoch has moved, which ends its access tokens. *)
Theorem reset_signs_out_everywhere `{Crypto, Host, !DigitSource, UnicodeText, PasswordHashLib}
    {S U : Type} `{SessionStoreLaws S, BruteForceStore S, !BruteForceStoreLaws S, OtpStore S, !OtpStoreLaws S,
      PasswordResetStore S, !PasswordResetStoreLaws S, UserRepository U, KdfRuntime U, PasswordBreachChecker U, EmailProvider U}
    (en : AuthEngine U) (input : ResetPasswordInput) (ctx : RequestContext) (ttl : Z) (w w' : World S U) :
  one_key en -> ready (w_store w) -> sound (tm_owner (en_tokens en)) ttl (stands_for (w_store w)) ->
  reset_password en input ctx w = (Ok tt, w') ->
  let a := stands_for (w_store w) in
  exists tenant_id w1 proof context,
    resolve_tenant en (ri_tenant_id input) ctx w = (Ok tenant_id, w1) /\
    classify (ri_token input) (ri_otp input) (ri_verified_token input) = Some proof /\
    is_Some (pair_with_method (cf_reset_method (en_config en)) proof) /\
    ps_min_length (en_passwords en) <= chars_count (ri_new_password input) /\
    proof_accepted (S := S) en proof tenant_id (normalize_email (ri_email input)) context /\
    password_written en (rc_user_id context) (rc_tenant_id context) (ri_new_password input) /\
    let subject := subject_hash (en_tokens en) SkDashboard (Some (rc_tenant_id context)) (rc_user_id context) in
    (a_current_epoch SkDashboard subject a < i64_max ->
       ready (w_store w') /\ signed_out_everywhere (en_tokens en) SkDashboard subject a (stands_for (w_store w'))).
Proof.
  intros Hk Hr Hs Hrun a. unfold reset_password in Hrun. apply bind_ok_inv in Hrun as (tenant_id & w1 & Hres & Hrun).
  cbv zeta in Hrun. set (email := normalize_email (ri_email input)) in *.
  apply bind_ok_inv in Hrun as (proof & w1' & Hcl & Hrun). apply lift_inv in Hcl as [Hcl ->].
  destruct (classify _ _ _) as [p|] eqn:Hc; [|done]. injection Hcl as ->.
  apply bind_ok_inv in Hrun as (dispatch & w1' & Hpm & Hrun). apply lift_inv in Hpm as [Hpm ->].
  destruct (pair_with_method _ _) as [d|] eqn:Hd; [|done]. injection Hpm as ->.
  apply bind_ok_inv in Hrun as ([] & w2 & Hacc & Hrun).
  assert (Hw1 : at_state w1 a) by (eapply equiet_at; [| |exact Hres]; [hush | done]).
  assert (Hw2 : at_state w2 a) by (eapply equiet_at; [| |exact Hacc]; [hush | done]).
  assert (Hlen : ps_min_length (en_passwords en) <= chars_count (ri_new_password input)).
  { unfold PasswordService.assert_acceptable in Hacc. apply bind_ok_inv in Hacc as ([] & w3 & Hl & _).
    apply lift_inv in Hl as [Hl _]. unfold PasswordService.assert_long_enough in Hl. by case_bool_decide. }
  assert (Hdone : exists context w3, at_state w3 a /\ apply_password_reset en context (ri_new_password input) w3 = (Ok tt, w') /\
            proof_accepted (S := S) en proof tenant_id email context).
  { assert (Hready : ready (w_store w2)) by apply Hw2. 
    destruct dispatch as [token kind|otp]; [apply stored_proof_inv in Hrun | apply otp_proof_inv in Hrun];
      destruct Hrun as (context & w3 & Hq); destruct (Hq Hready) as (Hw3 & Happ & Hp); exists context, w3;
      (split; [eapply at_state_equiv; [apply Hw2 | done]|]); (split; [done|]);
      destruct (cf_reset_method (en_config en)), proof; simplify_eq/=; done. }
  destruct Hdone as (context & w3 & Hw3 & Happ & Hp).
  set (subject := session_subject en SkDashboard (Some (rc_tenant_id context)) (rc_user_id context)).
  exists tenant_id, w1, proof, context. rewrite Hd. split_and!; try done.
  - unfold apply_password_reset in Happ. apply bind_ok_inv in Happ as (hash & w4 & Hh & Happ). apply hash_inv in Hh as [salt Hh].
    apply bind_ok_inv in Happ as ([] & w5 & Hup & _). apply from_users_inv in Hup as [Hup _]. by exists salt, hash, (w_users w4), (w_users w5).
  - rewrite <-one_key_subject by done. fold subject. cbv zeta. intros He.
    rewrite <-(a_current_epoch_proper SkDashboard subject _ _ (proj2 Hw3)) in He.
    assert (Hs3 : sound (tm_owner (en_tokens en)) ttl (stands_for (w_store w3)))
      by (eapply sound_equiv; [|exact Hs]; apply equiv_same; symmetry; apply Hw3).
    destruct (apply_reset_inv en context (ri_new_password input) ttl w3 w' tt (proj1 Hw3) Hs3 He Happ) as (Hr' & Hout).
    split; [done|]. eapply signed_out_everywhere_equiv; [apply Hw3 | reflexivity | exact Hout].
Qed.
