(* ===== verification/ResetOrder.v ===== *)
(** * The order of a reset, its uniform answers, and password changes *)

From S2P Require Import Prelude Errors Types Crypto Jwt Redis RedisSession RedisStores SessionSpec SessionStore Lineage MfaStore Engine Repository Password SideStores OtpService TokenManager RotationClaims Sessions SessionClaims AuthCore Login LoginSound SessionOps PasswordReset.

Lemma attempt_total {S E A} (m : M S E A) (s : S) : exists r s', attempt m s = (Ok r, s').
Proof. unfold attempt. destruct (m s). eauto. Qed.

Section uniform.
Context `{Crypto, Host, !DigitSource, UnicodeText, PasswordHashLib}.
Context {S U : Type} `{SessionStore S, OtpStore S, PasswordResetStore S}.
Context `{UserRepository U, KdfRuntime U, PasswordBreachChecker U, EmailProvider U}.
Context (en : AuthEngine U).

Lemma resolve_store (body : option string) (ctx : RequestContext) (w : World S U) :
  w_store (resolve_tenant en body ctx w).2 = w_store w.
Proof.
  unfold resolve_tenant. destruct (cf_tenant_id_resolver _); [|by destruct body].
  case_bool_decide; [done|]. by rewrite from_users_run.
Qed.

Lemma acceptable_store (password field : string) (w : World S U) :
  w_store (PasswordService.assert_acceptable (en_passwords en) password field w).2 = w_store w /\
  ((PasswordService.assert_acceptable (en_passwords en) password field w).1 = Ok tt ->
   ps_min_length (en_passwords en) <= chars_count password /\ (is_breached password (w_users w)).1 = false).
Proof.
  unfold PasswordService.assert_acceptable, PasswordService.assert_not_compromised, PasswordService.assert_long_enough, breached.
  mrun. case_bool_decide; [|done]. destruct (is_breached password (w_users w)) as [[] u]; done.
Qed.

(** The wait after a body that answered [outcome] at reading [i], begun at [started]. *)
Lemma floored_run (body : E S U unit) (w : World S U) :
  let run := (started ← instant_now; outcome ← attempt body; _ ← normalize_anti_enum started; lift outcome) w in
  let w0 := MkWorld (w_store w) (w_users w) (w_draws w) (Datatypes.S (w_reads w)) (w_slept w) (w_hooks w) in
  run.1 = (body w0).1 /\
  w_slept run.2 = w_slept (body w0).2 +
    wait_remaining ANTI_ENUM_MIN_MS (Z.max 0 (clock (w_reads (body w0).2) - clock (w_reads w))).
Proof.
  cbv zeta. rewrite bind_run. unfold instant_now, take_reading. rewrite bind_run. unfold attempt.
  set (w0 := MkWorld _ _ _ _ _ _). destruct (body w0) as [r w1]. done.
Qed.

End uniform.

(** A reset request never answers for the account.  Whatever the repository
    holds for the address, whichever method is configured and whether or not the
    proof could be stored and delivered, as long as the resend gate and the
    look-up themselves work, asking for a reset is answered with success; and
    whatever it answers, the time the work took and the wait together reach the
    uniform floor of 300 milliseconds. *)
Theorem initiate_reset_uniform `{Crypto, Host, !DigitSource, UnicodeText, PasswordHashLib}
    {S U : Type} `{SessionStore S, OtpStore S, PasswordResetStore S, UserRepository U, KdfRuntime U,
      PasswordBreachChecker U, EmailProvider U}
    (en : AuthEngine U) (input : ForgotPasswordInput) (ctx : RequestContext) (tenant_id : string) (w w1 : World S U)
    (begun : bool) (s1 : S) :
  let email := normalize_email (fp_email input) in
  resolve_tenant en (fp_tenant_id input) ctx w = (Ok tenant_id, w1) ->
  os_try_begin_resend Types.PasswordReset (hashed_identifier en tenant_id email) RESEND_COOLDOWN_SECS (w_store w1) = (Ok begun, s1) ->
  is_ok (repo_find_by_email email tenant_id (w_users w1)).1 = true ->
  let body := initiate_reset_inner en tenant_id email
                (MkWorld (w_store w1) (w_users w1) (w_draws w1) (Datatypes.S (w_reads w1)) (w_slept w1) (w_hooks w1)) in
  (initiate_reset en input ctx w).1 = Ok tt /\
  ANTI_ENUM_MIN_MS * 1000000 <=
    Z.max 0 (clock (w_reads body.2) - clock (w_reads w1)) + (w_slept (initiate_reset en input ctx w).2 - w_slept body.2).
Proof.
  intros email Hres Hgate Hfind body. unfold initiate_reset. rewrite (bind_ok _ _ _ _ _ Hres). cbv zeta. fold email.
  destruct (floored_run (initiate_reset_inner en tenant_id email) w1) as [Hr Hsl]. cbv zeta in Hr, Hsl.
  rewrite Hr, Hsl. fold body. split; [|unfold wait_remaining; lia].
  unfold body, initiate_reset_inner, try_begin_resend, on_store. rewrite bind_run. cbn [w_store]. rewrite Hgate.
  destruct begun; cbn [negb]; [|done]. unfold find_unblocked. rewrite bind_run, bind_run, from_users_run. cbn [w_users with_store].
  destruct (repo_find_by_email email tenant_id (w_users w1)) as [[found|e] u]; [|done]. cbn [map_err fst snd].
  rewrite ret_run. destruct (option_filter _ _) as [user|]; [|done]. rewrite bind_run.
  by destruct (attempt_total (match cf_reset_method (en_config en) with
    | RmOtp => send_reset_otp en tenant_id email | RmToken => send_reset_token en user email tenant_id end) (with_users u (with_store s1
      (MkWorld (w_store w1) (w_users w1) (w_draws w1) (Datatypes.S (w_reads w1)) (w_slept w1) (w_hooks w1))))) as (r & w2 & ->).
Qed.

(** C35. A refused request spends no proof.  A reset that carries no proof, more
    than one, or one the deployment is not configured for, and a reset whose new
    password is too short or known to be breached, is refused before the proof is
    looked at: the store, and with it the single-use proof and the attempt count
    of a code, is exactly as it was. *)
Theorem refused_reset_spends_nothing `{Crypto, Host, !DigitSource, UnicodeText, PasswordHashLib}
    {S U : Type} `{SessionStore S, OtpStore S, PasswordResetStore S, UserRepository U, KdfRuntime U,
      PasswordBreachChecker U, EmailProvider U}
    (en : AuthEngine U) (input : ResetPasswordInput) (ctx : RequestContext) (w : World S U) :
  let proof := classify (ri_token input) (ri_otp input) (ri_verified_token input) in
  let w1 := (resolve_tenant en (ri_tenant_id input) ctx w).2 in
  proof = None \/ (exists p, proof = Some p /\ pair_with_method (cf_reset_method (en_config en)) p = None) \/
  chars_count (ri_new_password input) < ps_min_length (en_passwords en) \/
  (is_breached (ri_new_password input) (w_users w1)).1 = true ->
  exists e w', reset_password en input ctx w = (Err e, w') /\ w_store w' = w_store w.
Proof.
  intros proof w1 Hcase. unfold reset_password. rewrite bind_run. pose proof (resolve_store en (ri_tenant_id input) ctx w) as Hst.
  fold w1 in Hst. destruct (resolve_tenant en (ri_tenant_id input) ctx w) as [[tenant_id|e] w1'] eqn:Hres; [|by exists e, w1'].
  assert (w1 = w1') as -> by done. cbv zeta. fold proof. rewrite bind_run.
  destruct proof as [p|]; [|by exists PasswordResetTokenInvalid, w1']. unfold lift at 1. cbn [ok_or]. rewrite bind_run.
  destruct (pair_with_method _ p) as [d|] eqn:Hd; [|by exists PasswordResetTokenInvalid, w1']. unfold lift at 1. cbn [ok_or].
  rewrite bind_run. destruct (acceptable_store en (ri_new_password input) "newPassword" w1') as [Hs2 Hok].
  destruct (PasswordService.assert_acceptable _ _ _ w1') as [[[]|e] w2]; cbn in Hs2, Hok; [|exists e, w2; split; [done | congruence]].
  exfalso. destruct (Hok eq_refl) as [Hlen Hbr].
  destruct Hcase as [?|[(p' & [= <-] & Hn)|[?|?]]]; [done | congruence | lia | congruence].
Qed.

(** What binds a stored proof to the password it replaces.  A proof issued
    while the account had a local password is honoured only while the account
    still exists with a password whose fingerprint has the same digest, so the
    first completed change ends every other proof.  A proof issued while the
    account had none carries no binding: it is honoured in every later state,
    whatever password was set since. *)
Theorem proof_binding_exact `{CryptoLaws, Host, UnicodeText} {S U : Type} `{UserRepository U}
    (issued_for : AuthUser) (email tenant_id : string) (w : World S U) :
  let context := {| rc_user_id := au_id issued_for; rc_email := email; rc_tenant_id := tenant_id;
                    rc_password_fingerprint := password_fingerprint issued_for |} in
  match au_password_hash issued_for with
  | None => assert_proof_still_bound context w = (Ok tt, w)
  | Some phc =>
      (assert_proof_still_bound context w).1 = Ok tt <->
      exists found, (repo_find_by_id (au_id issued_for) (Some tenant_id) (w_users w)).1 = Ok found /\
        sha256 (match found with Some user => password_fingerprint user | None => "" end) = sha256 (to_hex (sha256 phc))
  end.
Proof.
  cbv zeta. unfold assert_proof_still_bound. cbn [rc_password_fingerprint rc_user_id rc_tenant_id].
  assert (Hfp : password_fingerprint issued_for = match au_password_hash issued_for with
    | Some phc => to_hex (sha256 phc) | None => "" end) by done.
  rewrite Hfp. destruct (au_password_hash issued_for) as [phc|]; [|done]. clear Hfp.
  assert (Hne : string_is_empty (to_hex (sha256 phc)) = false).
  { pose proof (to_hex_length (sha256 phc)) as Hl. rewrite sha256_length in Hl. by destruct (to_hex (sha256 phc)). }
  rewrite Hne.
  rewrite bind_run, from_users_run. destruct (repo_find_by_id _ _ _) as [[found|e] u]; cbn [fst snd map_err].
  - unfold digest_eq, constant_time_eq. case_bool_decide as Hd; (split; [intros Hok | intros (found' & [= <-] & Heq)]).
    + eauto.
    + done.
    + done.
    + by destruct Hd.
  - split; [done|]. by intros (found & ? & _).
Qed.

(** ** Changing a known password *)

Section change.
Context `{Crypto, Host, !DigitSource, UnicodeText, PasswordHashLib}.
Context {S U : Type} `{SessionStoreLaws S, BruteForceStore S, !BruteForceStoreLaws S, OtpStore S, PasswordResetStore S}.
Context `{UserRepository U, KdfRuntime U, PasswordBreachChecker U, EmailProvider U}.
Context (en : AuthEngine U).

(** All that is left of the account's sessions is what [keep] says. *)
Definition ended_but (subject : string) (keep : string -> Prop) (a a' : AStore) : Prop :=
  (forall h rec t, a_live a' SkDashboard h = Some (rec, t) -> tm_owner (en_tokens en) SkDashboard rec = subject -> keep h) /\
  (forall h s rec t, a_grace a' SkDashboard h = Some (s, rec, t) -> tm_owner (en_tokens en) SkDashboard rec <> subject) /\
  a_current_epoch SkDashboard subject a' = a_current_epoch SkDashboard subject a + 1.

Lemma ended_but_equiv (subject : string) (keep : string -> Prop) (a b b' : AStore) :
  b ≡ b' -> ended_but subject keep a b -> ended_but subject keep a b'.
Proof.
  intros Hb (Hl & Hg & He). pose proof Hb as [_ El Eg _ _ _ _ _ _]. rewrite (a_current_epoch_proper _ _ _ _ Hb) in He.
  split_and!; [intros *; rewrite <-El; eauto | intros *; rewrite <-Eg; eauto | done].
Qed.

Lemma everywhere_ended (subject : string) (keep : string -> Prop) (a a' : AStore) :
  signed_out_everywhere (en_tokens en) SkDashboard subject a a' -> ended_but subject keep a a'.
Proof. intros [(Hl & Hg & _) He]. split_and!; [intros h rec t Hx Ho; by destruct (Hl h rec t Hx) | done | done]. Qed.

Lemma others_ended_but (subject h : string) (ttl : Z) (a a' : AStore) :
  sound (tm_owner (en_tokens en)) ttl a -> others_ended subject h a a' -> ended_but subject (stands_as subject h a) a a'.
Proof.
  intros Hs (kept & Hk & _ & Hgone & Hgrace & He & Hsub & Hsubg). split_and!; [| | done].
  - intros h' rec t Hx Ho. destruct (decide (h' = kept)) as [->|Hne]; [done|].
    destruct (snd_live _ _ _ Hs _ _ _ _ (Hsub _ _ _ Hx)) as (m & t' & Hi & Hm & _). rewrite Ho in Hi.
    rewrite (Hgone h' Hne) in Hx; [done|]. by rewrite Hi.
  - intros h' s rec t Hx Ho. destruct (snd_grace _ _ _ Hs _ _ _ _ _ (Hsubg _ _ _ Hx)) as (m & t' & Hi & Hm & _).
    rewrite Ho in Hi. rewrite (Hgrace h') in Hx; [done|]. by rewrite Hi.
Qed.

Lemma listing_sound (subject : string) (ttl : Z) (a b : AStore) (es : list SessionEntry) :
  sound (tm_owner (en_tokens en)) ttl a -> listing SkDashboard subject a es b -> sound (tm_owner (en_tokens en)) ttl b.
Proof.
  intros Hs (_ & _ & _ & pruned & Hp & Hb). eapply sound_equiv; [apply equiv_same; symmetry; exact Hb|]. by apply prune_sound.
Qed.

Lemma listing_epoch (subject s : string) (a b : AStore) (es : list SessionEntry) :
  listing SkDashboard subject a es b -> a_current_epoch SkDashboard s b = a_current_epoch SkDashboard s a.
Proof. intros Hl. unfold a_current_epoch. by destruct (listing_store _ _ _ _ _ Hl) as (_ & _ & -> & _). Qed.

Lemma end_other_sessions_inv (tenant_id user_id : string) (kept : option string) (ttl : Z) (w w' : World S U) (a : AStore) :
  let subject := session_subject en SkDashboard (Some tenant_id) user_id in
  SessionService.subject (en_sessions en) (Some tenant_id) user_id = subject ->
  at_state w a -> sound (tm_owner (en_tokens en)) ttl a -> a_current_epoch SkDashboard subject a < i64_max ->
  end_other_sessions en tenant_id user_id kept w = (Ok tt, w') ->
  exists a', at_state w' a' /\
    ended_but subject (fun h => exists k, kept = Some k /\ stands_as subject k a h) a a'.
Proof.
  intros subject Hsub Hw Hs He Hrun. unfold end_other_sessions in Hrun. cbv zeta in Hrun. fold subject in Hrun.
  assert (Hall : forall (w1 : World S U) a1, at_state w1 a1 -> sound (tm_owner (en_tokens en)) ttl a1 ->
    a_current_epoch SkDashboard subject a1 = a_current_epoch SkDashboard subject a ->
    (_ ← on_store (SessionStore.revoke_all SkDashboard subject); _ ← on_store (SessionStore.bump_epoch SkDashboard subject);
     mret tt) w1 = (Ok tt, w') -> exists a', at_state w' a' /\ signed_out_everywhere (en_tokens en) SkDashboard subject a a').
  { intros w1 a1 Hw1 Hs1 He1 Hr. apply bind_ok_inv in Hr as (r1 & w2 & Hrev & Hr). apply bind_ok_inv in Hr as (n & w3 & Hb & Hr).
    einv Hr. destruct (revoke_bump_inv (en_tokens en) SkDashboard subject ttl w1 w2 w3 r1 n a1 Hw1 Hs1) as (a' & Hw' & Hout & Hep); [lia | done | done |].
    exists a'. split; [done|]. split; [done|]. by rewrite Hep, He1. }
  destruct kept as [kept|].
  2: { destruct (Hall w a) as (a' & Hw' & Hout); [done.. |]. exists a'. split; [done|]. by apply everywhere_ended. }
  apply bind_ok_inv in Hrun as (swept & w1 & Hsw & Hrun). apply attempt_inv in Hsw.
  rewrite <-Hsub in He. pose proof (revoke_except_ewp (en_sessions en) tenant_id user_id kept w a Hw He) as Hq.
  destruct (ewp_run _ _ _ _ _ Hq Hsw) as (b & Hw1 & Hb). rewrite Hsub in *.
  destruct Hb as [[-> Hb]|[-> Hb]].
  - destruct (Hall w1 b) as (a' & Hw' & Hout); [done | | | done |].
    + destruct Hb as [->|[es Hl]]; [done | by eapply listing_sound].
    + destruct Hb as [->|[es Hl]]; [done | by eapply listing_epoch].
    + exists a'. split; [done|]. by apply everywhere_ended.
  - einv Hrun. exists b. split; [done|]. destruct (others_ended_but _ _ _ _ _ Hs Hb) as (Hl & Hg & Hep).
    split_and!; [eauto | done | done].
Qed.

(** The password was proved below the lockout ceiling. *)
Lemma prove_password_inv (id password phc : string) (w w' : World S U) :
  prove_password en id password phc w = (Ok tt, w') ->
  under_ceiling en id w /\ verify_phc password phc = true.
Proof.
  intros Hrun. unfold prove_password in Hrun. apply bind_ok_inv in Hrun as (locked & w1 & Hl & Hrun).
  destruct locked; [einv Hrun|]. apply bind_ok_inv in Hrun as (o & w2 & Hv & Hrun). apply verify_inv in Hv as ->.
  destruct (negb _) eqn:Hm; [einv Hrun|]. split; [|apply negb_false_iff in Hm; exact Hm].
  unfold BruteForce.is_locked in Hl. einv Hl.
  match goal with Hs : on_store _ _ = _ |- _ => apply store_inv in Hs as (Hs & _) end. by eexists.
Qed.

Lemma equiet_prove (id password phc : string) : equiet (prove_password (S := S) en id password phc).
Proof. unfold prove_password. hush. Qed.

End change.

(** C29. Changing a password takes the current one and ends the other sessions.
    When a change succeeds on a sound store, the account exists in the caller's
    tenant, its stored hash matched the current password, tried below the
    re-proof lockout's ceiling; the new password met the length policy and its
    hash was written for exactly that account; and afterwards the account has no
    live session but the one the presented refresh token stands for (none when
    none was presented), no recovery pointer, and an epoch one higher, which ends
    its access tokens. *)
Theorem change_password_keeps_only_current `{Crypto, Host, !DigitSource, UnicodeText, PasswordHashLib}
    {S U : Type} `{SessionStoreLaws S, BruteForceStore S, !BruteForceStoreLaws S, OtpStore S, PasswordResetStore S}
    `{UserRepository U, KdfRuntime U, PasswordBreachChecker U, EmailProvider U}
    (en : AuthEngine U) (tenant_id user_id current_password new_password : string) (current_refresh : option string)
    (ttl : Z) (w w' : World S U) :
  let subject := subject_hash (en_tokens en) SkDashboard (Some tenant_id) user_id in
  one_key en -> ss_identifier_key (en_sessions en) = cf_hmac_key (en_config en) -> ready (w_store w) ->
  sound (tm_owner (en_tokens en)) ttl (stands_for (w_store w)) ->
  a_current_epoch SkDashboard subject (stands_for (w_store w)) < i64_max ->
  change_password en tenant_id user_id current_password new_password current_refresh w = (Ok tt, w') ->
  exists user phc,
    (repo_find_by_id user_id (Some tenant_id) (w_users w)).1 = Ok (Some user) /\ au_password_hash user = Some phc /\
    verify_phc current_password phc = true /\
    (exists w1, w_store w1 = w_store w /\ under_ceiling en (reproof_identifier en "change-password" user_id) w1) /\
    ps_min_length (en_passwords en) <= chars_count new_password /\
    password_written en user_id tenant_id new_password /\ ready (w_store w') /\
    exists kept a1, (current_refresh = None -> kept = None) /\ (a1 = stands_for (w_store w) \/
        exists es, listing SkDashboard subject (stands_for (w_store w)) es a1) /\
      (forall raw, current_refresh = Some raw -> exists k, kept = Some k /\ stands_as subject (redis_hash raw) (stands_for (w_store w)) k) /\
      ended_but en subject (fun h => exists k, kept = Some k /\ stands_as subject k a1 h) (stands_for (w_store w)) (stands_for (w_store w')).
Proof.
  intros subject Hk Hsk Hr Hs He Hrun. set (a := stands_for (w_store w)) in *. unfold change_password in Hrun.
  assert (Hsub : session_subject en SkDashboard (Some tenant_id) user_id = subject) by by apply one_key_subject.
  assert (Hsvc : SessionService.subject (en_sessions en) (Some tenant_id) user_id = subject).
  { rewrite <-Hsub. unfold SessionService.subject, session_subject. by rewrite Hsk. }
  apply bind_ok_inv in Hrun as (found & w1 & Hf & Hrun). apply from_users_inv in Hf as [Hf Hst1].
  apply bind_ok_inv in Hrun as (phc & w1' & Hl & Hrun). apply lift_inv in Hl as [Hl ->].
  destruct found as [user|]; [|done]. destruct (au_password_hash user) as [phc'|] eqn:Hphc; [|done]. injection Hl as ->.
  assert (Hw1 : at_state w1 a) by (unfold at_state; by rewrite Hst1).
  apply bind_ok_inv in Hrun as ([] & w2 & Hp & Hrun).
  pose proof (equiet_at _ _ _ _ _ (equiet_prove en _ _ _) Hw1 Hp) as Hw2. apply prove_password_inv in Hp as [Hceil Hver].
  apply bind_ok_inv in Hrun as (kept & w3 & Hkept & Hrun).
  apply bind_ok_inv in Hrun as ([] & w4 & Hacc & Hrun). apply bind_ok_inv in Hrun as (hash & w5 & Hh & Hrun).
  apply bind_ok_inv in Hrun as ([] & w6 & Hup & Hrun). apply bind_ok_inv in Hrun as ([] & w7 & Hend & Hrun).
  assert (Ha1 : exists a1, at_state w3 a1 /\ (a1 = a \/ exists es, listing SkDashboard subject a es a1) /\
     (current_refresh = None -> kept = None) /\
     forall raw, current_refresh = Some raw -> exists k, kept = Some k /\ stands_as subject (redis_hash raw) a k).
  { destruct current_refresh as [raw|]; [|einv Hkept; exists a; split_and!; auto; done].
    apply bind_ok_inv in Hkept as (k & w3' & Hres & Hret). einv Hret. unfold resolve_current_session in Hres.
    destruct (is_refresh_token_shape raw); cbn [negb] in Hres; [|einv Hres].
    pose proof (resolve_live_ewp (en_sessions en) tenant_id user_id (redis_hash raw) w2 a Hw2) as Hq. cbv zeta in Hq. rewrite Hsvc in Hq.
    destruct (ewp_run _ _ _ _ _ Hq Hres) as [[?|(k' & [= <-] & Hst)] (a1 & Hw3 & Hlist)]; [done|].
    exists a1. split_and!; [done | done | done |]. intros raw' [= <-]. eauto. }
  destruct Ha1 as (a1 & Hw3 & Hlist & Hnone & Hsome).
  assert (Hw4 : at_state w4 a1) by (eapply equiet_at; [| |exact Hacc]; [hush | done]).
  assert (Hw5 : at_state w5 a1) by (eapply equiet_at; [| |exact Hh]; [hush | done]).
  apply from_users_inv in Hup as [Hup Hst6]. assert (Hw6 : at_state w6 a1) by (unfold at_state; by rewrite Hst6).
  assert (He1 : a_current_epoch SkDashboard subject a1 = a_current_epoch SkDashboard subject a).
  { destruct Hlist as [->|[es Hl]]; [done | by eapply listing_epoch]. }
  destruct (end_other_sessions_inv en tenant_id user_id kept ttl w6 w7 a1) as (a' & Hw7 & Hended); try done.
  - by rewrite Hsvc.
  - destruct Hlist as [->|[es Hl]]; [done | by eapply listing_sound].
  - rewrite Hsub. lia.
  - pose proof (equiet_at _ _ _ _ _ (equiet_notify _ _) Hw7 Hrun) as Hw'. rewrite Hsub in Hended.
    exists user, phc. rewrite Hf. destruct (acceptable_store en new_password "newPassword" w3) as [_ Hok]. rewrite Hacc in Hok.
    apply hash_inv in Hh as [salt Hh].
    split_and!; [done | done | done | by exists w1 | by destruct (Hok eq_refl) | | apply Hw' |].
    + exists salt, hash. eauto.
    + exists kept, a1. split_and!; [done | done | done |].
      eapply ended_but_equiv; [symmetry; apply Hw'|]. destruct Hended as (Hl & Hg & Hep). split_and!; [done | done |]. by rewrite Hep, He1.
Qed.
