(* ===== verification/Account.v ===== *)
(** * Registration, e-mail verification and address change

    Models [crates/bymax-auth-core/src/services/auth/register.rs],
    [email_verification.rs] and [email_change.rs]. *)

From S2P Require Import Prelude Errors Types Crypto Jwt Redis RedisSession RedisStores SessionSpec SessionStore MfaStore Engine Repository Password SideStores OtpService TokenManager Sessions AuthCore Login PasswordReset.

Record RegisterInput : Set := {
  gi_email : string;
  gi_name : string;
  gi_password : string;
  gi_tenant_id : option string;
}.

Definition VERIFICATION_OTP_LENGTH : nat := 6.
Definition VERIFICATION_RESEND_COOLDOWN_SECS : Z := 60.
Definition EMAIL_CHANGE_TOKEN_BYTES : nat := 32.

Definition verification_context (user_id email tenant_id : string) : HookContext := {|
  hc_plane := HpDashboard;
  hc_user_id := Some user_id;
  hc_email := Some email;
  hc_tenant_id := Some tenant_id;
  hc_ip := "";
  hc_user_agent := "";
  hc_sanitized_headers := ∅;
|}.

Definition assert_still_bound `{Crypto} (context : EmailChangeContext) (user : AuthUser) : result AuthError unit :=
  if string_is_empty (ec_password_fingerprint context) then Ok tt else
  if digest_eq (ec_password_fingerprint context) (password_fingerprint user) then Ok tt else Err EmailChangeTokenInvalid.

Section account.
Context `{Crypto, Host, !DigitSource, Base64, HeaderJson, UnicodeText, PasswordHashLib}.
Context `{ClaimsJson DashboardClaims, ClaimsJson PlatformClaims, ClaimsJson MfaTempClaims}.
Context {S U : Type} `{SessionStore S, BruteForceStore S, OtpStore S, PasswordResetStore S, UserStatusCacheStore S}.
Context `{UserRepository U, AuthHooks U, KdfRuntime U, PasswordBreachChecker U, EmailProvider U}.
Context (en : AuthEngine U).

Abbreviation Eng := (E S U).
Abbreviation config := (en_config en).
Abbreviation otp_key := (cf_hmac_key (en_config en)).

(** ** E-mail verification *)

Definition send_verification_otp (tenant_id email : string) : Eng unit :=
  let identifier := hashed_identifier en tenant_id email in
  otp ← OtpService.generate VERIFICATION_OTP_LENGTH;
  _ ← OtpService.store otp_key EmailVerification identifier otp (cf_verification_otp_ttl config);
  spawn_hook (SendVerificationEmail tenant_id email otp).

Definition mark_email_verified (user_id tenant_id : string) : Eng unit :=
  _ ← from_users map_repository_error (repo_update_email_verified user_id tenant_id true);
  drop_cached_account_facts en user_id tenant_id.

Definition verify_email (tenant_id : option string) (email otp : string) (ctx : RequestContext) : Eng unit :=
  let email := normalize_email email in
  tenant_id ← resolve_tenant en tenant_id ctx;
  let identifier := hashed_identifier en tenant_id email in
  _ ← OtpService.verify otp_key EmailVerification identifier otp;
  found ← from_users map_repository_error (repo_find_by_email email tenant_id);
  user ← lift (ok_or OtpInvalid found);
  _ ← mark_email_verified (au_id user) tenant_id;
  spawn_hook (AfterEmailVerified (safe_user user) (verification_context (au_id user) (au_email user) tenant_id)).

Definition resend_verification_email (tenant_id : option string) (email : string) (ctx : RequestContext) : Eng unit :=
  let email := normalize_email email in
  started ← instant_now;
  tenant_id ← resolve_tenant en tenant_id ctx;
  let identifier := hashed_identifier en tenant_id email in
  begun ← OtpService.try_begin_resend EmailVerification identifier VERIFICATION_RESEND_COOLDOWN_SECS;
  if negb begun then normalize_anti_enum started else
  found ← from_users map_repository_error (repo_find_by_email email tenant_id);
  _ ← match option_filter (fun user => negb (au_email_verified user)) found with
      | Some user => _ ← attempt (send_verification_otp tenant_id email); mret tt
      | None => mret tt
      end;
  normalize_anti_enum started.

(** ** Registration *)

Definition provision_local_user (input : RegisterInput) (email tenant_id : string) (overrides : RegisterOverrides) :
    Eng AuthUser :=
  let verification_required := cf_verification_required config in
  _ ← PasswordService.assert_acceptable (en_passwords en) (gi_password input) "password";
  password_hash ← PasswordService.hash (en_passwords en) (gi_password input);
  let email_verified := if verification_required then Some false else ov_email_verified overrides in
  user ← from_users map_repository_error (repo_create {|
    cu_email := email; cu_name := gi_name input; cu_password_hash := Some password_hash; cu_role := ov_role overrides;
    cu_status := ov_status overrides; cu_tenant_id := tenant_id; cu_email_verified := email_verified |});
  _ ← (if verification_required then (_ ← attempt (send_verification_otp tenant_id (au_email user)); mret tt) else mret tt);
  mret user.

Definition register (input : RegisterInput) (ctx : RequestContext) : Eng LoginResult :=
  let email := normalize_email (gi_email input) in
  tenant_id ← resolve_tenant en (gi_tenant_id input) ctx;
  let hook_ctx := from_request HpDashboard ctx None (Some email) (Some tenant_id) in
  decided ← on_users (before_register {| ra_email := email; ra_name := gi_name input; ra_tenant_id := tenant_id |} hook_ctx);
  overrides ← match decided with
              | Ok (Allow overrides) => mret overrides
              | Ok (Reject _) | Err _ => throw Forbidden
              end;
  existing ← from_users map_repository_error (repo_find_by_email email tenant_id);
  if bool_decide (is_Some existing) then
    _ ← PasswordService.verify_sentinel (en_passwords en) (gi_password input);
    throw EmailAlreadyExists
  else
  user ← provision_local_user input email tenant_id overrides;
  let safe := safe_user user in
  result ← issue_tokens (en_tokens en) safe (rc_ip ctx) (rc_user_agent ctx) false Proved;
  _ ← enforce_sessions_after_issue en result (rc_ip ctx) (rc_user_agent ctx) hook_ctx;
  _ ← spawn_hook (AfterRegister safe hook_ctx);
  mret (LoginSuccess result).

(** ** Address change *)

Definition no_reset_store : AuthError := internal_error "password reset store not configured".

Definition assert_address_is_free (user : AuthUser) (new_email : string) : Eng unit :=
  if bool_decide (normalize_email (au_email user) = new_email) then throw EmailAlreadyExists else
  taken ← from_users map_repository_error (repo_find_by_email new_email (au_tenant_id user));
  if bool_decide (is_Some taken) then throw EmailAlreadyExists else mret tt.

Definition request_email_change (tenant_id user_id new_email current_password : string) : Eng unit :=
  let new_email := normalize_email new_email in
  if negb (en_password_reset_store en) then throw no_reset_store else
  found ← from_users map_repository_error (repo_find_by_id user_id (Some tenant_id));
  user ← lift (ok_or InvalidCredentials found);
  phc ← lift (ok_or InvalidCredentials (au_password_hash user));
  _ ← lift (assert_user_not_blocked en (au_status user));
  _ ← prove_password en (reproof_identifier en "email-change" user_id) current_password phc;
  _ ← assert_address_is_free user new_email;
  raw ← take_draw (fun i => generate_secure_token i EMAIL_CHANGE_TOKEN_BYTES);
  let context := {| ec_user_id := user_id; ec_new_email := new_email; ec_tenant_id := au_tenant_id user;
                    ec_password_fingerprint := password_fingerprint user |} in
  _ ← on_store (pr_put_email_change raw context (cf_email_change_token_ttl config));
  from_users (fun _ => internal_error "email change verification delivery failed")
    (send_email_change_verification (au_tenant_id user) new_email raw).

Definition confirm_email_change (token : string) : Eng unit :=
  if negb (en_password_reset_store en) then throw no_reset_store else
  consumed ← on_store (pr_consume_email_change token);
  context ← lift (ok_or EmailChangeTokenInvalid consumed);
  found ← from_users map_repository_error (repo_find_by_id (ec_user_id context) (Some (ec_tenant_id context)));
  user ← lift (ok_or EmailChangeTokenInvalid found);
  _ ← lift (assert_still_bound context user);
  _ ← lift (assert_user_not_blocked en (au_status user));
  _ ← assert_address_is_free user (ec_new_email context);
  _ ← from_users map_repository_error (repo_update_email (ec_user_id context) (ec_tenant_id context) (ec_new_email context));
  _ ← on_users (send_email_changed_notification (au_tenant_id user) (au_email user) (ec_new_email context));
  mret tt.

End account.

(** ** Detached work *)

Section detached.
Context `{PasswordHashLib, Host} {S U : Type} `{UserRepository U, KdfRuntime U} (ps : PasswordService).

(** [run_rehash_password] ([detached.rs]), the task a login spawns when the hash it
    verified is stale, up to its re-read: the hash to write, if the stored one is
    still the one that was verified. *)
Definition rehash_read (password tenant_id user_id verified_hash : string) : E S U (option string) :=
  new_hash ← PasswordService.hash ps password;
  current ← from_users map_repository_error (repo_find_by_id user_id (Some tenant_id));
  if bool_decide ((match current with Some user => au_password_hash user | None => None end) = Some verified_hash)
  then mret (Some new_hash) else mret None.

(** Its write, awaited after the re-read. *)
Definition rehash_write (tenant_id user_id : string) (new_hash : option string) : E S U unit :=
  match new_hash with
  | Some new_hash => from_users map_repository_error (repo_update_password user_id tenant_id new_hash)
  | None => mret tt
  end.

Definition run_rehash_password (password tenant_id user_id verified_hash : string) : E S U unit :=
  new_hash ← rehash_read password tenant_id user_id verified_hash;
  rehash_write tenant_id user_id new_hash.

End detached.
