(* ===== verification/MfaService.v ===== *)
(** * The second factor

    Models [crates/bymax-auth-core/src/services/mfa]: enrolment ([setup.rs]), the
    challenge that completes a sign-in ([challenge.rs]), disabling, administrative
    reset and recovery-code regeneration ([manage.rs]), their hooks ([hooks.rs])
    and the shared helpers of [mod.rs].  The build is the one with the platform
    plane compiled in. *)

From S2P Require Import Prelude Errors Types Crypto Jwt Redis RedisSession SessionSpec SessionStore MfaStore Engine Repository Password SideStores TokenManager Sessions AuthCore Login Totp.

Definition MFA_SETUP_TTL_SECONDS : Z := 600.
Definition TOTP_STEP_SECONDS : Z := 30.
Definition RECOVERY_CODE_CLAIM_TTL_SECONDS : Z := 300.
Definition MFA_TRANSITION_LOCK_TTL_SECONDS : Z := 10.
Definition MFA_TRANSITION_LOCK_TOKEN_BYTES : nat := 16.
Definition RECOVERY_CODE_BYTES : nat := 12.
Definition TOTP_SECRET_BYTES : nat := 20.
Definition PLATFORM_EMAIL_TENANT : string := "platform".

Record MfaSetupResult : Set := {
  sr_secret : string;
  sr_qr_code_uri : string;
  sr_recovery_codes : list string;
}.

Inductive LoginResultMfa : Set :=
| LrDashboard (result : AuthResult)
| LrPlatform (result : PlatformAuthResult).

Record MfaSetupData : Set := {
  sd_encrypted_secret : string;
  sd_hashed_codes : list string;
  sd_encrypted_plain_codes : string;
}.

(** [serde_json] on the pending record and on a list of codes. *)
Class MfaJson : Type := {
  setup_to_json : MfaSetupData -> option string;
  setup_of_json : string -> option MfaSetupData;
  codes_to_json : list string -> option string;
  codes_of_json : string -> option (list string);
}.

Record MfaUserView : Set := {
  vw_email : string;
  vw_mfa_enabled : bool;
  vw_mfa_secret : option string;
  vw_mfa_recovery_codes : option (list string);
  vw_dashboard_user : option SafeAuthUser;
  vw_hook_user : SafeAuthUser;
  vw_password_hash : option string;
}.

Definition view_plane (view : MfaUserView) : HookPlane :=
  if bool_decide (is_Some (vw_dashboard_user view)) then HpDashboard else HpPlatform.

Definition email_tenant (view : MfaUserView) : string :=
  match vw_dashboard_user view with Some u => su_tenant_id u | None => PLATFORM_EMAIL_TENANT end.

Definition TENANT_PLANE_MESSAGE : string :=
  "a dashboard MFA operation requires a non-empty tenantId, and a platform one requires none".

Definition require_plane_tenant (ctx : MfaContext) (tenant_id : option string) : result AuthError unit :=
  if plane_tenant_is_well_formed ctx tenant_id then Ok tt
  else Err (Validation [{| fe_field := "tenantId"; fe_message := TENANT_PLANE_MESSAGE |}]).

(** What the service is assembled from, besides the stores, the repositories and
    the host that its methods run against. *)
Record MfaService : Set := {
  ms_platform_repo : bool;
  ms_tokens : TokenManagerService;
  ms_sessions : SessionServiceCfg;
  ms_brute_force : BruteForceService;
  ms_passwords : PasswordService;
  ms_encryption_key : string;
  ms_previous_encryption_keys : list string;
  ms_identifier_key : string;
  ms_previous_identifier_keys : list string;
  ms_issuer : string;
  ms_totp_window : Z;
  ms_recovery_code_count : nat;
  ms_sessions_enabled : bool;
  ms_blocked_statuses : list string;
}.

(** ** Pure parts *)

Definition platform_hook_user (admin : AuthPlatformUser) : SafeAuthUser := {|
  su_id := ap_id admin;
  su_email := ap_email admin;
  su_name := ap_name admin;
  su_role := ap_role admin;
  su_status := ap_status admin;
  su_tenant_id := "";
  su_email_verified := true;
  su_mfa_enabled := ap_mfa_enabled admin;
  su_oauth_provider := None;
  su_oauth_provider_id := None;
  su_last_login_at := ap_last_login_at admin;
  su_created_at := ap_created_at admin;
|}.

Definition after_transition (user : SafeAuthUser) (mfa_enabled : bool) : SafeAuthUser := {|
  su_id := su_id user;
  su_email := su_email user;
  su_name := su_name user;
  su_role := su_role user;
  su_status := su_status user;
  su_tenant_id := su_tenant_id user;
  su_email_verified := su_email_verified user;
  su_mfa_enabled := mfa_enabled;
  su_oauth_provider := su_oauth_provider user;
  su_oauth_provider_id := su_oauth_provider_id user;
  su_last_login_at := su_last_login_at user;
  su_created_at := su_created_at user;
|}.

Definition mfa_hook_context (plane : HookPlane) (user_id email ip user_agent : string) : HookContext := {|
  hc_plane := plane;
  hc_user_id := Some user_id;
  hc_email := Some email;
  hc_tenant_id := None;
  hc_ip := ip;
  hc_user_agent := user_agent;
  hc_sanitized_headers := ∅;
|}.

Definition is_totp_code (code : string) : bool := Nat.eqb (String.length code) 6 && string_all is_ascii_digit code.

Fixpoint upper_hex (bytes : string) : string :=
  match bytes with
  | EmptyString => EmptyString
  | String byte rest =>
      String (hex_upper (Z.shiftr (byte_z byte) 4)) (String (hex_upper (Z.land (byte_z byte) 15)) (upper_hex rest))
  end.

(** A hyphen before every fourth character but the first. *)
Fixpoint group_four (index : nat) (hex : string) : string :=
  match hex with
  | EmptyString => EmptyString
  | String ch rest =>
      if Nat.ltb 0 index && Nat.eqb (index mod 4) 0 then String "-" (String ch (group_four (S index) rest))
      else String ch (group_four (S index) rest)
  end.

Definition recovery_code_of (bytes : string) : string := group_four 0 (upper_hex bytes).

(** The first index whose digest is one of the candidates; every digest is
    compared with every candidate. *)
Fixpoint scan_candidates (digest : string) (index : nat) (candidates : list string) (found : option nat) : option nat :=
  match candidates with
  | [] => found
  | candidate :: rest =>
      let found := if constant_time_eq digest candidate then (match found with Some i => Some i | None => Some index end) else found in
      scan_candidates digest index rest found
  end.

Fixpoint scan_digests (index : nat) (stored_digests candidates : list string) (found : option nat) : option nat :=
  match stored_digests with
  | [] => found
  | digest :: rest => scan_digests (S index) rest candidates (scan_candidates digest index candidates found)
  end.

Definition verify_recovery_code (stored_digests candidates : list string) : option nat :=
  scan_digests 0 stored_digests candidates None.

(** [codes.iter().position(|c| c == d)] and [codes.remove(i)]. *)
Fixpoint position (d : string) (codes : list string) : option nat :=
  match codes with
  | [] => None
  | c :: rest => if bool_decide (c = d) then Some O else S <$> position d rest
  end.

Definition mfa_repository_error (error : RepositoryError) : AuthError :=
  match error with
  | Backend source => Internal source
  | Conflict _ => internal_error "mfa repository conflict"
  end.

(** ** UTF-8 *)

Definition in_range (lo hi : Z) (c : ascii) : bool := bool_decide (lo <= byte_z c <= hi).

(** [String::from_utf8] accepts exactly the well-formed byte sequences. *)
Fixpoint is_utf8 (s : string) : bool :=
  match s with
  | EmptyString => true
  | String a rest =>
      if in_range 0 127 a then is_utf8 rest else
      match rest with
      | EmptyString => false
      | String b rest =>
          if in_range 194 223 a then in_range 128 191 b && is_utf8 rest else
          match rest with
          | EmptyString => false
          | String c rest =>
              if in_range 224 239 a then
                (if bool_decide (byte_z a = 224) then in_range 160 191 b
                 else if bool_decide (byte_z a = 237) then in_range 128 159 b else in_range 128 191 b)
                && in_range 128 191 c && is_utf8 rest
              else
              match rest with
              | EmptyString => false
              | String d rest =>
                  in_range 240 244 a
                  && (if bool_decide (byte_z a = 240) then in_range 144 191 b
                      else if bool_decide (byte_z a = 244) then in_range 128 143 b else in_range 128 191 b)
                  && in_range 128 191 c && in_range 128 191 d && is_utf8 rest
              end
          end
      end
  end.

Definition from_utf8 (bytes : string) : option string := if is_utf8 bytes then Some bytes else None.

(** ** The service *)

(** [mutate]: what a transition writes, from the record read under the lock. *)
Abbreviation Mutation := (MfaUserView -> option (bool * option string * option (list string))).

Section service.
Context `{Crypto, Host, Base64, HeaderJson, PasswordHashLib, Base32, UnicodeChars, Aes256Gcm, Base64Std, MfaJson}.
Context `{ClaimsJson DashboardClaims, ClaimsJson PlatformClaims, ClaimsJson MfaTempClaims}.
Context {S U : Type} `{SessionStore S, MfaStore S, BruteForceStore S}.
Context `{UserRepository U, PlatformUserRepository U, KdfRuntime U}.
Context (ms : MfaService).

Abbreviation Eng := (E S U).
Abbreviation tm := (ms_tokens ms).
Abbreviation bf := (ms_brute_force ms).
Abbreviation key := (ms_identifier_key ms).

(** ** Identifiers *)

Definition mfa_session_subject (ctx : MfaContext) (tenant_id : option string) (user_id : string) : string :=
  session_subject_hash key (session_kind ctx) tenant_id user_id.

Definition setup_key (ctx : MfaContext) (tenant_id : option string) (user_id : string) : string :=
  user_subject_hash key ctx tenant_id user_id.

Definition replay_id (ctx : MfaContext) (tenant_id : option string) (user_id code : string) : string :=
  to_hex (hmac_sha256 key (user_subject ctx tenant_id user_id +:+ ":" +:+ code)).

Definition anti_replay_ttl_seconds : Z := (2 * Z.min (ms_totp_window ms) MAX_VERIFY_WINDOW + 1) * TOTP_STEP_SECONDS.

Definition challenge_bf_id (ctx : MfaContext) (tenant_id : option string) (user_id : string) : string :=
  to_hex (hmac_sha256 key ("challenge:" +:+ user_subject ctx tenant_id user_id)).

Definition disable_bf_id (ctx : MfaContext) (tenant_id : option string) (user_id : string) : string :=
  to_hex (hmac_sha256 key ("disable:" +:+ user_subject ctx tenant_id user_id)).

Definition reauth_bf_id (ctx : MfaContext) (tenant_id : option string) (user_id : string) : string :=
  to_hex (hmac_sha256 key ("reauth:" +:+ user_subject ctx tenant_id user_id)).

Definition mfa_lock_id (ctx : MfaContext) (tenant_id : option string) (user_id : string) : string :=
  user_subject_hash key ctx tenant_id user_id.

Definition hash_recovery_code (code : string) : string := to_hex (hmac_sha256 key code).

Definition recovery_code_candidates (code : string) : list string :=
  hash_recovery_code code :: map (fun k => to_hex (hmac_sha256 k code)) (ms_previous_identifier_keys ms).

(** ** Secrets at rest *)

Definition mfa_encrypt (plaintext : string) : Eng string :=
  sealed ← take_draw (fun i => seal i plaintext (ms_encryption_key ms));
  match sealed with
  | Ok wire => mret wire
  | Err _ => throw (internal_error "mfa secret encryption failed")
  end.

Fixpoint open_retired (wire : string) (keys : list string) : option (string * bool) :=
  match keys with
  | [] => None
  | k :: rest => match unseal wire k with Ok plaintext => Some (plaintext, true) | Err _ => open_retired wire rest end
  end.

Definition decrypt_with_rotation (wire : string) : option (string * bool) :=
  match unseal wire (ms_encryption_key ms) with
  | Ok plaintext => Some (plaintext, false)
  | Err _ => open_retired wire (ms_previous_encryption_keys ms)
  end.

Definition mfa_decrypt (wire : string) : option string := fst <$> decrypt_with_rotation wire.

Definition decrypt_secret_with_rotation (wire : string) : option (string * bool) :=
  '(encoded, stale) ← decrypt_with_rotation wire;
  text ← from_utf8 encoded;
  match decode_secret_base32 text with Ok secret => Some (secret, stale) | Err _ => None end.

Definition decrypt_secret (wire : string) : option string := fst <$> decrypt_secret_with_rotation wire.

Definition reencrypt_secret (raw_secret : string) : Eng string := mfa_encrypt (encode_secret_base32 raw_secret).

Definition holds_challenged_secret (current : MfaUserView) (challenged : string) : bool :=
  vw_mfa_enabled current &&
  match vw_mfa_secret current ≫= decrypt_secret with
  | Some stored => constant_time_eq stored challenged
  | None => false
  end.

(** ** Codes *)

(** [u64::try_from(now_unix()).unwrap_or(0)]. *)
Definition current_unix_time : Eng Z := now ← now_unix_secs; mret (Z.max 0 now).

Definition verify_totp_with_anti_replay (ctx : MfaContext) (tenant_id : option string) (user_id secret code : string) : Eng bool :=
  now ← current_unix_time;
  if negb (verify_totp secret code now (ms_totp_window ms)) then mret false else
  on_store (mfa_mark_totp_used (replay_id ctx tenant_id user_id code) anti_replay_ttl_seconds).

Definition generate_recovery_code : Eng string := take_draw (fun i => recovery_code_of (entropy i RECOVERY_CODE_BYTES)).

Fixpoint generate_recovery_codes (n : nat) : Eng (list string) :=
  match n with
  | O => mret []
  | Datatypes.S n' => code ← generate_recovery_code; rest ← generate_recovery_codes n'; mret (code :: rest)
  end.

(** ** The account record *)

Definition fetch_dashboard (user_id : string) (tenant_id : option string) : Eng MfaUserView :=
  found ← from_users mfa_repository_error (repo_find_by_id user_id tenant_id);
  user ← lift (ok_or MfaNotEnabled found);
  _ ← lift (assert_not_blocked (au_status user) (ms_blocked_statuses ms));
  mret {| vw_email := au_email user; vw_mfa_enabled := au_mfa_enabled user; vw_mfa_secret := au_mfa_secret user;
          vw_mfa_recovery_codes := au_mfa_recovery_codes user; vw_password_hash := au_password_hash user;
          vw_hook_user := safe_user user; vw_dashboard_user := Some (safe_user user) |}.

Definition fetch_platform (user_id : string) : Eng MfaUserView :=
  if negb (ms_platform_repo ms) then throw MfaNotEnabled else
  found ← from_users mfa_repository_error (admin_find_by_id user_id);
  admin ← lift (ok_or MfaNotEnabled found);
  _ ← lift (assert_not_blocked (ap_status admin) (ms_blocked_statuses ms));
  mret {| vw_email := ap_email admin; vw_mfa_enabled := ap_mfa_enabled admin; vw_mfa_secret := ap_mfa_secret admin;
          vw_mfa_recovery_codes := ap_mfa_recovery_codes admin; vw_password_hash := Some (ap_password_hash admin);
          vw_hook_user := platform_hook_user admin; vw_dashboard_user := None |}.

Definition fetch_user_mfa (user_id : string) (ctx : MfaContext) (tenant_id : option string) : Eng MfaUserView :=
  match ctx with
  | McDashboard => fetch_dashboard user_id tenant_id
  | McPlatform => fetch_platform user_id
  end.

Definition persist_mfa (user_id : string) (ctx : MfaContext) (tenant_id : option string) (data : UpdateMfaData) : Eng unit :=
  match ctx with
  | McDashboard =>
      tenant_id ← lift (ok_or (internal_error "MFA write without a tenant") tenant_id);
      from_users mfa_repository_error (repo_update_mfa user_id tenant_id data)
  | McPlatform =>
      if negb (ms_platform_repo ms) then throw MfaNotEnabled else
      from_users mfa_repository_error (admin_update_mfa user_id data)
  end.

Definition transition_locked (user_id : string) (ctx : MfaContext) (tenant_id : option string) (mutate : Mutation) : Eng bool :=
  current ← fetch_user_mfa user_id ctx tenant_id;
  match mutate current with
  | None => mret false
  | Some (enabled, secret, codes) =>
      _ ← persist_mfa user_id ctx tenant_id
            {| um_mfa_enabled := enabled; um_mfa_secret := secret; um_mfa_recovery_codes := codes |};
      mret true
  end.

Definition transition_mfa_record (user_id : string) (ctx : MfaContext) (tenant_id : option string) (mutate : Mutation) :
    Eng bool :=
  let lock_id := mfa_lock_id ctx tenant_id user_id in
  lock_token ← take_draw (fun i => generate_secure_token i MFA_TRANSITION_LOCK_TOKEN_BYTES);
  held ← on_store (mfa_acquire_lock lock_id lock_token MFA_TRANSITION_LOCK_TTL_SECONDS);
  if negb held then throw MfaStateConflict else
  outcome ← attempt (transition_locked user_id ctx tenant_id mutate);
  _ ← on_store (mfa_release_lock lock_id lock_token);
  lift outcome.

Definition mfa_assert_not_locked (bf_id : string) : Eng unit :=
  locked ← BruteForce.is_locked bf bf_id;
  if locked : bool
  then (retry ← BruteForce.remaining_lockout_secs bf_id; throw (AccountLocked (Some retry)))
  else mret tt.

(** Every session of the account ended, every access token outdated. *)
Definition end_account_sessions (ctx : MfaContext) (tenant_id : option string) (user_id : string) : Eng unit :=
  let subject := mfa_session_subject ctx tenant_id user_id in
  _ ← on_store (SessionStore.revoke_all (session_kind ctx) subject);
  _ ← on_store (SessionStore.bump_epoch (session_kind ctx) subject);
  mret tt.

Definition assert_reauthenticated (ctx : MfaContext) (tenant_id : option string) (user_id : string)
    (password_hash password : option string) : Eng unit :=
  match password_hash with
  | None =>
      let marker := user_subject_hash key ctx tenant_id user_id in
      recent ← on_store (SessionStore.has_recent_auth marker);
      if negb recent then throw ReauthenticationRequired else mret tt
  | Some hash =>
      let bf_id := reauth_bf_id ctx tenant_id user_id in
      _ ← mfa_assert_not_locked bf_id;
      outcome ← PasswordService.verify (ms_passwords ms) (default "" password) hash;
      if vo_matched outcome then BruteForce.reset bf_id
      else (_ ← BruteForce.record_failure bf bf_id; throw InvalidCredentials)
  end.

(** ** Enrolment *)

Definition generate_setup_material : Eng (string * list string * MfaSetupData) :=
  raw_secret ← take_draw (fun i => entropy i TOTP_SECRET_BYTES);
  plain_codes ← generate_recovery_codes (ms_recovery_code_count ms);
  let hashed_codes := map hash_recovery_code plain_codes in
  plain_json ← lift (ok_or (internal_error "mfa codes encode") (codes_to_json plain_codes));
  encrypted_secret ← mfa_encrypt (encode_secret_base32 raw_secret);
  encrypted_plain_codes ← mfa_encrypt plain_json;
  mret (raw_secret, plain_codes,
        {| sd_encrypted_secret := encrypted_secret; sd_hashed_codes := hashed_codes;
           sd_encrypted_plain_codes := encrypted_plain_codes |}).

Definition build_setup_result (email raw_secret : string) (recovery_codes : list string) : MfaSetupResult := {|
  sr_secret := encode_secret_base32 raw_secret;
  sr_qr_code_uri := provisioning_uri raw_secret email (ms_issuer ms);
  sr_recovery_codes := recovery_codes;
|}.

Definition setup_result_from_record (email record_json : string) : result AuthError MfaSetupResult :=
  match setup_of_json record_json with
  | None => Err (internal_error "mfa setup record decode")
  | Some data =>
      match decrypt_secret (sd_encrypted_secret data) with
      | None => Err (internal_error "mfa setup record secret decrypt")
      | Some raw_secret =>
          match mfa_decrypt (sd_encrypted_plain_codes data) with
          | None => Err (internal_error "mfa setup record codes decrypt")
          | Some plain_json =>
              match codes_of_json plain_json with
              | None => Err (internal_error "mfa setup record codes decode")
              | Some recovery_codes => Ok (build_setup_result email raw_secret recovery_codes)
              end
          end
      end
  end.

Definition setup (user_id : string) (ctx : MfaContext) (tenant_id password : option string) : Eng MfaSetupResult :=
  _ ← lift (require_plane_tenant ctx tenant_id);
  view ← fetch_user_mfa user_id ctx tenant_id;
  if vw_mfa_enabled view then throw MfaAlreadyEnabled else
  _ ← assert_reauthenticated ctx tenant_id user_id (vw_password_hash view) password;
  let skey := setup_key ctx tenant_id user_id in
  pending ← on_store (mfa_get_setup skey);
  match pending with
  | Some existing => lift (setup_result_from_record (vw_email view) existing)
  | None =>
      '(raw_secret, plain_codes, data) ← generate_setup_material;
      json ← lift (ok_or (internal_error "mfa setup encode") (setup_to_json data));
      won ← on_store (mfa_put_setup_nx skey json MFA_SETUP_TTL_SECONDS);
      if won : bool then mret (build_setup_result (vw_email view) raw_secret plain_codes) else
      existing ← on_store (mfa_get_setup skey);
      existing ← lift (ok_or (internal_error "mfa setup record vanished after NX race") existing);
      lift (setup_result_from_record (vw_email view) existing)
  end.

Definition notify_enabled (view : MfaUserView) (user_id ip user_agent : string) : Eng unit :=
  _ ← spawn_hook (SendMfaEnabled (email_tenant view) (vw_email view));
  spawn_hook (AfterMfaEnabled (after_transition (vw_hook_user view) true)
    (mfa_hook_context (view_plane view) user_id (vw_email view) ip user_agent)).

(** The pending record, with the secret it holds. *)
Definition load_pending (skey : string) : Eng (MfaSetupData * string) :=
  pending ← on_store (mfa_get_setup skey);
  record_json ← lift (ok_or MfaSetupRequired pending);
  data ← lift (ok_or MfaSetupRequired (setup_of_json record_json));
  raw_secret ← lift (ok_or MfaSetupRequired (decrypt_secret (sd_encrypted_secret data)));
  mret (data, raw_secret).

Definition verify_and_enable (user_id code ip user_agent : string) (ctx : MfaContext) (tenant_id : option string) : Eng unit :=
  _ ← lift (require_plane_tenant ctx tenant_id);
  view ← fetch_user_mfa user_id ctx tenant_id;
  if vw_mfa_enabled view then throw MfaAlreadyEnabled else
  let skey := setup_key ctx tenant_id user_id in
  '(data, raw_secret) ← load_pending skey;
  fresh ← verify_totp_with_anti_replay ctx tenant_id user_id raw_secret code;
  if negb fresh then throw MfaInvalidCode else
  taken ← on_store (mfa_take_setup skey);
  match taken with
  | None => throw MfaSetupRequired
  | Some _ =>
      _ ← transition_mfa_record user_id ctx tenant_id
            (fun _ => Some (true, Some (sd_encrypted_secret data), Some (sd_hashed_codes data)));
      _ ← end_account_sessions ctx tenant_id user_id;
      notify_enabled view user_id ip user_agent
  end.

(** ** Disabling, reset and regeneration *)

Definition reauth_gate (ctx : MfaContext) (tenant_id : option string) (user_id code : string) (view : MfaUserView) : Eng unit :=
  if negb (vw_mfa_enabled view) then throw MfaNotEnabled else
  let bf_id := disable_bf_id ctx tenant_id user_id in
  _ ← mfa_assert_not_locked bf_id;
  encrypted ← lift (ok_or TokenInvalid (vw_mfa_secret view));
  raw_secret ← lift (ok_or TokenInvalid (decrypt_secret encrypted));
  fresh ← verify_totp_with_anti_replay ctx tenant_id user_id raw_secret code;
  if negb fresh then (_ ← BruteForce.record_failure bf bf_id; throw MfaInvalidCode) else
  BruteForce.reset bf_id.

Definition notify_disabled (view : MfaUserView) (user_id ip user_agent : string) : Eng unit :=
  _ ← spawn_hook (SendMfaDisabled (email_tenant view) (vw_email view));
  spawn_hook (AfterMfaDisabled (after_transition (vw_hook_user view) false)
    (mfa_hook_context (view_plane view) user_id (vw_email view) ip user_agent)).

Definition notify_regenerated (view : MfaUserView) (user_id ip user_agent : string) : Eng unit :=
  spawn_hook (AfterMfaRegenerated (vw_hook_user view)
    (mfa_hook_context (view_plane view) user_id (vw_email view) ip user_agent)).

Definition disable (user_id code ip user_agent : string) (ctx : MfaContext) (tenant_id : option string) : Eng unit :=
  _ ← lift (require_plane_tenant ctx tenant_id);
  view ← fetch_user_mfa user_id ctx tenant_id;
  _ ← reauth_gate ctx tenant_id user_id code view;
  _ ← transition_mfa_record user_id ctx tenant_id (fun _ => Some (false, None, None));
  _ ← end_account_sessions ctx tenant_id user_id;
  notify_disabled view user_id ip user_agent.

Definition reset_mfa (user_id : string) (ctx : MfaContext) (tenant_id : option string) : Eng unit :=
  _ ← lift (require_plane_tenant ctx tenant_id);
  view ← fetch_user_mfa user_id ctx tenant_id;
  if negb (vw_mfa_enabled view) then mret tt else
  _ ← transition_mfa_record user_id ctx tenant_id (fun _ => Some (false, None, None));
  _ ← end_account_sessions ctx tenant_id user_id;
  notify_disabled view user_id "" "".

(** What a regeneration writes: nothing once MFA is off. *)
Definition regenerated (hashed : list string) : Mutation := fun current =>
  if negb (vw_mfa_enabled current) then None else
  match vw_mfa_secret current with
  | Some secret => Some (true, Some secret, Some hashed)
  | None => None
  end.

Definition regenerate_recovery_codes (user_id totp_code ip user_agent : string) (ctx : MfaContext)
    (tenant_id : option string) : Eng (list string) :=
  _ ← lift (require_plane_tenant ctx tenant_id);
  view ← fetch_user_mfa user_id ctx tenant_id;
  _ ← reauth_gate ctx tenant_id user_id totp_code view;
  plain_codes ← generate_recovery_codes (ms_recovery_code_count ms);
  let hashed := map hash_recovery_code plain_codes in
  replaced ← transition_mfa_record user_id ctx tenant_id (regenerated hashed);
  if negb replaced then throw MfaNotEnabled else
  _ ← notify_regenerated view user_id ip user_agent;
  mret plain_codes.

(** ** The challenge *)

Definition reject_code {T} (bf_id : string) : Eng T :=
  _ ← BruteForce.record_failure bf bf_id;
  throw MfaInvalidCode.

Definition accept_totp (ctx : MfaContext) (tenant_id : option string) (user_id raw_secret code jti : string) : Eng bool :=
  now ← current_unix_time;
  if negb (verify_totp raw_secret code now (ms_totp_window ms)) then mret false else
  let replay := replay_id ctx tenant_id user_id code in
  let jti_marker := to_hex (sha256 jti) in
  on_store (mfa_challenge_consume replay jti_marker anti_replay_ttl_seconds).

Definition claim_code (ctx : MfaContext) (tenant_id : option string) (user_id code : string) : Eng bool :=
  on_store (mfa_claim_recovery_code (replay_id ctx tenant_id user_id code) RECOVERY_CODE_CLAIM_TTL_SECONDS).

Definition accept_recovery_code (ctx : MfaContext) (user : AuthUser) (code : string) : Eng (option nat) :=
  let candidates := recovery_code_candidates code in
  let stored := default [] (au_mfa_recovery_codes user) in
  match verify_recovery_code stored candidates with
  | None => mret None
  | Some index =>
      claimed ← claim_code ctx (Some (au_tenant_id user)) (au_id user) code;
      if negb claimed then mret None else mret (Some index)
  end.

Definition claim_matched_recovery_code (ctx : MfaContext) (user_id code : string) (stored : list string) : Eng (option nat) :=
  match verify_recovery_code stored (recovery_code_candidates code) with
  | None => mret None
  | Some index =>
      claimed ← claim_code ctx None user_id code;
      if negb claimed then mret None else mret (Some index)
  end.

(** What a spent code leaves: nothing is written once the challenged secret is
    gone, or when the code is no longer in the list. *)
Definition spliced (challenged encrypted_secret : string) (spent : option string) : Mutation := fun current =>
  if negb (holds_challenged_secret current challenged) then None else
  let codes := default [] (vw_mfa_recovery_codes current) in
  match spent ≫= (fun d => position d codes) with
  | Some live => Some (true, Some encrypted_secret, Some (delete live codes))
  | None => None
  end.

(** What a secret re-encrypted under the current key leaves. *)
Definition rewritten (challenged stored_secret : string) : Mutation := fun current =>
  if negb (holds_challenged_secret current challenged) then None
  else Some (true, Some stored_secret, vw_mfa_recovery_codes current).

Definition splice_recovery_code (user : AuthUser) (challenged encrypted_secret : string) (index : nat) : Eng unit :=
  let spent := au_mfa_recovery_codes user ≫= (fun codes => codes !! index) in
  _ ← transition_mfa_record (au_id user) McDashboard (Some (au_tenant_id user)) (spliced challenged encrypted_secret spent);
  mret tt.

Definition mfa_enforce_session_limit (safe : SafeAuthUser) (email : string) (result : AuthResult) (ip user_agent : string) : Eng unit :=
  if negb (ms_sessions_enabled ms) then mret tt else
  let new_hash := redis_hash (ar_refresh_token result) in
  let '(device, stored_ip) := normalize_session_metadata user_agent ip in
  now ← now_offset;
  SessionService.after_session_created (ms_sessions ms) {|
    sr_user_id := su_id safe;
    sr_tenant_id := Some (su_tenant_id safe);
    sr_role := su_role safe;
    sr_device := device;
    sr_ip := stored_ip;
    sr_created_at := now;
    sr_mfa_enabled := su_mfa_enabled safe;
    sr_mfa_verified := true;
    sr_family_id := "";
    sr_family_created_at := None |} new_hash (mfa_hook_context HpDashboard (su_id safe) email ip user_agent).

(** The stored secret a challenge works with: present, enabled, and opening. *)
Definition challenged_secret (mfa_enabled : bool) (mfa_secret : option string) : result AuthError (string * string * bool) :=
  match (if mfa_enabled then mfa_secret else None) with
  | None => Err MfaNotEnabled
  | Some encrypted_secret =>
      match decrypt_secret_with_rotation encrypted_secret with
      | None => Err TokenInvalid
      | Some (raw_secret, under_retired_key) => Ok (encrypted_secret, raw_secret, under_retired_key)
      end
  end.

(** The submitted code, proved: [None] for a TOTP code, the index of the matched
    digest for a recovery code.  Either way the challenge is spent. *)
Definition prove_code (ctx : MfaContext) (tenant_id : option string) (user_id raw_secret code jti bf_id : string)
    (matched : Eng (option nat)) : Eng (option nat) :=
  if is_totp_code code then
    accepted ← accept_totp ctx tenant_id user_id raw_secret code jti;
    if negb accepted then reject_code bf_id else mret None
  else
    index ← matched;
    match index with
    | Some index =>
        consumed ← consume_mfa_temp_token tm jti;
        if negb consumed then throw MfaTempTokenInvalid else mret (Some index)
    | None => reject_code bf_id
    end.

Definition challenge_dashboard (verified : MfaTempVerified) (code ip user_agent : string) : Eng LoginResultMfa :=
  let user_id := mv_user_id verified in
  let tenant_id := mv_tenant_id verified in
  let bf_id := challenge_bf_id McDashboard tenant_id user_id in
  _ ← mfa_assert_not_locked bf_id;
  answer ← from_users mfa_repository_error (repo_find_by_id user_id tenant_id);
  user ← lift (ok_or MfaNotEnabled (option_filter (fun candidate => bool_decide (Some (au_tenant_id candidate) = tenant_id)) answer));
  _ ← lift (assert_not_blocked (au_status user) (ms_blocked_statuses ms));
  '(encrypted_secret, raw_secret, under_retired_key) ← lift (challenged_secret (au_mfa_enabled user) (au_mfa_secret user));
  recovery_index ← prove_code McDashboard tenant_id user_id raw_secret code (mv_jti verified) bf_id
                     (accept_recovery_code McDashboard user code);
  _ ← BruteForce.reset bf_id;
  stored_secret ← (if under_retired_key : bool then reencrypt_secret raw_secret else mret encrypted_secret);
  _ ← match recovery_index with
      | Some index => splice_recovery_code user raw_secret stored_secret index
      | None =>
          if under_retired_key : bool then
            _ ← transition_mfa_record user_id McDashboard (Some (au_tenant_id user)) (rewritten raw_secret stored_secret);
            mret tt
          else mret tt
      end;
  let email := au_email user in
  let safe := safe_user user in
  result ← issue_tokens tm safe ip user_agent true Proved;
  _ ← mfa_enforce_session_limit safe email result ip user_agent;
  _ ← spawn_hook (UpdateLastLogin (su_tenant_id safe) (su_id safe));
  _ ← spawn_hook (AfterLogin safe (mfa_hook_context HpDashboard user_id email ip user_agent));
  mret (LrDashboard result).

Definition challenge_platform (verified : MfaTempVerified) (code ip user_agent : string) : Eng LoginResultMfa :=
  let user_id := mv_user_id verified in
  let bf_id := challenge_bf_id McPlatform None user_id in
  _ ← mfa_assert_not_locked bf_id;
  if negb (ms_platform_repo ms) then throw MfaNotEnabled else
  found ← from_users mfa_repository_error (admin_find_by_id user_id);
  admin ← lift (ok_or MfaNotEnabled found);
  _ ← lift (assert_not_blocked (ap_status admin) (ms_blocked_statuses ms));
  '(encrypted_secret, raw_secret, under_retired_key) ← lift (challenged_secret (ap_mfa_enabled admin) (ap_mfa_secret admin));
  let recovery_codes := default [] (ap_mfa_recovery_codes admin) in
  recovery_index ← prove_code McPlatform None user_id raw_secret code (mv_jti verified) bf_id
                     (claim_matched_recovery_code McPlatform user_id code recovery_codes);
  _ ← BruteForce.reset bf_id;
  stored_secret ← (if under_retired_key : bool then reencrypt_secret raw_secret else mret encrypted_secret);
  _ ← match recovery_index with
      | Some index =>
          _ ← transition_mfa_record (ap_id admin) McPlatform None (spliced raw_secret stored_secret (recovery_codes !! index));
          mret tt
      | None =>
          if under_retired_key : bool then
            _ ← transition_mfa_record (ap_id admin) McPlatform None (rewritten raw_secret stored_secret);
            mret tt
          else mret tt
      end;
  result ← issue_platform_tokens tm (safe_platform_user admin) ip user_agent true;
  _ ← spawn_hook (UpdatePlatformLastLogin user_id);
  _ ← spawn_hook (AfterLogin (platform_hook_user admin) (mfa_hook_context HpPlatform user_id (ap_email admin) ip user_agent));
  mret (LrPlatform result).

Definition challenge_expecting (expected : option MfaContext) (mfa_temp_token code ip user_agent : string) : Eng LoginResultMfa :=
  verified ← verify_mfa_temp_token tm mfa_temp_token;
  if (match expected with Some plane => bool_decide (plane <> mv_context verified) | None => false end)
  then throw PlatformAuthRequired else
  match mv_context verified with
  | McDashboard => challenge_dashboard verified code ip user_agent
  | McPlatform => challenge_platform verified code ip user_agent
  end.

Definition challenge (mfa_temp_token code ip user_agent : string) : Eng LoginResultMfa :=
  challenge_expecting None mfa_temp_token code ip user_agent.

Definition challenge_platform_only (mfa_temp_token code ip user_agent : string) : Eng LoginResultMfa :=
  challenge_expecting (Some McPlatform) mfa_temp_token code ip user_agent.

End service.
