(* ===== verification/MfaSound.v ===== *)
(** * What the second factor guarantees *)

From S2P Require Import Prelude Errors Types Crypto Jwt Redis RedisSession SessionSpec SessionStore Lineage MfaStore Engine Repository Password Totp SideStores TokenManager RotationClaims Sessions SessionClaims AuthCore Login LoginSound SessionOps MfaService.

(** ** The recovery-code scan *)

Lemma scan_candidates_spec (digest : string) (index : nat) (candidates : list string) (found : option nat) :
  scan_candidates digest index candidates found =
  match found with Some i => Some i | None => if bool_decide (digest ∈ candidates) then Some index else None end.
Proof.
  revert found. induction candidates as [|c cs IH]; intros found; cbn [scan_candidates]; [by destruct found|].
  rewrite IH. unfold constant_time_eq. destruct found as [i|]; [by destruct (bool_decide (digest = c))|].
  destruct (decide (digest = c)) as [->|Hne].
  - by rewrite !bool_decide_eq_true_2 by (done || set_solver).
  - rewrite (bool_decide_eq_false_2 (digest = c)) by done. by rewrite (bool_decide_ext (digest ∈ c :: cs) (digest ∈ cs)) by set_solver.
Qed.

(** The reference: the first stored digest among the candidates. *)
Definition first_match (stored candidates : list string) : option nat :=
  fst <$> list_find (fun digest => digest ∈ candidates) stored.

Lemma scan_digests_spec (index : nat) (stored candidates : list string) (found : option nat) :
  scan_digests index stored candidates found =
  match found with Some i => Some i | None => Nat.add index <$> first_match stored candidates end.
Proof.
  revert index found. induction stored as [|d ds IH]; intros index found; cbn [scan_digests]; [by destruct found|].
  rewrite IH, scan_candidates_spec. destruct found as [i|]; [done|]. unfold first_match. cbn [list_find].
  case_bool_decide as Hd; [rewrite decide_True by done | rewrite decide_False by done]; cbn; [f_equal; lia|].
  destruct (list_find _ ds) as [[i x]|]; cbn; [f_equal; lia | done].
Qed.

Lemma verify_recovery_code_spec (stored candidates : list string) :
  verify_recovery_code stored candidates = first_match stored candidates.
Proof. unfold verify_recovery_code. rewrite scan_digests_spec. by destruct (first_match _ _). Qed.

Lemma first_match_Some (stored candidates : list string) (i : nat) :
  first_match stored candidates = Some i -> exists digest, stored !! i = Some digest /\ digest ∈ candidates.
Proof.
  unfold first_match. destruct (list_find _ _) as [[j d]|] eqn:Hf; [|done]. intros [= <-].
  apply list_find_Some in Hf as (Hl & Hd & _). eauto.
Qed.

Lemma first_match_is_Some (stored candidates : list string) (digest : string) :
  digest ∈ stored -> digest ∈ candidates -> is_Some (first_match stored candidates).
Proof.
  intros Hs Hc. unfold first_match. rewrite fmap_is_Some. eapply list_find_elem_of; done.
Qed.

(** ** The form of a code *)

Lemma group_four_length (index : nat) (hex : string) : (String.length hex <= String.length (group_four index hex))%nat.
Proof.
  revert index. induction hex as [|c hex IH]; intros index; cbn [group_four]; [done|]. specialize (IH (S index)).
  case_match; cbn; lia.
Qed.

Lemma upper_hex_length (bytes : string) : String.length (upper_hex bytes) = (2 * String.length bytes)%nat.
Proof. induction bytes as [|b bytes IH]; cbn; [done | lia]. Qed.

Lemma recovery_code_not_totp (bytes : string) : (4 <= String.length bytes)%nat -> is_totp_code (recovery_code_of bytes) = false.
Proof.
  intros Hb. unfold is_totp_code, recovery_code_of. pose proof (group_four_length 0 (upper_hex bytes)) as Hl.
  rewrite upper_hex_length in Hl. by rewrite (proj2 (Nat.eqb_neq _ 6)) by lia.
Qed.

Lemma generated_not_totp `{HostLaws} {S U : Type} (n : nat) (w w' : World S U) (codes : list string) (code : string) :
  generate_recovery_codes n w = (Ok codes, w') -> code ∈ codes -> is_totp_code code = false.
Proof.
  revert w w' codes. induction n as [|n IH]; intros w w' codes Hrun Hc; cbn [generate_recovery_codes] in Hrun.
  - apply ret_inv in Hrun as [-> _]. by apply elem_of_nil in Hc.
  - apply bind_ok_inv in Hrun as (first & w1 & [= <- <-] & Hrun). apply bind_ok_inv in Hrun as (rest & w2 & Hrest & Hrun).
    apply ret_inv in Hrun as [-> _]. apply elem_of_cons in Hc as [->|Hc]; [|by eapply IH].
    apply recovery_code_not_totp. rewrite entropy_length. unfold RECOVERY_CODE_BYTES. lia.
Qed.

(** A printed recovery code keeps working.  Every code a set is generated with
    is told apart from an authenticator code, and, checked against the digests
    stored with that set by a service whose current or any retired identifier
    key is the one that made them, is found: the scan answers the position of a
    stored digest that is a digest of the presented code under one of those keys. *)
Theorem printed_code_accepted `{Crypto, HostLaws} {S U : Type} (ms ms' : MfaService) (n : nat) (codes : list string)
    (code : string) (w w' : World S U) :
  generate_recovery_codes n w = (Ok codes, w') -> code ∈ codes ->
  ms_identifier_key ms ∈ ms_identifier_key ms' :: ms_previous_identifier_keys ms' ->
  is_totp_code code = false /\
  exists index digest, let stored := map (hash_recovery_code ms) codes in
    verify_recovery_code stored (recovery_code_candidates ms' code) = Some index /\
    stored !! index = Some digest /\ digest ∈ recovery_code_candidates ms' code.
Proof.
  intros Hrun Hc Hk. split; [by eapply generated_not_totp|]. cbv zeta. set (stored := map _ codes).
  assert (Hin : hash_recovery_code ms code ∈ recovery_code_candidates ms' code).
  { unfold recovery_code_candidates, hash_recovery_code. apply elem_of_cons in Hk as [->|Hk]; [set_solver|].
    apply elem_of_cons. right. by apply (list_elem_of_fmap_2 (fun k => to_hex (hmac_sha256 k code))). }
  rewrite verify_recovery_code_spec.
  destruct (first_match_is_Some stored (recovery_code_candidates ms' code) (hash_recovery_code ms code)) as [index Hi]; [|done|].
  { by apply (list_elem_of_fmap_2 (hash_recovery_code ms)). }
  destruct (first_match_Some _ _ _ Hi) as (digest & Hd & Hm). by exists index, digest.
Qed.

(** ** Secrets through a key rotation *)

Lemma base32_utf8 (s : string) : string_all is_base32 s = true -> is_utf8 s = true.
Proof.
  induction s as [|c s IH]; [done|]. cbn [string_all is_utf8]. intros [Hc Hs]%andb_true_iff.
  destruct (base32_plain c Hc) as (Ha & _). unfold is_ascii in Ha. apply bool_decide_eq_true in Ha.
  unfold in_range at 1. rewrite bool_decide_eq_true_2 by (unfold byte_z in *; lia). by apply IH.
Qed.

(** The key that opens, after those that refuse. *)
Lemma open_retired_app `{Aes256Gcm, Base64Std} (wire key plaintext : string) (before after : list string) :
  (forall k, k ∈ before -> unseal wire k = Err CryptoDecrypt) -> unseal wire key = Ok plaintext ->
  open_retired wire (before ++ key :: after) = Some (plaintext, true).
Proof.
  intros Hb Hk. induction before as [|k before IH]; cbn [app open_retired]; [by rewrite Hk|].
  rewrite Hb by set_solver. apply IH. set_solver.
Qed.

(** A stored secret survives key rotation.  A secret sealed by a service opens
    to the very same bytes in any later one that still holds its key, as the
    current key or among the retired ones, provided that the keys tried before it
    refuse the ciphertext; and it is reported as due for re-encryption exactly
    when the key that opened it is a retired one. *)
Theorem sealed_secret_opens `{HostLaws, Base32Laws, UnicodeCharsLaws, Aes256GcmLaws, Base64StdLaws} {S U : Type}
    (ms ms' : MfaService) (raw_secret wire : string) (before after : list string) (w w' : World S U) :
  reencrypt_secret ms raw_secret w = (Ok wire, w') ->
  ms_encryption_key ms' :: ms_previous_encryption_keys ms' = before ++ ms_encryption_key ms :: after ->
  (forall k, k ∈ before -> unseal wire k = Err CryptoDecrypt) ->
  decrypt_secret_with_rotation ms' wire = Some (raw_secret, negb (bool_decide (before = []))).
Proof.
  intros Hrun Hk Hb. unfold reencrypt_secret, mfa_encrypt in Hrun. apply bind_ok_inv in Hrun as (sealed & w1 & [= <- <-] & Hrun).
  destruct (seal _ _ _) as [wire'|] eqn:Hs; [|by apply throw_inv in Hrun]. apply ret_inv in Hrun as [-> _].
  apply unseal_seal in Hs.
  assert (Hopen : decrypt_with_rotation ms' wire' = Some (encode_secret_base32 raw_secret, negb (bool_decide (before = [])))).
  { unfold decrypt_with_rotation. destruct before as [|k before]; cbn in Hk; injection Hk as Hk Hprev.
    - by rewrite Hk, Hs.
    - rewrite Hk, (Hb k) by set_solver. rewrite Hprev. apply open_retired_app; [set_solver | done]. }
  unfold decrypt_secret_with_rotation. rewrite Hopen. cbn [mbind option_bind]. unfold from_utf8.
  rewrite base32_utf8 by apply b32_encode_alphabet. cbn [mbind option_bind]. by rewrite decode_encode_secret.
Qed.

(** * Who passes the second factor, and what changing it ends *)

#[export] Hint Unfold current_unix_time verify_totp_with_anti_replay mfa_encrypt reencrypt_secret fetch_dashboard fetch_platform
  fetch_user_mfa persist_mfa transition_locked transition_mfa_record mfa_assert_not_locked load_pending reauth_gate
  notify_enabled notify_disabled : equiet.

Section change.
Context `{Crypto, Host, PasswordHashLib, Base32, UnicodeChars, Aes256Gcm, Base64Std, MfaJson}.
Context {S U : Type} `{SessionStoreLaws S, MfaStore S, !MfaQuietLaws S, BruteForceStore S, !BruteForceStoreLaws S}.
Context `{UserRepository U, PlatformUserRepository U, KdfRuntime U}.
Context (ms : MfaService).

(** The two changes a user makes to the second factor. *)
Inductive MfaChange : Set := Enable | Disable.

Definition change_mfa (change : MfaChange) (user_id code ip user_agent : string) (ctx : MfaContext) (tenant_id : option string) :
    E S U unit :=
  match change with
  | Enable => verify_and_enable ms user_id code ip user_agent ctx tenant_id
  | Disable => disable ms user_id code ip user_agent ctx tenant_id
  end.

(** The repository of the plane was asked to write [data] and did. *)
Definition mfa_written (user_id : string) (ctx : MfaContext) (tenant_id : option string) (data : UpdateMfaData) : Prop :=
  exists u u', match ctx, tenant_id with
               | McDashboard, Some tenant => repo_update_mfa user_id tenant data u = (Ok tt, u')
               | McDashboard, None => False
               | McPlatform, _ => ms_platform_repo ms = true /\ admin_update_mfa user_id data u = (Ok tt, u')
               end.

(** A code was right for [secret] at the time it was checked, and had not been
    used before. *)
Definition fresh_totp (ctx : MfaContext) (tenant_id : option string) (user_id secret code : string) : Prop :=
  exists now s s', verify_totp secret code now (ms_totp_window ms) = true /\
    mfa_mark_totp_used (replay_id ms ctx tenant_id user_id code) (anti_replay_ttl_seconds ms) s = (Ok true, s').

Lemma fresh_totp_inv (ctx : MfaContext) (tenant_id : option string) (user_id secret code : string) (w w' : World S U) :
  verify_totp_with_anti_replay ms ctx tenant_id user_id secret code w = (Ok true, w') ->
  fresh_totp ctx tenant_id user_id secret code.
Proof.
  intros Hrun. unfold verify_totp_with_anti_replay in Hrun. apply bind_ok_inv in Hrun as (now & w1 & _ & Hrun).
  destruct (verify_totp _ _ _ _) eqn:Hv; cbn [negb] in Hrun; [|by apply ret_inv in Hrun as [? _]].
  apply store_inv in Hrun as (Hm & _). by exists now, (w_store w1), (w_store w').
Qed.

Lemma persist_inv (user_id : string) (ctx : MfaContext) (tenant_id : option string) (data : UpdateMfaData) (w w' : World S U) (r : unit) :
  persist_mfa ms user_id ctx tenant_id data w = (Ok r, w') -> mfa_written user_id ctx tenant_id data.
Proof.
  intros Hrun. unfold persist_mfa in Hrun. destruct ctx.
  - apply bind_ok_inv in Hrun as (tenant & w1 & Hl & Hrun). apply lift_inv in Hl as [Hl ->].
    destruct tenant_id as [t|]; [|done]. injection Hl as ->. apply from_users_inv in Hrun as [Hup _]. destruct r.
    by exists (w_users w), (w_users w').
  - destruct (ms_platform_repo ms) eqn:Hp; cbn [negb] in Hrun; [|by apply throw_inv in Hrun].
    apply from_users_inv in Hrun as [Hup _]. destruct r. exists (w_users w), (w_users w'). by destruct tenant_id.
Qed.

(** A transition that reports a change wrote what its mutation says of some
    record read under the lock. *)
Lemma transition_inv (user_id : string) (ctx : MfaContext) (tenant_id : option string) (mutate : Mutation) (w w' : World S U) :
  transition_mfa_record ms user_id ctx tenant_id mutate w = (Ok true, w') ->
  exists current enabled secret codes, mutate current = Some (enabled, secret, codes) /\
    mfa_written user_id ctx tenant_id {| um_mfa_enabled := enabled; um_mfa_secret := secret; um_mfa_recovery_codes := codes |}.
Proof.
  intros Hrun. unfold transition_mfa_record in Hrun. apply bind_ok_inv in Hrun as (token & w1 & _ & Hrun).
  apply bind_ok_inv in Hrun as (held & w2 & _ & Hrun). destruct held; cbn [negb] in Hrun; [|by apply throw_inv in Hrun].
  apply bind_ok_inv in Hrun as (outcome & w3 & Ha & Hrun). apply attempt_inv in Ha.
  apply bind_ok_inv in Hrun as (? & w4 & _ & Hrun). apply lift_inv in Hrun as [-> _].
  unfold transition_locked in Ha. apply bind_ok_inv in Ha as (current & w5 & _ & Ha).
  destruct (mutate current) as [[[enabled secret] codes]|] eqn:Hm; [|by apply ret_inv in Ha as [? _]].
  apply bind_ok_inv in Ha as (? & w6 & Hp & _). apply persist_inv in Hp. by exists current, enabled, secret, codes.
Qed.

(** A mutation that always writes never reports otherwise. *)
Lemma transition_true (user_id : string) (ctx : MfaContext) (tenant_id : option string) (x : bool * option string * option (list string))
    (b : bool) (w w' : World S U) :
  transition_mfa_record ms user_id ctx tenant_id (fun _ => Some x) w = (Ok b, w') -> b = true.
Proof.
  intros Hrun. unfold transition_mfa_record in Hrun. apply bind_ok_inv in Hrun as (token & w1 & _ & Hrun).
  apply bind_ok_inv in Hrun as (held & w2 & _ & Hrun). destruct held; cbn [negb] in Hrun; [|by apply throw_inv in Hrun].
  apply bind_ok_inv in Hrun as (outcome & w3 & Ha & Hrun). apply attempt_inv in Ha.
  apply bind_ok_inv in Hrun as (? & w4 & _ & Hrun). apply lift_inv in Hrun as [-> _].
  unfold transition_locked in Ha. apply bind_ok_inv in Ha as (current & w5 & _ & Ha). destruct x as [[enabled secret] codes].
  apply bind_ok_inv in Ha as (? & w6 & _ & Ha). by apply ret_inv in Ha as [-> _].
Qed.

(** The service and its token manager file sessions under the same key. *)
Definition mfa_one_key : Prop := ms_identifier_key ms = tm_identifier_key (ms_tokens ms).

(** The step both changes end with. *)
Lemma change_tail_inv (user_id : string) (ctx : MfaContext) (tenant_id : option string) (x : bool * option string * option (list string))
    (ttl : Z) (a : AStore) (b : bool) (w w1 w2 w' : World S U) (r r' : unit) (notify : E S U unit) :
  at_state w a -> sound (tm_owner (ms_tokens ms)) ttl a ->
  let subject := mfa_session_subject ms ctx tenant_id user_id in
  a_current_epoch (session_kind ctx) subject a < i64_max ->
  transition_mfa_record ms user_id ctx tenant_id (fun _ => Some x) w = (Ok b, w1) ->
  end_account_sessions ms ctx tenant_id user_id w1 = (Ok r, w2) ->
  equiet notify -> notify w2 = (Ok r', w') ->
  mfa_written user_id ctx tenant_id {| um_mfa_enabled := x.1.1; um_mfa_secret := x.1.2; um_mfa_recovery_codes := x.2 |} /\
  ready (w_store w') /\
  signed_out_everywhere (ms_tokens ms) (session_kind ctx) subject a (stands_for (w_store w')).
Proof.
  intros Hw Hs subject He Ht Hend Hq Hn. pose proof (transition_true _ _ _ _ _ _ _ Ht) as ->.
  assert (Hw1 : at_state w1 a) by (eapply equiet_at; [| exact Hw | exact Ht]; hush).
  apply transition_inv in Ht as (current & enabled & secret & codes & [= ->] & Hwr).
  unfold end_account_sessions in Hend. fold subject in Hend. apply bind_ok_inv in Hend as (r1 & w3 & Hrev & Hend).
  apply bind_ok_inv in Hend as (n & w4 & Hbump & Hend). apply ret_inv in Hend as [_ ->].
  destruct (revoke_bump_inv (ms_tokens ms) (session_kind ctx) subject ttl w1 w3 w4 r1 n a Hw1 Hs He Hrev Hbump) as (a' & Hw4 & Hout).
  assert (Hw' : at_state w' a') by (eapply equiet_at; [exact Hq | exact Hw4 | exact Hn]).
  split_and!; [done | apply Hw' |]. eapply signed_out_everywhere_equiv; [reflexivity | symmetry; apply Hw' | done].
Qed.

(** What backs the secret a change is proved against: the pending record, or the
    account's own. *)
Definition secret_source (change : MfaChange) (view : MfaUserView) (ctx : MfaContext) (tenant_id : option string) (user_id wire : string)
    (data : UpdateMfaData) : Prop :=
  match change with
  | Enable => exists s s' json pending,
      mfa_get_setup (setup_key ms ctx tenant_id user_id) s = (Ok (Some json), s') /\ setup_of_json json = Some pending /\
      wire = sd_encrypted_secret pending /\
      data = {| um_mfa_enabled := true; um_mfa_secret := Some wire; um_mfa_recovery_codes := Some (sd_hashed_codes pending) |}
  | Disable => vw_mfa_secret view = Some wire /\
      data = {| um_mfa_enabled := false; um_mfa_secret := None; um_mfa_recovery_codes := None |}
  end.

Lemma fetch_then_inv (user_id : string) (ctx : MfaContext) (tenant_id : option string) (f : MfaUserView -> E S U unit) (a : AStore)
    (w w' : World S U) :
  at_state w a ->
  (_ ← lift (require_plane_tenant ctx tenant_id); view ← fetch_user_mfa ms user_id ctx tenant_id; f view) w = (Ok tt, w') ->
  plane_tenant_is_well_formed ctx tenant_id = true /\
  exists view w1, fetch_user_mfa ms user_id ctx tenant_id w = (Ok view, w1) /\ at_state w1 a /\ f view w1 = (Ok tt, w').
Proof.
  intros Hw Hf. apply bind_ok_inv in Hf as ([] & w0 & Hl & Hf). apply lift_inv in Hl as [Hl ->]. split.
  { unfold require_plane_tenant in Hl. by destruct (plane_tenant_is_well_formed _ _). }
  apply bind_ok_inv in Hf as (view & w1 & Hv & Hf). exists view, w1. split_and!; [done | | done..].
  eapply equiet_at; [| exact Hw | exact Hv]. hush.
Qed.

Lemma load_pending_inv (skey : string) (data : MfaSetupData) (secret : string) (w w' : World S U) :
  load_pending ms skey w = (Ok (data, secret), w') ->
  (exists s s' json, mfa_get_setup skey s = (Ok (Some json), s') /\ setup_of_json json = Some data) /\
  decrypt_secret ms (sd_encrypted_secret data) = Some secret.
Proof.
  intros Hrun. unfold load_pending in Hrun. apply bind_ok_inv in Hrun as (pending & w1 & Hg & Hrun). apply store_inv in Hg as (Hg & _).
  apply bind_ok_inv in Hrun as (json & w2 & Hl & Hrun). apply lift_inv in Hl as [Hl ->]. destruct pending as [j|]; [|done]. injection Hl as ->.
  apply bind_ok_inv in Hrun as (d & w2 & Hl & Hrun). apply lift_inv in Hl as [Hl ->]. destruct (setup_of_json json) eqn:Hj; [|done].
  injection Hl as ->. apply bind_ok_inv in Hrun as (sec & w2 & Hl & Hrun). apply lift_inv in Hl as [Hl ->].
  destruct (decrypt_secret _ _) eqn:Hd; [|done]. injection Hl as ->. apply ret_inv in Hrun as [[= -> ->] _].
  split; [by exists (w_store w), (w_store w1), json | done].
Qed.

(** What a change that went through proved, wrote and ended, from the account as
    it was fetched. *)
Definition change_done (change : MfaChange) (view : MfaUserView) (user_id code : string) (ctx : MfaContext) (tenant_id : option string)
    (a : AStore) (w' : World S U) : Prop :=
  exists secret wire data,
    vw_mfa_enabled view = (match change with Enable => false | Disable => true end) /\
    secret_source change view ctx tenant_id user_id wire data /\ decrypt_secret ms wire = Some secret /\
    fresh_totp ctx tenant_id user_id secret code /\ mfa_written user_id ctx tenant_id data /\ ready (w_store w') /\
    signed_out_everywhere (ms_tokens ms) (session_kind ctx) (mfa_session_subject ms ctx tenant_id user_id) a (stands_for (w_store w')).

Lemma enable_inv (user_id code ip user_agent : string) (ctx : MfaContext) (tenant_id : option string) (ttl : Z) (w w' : World S U) :
  let a := stands_for (w_store w) in
  ready (w_store w) -> sound (tm_owner (ms_tokens ms)) ttl a ->
  a_current_epoch (session_kind ctx) (mfa_session_subject ms ctx tenant_id user_id) a < i64_max ->
  verify_and_enable ms user_id code ip user_agent ctx tenant_id w = (Ok tt, w') ->
  plane_tenant_is_well_formed ctx tenant_id = true /\
  exists view w1, fetch_user_mfa ms user_id ctx tenant_id w = (Ok view, w1) /\ change_done Enable view user_id code ctx tenant_id a w'.
Proof.
  intros a Hr Hs He Hrun. apply (fetch_then_inv _ _ _ _ a) in Hrun as (Hp & view & w1 & Hv & Hw1 & Hrun); [|done].
  split; [done|]. exists view, w1. split; [done|].
  destruct (vw_mfa_enabled view) eqn:Hon; [by apply throw_inv in Hrun|]. cbv zeta in Hrun.
  apply bind_ok_inv in Hrun as ([data secret] & w2 & Hl & Hrun).
  assert (Hw2 : at_state w2 a) by (eapply equiet_at; [| exact Hw1 | exact Hl]; hush).
  apply load_pending_inv in Hl as [(s & s' & json & Hget & Hjson) Hdec].
  apply bind_ok_inv in Hrun as (fresh & w3 & Hf & Hrun). destruct fresh; cbn [negb] in Hrun; [|by apply throw_inv in Hrun].
  assert (Hw3 : at_state w3 a) by (eapply equiet_at; [| exact Hw2 | exact Hf]; hush). apply fresh_totp_inv in Hf.
  apply bind_ok_inv in Hrun as (taken & w4 & Htk & Hrun). destruct taken; [|by apply throw_inv in Hrun].
  assert (Hw4 : at_state w4 a) by (eapply equiet_at; [| exact Hw3 | exact Htk]; hush).
  apply bind_ok_inv in Hrun as (b & w5 & Ht & Hrun). apply bind_ok_inv in Hrun as (r & w6 & Hend & Hrun).
  assert (Hq : equiet (notify_enabled (S := S) (U := U) view user_id ip user_agent)) by hush.
  destruct (change_tail_inv _ _ _ _ ttl a b w4 w5 w6 w' r tt _ Hw4 Hs He Ht Hend Hq Hrun) as (Hwr & Hr' & Hout).
  exists secret, (sd_encrypted_secret data); eexists. split_and!; [done | | done | done | exact Hwr | done | done].
  by exists s, s', json, data.
Qed.

Lemma reauth_gate_inv (ctx : MfaContext) (tenant_id : option string) (user_id code : string) (view : MfaUserView) (w w' : World S U) (r : unit) :
  reauth_gate ms ctx tenant_id user_id code view w = (Ok r, w') ->
  vw_mfa_enabled view = true /\ exists wire secret, vw_mfa_secret view = Some wire /\ decrypt_secret ms wire = Some secret /\
    fresh_totp ctx tenant_id user_id secret code.
Proof.
  intros Hrun. unfold reauth_gate in Hrun. destruct (vw_mfa_enabled view); cbn [negb] in Hrun; [|by apply throw_inv in Hrun].
  split; [done|]. apply bind_ok_inv in Hrun as (? & w1 & _ & Hrun). apply bind_ok_inv in Hrun as (wire & w2 & Hl & Hrun).
  apply lift_inv in Hl as [Hl ->]. destruct (vw_mfa_secret view) as [z|]; [|done]. injection Hl as ->.
  apply bind_ok_inv in Hrun as (secret & w3 & Hl & Hrun). apply lift_inv in Hl as [Hl ->].
  destruct (decrypt_secret ms wire) as [y|] eqn:Hd; [|done]. injection Hl as ->.
  apply bind_ok_inv in Hrun as (fresh & w3 & Hf & Hrun). exists wire, secret. split_and!; [done..|].
  destruct fresh; cbn [negb] in Hrun; [by eapply fresh_totp_inv|]. apply bind_ok_inv in Hrun as (? & w4 & _ & Hrun). by apply throw_inv in Hrun.
Qed.

Lemma disable_inv (user_id code ip user_agent : string) (ctx : MfaContext) (tenant_id : option string) (ttl : Z) (w w' : World S U) :
  let a := stands_for (w_store w) in
  ready (w_store w) -> sound (tm_owner (ms_tokens ms)) ttl a ->
  a_current_epoch (session_kind ctx) (mfa_session_subject ms ctx tenant_id user_id) a < i64_max ->
  disable ms user_id code ip user_agent ctx tenant_id w = (Ok tt, w') ->
  plane_tenant_is_well_formed ctx tenant_id = true /\
  exists view w1, fetch_user_mfa ms user_id ctx tenant_id w = (Ok view, w1) /\ change_done Disable view user_id code ctx tenant_id a w'.
Proof.
  intros a Hr Hs He Hrun. apply (fetch_then_inv _ _ _ _ a) in Hrun as (Hp & view & w1 & Hv & Hw1 & Hrun); [|done].
  split; [done|]. exists view, w1. split; [done|]. apply bind_ok_inv in Hrun as (r0 & w2 & Hg & Hrun).
  assert (Hw2 : at_state w2 a) by (eapply equiet_at; [| exact Hw1 | exact Hg]; hush).
  apply reauth_gate_inv in Hg as (Hon & wire & secret & Hsec & Hdec & Hf).
  apply bind_ok_inv in Hrun as (b & w5 & Ht & Hrun). apply bind_ok_inv in Hrun as (r & w6 & Hend & Hrun).
  assert (Hq : equiet (notify_disabled (S := S) (U := U) view user_id ip user_agent)) by hush.
  destruct (change_tail_inv _ _ _ _ ttl a b w2 w5 w6 w' r tt _ Hw2 Hs He Ht Hend Hq Hrun) as (Hwr & Hr' & Hout).
  exists secret, wire; eexists. split_and!; [done | | done | done | exact Hwr | done | done]. by split.
Qed.

End change.


(** ** The challenge *)

Section challenge.
Context `{Crypto, Host, Base64, HeaderJson, PasswordHashLib, Base32, UnicodeChars, Aes256Gcm, Base64Std}.
Context `{ClaimsJson DashboardClaims, ClaimsJson PlatformClaims, ClaimsJson MfaTempClaims}.
Context {S U : Type} `{SessionStore S, MfaStore S, BruteForceStore S}.
Context `{UserRepository U, PlatformUserRepository U, KdfRuntime U}.
Context (ms : MfaService).

(** The lockout counter of the challenge was under its ceiling when it was read. *)
Definition challenge_open (bf_id : string) (w : World S U) : Prop :=
  exists s, bf_is_locked bf_id (bf_max_attempts (ms_brute_force ms)) (w_store w) = (Ok false, s).

(** The second factor of a challenge: a code right for the secret, new, and
    redeemed together with the challenge; or a stored recovery digest that is the
    presented code's, claimed by this attempt, which then won the challenge. *)
Definition factor_proved (ctx : MfaContext) (tenant_id : option string) (owner_id user_id raw_secret : string) (stored : list string)
    (code jti : string) : Prop :=
  if is_totp_code code then
    exists now s s', verify_totp raw_secret code now (ms_totp_window ms) = true /\
      mfa_challenge_consume (replay_id ms ctx tenant_id user_id code) (jti_hash jti) (anti_replay_ttl_seconds ms) s = (Ok true, s')
  else
    exists index digest s1 s1' s2 s2', stored !! index = Some digest /\ digest ∈ recovery_code_candidates ms code /\
      mfa_claim_recovery_code (replay_id ms ctx tenant_id owner_id code) RECOVERY_CODE_CLAIM_TTL_SECONDS s1 = (Ok true, s1') /\
      mfa_del_temp (jti_hash jti) s2 = (Ok true, s2').

Lemma mfa_not_locked_inv (bf_id : string) (w w' : World S U) (r : unit) :
  mfa_assert_not_locked ms bf_id w = (Ok r, w') -> challenge_open bf_id w /\ w_users w' = w_users w.
Proof.
  intros Hrun. unfold mfa_assert_not_locked, BruteForce.is_locked in Hrun. apply bind_ok_inv in Hrun as (locked & w1 & Hl & Hrun).
  apply bind_ok_inv in Hl as ([] & w2 & Hv & Hl). apply lift_inv in Hv as [_ ->]. apply store_inv in Hl as (Hl & Hu & _).
  destruct locked; [einv Hrun|]. apply ret_inv in Hrun as [_ ->]. split; [by exists (w_store w1) | done].
Qed.

Lemma claim_inv (ctx : MfaContext) (tenant_id : option string) (user_id code : string) (stored : list string) (index : nat)
    (w w' : World S U) :
  match verify_recovery_code stored (recovery_code_candidates ms code) with
  | None => mret None
  | Some index => claimed ← claim_code ms ctx tenant_id user_id code; if negb claimed then mret None else mret (Some index)
  end w = (Ok (Some index), w') ->
  exists digest s s', stored !! index = Some digest /\ digest ∈ recovery_code_candidates ms code /\
    mfa_claim_recovery_code (replay_id ms ctx tenant_id user_id code) RECOVERY_CODE_CLAIM_TTL_SECONDS s = (Ok true, s').
Proof.
  intros Hrun. rewrite verify_recovery_code_spec in Hrun. destruct (first_match _ _) as [i|] eqn:Hm; [|by apply ret_inv in Hrun as [? _]].
  apply first_match_Some in Hm as (digest & Hd & Hin). apply bind_ok_inv in Hrun as (claimed & w1 & Hc & Hrun).
  destruct claimed; cbn [negb] in Hrun; [|by apply ret_inv in Hrun as [? _]]. apply ret_inv in Hrun as [[= ->] _].
  apply store_inv in Hc as (Hc & _). by exists digest, (w_store w), (w_store w1).
Qed.

Lemma prove_code_inv (ctx : MfaContext) (tenant_id : option string) (owner_id user_id raw_secret code jti bf_id : string)
    (stored : list string) (matched : E S U (option nat)) (w w' : World S U) (index : option nat) :
  (forall i w1 w2, matched w1 = (Ok (Some i), w2) -> exists digest s s', stored !! i = Some digest /\
     digest ∈ recovery_code_candidates ms code /\
     mfa_claim_recovery_code (replay_id ms ctx tenant_id owner_id code) RECOVERY_CODE_CLAIM_TTL_SECONDS s = (Ok true, s')) ->
  prove_code ms ctx tenant_id user_id raw_secret code jti bf_id matched w = (Ok index, w') ->
  factor_proved ctx tenant_id owner_id user_id raw_secret stored code jti.
Proof.
  intros Hmatch Hrun. unfold prove_code in Hrun. unfold factor_proved. destruct (is_totp_code code).
  - apply bind_ok_inv in Hrun as (accepted & w1 & Ha & Hrun). destruct accepted; cbn [negb] in Hrun; [|unfold reject_code in Hrun; einv Hrun].
    unfold accept_totp in Ha. apply bind_ok_inv in Ha as (now & w2 & _ & Ha).
    destruct (verify_totp _ _ _ _) eqn:Hv; cbn [negb] in Ha; [|by apply ret_inv in Ha as [? _]].
    apply store_inv in Ha as (Ha & _). by exists now, (w_store w2), (w_store w1).
  - apply bind_ok_inv in Hrun as (found & w1 & Hm & Hrun). destruct found as [i|]; [|unfold reject_code in Hrun; einv Hrun].
    apply bind_ok_inv in Hrun as (consumed & w2 & Hc & Hrun). destruct consumed; cbn [negb] in Hrun; [|by apply throw_inv in Hrun].
    destruct (Hmatch _ _ _ Hm) as (digest & s & s' & Hd & Hin & Hcl). unfold consume_mfa_temp_token in Hc.
    destruct (tm_mfa (ms_tokens ms)); cbn [negb] in Hc; [|by apply throw_inv in Hc]. apply store_inv in Hc as (Hc & _).
    by exists i, digest, s, s', (w_store w1), (w_store w2).
Qed.

Lemma challenged_secret_inv (enabled : bool) (secret : option string) (wire raw : string) (stale : bool) :
  challenged_secret ms enabled secret = Ok (wire, raw, stale) -> enabled = true /\ secret = Some wire /\ decrypt_secret ms wire = Some raw.
Proof.
  unfold challenged_secret, decrypt_secret. destruct enabled; [|done]. destruct secret as [x|]; [|done].
  destruct (decrypt_secret_with_rotation ms x) as [[y b]|] eqn:Hd; [|done]. intros [= -> -> ->]. rewrite Hd. done.
Qed.

(** What a passed challenge proved about the account it is for. *)
Definition second_factor_passed (verified : MfaTempVerified) (code : string) (result : LoginResultMfa) (w : World S U) : Prop :=
  match result with
  | LrDashboard res =>
      mv_context verified = McDashboard /\ challenge_open (challenge_bf_id ms McDashboard (mv_tenant_id verified) (mv_user_id verified)) w /\
      exists user wire raw,
        (repo_find_by_id (mv_user_id verified) (mv_tenant_id verified) (w_users w)).1 = Ok (Some user) /\
        mv_tenant_id verified = Some (au_tenant_id user) /\ assert_not_blocked (au_status user) (ms_blocked_statuses ms) = Ok tt /\
        au_mfa_enabled user = true /\ au_mfa_secret user = Some wire /\ decrypt_secret ms wire = Some raw /\
        factor_proved McDashboard (mv_tenant_id verified) (au_id user) (mv_user_id verified) raw
          (default [] (au_mfa_recovery_codes user)) code (mv_jti verified) /\
        ar_user res = safe_user user
  | LrPlatform res =>
      mv_context verified = McPlatform /\ challenge_open (challenge_bf_id ms McPlatform None (mv_user_id verified)) w /\
      exists admin wire raw,
        (admin_find_by_id (mv_user_id verified) (w_users w)).1 = Ok (Some admin) /\
        assert_not_blocked (ap_status admin) (ms_blocked_statuses ms) = Ok tt /\
        ap_mfa_enabled admin = true /\ ap_mfa_secret admin = Some wire /\ decrypt_secret ms wire = Some raw /\
        factor_proved McPlatform None (mv_user_id verified) (mv_user_id verified) raw
          (default [] (ap_mfa_recovery_codes admin)) code (mv_jti verified) /\
        pr_admin res = safe_platform_user admin
  end.

Lemma challenge_dashboard_inv (verified : MfaTempVerified) (code ip user_agent : string) (result : LoginResultMfa) (w w' : World S U) :
  mv_context verified = McDashboard ->
  challenge_dashboard ms verified code ip user_agent w = (Ok result, w') -> second_factor_passed verified code result w.
Proof.
  intros Hctx Hrun. unfold challenge_dashboard in Hrun. cbv zeta in Hrun.
  apply bind_ok_inv in Hrun as (? & w1 & Hl & Hrun). apply mfa_not_locked_inv in Hl as [Hopen Hu].
  apply bind_ok_inv in Hrun as (answer & w2 & Hf & Hrun). apply from_users_inv in Hf as [Hf _]. rewrite Hu in Hf.
  apply bind_ok_inv in Hrun as (user & w3 & Hl & Hrun). apply lift_inv in Hl as [Hl ->].
  destruct answer as [user'|]; [|done]. cbn [option_filter] in Hl. case_bool_decide as Ht; [|done]. injection Hl as ->.
  apply bind_ok_inv in Hrun as ([] & w3 & Hl & Hrun). apply lift_inv in Hl as [Hblk ->].
  apply bind_ok_inv in Hrun as ([[wire raw] stale] & w3 & Hl & Hrun). apply lift_inv in Hl as [Hsec ->].
  apply challenged_secret_inv in Hsec as (Hon & Hwire & Hraw).
  apply bind_ok_inv in Hrun as (index & w3 & Hp & Hrun).
  eapply (prove_code_inv _ _ (au_id user) _ _ _ _ _ (default [] (au_mfa_recovery_codes user))) in Hp.
  2: { intros i wa wb Hm. unfold accept_recovery_code in Hm. rewrite <-Ht. by apply claim_inv in Hm. }
  einv Hrun.
  match goal with Hi : issue_tokens _ _ _ _ _ _ _ = _ |- _ => apply issue_tokens_user in Hi end.
  split_and!; [done..|]. exists user, wire, raw. by rewrite Hf.
Qed.

Lemma challenge_platform_inv (verified : MfaTempVerified) (code ip user_agent : string) (result : LoginResultMfa) (w w' : World S U) :
  mv_context verified = McPlatform ->
  challenge_platform ms verified code ip user_agent w = (Ok result, w') -> second_factor_passed verified code result w.
Proof.
  intros Hctx Hrun. unfold challenge_platform in Hrun. cbv zeta in Hrun.
  apply bind_ok_inv in Hrun as (? & w1 & Hl & Hrun). apply mfa_not_locked_inv in Hl as [Hopen Hu].
  destruct (ms_platform_repo ms); cbn [negb] in Hrun; [|by apply throw_inv in Hrun].
  apply bind_ok_inv in Hrun as (answer & w2 & Hf & Hrun). apply from_users_inv in Hf as [Hf _]. rewrite Hu in Hf.
  apply bind_ok_inv in Hrun as (admin & w3 & Hl & Hrun). apply lift_inv in Hl as [Hl ->]. destruct answer as [admin'|]; [|done].
  injection Hl as ->. apply bind_ok_inv in Hrun as ([] & w3 & Hl & Hrun). apply lift_inv in Hl as [Hblk ->].
  apply bind_ok_inv in Hrun as ([[wire raw] stale] & w3 & Hl & Hrun). apply lift_inv in Hl as [Hsec ->].
  apply challenged_secret_inv in Hsec as (Hon & Hwire & Hraw).
  apply bind_ok_inv in Hrun as (index & w3 & Hp & Hrun).
  eapply (prove_code_inv _ _ (mv_user_id verified) _ _ _ _ _ (default [] (ap_mfa_recovery_codes admin))) in Hp.
  2: { intros i wa wb Hm. unfold claim_matched_recovery_code in Hm. by apply claim_inv in Hm. }
  einv Hrun.
  match goal with Hi : issue_platform_tokens _ _ _ _ _ _ = _ |- _ => unfold issue_platform_tokens in Hi; einv Hi end.
  split_and!; [done..|]. exists admin, wire, raw. by rewrite Hf.
Qed.

End challenge.

