(* ===== verification/Platform.v ===== *)
(** * Platform administration

    Models [crates/bymax-auth-core/src/services/platform.rs]: sign-in, sign-out
    and refresh of the cross-tenant administrators, who are kept in their own
    repository and whose sessions are filed on the platform plane. *)

From S2P Require Import Prelude Errors Types Crypto Jwt Redis RedisSession SessionSpec SessionStore Lineage MfaStore Engine Repository Password SideStores TokenManager TokenVerify RotationClaims Sessions SessionClaims AuthCore Login LoginSound SessionOps.

Record PlatformAuthService : Set := {
  pa_tokens : TokenManagerService;
  pa_passwords : PasswordService;
  pa_brute_force : BruteForceService;
  pa_identifier_key : string;
  pa_mfa_enabled_for_build : bool;
  pa_blocked_statuses : list string;
}.

Definition platform_repository_error (error : RepositoryError) : AuthError :=
  match error with
  | Backend source => Internal source
  | Conflict _ => internal_error "platform repository conflict"
  end.

Definition platform_identity_context (admin_id : string) : HookContext := {|
  hc_plane := HpPlatform;
  hc_user_id := Some admin_id;
  hc_email := None;
  hc_tenant_id := None;
  hc_ip := "";
  hc_user_agent := "";
  hc_sanitized_headers := ∅;
|}.

Module PlatformAuth.
Section service.
Context `{Crypto, Host, Base64, HeaderJson, UnicodeText, PasswordHashLib}.
Context `{ClaimsJson DashboardClaims, ClaimsJson PlatformClaims, ClaimsJson MfaTempClaims}.
Context {S U : Type} `{SessionStore S, MfaStore S, BruteForceStore S}.
Context `{PlatformUserRepository U, KdfRuntime U}.
Context (pa : PlatformAuthService).

Abbreviation Eng := (E S U).
Abbreviation tm := (pa_tokens pa).
Abbreviation bf := (pa_brute_force pa).

Definition session_subject (admin_id : string) : string :=
  session_subject_hash (pa_identifier_key pa) SkPlatform None admin_id.

Definition brute_force_identifier (email : string) : string :=
  to_hex (hmac_sha256 (pa_identifier_key pa) ("platform:" +:+ email)).

Definition issue_login (admin : AuthPlatformUser) (ip user_agent : string) : Eng PlatformLoginResult :=
  let admin_id := ap_id admin in
  let safe := safe_platform_user admin in
  result ← issue_platform_tokens tm safe ip user_agent false;
  _ ← spawn_hook (UpdatePlatformLastLogin admin_id);
  mret (PlatformLoginSuccess result).

Definition record_failure_and_reject {T} (identifier : string) (started : Z) : Eng T :=
  _ ← BruteForce.record_failure bf identifier;
  _ ← normalize_anti_enum started;
  throw InvalidCredentials.

Definition assert_not_locked (identifier : string) : Eng unit :=
  locked ← BruteForce.is_locked bf identifier;
  if locked : bool
  then (retry ← BruteForce.remaining_lockout_secs identifier; throw (AccountLocked (Some retry)))
  else mret tt.

(** The rest of [login], once the password is proved. *)
Definition login_proved (identifier password : string) (admin : AuthPlatformUser) (outcome : VerifyOutcome)
    (ip user_agent : string) : Eng PlatformLoginResult :=
  _ ← lift (assert_not_blocked (ap_status admin) (pa_blocked_statuses pa));
  _ ← BruteForce.reset identifier;
  _ ← (if ps_rehash_on_verify (pa_passwords pa) && vo_needs_rehash outcome
       then spawn_hook (RehashPlatformPassword password (ap_id admin) (ap_password_hash admin)) else mret tt);
  if ap_mfa_enabled admin then
    if negb (pa_mfa_enabled_for_build pa) then throw InvalidCredentials else
    mfa_temp_token ← issue_mfa_temp_token tm (ap_id admin) McPlatform None;
    mret (PlatformLoginMfaChallenge {| ch_mfa_required := true; ch_mfa_temp_token := mfa_temp_token |})
  else issue_login admin ip user_agent.

Definition login (email password ip user_agent : string) : Eng PlatformLoginResult :=
  let email := normalize_email email in
  let identifier := brute_force_identifier email in
  _ ← assert_not_locked identifier;
  started ← instant_now;
  found ← from_users platform_repository_error (admin_find_by_email email);
  match found with
  | None =>
      _ ← PasswordService.verify_sentinel (pa_passwords pa) password;
      record_failure_and_reject identifier started
  | Some admin =>
      outcome ← PasswordService.verify (pa_passwords pa) password (ap_password_hash admin);
      if negb (vo_matched outcome) then record_failure_and_reject identifier started
      else login_proved identifier password admin outcome ip user_agent
  end.

Definition me (admin_id : string) : Eng SafeAuthPlatformUser :=
  found ← from_users platform_repository_error (admin_find_by_id admin_id);
  match found with
  | Some admin => mret (safe_platform_user admin)
  | None => throw TokenInvalid
  end.

Definition revoke_all_platform_sessions (admin_id : string) : Eng unit :=
  let subject := session_subject admin_id in
  _ ← on_store (SessionStore.revoke_all SkPlatform subject);
  _ ← on_store (SessionStore.bump_epoch SkPlatform subject);
  mret tt.

Definition refresh (old_refresh ip user_agent : string) : Eng RotatedTokens :=
  rotated ← reissue_platform_tokens tm old_refresh ip user_agent;
  claims ← verify_platform_access tm (rt_access_token rotated);
  found ← from_users platform_repository_error (admin_find_by_id (pc_sub claims));
  match found with
  | None =>
      _ ← revoke_all_platform_sessions (pc_sub claims);
      throw RefreshTokenInvalid
  | Some admin =>
      match assert_not_blocked (ap_status admin) (pa_blocked_statuses pa) with
      | Err error =>
          _ ← revoke_all_platform_sessions (ap_id admin);
          throw error
      | Ok _ =>
          if bool_decide (pc_role claims = ap_role admin) && Bool.eqb (pc_mfa_enabled claims) (ap_mfa_enabled admin)
          then mret rotated
          else
            access_token ← reissue_platform_access_with_authority tm claims (ap_role admin) (ap_mfa_enabled admin);
            mret {| rt_access_token := access_token; rt_refresh_token := rt_refresh_token rotated |}
      end
  end.

Definition revoke_logout_session (raw_refresh admin_id : string) (failure : option AuthError) : Eng (option AuthError) :=
  let session_hash := redis_hash raw_refresh in
  revoked ← attempt (on_store (SessionStore.revoke_session SkPlatform (session_subject admin_id) session_hash));
  let revoked := match revoked with Err SessionNotFound => Ok tt | other => other end in
  let failure := note_logout_failure failure revoked in
  grace ← attempt (on_store (SessionStore.delete_grace_pointer SkPlatform session_hash));
  mret (note_logout_failure failure grace).

(** The administrator the presented refresh token belongs to, if any. *)
Definition find_logout_admin (raw_refresh : string) : Eng string :=
  if is_refresh_token_shape raw_refresh then
    found ← attempt (on_store (SessionStore.find_session SkPlatform (redis_hash raw_refresh)));
    match found with
    | Ok found => mret (match found with Some record => sr_user_id record | None => "" end)
    | Err _ => throw (internal_error "a logout could not read its session")
    end
  else mret "".

Definition revoke_logout_access (access_token : string) (failure : option AuthError) : Eng (option AuthError) :=
  verified ← attempt (verify_platform_access_ignoring_expiry tm access_token);
  match verified with
  | Err _ => mret failure
  | Ok claims =>
      now ← now_unix_secs;
      let ttl := Z.max 0 (sat_sub (pc_exp claims) now) in
      revoked ← attempt (revoke_access (pc_jti claims) ttl);
      mret (note_logout_failure failure revoked)
  end.

Definition logout (access_token raw_refresh : string) : Eng string :=
  admin_id ← find_logout_admin raw_refresh;
  failure ← revoke_logout_access access_token None;
  failure ← (if is_refresh_token_shape raw_refresh then revoke_logout_session raw_refresh admin_id failure else mret failure);
  match failure with
  | Some error => throw error
  | None =>
      _ ← (if bool_decide (admin_id = "") then mret tt
           else spawn_hook (AfterPlatformLogout admin_id (platform_identity_context admin_id)));
      mret admin_id
  end.

(** [run_rehash_platform_password], the task a sign-in spawns. *)
Definition run_rehash_platform_password (password admin_id verified_hash : string) : Eng unit :=
  new_hash ← PasswordService.hash (pa_passwords pa) password;
  current ← from_users platform_repository_error (admin_find_by_id admin_id);
  if negb (bool_decide ((ap_password_hash <$> current) = Some verified_hash)) then mret tt else
  from_users platform_repository_error (admin_update_password admin_id new_hash).

End service.
End PlatformAuth.

Section soundness.
Context `{Crypto, Host, Base64, HeaderJson, UnicodeText, PasswordHashLib}.
Context `{ClaimsJson DashboardClaims, ClaimsJson PlatformClaims, ClaimsJson MfaTempClaims}.
Context {S U : Type} `{SessionStore S, MfaStore S, BruteForceStore S, PlatformUserRepository U, KdfRuntime U}.
Context (pa : PlatformAuthService).

(** The lockout counter was under its ceiling when it was read. *)
Definition platform_open (identifier : string) (w : World S U) : Prop :=
  exists s, bf_is_locked identifier (bf_max_attempts (pa_brute_force pa)) (w_store w) = (Ok false, s).

Lemma platform_not_locked_inv (identifier : string) (w w' : World S U) (r : unit) :
  PlatformAuth.assert_not_locked pa identifier w = (Ok r, w') -> platform_open identifier w /\ w_users w' = w_users w.
Proof.
  intros Hrun. unfold PlatformAuth.assert_not_locked, BruteForce.is_locked in Hrun.
  apply bind_ok_inv in Hrun as (locked & w1 & Hl & Hrun).
  apply bind_ok_inv in Hl as ([] & w2 & Hv & Hl). apply lift_inv in Hv as [_ ->]. apply store_inv in Hl as (Hl & Hu & _).
  destruct locked; [einv Hrun|]. apply ret_inv in Hrun as [_ ->]. split; [by exists (w_store w1) | done].
Qed.

Lemma platform_proved_inv (identifier password : string) (admin : AuthPlatformUser) (outcome : VerifyOutcome) (ip user_agent : string)
    (w w' : World S U) (result : PlatformLoginResult) :
  PlatformAuth.login_proved pa identifier password admin outcome ip user_agent w = (Ok result, w') ->
  assert_not_blocked (ap_status admin) (pa_blocked_statuses pa) = Ok tt /\
  match result with
  | PlatformLoginMfaChallenge _ => ap_mfa_enabled admin = true /\ pa_mfa_enabled_for_build pa = true
  | PlatformLoginSuccess res => ap_mfa_enabled admin = false /\ pr_admin res = safe_platform_user admin
  end.
Proof.
  intros Hrun. unfold PlatformAuth.login_proved in Hrun. apply bind_ok_inv in Hrun as ([] & w1 & Hb & Hrun).
  apply lift_inv in Hb as [Hb ->]. split; [done|]. apply bind_ok_inv in Hrun as (? & w2 & _ & Hrun).
  apply bind_ok_inv in Hrun as (? & w3 & _ & Hrun). destruct (ap_mfa_enabled admin).
  - destruct (pa_mfa_enabled_for_build pa); cbn [negb] in Hrun; [|by apply throw_inv in Hrun]. by einv Hrun.
  - unfold PlatformAuth.issue_login in Hrun. einv Hrun.
    match goal with Hi : issue_platform_tokens _ _ _ _ _ _ = _ |- _ => unfold issue_platform_tokens in Hi; by einv Hi end.
Qed.

End soundness.

(** C15. Administrators sign in only with a proved password.  When platform login
    answers with anything but an error, the lockout counter of the address was
    under its ceiling, the platform repository gave an administrator for it whose
    stored hash the password matches and who is not blocked; one with a second
    factor gets a challenge, and only in a build that can complete it, and one
    without gets tokens for exactly that administrator. *)
Theorem platform_login_admits_only_proved `{Crypto, Host, Base64, HeaderJson, UnicodeText, PasswordHashLib}
    `{ClaimsJson DashboardClaims, ClaimsJson PlatformClaims, ClaimsJson MfaTempClaims}
    {S U : Type} `{SessionStore S, MfaStore S, BruteForceStore S, PlatformUserRepository U, KdfRuntime U}
    (pa : PlatformAuthService) (email password ip user_agent : string) (result : PlatformLoginResult) (w w' : World S U) :
  PlatformAuth.login pa email password ip user_agent w = (Ok result, w') ->
  platform_open pa (PlatformAuth.brute_force_identifier pa (normalize_email email)) w /\
  exists admin,
    (admin_find_by_email (normalize_email email) (w_users w)).1 = Ok (Some admin) /\
    verify_phc password (ap_password_hash admin) = true /\
    assert_not_blocked (ap_status admin) (pa_blocked_statuses pa) = Ok tt /\
    match result with
    | PlatformLoginMfaChallenge _ => ap_mfa_enabled admin = true /\ pa_mfa_enabled_for_build pa = true
    | PlatformLoginSuccess res => ap_mfa_enabled admin = false /\ pr_admin res = safe_platform_user admin
    end.
Proof.
  intros Hrun. unfold PlatformAuth.login in Hrun. cbv zeta in Hrun. apply bind_ok_inv in Hrun as (? & w1 & Hl & Hrun).
  apply platform_not_locked_inv in Hl as [Hopen Hu]. split; [done|]. apply bind_ok_inv in Hrun as (started & w2 & [= <- <-] & Hrun).
  apply bind_ok_inv in Hrun as (found & w3 & Hf & Hrun). apply from_users_inv in Hf as [Hf _]. cbn [w_users] in Hf. rewrite Hu in Hf.
  destruct found as [admin|].
  2: { unfold PasswordService.verify_sentinel, PlatformAuth.record_failure_and_reject in Hrun. einv Hrun. }
  apply bind_ok_inv in Hrun as (outcome & w4 & Hv & Hrun). apply verify_inv in Hv as ->.
  destruct (vo_matched _) eqn:Hm; cbn [negb] in Hrun; [|unfold PlatformAuth.record_failure_and_reject in Hrun; einv Hrun].
  apply platform_proved_inv in Hrun as [Hb Hout]. exists admin. rewrite Hf. split; [done|]. split; [exact Hm|]. by split.
Qed.
