(* ===== verification/OAuth.v ===== *)
(** * Sign-in through an identity provider

    Models [crates/bymax-auth-core/src/services/oauth.rs]: starting the
    authorization with a stored single-use state and a PKCE verifier, and the
    callback that redeems them.  The provider's own endpoints are the host's
    (the trait [OAuthProvider]), as is the decision what to do with a profile. *)

From S2P Require Import Prelude Errors Types Crypto Jwt Redis RedisSession RedisStores SessionSpec SessionStore MfaStore Engine Repository Password SideStores TokenManager Sessions SessionClaims AuthCore Login LoginSound Totp.

Record OAuthTokens : Set := {
  ot_access_token : string;
  ot_token_type : string;
  ot_expires_in : option Z;
  ot_scope : option string;
  ot_id_token : option string;
  ot_refresh_token : option string;
}.

Record OAuthProfile : Set := {
  op_provider : string;
  op_provider_id : string;
  op_email : string;
  op_email_verified : bool;
  op_name : option string;
  op_avatar : option string;
}.

Inductive OAuthProviderError : Set :=
| OpeHttp (status : Z) | OpeTransport (cause : string) | OpeUnexpectedTokenType (got : string) | OpeEmailNotVerified
| OpeDecode (cause : string).

Record OAuthProvider (U : Type) : Type := {
  pv_name : string;
  pv_authorize_url : string -> option string -> string;
  pv_exchange_code : string -> option string -> M U OAuthProviderError OAuthTokens;
  pv_fetch_profile : string -> M U OAuthProviderError OAuthProfile;
}.
Arguments pv_name {U} _.
Arguments pv_authorize_url {U} _.
Arguments pv_exchange_code {U} _.
Arguments pv_fetch_profile {U} _.

Inductive OAuthLoginResult : Set := OlCreate | OlLink | OlReject (reason : option string).

(** The awaited hook [AuthHooks::on_oauth_login]. *)
Class OAuthHooks (U : Type) : Type := {
  on_oauth_login : OAuthProfile -> option SafeAuthUser -> HookContext -> M U HookError OAuthLoginResult;
}.

Class OAuthStateStore (S : Type) : Type := {
  oa_put_state : string -> string -> Z -> M S AuthError unit;
  oa_take_state : string -> M S AuthError (option string);
}.

(** The Redis implementation ([bymax-auth-redis/src/stores/oauth.rs]). *)
#[export] Instance redis_oauth_state_store (ns : string) : OAuthStateStore Redis := {|
  oa_put_state hash payload ttl := served (put_state_inner ns hash payload ttl);
  oa_take_state hash := served (take_state_inner ns hash);
|}.

Record OAuthStatePayload : Set := {
  op_state_provider : string;
  op_state_tenant_id : string;
  op_code_verifier : string;
}.

Record OAuthRedirect : Set := { or_authorize_url : string; or_state : string }.

Inductive OAuthOutcome : Set :=
| OoAuthenticated (result : AuthResult)
| OoMfaChallenge (challenge : MfaChallengeResult).

Definition OAUTH_STATE_TTL_SECS : Z := 600.
Definition OAUTH_RANDOM_BYTES : nat := 32.

(** The providers by name and whether a state store is wired; the redirects are
    the deployment's own URLs. *)
Record OAuthConfig (U : Type) : Type := {
  oc_providers : gmap string (OAuthProvider U);
  oc_state_store : bool;
  oc_success_redirect_url : option string;
  oc_mfa_redirect_url : option string;
  oc_error_redirect_url : option string;
}.
Arguments oc_providers {U} _.
Arguments oc_state_store {U} _.
Arguments oc_success_redirect_url {U} _.
Arguments oc_mfa_redirect_url {U} _.
Arguments oc_error_redirect_url {U} _.

Definition is_provider_char (c : ascii) : bool :=
  bool_decide (97 <= byte_z c <= 122) || is_ascii_digit c || bool_decide (c = "-"%char).

Definition is_valid_provider_name (name : string) : bool :=
  Nat.leb 1 (String.length name) && Nat.leb (String.length name) 64 && string_all is_provider_char name.

Definition is_oauth_state_shape (state : string) : bool :=
  Nat.eqb (String.length state) 64 && string_all is_lower_hex state.

Definition state_key `{Crypto} (state : string) : string := to_hex (sha256 state).

Definition provider_error (_ : OAuthProviderError) : AuthError := OauthFailed.

Definition map_oauth_create_error (error : RepositoryError) : AuthError :=
  match error with
  | Conflict _ => OauthEmailMismatch
  | Backend source => Internal source
  end.

Definition name_or_local_part (profile : OAuthProfile) : string :=
  match op_name profile with
  | Some name => name
  | None => default (op_email profile) (hd_error (split_on "@" (op_email profile)))
  end.

Definition append_error_param (base short_code : string) : string :=
  let '(locator, fragment) :=
    match split_once "#" base with
    | Some (locator, fragment) => (locator, Some fragment)
    | None => (base, None)
    end in
  let separator := if contains_char "?" locator then "&" else "?" in
  locator +:+ separator +:+ "error=" +:+ percent_encode short_code +:+
  match fragment with Some fragment => "#" +:+ fragment | None => "" end.

Section flows.
Context `{Crypto, Host, Base64, HeaderJson, Json OAuthStatePayload}.
Context `{ClaimsJson DashboardClaims, ClaimsJson PlatformClaims, ClaimsJson MfaTempClaims}.
Context {S U : Type} `{SessionStore S, MfaStore S, OAuthStateStore S, UserRepository U, OAuthHooks U}.
Context (en : AuthEngine U) (oc : OAuthConfig U).

Abbreviation Eng := (E S U).
Abbreviation tm := (en_tokens en).

Definition oauth_error_redirect_url (short_code : string) : option string :=
  (fun base => append_error_param base short_code) <$> oc_error_redirect_url oc.

Definition resolve_oauth_provider (name : string) : result AuthError (OAuthProvider U) :=
  if negb (is_valid_provider_name name) then Err OauthFailed else ok_or OauthFailed (oc_providers oc !! name).

Definition require_oauth_state_store : result AuthError unit :=
  if oc_state_store oc then Ok tt else Err (internal_error "oauth state store is not wired").

Definition generate_state : Eng string := take_draw (fun i => to_hex (entropy i OAUTH_RANDOM_BYTES)).

Definition generate_pkce : Eng (string * string) :=
  verifier ← take_draw (fun i => b64_encode (entropy i OAUTH_RANDOM_BYTES));
  mret (verifier, b64_encode (sha256 verifier)).

Definition oauth_initiate (provider : string) (tenant_id : option string) (ctx : RequestContext) : Eng OAuthRedirect :=
  provider_impl ← lift (resolve_oauth_provider provider);
  tenant_id ← resolve_tenant en tenant_id ctx;
  state ← generate_state;
  '(code_verifier, code_challenge) ← generate_pkce;
  payload ← lift (ok_or (internal_error "oauth state payload serialization failed")
              (to_json {| op_state_provider := pv_name provider_impl; op_state_tenant_id := tenant_id;
                          op_code_verifier := code_verifier |}));
  _ ← lift require_oauth_state_store;
  _ ← on_store (oa_put_state (state_key state) payload OAUTH_STATE_TTL_SECS);
  mret {| or_authorize_url := pv_authorize_url provider_impl state (Some code_challenge); or_state := state |}.

Definition execute_oauth_decision (decision : OAuthLoginResult) (provider_name : string) (profile : OAuthProfile)
    (tenant_id : string) (existing : option AuthUser) : Eng AuthUser :=
  match decision with
  | OlCreate =>
      from_users map_oauth_create_error (repo_create_with_oauth {|
        co_email := op_email profile;
        co_name := name_or_local_part profile;
        co_role := None;
        co_status := None;
        co_tenant_id := tenant_id;
        co_email_verified := Some (op_email_verified profile);
        co_oauth_provider := provider_name;
        co_oauth_provider_id := op_provider_id profile |})
  | OlLink =>
      match existing with
      | None => throw OauthFailed
      | Some existing =>
          _ ← from_users map_repository_error (repo_link_oauth (au_id existing) provider_name (op_provider_id profile));
          found ← from_users map_repository_error (repo_find_by_id (au_id existing) (Some tenant_id));
          lift (ok_or OauthFailed found)
      end
  | OlReject _ => throw OauthFailed
  end.

Definition finish_oauth_login (user : AuthUser) (ctx : RequestContext) (hook_ctx : HookContext) : Eng OAuthOutcome :=
  _ ← lift (assert_user_not_blocked en (au_status user));
  if cf_verification_required (en_config en) && negb (au_email_verified user) then throw EmailNotVerified else
  if au_mfa_enabled user then
    mfa_temp_token ← issue_mfa_temp_token tm (au_id user) McDashboard (Some (au_tenant_id user));
    mret (OoMfaChallenge {| ch_mfa_required := true; ch_mfa_temp_token := mfa_temp_token |})
  else
  let safe := safe_user user in
  result ← issue_tokens tm safe (rc_ip ctx) (rc_user_agent ctx) false Proved;
  _ ← enforce_sessions_after_issue en result (rc_ip ctx) (rc_user_agent ctx) hook_ctx;
  _ ← spawn_hook (UpdateLastLogin (su_tenant_id safe) (su_id safe));
  _ ← spawn_hook (AfterLogin safe hook_ctx);
  mret (OoAuthenticated result).

(** The state, spent: bound to the browser by its cookie, taken from the store and
    issued for this provider. *)
Definition redeem_state (provider_name state : string) (state_cookie : option string) : Eng OAuthStatePayload :=
  if negb (is_oauth_state_shape state) then throw OauthFailed else
  if negb (match state_cookie with Some cookie => constant_time_eq state cookie | None => false end) then throw OauthFailed else
  _ ← lift require_oauth_state_store;
  taken ← on_store (oa_take_state (state_key state));
  match taken ≫= of_json with
  | None => throw OauthFailed
  | Some payload =>
      if negb (bool_decide (op_state_provider payload = provider_name)) then throw OauthFailed else mret payload
  end.

(** The rest of the callback: the profile behind the code, the host's decision on
    it, and the account it leads to. *)
Definition oauth_account (provider_impl : OAuthProvider U) (payload : OAuthStatePayload) (code : string) (ctx : RequestContext) :
    Eng (AuthUser * HookContext) :=
  let provider_name := pv_name provider_impl in
  let tenant_id := op_state_tenant_id payload in
  tokens ← from_users provider_error (pv_exchange_code provider_impl code (Some (op_code_verifier payload)));
  profile ← from_users provider_error (pv_fetch_profile provider_impl (ot_access_token tokens));
  existing ← from_users map_repository_error (repo_find_by_oauth_id provider_name (op_provider_id profile) tenant_id);
  let hook_ctx := from_request HpDashboard ctx (au_id <$> existing) (Some (op_email profile)) (Some tenant_id) in
  decision ← from_users (fun _ => OauthFailed) (on_oauth_login profile (safe_user <$> existing) hook_ctx);
  resolved ← execute_oauth_decision decision provider_name profile tenant_id existing;
  mret (resolved, hook_ctx).

Definition oauth_callback (provider code state : string) (state_cookie : option string) (ctx : RequestContext) : Eng OAuthOutcome :=
  provider_impl ← lift (resolve_oauth_provider provider);
  payload ← redeem_state (pv_name provider_impl) state state_cookie;
  '(resolved, hook_ctx) ← oauth_account provider_impl payload code ctx;
  finish_oauth_login resolved ctx hook_ctx.

End flows.

Section soundness.
Context `{Crypto, Host, Base64, HeaderJson, Json OAuthStatePayload}.
Context `{ClaimsJson DashboardClaims, ClaimsJson PlatformClaims, ClaimsJson MfaTempClaims}.
Context {S U : Type} `{SessionStore S, MfaStore S, OAuthStateStore S, UserRepository U, OAuthHooks U}.
Context (en : AuthEngine U) (oc : OAuthConfig U).

Lemma provider_inv (name : string) (provider : OAuthProvider U) :
  resolve_oauth_provider oc name = Ok provider -> is_valid_provider_name name = true /\ oc_providers oc !! name = Some provider.
Proof.
  unfold resolve_oauth_provider. destruct (is_valid_provider_name name); [|done]. cbn [negb]. destruct (_ !! _); [|done]. by intros [= ->].
Qed.

Lemma redeem_state_inv (provider_name state : string) (state_cookie : option string) (w w' : World S U) (payload : OAuthStatePayload) :
  redeem_state oc provider_name state state_cookie w = (Ok payload, w') ->
  is_oauth_state_shape state = true /\ state_cookie = Some state /\ op_state_provider payload = provider_name /\ w_users w' = w_users w /\
  exists raw, oa_take_state (state_key state) (w_store w) = (Ok (Some raw), w_store w') /\ of_json raw = Some payload.
Proof.
  intros Hrun. unfold redeem_state in Hrun. destruct (is_oauth_state_shape state); cbn [negb] in Hrun; [|by apply throw_inv in Hrun].
  destruct state_cookie as [cookie|]; cbn [negb] in Hrun; [|by apply throw_inv in Hrun].
  unfold constant_time_eq in Hrun. case_bool_decide as Hc; cbn [negb] in Hrun; [|by apply throw_inv in Hrun]. subst cookie.
  apply bind_ok_inv in Hrun as ([] & w1 & Hl & Hrun). apply lift_inv in Hl as [_ ->].
  apply bind_ok_inv in Hrun as (taken & w2 & Ht & Hrun). apply store_inv in Ht as (Ht & Hu & _).
  destruct taken as [raw|]; cbn [mbind option_bind] in Hrun; [|by apply throw_inv in Hrun].
  destruct (of_json raw) as [p|] eqn:Hj; [|by apply throw_inv in Hrun].
  case_bool_decide as Hp; cbn [negb] in Hrun; [|by apply throw_inv in Hrun]. apply ret_inv in Hrun as [-> ->].
  split_and!; [done.. | by exists raw].
Qed.

(** The account was created from the profile, or is the one already linked to it. *)
Definition profile_account (provider_name tenant_id : string) (profile : OAuthProfile) (user : AuthUser) : Prop :=
  (exists u data, (repo_create_with_oauth data u).1 = Ok user /\ co_email data = op_email profile /\ co_tenant_id data = tenant_id /\
     co_email_verified data = Some (op_email_verified profile) /\ co_oauth_provider data = provider_name /\
     co_oauth_provider_id data = op_provider_id profile) \/
  (exists u u' existing, (repo_find_by_oauth_id provider_name (op_provider_id profile) tenant_id u).1 = Ok (Some existing) /\
     (repo_find_by_id (au_id existing) (Some tenant_id) u').1 = Ok (Some user)).

Lemma oauth_account_inv (provider : OAuthProvider U) (payload : OAuthStatePayload) (code : string) (ctx : RequestContext)
    (w w' : World S U) (user : AuthUser) (hook_ctx : HookContext) :
  oauth_account provider payload code ctx w = (Ok (user, hook_ctx), w') ->
  exists tokens profile u1 u2,
    pv_exchange_code provider code (Some (op_code_verifier payload)) (w_users w) = (Ok tokens, u1) /\
    pv_fetch_profile provider (ot_access_token tokens) u1 = (Ok profile, u2) /\
    profile_account (pv_name provider) (op_state_tenant_id payload) profile user.
Proof.
  intros Hrun. unfold oauth_account in Hrun. cbv zeta in Hrun. apply bind_ok_inv in Hrun as (tokens & w1 & Ht & Hrun).
  apply from_users_inv in Ht as [Ht _]. apply bind_ok_inv in Hrun as (profile & w2 & Hp & Hrun). apply from_users_inv in Hp as [Hp _].
  apply bind_ok_inv in Hrun as (existing & w3 & He & Hrun). apply from_users_inv in He as [He _].
  apply bind_ok_inv in Hrun as (decision & w4 & _ & Hrun). apply bind_ok_inv in Hrun as (resolved & w5 & Hd & Hrun).
  apply ret_inv in Hrun as [[= -> ->] _]. exists tokens, profile, (w_users w1), (w_users w2). split_and!; [done..|].
  unfold execute_oauth_decision in Hd. destruct decision as [| |]; [left | right | by apply throw_inv in Hd].
  - apply from_users_inv in Hd as [Hd _]. exists (w_users w4); eexists. split_and!; [by rewrite Hd | done..].
  - destruct existing as [existing|]; [|by apply throw_inv in Hd]. apply bind_ok_inv in Hd as (? & w6 & _ & Hd).
    apply bind_ok_inv in Hd as (found & w7 & Hf & Hd). apply from_users_inv in Hf as [Hf _]. apply lift_inv in Hd as [Hd _].
    destruct found as [linked|]; [|done]. injection Hd as ->. exists (w_users w2), (w_users w6), existing. by rewrite He, Hf.
Qed.

Lemma finish_inv (user : AuthUser) (ctx : RequestContext) (hook_ctx : HookContext) (w w' : World S U) (outcome : OAuthOutcome) :
  finish_oauth_login en user ctx hook_ctx w = (Ok outcome, w') ->
  usable en user /\ match outcome with
                    | OoMfaChallenge _ => au_mfa_enabled user = true
                    | OoAuthenticated res => au_mfa_enabled user = false /\ ar_user res = safe_user user
                    end.
Proof.
  intros Hrun. unfold finish_oauth_login in Hrun. apply bind_ok_inv in Hrun as ([] & w1 & Hb & Hrun). apply lift_inv in Hb as [Hb ->].
  destruct (cf_verification_required (en_config en) && negb (au_email_verified user)) eqn:Hv; [by apply throw_inv in Hrun|].
  split. { split; [done|]. intros Hreq. rewrite Hreq in Hv. by destruct (au_email_verified user). }
  destruct (au_mfa_enabled user); [by einv Hrun|]. cbv zeta in Hrun. apply bind_ok_inv in Hrun as (res & w2 & Hi & Hrun).
  apply issue_tokens_user in Hi. by einv Hrun.
Qed.

End soundness.

(** C12. A provider callback is bound to the browser and request that began it.  When
    a callback signs anyone in, its provider is configured; the state it carries
    is well formed, equals the browser's cookie and was stored, and taken by this
    very call, for this provider; the code was exchanged with the verifier kept
    in that record; the account, in the tenant kept there too, was created from
    the provider's profile or is the one linked to it, and is usable; one with a
    second factor gets a challenge, one without gets its own tokens. *)
Theorem oauth_callback_bound `{Crypto, Host, Base64, HeaderJson, Json OAuthStatePayload}
    `{ClaimsJson DashboardClaims, ClaimsJson PlatformClaims, ClaimsJson MfaTempClaims}
    {S U : Type} `{SessionStore S, MfaStore S, OAuthStateStore S, UserRepository U, OAuthHooks U}
    (en : AuthEngine U) (oc : OAuthConfig U) (provider_name code state : string) (state_cookie : option string) (ctx : RequestContext)
    (outcome : OAuthOutcome) (w w' : World S U) :
  oauth_callback en oc provider_name code state state_cookie ctx w = (Ok outcome, w') ->
  exists provider payload raw s1 tokens profile u1 u2 user,
    is_valid_provider_name provider_name = true /\ oc_providers oc !! provider_name = Some provider /\
    is_oauth_state_shape state = true /\ state_cookie = Some state /\
    oa_take_state (state_key state) (w_store w) = (Ok (Some raw), s1) /\ of_json raw = Some payload /\
    op_state_provider payload = pv_name provider /\
    pv_exchange_code provider code (Some (op_code_verifier payload)) (w_users w) = (Ok tokens, u1) /\
    pv_fetch_profile provider (ot_access_token tokens) u1 = (Ok profile, u2) /\
    profile_account (pv_name provider) (op_state_tenant_id payload) profile user /\ usable en user /\
    match outcome with
    | OoMfaChallenge _ => au_mfa_enabled user = true
    | OoAuthenticated res => au_mfa_enabled user = false /\ ar_user res = safe_user user
    end.
Proof.
  intros Hrun. unfold oauth_callback in Hrun. apply bind_ok_inv in Hrun as (provider & w1 & Hl & Hrun). apply lift_inv in Hl as [Hl ->].
  apply provider_inv in Hl as [Hn Hp]. apply bind_ok_inv in Hrun as (payload & w2 & Hr & Hrun).
  apply redeem_state_inv in Hr as (Hs & Hc & Hpr & Hu & raw & Ht & Hj). apply bind_ok_inv in Hrun as ([user hook_ctx] & w3 & Ha & Hrun).
  apply oauth_account_inv in Ha as (tokens & profile & u1 & u2 & Hx & Hf & Hacc). rewrite Hu in Hx. apply finish_inv in Hrun as [Huse Hout].
  by exists provider, payload, raw, (w_store w2), tokens, profile, u1, u2, user.
Qed.
