(* ===== verification/Invitation.v ===== *)
(** * Invitations

    Models [crates/bymax-auth-core/src/services/auth/invitation.rs] and
    [invitation/supersede.rs]: issuing an invitation within the inviter's rank,
    replacing a pending one, accepting, and withdrawing. *)

From S2P Require Import Prelude Errors Types Crypto Jwt Redis RedisSession SessionSpec SessionStore MfaStore Engine Repository Password SideStores OtpService TokenManager Sessions SessionClaims AuthCore Login LoginSound PasswordReset RedisStores.

Definition INVITE_TOKEN_BYTES : nat := 32.
Definition SUPERSEDE_ATTEMPTS : nat := 3.

Definition token_hash `{Crypto} (token : string) : string := to_hex (sha256 token).

Record AcceptInvitationInput : Set := {
  ai_token : string;
  ai_name : string;
  ai_password : string;
}.

Record InviteData : Set := {
  iv_inviter_name : string;
  iv_tenant_name : string;
  iv_invite_token : string;
  iv_expires_at : OffsetDateTime;
}.

Class InvitationStore (S : Type) : Type := {
  is_put_invitation : string -> StoredInvitation -> Z -> M S AuthError unit;
  is_consume_invitation : string -> M S AuthError (option StoredInvitation);
  is_put_index : string -> string -> string -> Z -> M S AuthError unit;
  is_claim_index : string -> string -> string -> Z -> option string -> M S AuthError bool;
  is_read_index : string -> string -> M S AuthError (option string);
  is_take_index : string -> string -> M S AuthError (option string);
  is_read_by_hash : string -> M S AuthError (option StoredInvitation);
  is_delete_by_hash : string -> M S AuthError bool;
}.

(** The Redis implementation ([bymax-auth-redis/src/stores/single_use.rs]). *)
#[export] Instance redis_invitation_store `{Crypto, Json StoredInvitation} (ns : string) : InvitationStore Redis := {|
  is_put_invitation := RedisStores.put_invitation ns;
  is_consume_invitation := RedisStores.consume_invitation ns;
  is_put_index tenant invitee hash ttl := served (put_invitation_index_inner ns tenant invitee hash ttl);
  is_claim_index tenant invitee hash ttl expected := served (claim_invitation_index_inner ns tenant invitee hash ttl expected);
  is_read_index tenant invitee := served (read_invitation_index_inner ns tenant invitee);
  is_take_index tenant invitee := served (take_invitation_index_inner ns tenant invitee);
  is_read_by_hash hash := served (read_invitation_by_hash_inner ns hash);
  is_delete_by_hash hash := served (delete_invitation_by_hash_inner ns hash);
|}.

(** The awaited send of an invitation ([traits/email.rs]). *)
Class InvitationMail (U : Type) : Type := {
  send_invitation : string -> string -> InviteData -> M U string unit;
}.

(** What the flows read of the configuration: whether a store is wired, the role
    hierarchy (each role with every role it includes) and the lifetime. *)
Record InvitationConfig : Type := {
  ic_store : bool;
  ic_hierarchy : gmap string (list string);
  ic_token_ttl : Z;
}.

Definition has_role (holder required : string) (hierarchy : gmap string (list string)) : bool :=
  if bool_decide (holder = required) then true else
  match hierarchy !! holder with
  | Some included => existsb (fun r => bool_decide (r = required)) included
  | None => false
  end.

(** The last instant [OffsetDateTime] represents, 9999-12-31T23:59:59.999999999Z. *)
Definition MAX_OFFSET_DATE_TIME : Z := 253402300800 * 1000000000 - 1.

(** [now.checked_add(Duration::seconds(ttl)).unwrap_or(UNIX_EPOCH)]. *)
Definition expiry_after (now : OffsetDateTime) (ttl : Z) : OffsetDateTime :=
  let t := now + u64_to_i64_sat ttl * 1000000000 in
  if bool_decide (t <= MAX_OFFSET_DATE_TIME) then t else 0.

Section flows.
Context `{Crypto, Host, Base64, HeaderJson, UnicodeText, PasswordHashLib}.
Context `{ClaimsJson DashboardClaims, ClaimsJson PlatformClaims, ClaimsJson MfaTempClaims}.
Context {S U : Type} `{SessionStore S, InvitationStore S, UserRepository U, KdfRuntime U, PasswordBreachChecker U, InvitationMail U}.
Context (en : AuthEngine U) (ic : InvitationConfig).

Abbreviation Eng := (E S U).
Abbreviation hierarchy := (ic_hierarchy ic).

(** ** Replacing a pending invitation *)

Definition approve_supersede (inviter_role tenant_id invitee_hash : string) : Eng (option string) :=
  pending_hash ← on_store (is_read_index tenant_id invitee_hash);
  match pending_hash with
  | None => mret None
  | Some pending_hash =>
      pending ← on_store (is_read_by_hash pending_hash);
      match pending with
      | Some pending => if negb (has_role inviter_role (si_role pending) hierarchy) then throw InsufficientRole else mret (Some pending_hash)
      | None => mret (Some pending_hash)
      end
  end.

Fixpoint claim_slot (attempts : nat) (inviter_role tenant_id invitee_hash new_hash : string) (ttl_secs : Z) : Eng (option string) :=
  match attempts with
  | O => throw InsufficientRole
  | Datatypes.S attempts =>
      approved ← approve_supersede inviter_role tenant_id invitee_hash;
      claimed ← on_store (is_claim_index tenant_id invitee_hash new_hash ttl_secs approved);
      if claimed : bool then mret approved else claim_slot attempts inviter_role tenant_id invitee_hash new_hash ttl_secs
  end.

Definition claim_invitation_slot (inviter_role tenant_id invitee_hash new_hash : string) (ttl_secs : Z) : Eng (option string) :=
  claim_slot SUPERSEDE_ATTEMPTS inviter_role tenant_id invitee_hash new_hash ttl_secs.

Definition confirm_invitation_claim (tenant_id invitee_hash new_hash : string) (ttl_secs : Z) : Eng unit :=
  confirmed ← attempt (on_store (is_claim_index tenant_id invitee_hash new_hash ttl_secs (Some new_hash)));
  match confirmed with
  | Ok true => mret tt
  | _ =>
      let outcome := match confirmed with Err error => error | Ok _ => InsufficientRole end in
      _ ← attempt (on_store (is_delete_by_hash new_hash));
      throw outcome
  end.

(** ** Issuing *)

Definition no_invitation_store : AuthError := internal_error "invitation store not configured".

(** The inviter, allowed to grant [role] in [tenant_id]. *)
Definition authorised_inviter (inviter_user_id role tenant_id : string) : Eng AuthUser :=
  if negb (bool_decide (is_Some (hierarchy !! role))) then throw InsufficientRole else
  found ← from_users map_repository_error (repo_find_by_id inviter_user_id (Some tenant_id));
  inviter ← lift (ok_or TokenInvalid found);
  if negb (bool_decide (au_tenant_id inviter = tenant_id)) then throw InsufficientRole else
  if negb (has_role (au_role inviter) role hierarchy) then throw InsufficientRole else
  mret inviter.

Definition invite (inviter_user_id email role tenant_id : string) (tenant_name : option string) : Eng unit :=
  let email := normalize_email email in
  inviter ← authorised_inviter inviter_user_id role tenant_id;
  if negb (ic_store ic) then throw no_invitation_store else
  raw ← take_draw (fun i => generate_secure_token i INVITE_TOKEN_BYTES);
  let ttl := ic_token_ttl ic in
  created_at ← now_offset;
  let invitation := {| si_email := email; si_role := role; si_tenant_id := tenant_id;
                       si_inviter_user_id := inviter_user_id; si_created_at := created_at |} in
  let invitee_hash := invitee_identifier en email in
  let new_hash := token_hash raw in
  superseded ← claim_invitation_slot (au_role inviter) tenant_id invitee_hash new_hash ttl;
  _ ← match superseded with
      | Some previous => _ ← on_store (is_delete_by_hash previous); mret tt
      | None => mret tt
      end;
  _ ← on_store (is_put_invitation raw invitation ttl);
  _ ← confirm_invitation_claim tenant_id invitee_hash new_hash ttl;
  now ← now_offset;
  _ ← on_users (send_invitation tenant_id email {|
        iv_inviter_name := au_name inviter;
        iv_tenant_name := default tenant_id tenant_name;
        iv_invite_token := raw;
        iv_expires_at := expiry_after now ttl |});
  mret tt.

(** ** Accepting *)

Definition assert_inviter_still_authorised (invitation : StoredInvitation) : Eng unit :=
  found ← from_users map_repository_error (repo_find_by_id (si_inviter_user_id invitation) (Some (si_tenant_id invitation)));
  let still_authorised :=
    match found with
    | Some inviter =>
        is_ok (assert_user_not_blocked en (au_status inviter))
        && bool_decide (au_tenant_id inviter = si_tenant_id invitation)
        && has_role (au_role inviter) (si_role invitation) hierarchy
    | None => false
    end in
  if negb still_authorised then throw InvalidInvitationToken else mret tt.

(** The invitation behind the token, spent, and still grantable. *)
Definition redeem_invitation (token : string) : Eng StoredInvitation :=
  consumed ← on_store (is_consume_invitation token);
  invitation ← lift (ok_or InvalidInvitationToken consumed);
  if string_is_empty (si_email invitation) || string_is_empty (si_tenant_id invitation)
     || negb (bool_decide (is_Some (hierarchy !! si_role invitation)))
  then throw InvalidInvitationToken else
  _ ← on_store (is_take_index (si_tenant_id invitation) (invitee_identifier en (si_email invitation)));
  _ ← assert_inviter_still_authorised invitation;
  mret invitation.

(** The account the invitation creates. *)
Definition create_invited (input : AcceptInvitationInput) (invitation : StoredInvitation) : Eng AuthUser :=
  existing ← from_users map_repository_error (repo_find_by_email (si_email invitation) (si_tenant_id invitation));
  if bool_decide (is_Some existing) then throw EmailAlreadyExists else
  password_hash ← PasswordService.hash (en_passwords en) (ai_password input);
  from_users map_repository_error (repo_create {|
    cu_email := si_email invitation;
    cu_name := ai_name input;
    cu_password_hash := Some password_hash;
    cu_role := Some (si_role invitation);
    cu_status := None;
    cu_tenant_id := si_tenant_id invitation;
    cu_email_verified := Some true |}).

Definition accept_invitation (input : AcceptInvitationInput) (ip user_agent : string) (headers : gmap string string) : Eng AuthResult :=
  if negb (ic_store ic) then throw InvalidInvitationToken else
  _ ← PasswordService.assert_acceptable (en_passwords en) (ai_password input) "password";
  invitation ← redeem_invitation (ai_token input);
  user ← create_invited input invitation;
  let safe := safe_user user in
  result ← issue_tokens (en_tokens en) safe ip user_agent false Proved;
  let ctx := {| rc_ip := ip; rc_user_agent := user_agent; rc_sanitized_headers := headers |} in
  let hook_ctx := from_request HpDashboard ctx (Some (su_id safe)) (Some (su_email safe)) (Some (su_tenant_id safe)) in
  _ ← enforce_sessions_after_issue en result ip user_agent hook_ctx;
  _ ← spawn_hook (AfterInvitationAccepted safe hook_ctx);
  mret result.

(** ** Withdrawing *)

Definition revoke_invitation (revoker_user_id email tenant_id : string) : Eng bool :=
  let email := normalize_email email in
  if negb (ic_store ic) then throw no_invitation_store else
  found ← from_users map_repository_error (repo_find_by_id revoker_user_id (Some tenant_id));
  revoker ← lift (ok_or TokenInvalid found);
  if negb (bool_decide (au_tenant_id revoker = tenant_id)) then throw InsufficientRole else
  _ ← lift (assert_user_not_blocked en (au_status revoker));
  pending_hash ← on_store (is_read_index tenant_id (invitee_identifier en email));
  match pending_hash with
  | None => mret false
  | Some hash =>
      pending ← on_store (is_read_by_hash hash);
      if (match pending with Some invitation => negb (has_role (au_role revoker) (si_role invitation) hierarchy) | None => false end)
      then mret false else
      _ ← on_store (is_take_index tenant_id (invitee_identifier en email));
      on_store (is_delete_by_hash hash)
  end.

End flows.

Section soundness.
Context `{Crypto, Host, Base64, HeaderJson, UnicodeText, PasswordHashLib}.
Context `{ClaimsJson DashboardClaims, ClaimsJson PlatformClaims, ClaimsJson MfaTempClaims}.
Context {S U : Type} `{SessionStore S, InvitationStore S, UserRepository U, KdfRuntime U, PasswordBreachChecker U, InvitationMail U}.
Context (en : AuthEngine U) (ic : InvitationConfig).

(** The account a repository answers with may grant [role] in [tenant_id]. *)
Definition may_grant (inviter : AuthUser) (role tenant_id : string) : Prop :=
  au_tenant_id inviter = tenant_id /\ is_Some (ic_hierarchy ic !! role) /\ has_role (au_role inviter) role (ic_hierarchy ic) = true.

(** The slot was taken from the invitation that was pending, whose role the
    inviter's includes, or from none. *)
Definition slot_taken (inviter_role tenant_id invitee_hash new_hash : string) (approved : option string) : Prop :=
  (exists s s', is_claim_index tenant_id invitee_hash new_hash (ic_token_ttl ic) approved s = (Ok true, s')) /\
  (exists s s', is_read_index tenant_id invitee_hash s = (Ok approved, s')) /\
  forall previous, approved = Some previous -> exists s s' pending, is_read_by_hash previous s = (Ok pending, s') /\
    forall invitation, pending = Some invitation -> has_role inviter_role (si_role invitation) (ic_hierarchy ic) = true.

Lemma approve_inv (inviter_role tenant_id invitee_hash : string) (w w' : World S U) (approved : option string) :
  approve_supersede ic inviter_role tenant_id invitee_hash w = (Ok approved, w') ->
  (exists s s', is_read_index tenant_id invitee_hash s = (Ok approved, s')) /\
  forall previous, approved = Some previous -> exists s s' pending, is_read_by_hash previous s = (Ok pending, s') /\
    forall invitation, pending = Some invitation -> has_role inviter_role (si_role invitation) (ic_hierarchy ic) = true.
Proof.
  intros Hrun. unfold approve_supersede in Hrun. apply bind_ok_inv in Hrun as (index & w1 & Hi & Hrun). apply store_inv in Hi as (Hi & _).
  destruct index as [hash|]; [|apply ret_inv in Hrun as [-> _]; split; [by exists (w_store w), (w_store w1) | done]].
  apply bind_ok_inv in Hrun as (pending & w2 & Hp & Hrun). apply store_inv in Hp as (Hp & _).
  destruct pending as [pending|].
  - destruct (has_role _ _ _) eqn:Hr; cbn [negb] in Hrun; [|by apply throw_inv in Hrun]. apply ret_inv in Hrun as [-> _].
    split; [by exists (w_store w), (w_store w1)|]. intros ? [= <-]. exists (w_store w1), (w_store w2), (Some pending).
    split; [done|]. by intros ? [= <-].
  - apply ret_inv in Hrun as [-> _]. split; [by exists (w_store w), (w_store w1)|]. intros ? [= <-].
    by exists (w_store w1), (w_store w2), None.
Qed.

Lemma claim_slot_inv (n : nat) (inviter_role tenant_id invitee_hash new_hash : string) (w w' : World S U) (approved : option string) :
  claim_slot ic n inviter_role tenant_id invitee_hash new_hash (ic_token_ttl ic) w = (Ok approved, w') ->
  slot_taken inviter_role tenant_id invitee_hash new_hash approved.
Proof.
  revert w. induction n as [|n IH]; intros w Hrun; cbn [claim_slot] in Hrun; [by apply throw_inv in Hrun|].
  apply bind_ok_inv in Hrun as (ap & w1 & Ha & Hrun). apply bind_ok_inv in Hrun as (claimed & w2 & Hc & Hrun).
  destruct claimed; [|by eapply IH]. apply ret_inv in Hrun as [-> _]. apply approve_inv in Ha as [Hi Hp]. apply store_inv in Hc as (Hc & _).
  split_and!; [by exists (w_store w1), (w_store w2) | done..].
Qed.

Lemma inviter_inv (inviter_user_id role tenant_id : string) (w w' : World S U) (inviter : AuthUser) :
  authorised_inviter ic inviter_user_id role tenant_id w = (Ok inviter, w') ->
  (repo_find_by_id inviter_user_id (Some tenant_id) (w_users w)).1 = Ok (Some inviter) /\ may_grant inviter role tenant_id.
Proof.
  intros Hrun. unfold authorised_inviter in Hrun. case_bool_decide as Hh; cbn [negb] in Hrun; [|by apply throw_inv in Hrun].
  apply bind_ok_inv in Hrun as (found & w1 & Hf & Hrun). apply from_users_inv in Hf as [Hf _].
  apply bind_ok_inv in Hrun as (i & w2 & Hl & Hrun). apply lift_inv in Hl as [Hl ->]. destruct found as [x|]; [|done]. injection Hl as ->.
  case_bool_decide as Ht; cbn [negb] in Hrun; [|by apply throw_inv in Hrun].
  destruct (has_role _ _ _) eqn:Hr; cbn [negb] in Hrun; [|by apply throw_inv in Hrun]. apply ret_inv in Hrun as [-> _].
  rewrite Hf. by split_and!.
Qed.

(** The inviter as the repository knew it when the invitation was redeemed. *)
Lemma redeem_inv (token : string) (w w' : World S U) (invitation : StoredInvitation) :
  redeem_invitation en ic token w = (Ok invitation, w') ->
  (exists s s', is_consume_invitation token s = (Ok (Some invitation), s')) /\
  exists u inviter, (repo_find_by_id (si_inviter_user_id invitation) (Some (si_tenant_id invitation)) u).1 = Ok (Some inviter) /\
    assert_user_not_blocked en (au_status inviter) = Ok tt /\ may_grant inviter (si_role invitation) (si_tenant_id invitation).
Proof.
  intros Hrun. unfold redeem_invitation in Hrun. apply bind_ok_inv in Hrun as (consumed & w1 & Hc & Hrun). apply store_inv in Hc as (Hc & _).
  apply bind_ok_inv in Hrun as (inv & w2 & Hl & Hrun). apply lift_inv in Hl as [Hl ->]. destruct consumed as [x|]; [|done]. injection Hl as ->.
  destruct (string_is_empty (si_email inv)); [by apply throw_inv in Hrun|]. destruct (string_is_empty (si_tenant_id inv)); [by apply throw_inv in Hrun|].
  cbn [orb] in Hrun. case_bool_decide as Hh; cbn [negb] in Hrun; [|by apply throw_inv in Hrun].
  apply bind_ok_inv in Hrun as (? & w3 & _ & Hrun). apply bind_ok_inv in Hrun as ([] & w4 & Ha & Hrun). apply ret_inv in Hrun as [-> _].
  split; [by exists (w_store w), (w_store w1)|].
  unfold assert_inviter_still_authorised in Ha. apply bind_ok_inv in Ha as (found & w5 & Hf & Ha). apply from_users_inv in Hf as [Hf _].
  destruct found as [inviter|]; [|by apply throw_inv in Ha]. exists (w_users w3), inviter. rewrite Hf.
  destruct (assert_user_not_blocked en (au_status inviter)) as [[]|] eqn:Hb; [|by apply throw_inv in Ha]. cbn [is_ok andb] in Ha.
  case_bool_decide as Ht; [|by apply throw_inv in Ha]. cbn [andb] in Ha.
  destruct (has_role _ _ _) eqn:Hr; cbn [negb] in Ha; [|by apply throw_inv in Ha]. by split_and!.
Qed.

End soundness.

(** C14. An invitation never exceeds the inviter's rank.  When inviting succeeds, the
    role is declared, the inviter belongs to the tenant and holds or includes the
    role; the invitee's slot was claimed from exactly the invitation that was read
    as pending, and that invitation, if its record still stood, was for a role the
    inviter holds or includes too; and the record stored under the new token is for
    the normalised address, that role and that tenant. *)
Theorem invite_within_rank `{Crypto, Host, Base64, HeaderJson, UnicodeText, PasswordHashLib}
    {S U : Type} `{SessionStore S, InvitationStore S, UserRepository U, KdfRuntime U, PasswordBreachChecker U, InvitationMail U}
    (en : AuthEngine U) (ic : InvitationConfig) (inviter_user_id email role tenant_id : string) (tenant_name : option string)
    (w w' : World S U) :
  invite en ic inviter_user_id email role tenant_id tenant_name w = (Ok tt, w') ->
  exists inviter raw approved invitation,
    (repo_find_by_id inviter_user_id (Some tenant_id) (w_users w)).1 = Ok (Some inviter) /\ may_grant ic inviter role tenant_id /\
    slot_taken (S := S) ic (au_role inviter) tenant_id (invitee_identifier en (normalize_email email)) (token_hash raw) approved /\
    (exists s s', is_put_invitation raw invitation (ic_token_ttl ic) s = (Ok tt, s')) /\
    si_email invitation = normalize_email email /\ si_role invitation = role /\ si_tenant_id invitation = tenant_id /\
    si_inviter_user_id invitation = inviter_user_id.
Proof.
  intros Hrun. unfold invite in Hrun. cbv zeta in Hrun. apply bind_ok_inv in Hrun as (inviter & w1 & Hi & Hrun). apply inviter_inv in Hi as [Hf Hg].
  destruct (ic_store ic); cbn [negb] in Hrun; [|by apply throw_inv in Hrun].
  apply bind_ok_inv in Hrun as (raw & w2 & _ & Hrun). apply bind_ok_inv in Hrun as (created & w3 & _ & Hrun).
  apply bind_ok_inv in Hrun as (approved & w4 & Hs & Hrun). apply claim_slot_inv in Hs.
  apply bind_ok_inv in Hrun as (? & w5 & _ & Hrun). apply bind_ok_inv in Hrun as ([] & w6 & Hp & _). apply store_inv in Hp as (Hp & _).
  exists inviter, raw, approved; eexists. split_and!; [done | done | done | by exists (w_store w5), (w_store w6) | done..].
Qed.

(** C13. Accepting an invitation grants exactly what was invited.  When acceptance
    succeeds, the token consumed a stored invitation whose inviter, looked up again,
    is unblocked, of that tenant and still entitled to its role; no account of that
    tenant had the address; and the repository created one with the invitation's
    address, tenant and role, verified, with a hash of the chosen password, for
    which the tokens are issued. *)
Theorem accept_invitation_grants_invited `{Crypto, Host, Base64, HeaderJson, UnicodeText, PasswordHashLib}
    `{ClaimsJson DashboardClaims, ClaimsJson PlatformClaims, ClaimsJson MfaTempClaims}
    {S U : Type} `{SessionStore S, InvitationStore S, UserRepository U, KdfRuntime U, PasswordBreachChecker U, InvitationMail U}
    (en : AuthEngine U) (ic : InvitationConfig) (input : AcceptInvitationInput) (ip user_agent : string) (headers : gmap string string)
    (result : AuthResult) (w w' : World S U) :
  accept_invitation en ic input ip user_agent headers w = (Ok result, w') ->
  exists invitation inviter data user,
    (exists s s', is_consume_invitation (ai_token input) s = (Ok (Some invitation), s')) /\
    (exists u, (repo_find_by_id (si_inviter_user_id invitation) (Some (si_tenant_id invitation)) u).1 = Ok (Some inviter)) /\
    assert_user_not_blocked en (au_status inviter) = Ok tt /\ may_grant ic inviter (si_role invitation) (si_tenant_id invitation) /\
    (exists u, (repo_find_by_email (si_email invitation) (si_tenant_id invitation) u).1 = Ok None) /\
    (exists u, (repo_create data u).1 = Ok user) /\
    cu_email data = si_email invitation /\ cu_tenant_id data = si_tenant_id invitation /\ cu_role data = Some (si_role invitation) /\
    cu_email_verified data = Some true /\
    (exists salt phc, cu_password_hash data = Some phc /\ pw_hash salt (ai_password input) (ps_params (en_passwords en)) = Ok phc) /\
    ar_user result = safe_user user.
Proof.
  intros Hrun. unfold accept_invitation in Hrun. destruct (ic_store ic); cbn [negb] in Hrun; [|by apply throw_inv in Hrun].
  apply bind_ok_inv in Hrun as (? & w1 & _ & Hrun). apply bind_ok_inv in Hrun as (invitation & w2 & Hr & Hrun).
  apply redeem_inv in Hr as (Hc & u & inviter & Hf & Hb & Hg). apply bind_ok_inv in Hrun as (user & w3 & Hu & Hrun).
  unfold create_invited in Hu. apply bind_ok_inv in Hu as (existing & w4 & He & Hu). apply from_users_inv in He as [He _].
  destruct existing as [taken|]; [by apply throw_inv in Hu|]. rewrite bool_decide_eq_false_2 in Hu by by intros [? ?].
  apply bind_ok_inv in Hu as (phc & w5 & Hh & Hu). apply hash_inv in Hh. apply from_users_inv in Hu as [Hu _].
  cbv zeta in Hrun. apply bind_ok_inv in Hrun as (res & w6 & Hi & Hrun). apply issue_tokens_user in Hi. einv Hrun.
  exists invitation, inviter; do 2 eexists. destruct Hh as [salt Hh].
  split_and!; [done | by exists u | done | done | by exists (w_users w2); rewrite He | by exists (w_users w5); rewrite Hu | done.. | by exists salt, phc | done].
Qed.
