(* ===== verification/UrlText.v ===== *)
(** * Reading a URL's host

    Models the text functions of [crates/bymax-auth-core/src/config/validate.rs]
    that decide which host a configured redirect leads to: [url_host],
    [is_bare_origin], [is_secure_https], [is_same_origin_path] and
    [host_allowlisted]. *)

From S2P Require Import Prelude Crypto AuthCore Totp.

(** ** Splitting text *)

(** [s.split_once(pat)] for a string pattern. *)
Fixpoint split_once_str (pat s : string) : option (string * string) :=
  match strip_prefix pat s with
  | Some rest => Some ("", rest)
  | None =>
      match s with
      | EmptyString => None
      | String c s' => match split_once_str pat s' with Some (l, r) => Some (String c l, r) | None => None end
      end
  end.

(** [s.split(f).next()]: up to the first character that satisfies [f]. *)
Fixpoint take_until (f : ascii -> bool) (s : string) : string :=
  match s with
  | EmptyString => EmptyString
  | String c s' => if f c then EmptyString else String c (take_until f s')
  end.

Fixpoint drop_until (f : ascii -> bool) (s : string) : string :=
  match s with
  | EmptyString => EmptyString
  | String c s' => if f c then s else drop_until f s'
  end.

(** [s.rsplit(c).next()]: after the last [c], or everything. *)
Fixpoint after_last (c : ascii) (s : string) : string :=
  match s with
  | EmptyString => EmptyString
  | String a s' => if contains_char c s' then after_last c s' else if decide (a = c) then s' else s
  end.

(** ** The functions *)

Definition ends_authority (c : ascii) : bool :=
  bool_decide (c = "/"%char) || bool_decide (c = "?"%char) || bool_decide (c = "#"%char) || bool_decide (c = "092"%char).

Definition host_of_authority (without_userinfo : string) : string :=
  if starts_with "[" without_userinfo then
    match split_once "]" without_userinfo with
    | Some (inside, _) => inside +:+ "]"
    | None => without_userinfo
    end
  else take_until (fun c => bool_decide (c = ":"%char)) without_userinfo.

Definition url_host (url : string) : option string :=
  after_scheme ← match split_once_str "://" url with
                 | Some (_, rest) => Some rest
                 | None => strip_prefix "//" url
                 end;
  let authority := take_until ends_authority after_scheme in
  let without_userinfo := after_last "@" authority in
  let host := host_of_authority without_userinfo in
  if string_is_empty host then None else Some host.

Definition is_scheme_char (c : ascii) : bool :=
  is_ascii_alphanumeric c || bool_decide (c = "+"%char) || bool_decide (c = "-"%char) || bool_decide (c = "."%char).

Definition is_bare_origin (value : string) : bool :=
  match split_once_str "://" value with
  | None => false
  | Some (scheme, rest) =>
      if string_is_empty scheme || negb (string_all is_scheme_char scheme) then false else
      if string_is_empty rest || negb (string_all (fun c => negb (ends_authority c || bool_decide (c = "@"%char))) rest)
      then false else bool_decide (is_Some (url_host value))
  end.

Definition is_secure_https (url : string) : bool := starts_with "https://" url && bool_decide (is_Some (url_host url)).

Definition is_same_origin_path (url : string) : bool :=
  starts_with "/" url
  && negb (match String.get 1 url with Some c => bool_decide (c = "/"%char) || bool_decide (c = "092"%char) | None => false end).

Definition is_https_or_relative (url : string) : bool := is_secure_https url || is_same_origin_path url.

Definition host_allowlisted (url : string) (allowlist : list string) : bool :=
  match url_host url with
  | None => true
  | Some host => existsb (fun allowed => eq_ignore_ascii_case allowed host) allowlist
  end.

(** ** Their parts *)

Lemma contains_char_cons (c a : ascii) (s : string) :
  contains_char c (String a s) = bool_decide (a = c) || contains_char c s.
Proof. unfold contains_char. cbn. by destruct (bool_decide (a = c)). Qed.

Lemma contains_char_app (c : ascii) (a b : string) : contains_char c (a +:+ b) = contains_char c a || contains_char c b.
Proof.
  induction a as [|x a IH]; [done|]. rewrite string_app_cons, !contains_char_cons, IH. by destruct (bool_decide (x = c)).
Qed.

(** A remainder that starts at a character of [f], or is empty. *)
Definition starts_at (f : ascii -> bool) (s : string) : Prop := s = "" \/ exists c s', s = String c s' /\ f c = true.

Lemma take_until_parts (f : ascii -> bool) (s : string) :
  s = take_until f s +:+ drop_until f s /\ string_all (fun c => negb (f c)) (take_until f s) = true /\
  starts_at f (drop_until f s).
Proof.
  induction s as [|c s (IH1 & IH2 & IH3)]; [split_and!; [done | done | by left]|]. cbn [take_until drop_until].
  destruct (f c) eqn:Hf; [split_and!; [done | done | by right; exists c, s]|].
  rewrite string_app_cons, <- IH1. cbn. rewrite Hf. by split_and!.
Qed.

Lemma take_until_app (f : ascii -> bool) (a rest : string) :
  string_all (fun c => negb (f c)) a = true -> starts_at f rest -> take_until f (a +:+ rest) = a.
Proof.
  intros Ha Hr. induction a as [|c a IH].
  - rewrite string_app_nil_l. destruct Hr as [->|(c & s' & -> & Hc)]; cbn; [done | by rewrite Hc].
  - cbn in Ha. apply andb_true_iff in Ha as [Hc Ha]. rewrite string_app_cons. cbn [take_until].
    rewrite (proj1 (negb_true_iff _) Hc). by rewrite IH.
Qed.

(** What precedes the part after the last [c]: nothing, or text closed by [c]. *)
Definition closed_by (c : ascii) (s : string) : Prop := s = "" \/ exists s', s = s' +:+ String c "".

Lemma after_last_parts (c : ascii) (s : string) :
  exists before, s = before +:+ after_last c s /\ closed_by c before /\ contains_char c (after_last c s) = false.
Proof.
  induction s as [|a s (before & Hs & Hb & Hn)]; [exists ""; by split_and!; [|left|]|]. cbn [after_last].
  destruct (contains_char c s) eqn:Hc.
  - exists (String a before). rewrite string_app_cons, <- Hs. split_and!; [done | | done]. right.
    destruct Hb as [->|(s' & ->)]; [|by exists (String a s')]. rewrite string_app_nil_l in Hs. congruence.
  - case_decide as Ha.
    + exists (String a ""). subst a. split_and!; [done | right; by exists "" | done].
    + exists "". split_and!; [done | by left |]. rewrite contains_char_cons, Hc. by rewrite bool_decide_eq_false_2.
Qed.

Lemma after_last_app (c : ascii) (before s : string) :
  closed_by c before -> contains_char c s = false -> after_last c (before +:+ s) = s.
Proof.
  intros [->|(s' & ->)] Hs.
  - rewrite string_app_nil_l. destruct s as [|a s]; [done|]. cbn. rewrite contains_char_cons in Hs.
    apply orb_false_iff in Hs as [Ha Hs]. rewrite Hs. apply bool_decide_eq_false in Ha. by rewrite decide_False.
  - rewrite string_app_assoc, string_app_cons, string_app_nil_l. induction s' as [|a s' IH]; cbn [after_last].
    + rewrite string_app_nil_l. cbn [after_last]. rewrite Hs. by rewrite decide_True.
    + rewrite string_app_cons. cbn [after_last]. rewrite contains_char_app, contains_char_cons, bool_decide_eq_true_2, orb_true_r by done.
      exact IH.
Qed.

Lemma split_once_no_sep (c : ascii) (s a b : string) : split_once c s = Some (a, b) -> contains_char c a = false.
Proof.
  revert a b. induction s as [|x s IH]; intros a b Hs; cbn in Hs; [done|]. case_decide as Hx; [by simplify_eq|].
  destruct (split_once c s) as [[l r]|] eqn:Hl; [|done]. injection Hs as <- <-. rewrite contains_char_cons.
  rewrite bool_decide_eq_false_2 by done. by eapply IH.
Qed.

Lemma split_once_None (c : ascii) (s : string) : split_once c s = None <-> contains_char c s = false.
Proof.
  induction s as [|x s IH]; [done|]. cbn [split_once]. rewrite contains_char_cons. case_decide as Hx.
  - rewrite bool_decide_eq_true_2 by done. done.
  - rewrite bool_decide_eq_false_2 by done. rewrite <- IH. by destruct (split_once c s) as [[]|].
Qed.

Lemma starts_with_true (p s : string) : starts_with p s = true <-> exists rest, s = p +:+ rest.
Proof.
  unfold starts_with. split.
  - destruct (strip_prefix p s) as [rest|] eqn:Hs; [|done]. exists rest. by apply strip_prefix_Some.
  - intros [rest ->]. by rewrite strip_prefix_app.
Qed.

(** ** The host of an absolute URL

    How an authority is read: it ends at the first slash,
    question mark, hash or backslash; user information ends at its last [@]; a
    bracketed literal is the host up to its bracket, and otherwise the host ends
    at the first colon. *)

Definition bracketed_host (host port : string) : Prop :=
  (exists inside, host = inside +:+ "]" /\ contains_char "]" inside = false) \/ (port = "" /\ contains_char "]" host = false).

Definition named_host (host port : string) : Prop :=
  contains_char ":" host = false /\ starts_at (fun c => bool_decide (c = ":"%char)) port.

Record authority_names (authority userinfo host port : string) : Prop := {
  an_split : authority = userinfo +:+ host +:+ port;
  an_userinfo : closed_by "@" userinfo;
  an_no_at : contains_char "@" (host +:+ port) = false;
  an_host : host <> "" /\ if starts_with "[" host then bracketed_host host port else named_host host port;
}.

Definition url_names (after_scheme host : string) : Prop :=
  exists userinfo port rest, after_scheme = (userinfo +:+ host +:+ port) +:+ rest /\
    authority_names (userinfo +:+ host +:+ port) userinfo host port /\
    string_all (fun c => negb (ends_authority c)) (userinfo +:+ host +:+ port) = true /\ starts_at ends_authority rest.

Lemma starts_with_app (c : ascii) (a b : string) : a <> "" -> starts_with (String c "") (a +:+ b) = starts_with (String c "") a.
Proof. destruct a as [|x a]; [done|]. intros _. rewrite string_app_cons. unfold starts_with. cbn. by case_decide. Qed.

Lemma all_but_contains (c : ascii) (s : string) :
  string_all (fun a => negb (bool_decide (a = c))) s = negb (contains_char c s).
Proof. unfold contains_char. by rewrite negb_involutive. Qed.

Lemma host_of_authority_parts (s : string) :
  let host := host_of_authority s in
  exists port, s = host +:+ port /\
    (host <> "" -> if starts_with "[" host then bracketed_host host port else named_host host port).
Proof.
  cbv zeta. unfold host_of_authority. destruct (starts_with "[" s) eqn:Hb.
  - destruct (split_once "]" s) as [[inside port]|] eqn:Hs.
    + pose proof (split_once_Some _ _ _ _ Hs) as ->. exists port. rewrite string_app_assoc. split; [done|]. intros _.
      assert (Hi : starts_with "[" (inside +:+ "]") = true).
      { destruct inside as [|x inside]; [|by rewrite starts_with_app in * by done]. by unfold starts_with in Hb. }
      rewrite Hi. left. exists inside. split; [done|]. by eapply split_once_no_sep.
    + exists "". rewrite string_app_nil_r. split; [done|]. intros _. rewrite Hb. right. split; [done|]. by apply split_once_None.
  - destruct (take_until_parts (fun c => bool_decide (c = ":"%char)) s) as (Hs & Ha & Hd).
    exists (drop_until (fun c => bool_decide (c = ":"%char)) s). split; [done|]. intros Hne.
    rewrite Hs, starts_with_app in Hb by done. rewrite Hb. split; [|done].
    rewrite all_but_contains in Ha. by apply negb_true_iff.
Qed.

Lemma host_of_authority_app (host port : string) :
  host <> "" -> (if starts_with "[" host then bracketed_host host port else named_host host port) ->
  host_of_authority (host +:+ port) = host.
Proof.
  intros Hne Hh. unfold host_of_authority. rewrite starts_with_app by done. destruct (starts_with "[" host).
  - destruct Hh as [(inside & -> & Hi)|(-> & Hn)].
    + rewrite string_app_assoc, string_app_cons, string_app_nil_l. by rewrite split_once_app.
    + rewrite string_app_nil_r. by rewrite (proj2 (split_once_None _ _)).
  - destruct Hh as [Hn Hp]. apply take_until_app; [|done]. rewrite all_but_contains. by rewrite Hn.
Qed.

Lemma string_is_empty_false (s : string) : string_is_empty s = false <-> s <> "".
Proof. by destruct s. Qed.

Lemma url_host_https (rest : string) :
  url_host ("https://" +:+ rest) =
  let host := host_of_authority (after_last "@" (take_until ends_authority rest)) in
  if string_is_empty host then None else Some host.
Proof. reflexivity. Qed.

Lemma url_host_names (rest host : string) : url_host ("https://" +:+ rest) = Some host -> url_names rest host.
Proof.
  rewrite url_host_https. cbv zeta.
  destruct (take_until_parts ends_authority rest) as (Hrest & Hall & Hend).
  destruct (after_last_parts "@" (take_until ends_authority rest)) as (userinfo & Hui & Hcl & Hno).
  destruct (host_of_authority_parts (after_last "@" (take_until ends_authority rest))) as (port & Hp & Hh).
  destruct (string_is_empty _) eqn:He; [done|]. apply string_is_empty_false in He. intros [= Hhost].
  rewrite Hhost in *. rewrite Hp in Hui. exists userinfo, port, (drop_until ends_authority rest).
  rewrite <- Hui. split_and!; [done | | done | done]. split; [done | done | by rewrite <- Hp | by split; [|apply Hh]].
Qed.

(** The host the configuration checks is the one the authority names.  For an
    absolute [https] URL, [url_host] answers a host exactly when the text after
    the scheme reads as user information, that host, a port and a remainder, with
    the authority ended by the first slash, question mark, hash or backslash,
    user information by its last at-sign, and the host by its bracket or the
    first colon; so no user information, port or backslash can pass one host off
    as another. *)
Theorem url_host_exact (rest host : string) : url_host ("https://" +:+ rest) = Some host <-> url_names rest host.
Proof.
  split; [apply url_host_names|]. intros (userinfo & port & tail & -> & [_ Hcl Hno [Hne Hh]] & Hall & Hend).
  rewrite url_host_https. cbv zeta.
  rewrite take_until_app, after_last_app, host_of_authority_app by done. by rewrite (proj2 (string_is_empty_false _) Hne).
Qed.

(** The target of a redirect stays with the deployment: an [https] URL whose host
    is listed, or a path of the same origin. *)
Definition redirect_stays (allowlist : list string) (url : string) : Prop :=
  (exists rest host allowed, url = "https://" +:+ rest /\ url_names rest host /\ allowed ∈ allowlist /\
     eq_ignore_ascii_case allowed host = true) \/
  is_same_origin_path url = true.

Lemma allowlisted_redirect (allowlist : list string) (url : string) :
  is_https_or_relative url = true -> host_allowlisted url allowlist = true -> redirect_stays allowlist url.
Proof.
  unfold is_https_or_relative, is_secure_https. intros [[Hs Hh]%andb_true_iff|Hp]%orb_true_iff Hl; [left | by right].
  apply starts_with_true in Hs as [rest ->]. apply bool_decide_eq_true in Hh as [host Hh].
  unfold host_allowlisted in Hl. rewrite Hh in Hl. apply existsb_exists in Hl as (allowed & Hin & Heq).
  apply list_elem_of_In in Hin. exists rest, host, allowed. split_and!; [done | | done | done].
  by apply url_host_names.
Qed.
