(* ===== verification/Config.v ===== *)
(** * The configuration of a deployment

    Models [crates/bymax-auth-core/src/config/mod.rs] and [profiles.rs], and the
    startup errors of [error.rs], in the build with every feature compiled in.
    A [Duration] is its whole seconds: nothing reads the rest.  A secret is its
    text. *)

From S2P Require Import Prelude Types Repository Password AuthCore.
From Stdlib Require Import SpecFloat.

(** ** Startup errors *)

(** The payload of an entropy error is a binary64 number. *)
Inductive ConfigError : Set :=
| TenantBindingWithoutResolver
| JwtSecretTooShort (len : Z)
| JwtSecretLowEntropy (entropy : spec_float)
| IdentifierKeyTooShort (len : Z)
| IdentifierKeyLowEntropy (entropy : spec_float)
| RefreshGraceTooLarge (grace lifetime : Z)
| RefreshGraceCeiling (got max : Z)
| PasswordMinLengthRange (got : Z)
| BruteForceWindowInvalid
| BruteForceAttemptsRange (got : Z)
| RefreshLifetimeInvalid (got : Z)
| AccessLifetimeExceedsEpochRetention (access retention : Z)
| PreviousSecretRepeated
| EmptyRoleHierarchy
| UnknownRoleReference (role child : string)
| MissingPlatformHierarchy
| MissingPlatformRepository
| ScryptCostFactor (got : Z)
| ScryptBlockSize (got : Z)
| ScryptParallelization (got : Z)
| TotpWindowRange (got valid : Z)
| RecoveryCodeCountRange (got : Z)
| Argon2Memory (got : Z)
| Argon2Iterations (got : Z)
| Argon2Parallelism (got : Z)
| HasherNotEnabled (algorithm : string)
| MfaKeyInvalidBase64
| MfaKeyLength (got : Z)
| MfaIssuerMissing
| MfaToggleWithoutConfig
| OtpLengthRange (got : Z)
| OAuthFieldMissing (provider field : string)
| OAuthCallbackInsecure (provider got : string)
| OAuthRedirectNeedsCookie
| OAuthRedirectInsecure (kind got : string)
| OAuthRedirectNotAllowlisted (url : string)
| SameSiteNoneRequiresSecure
| SecureCookiesRequiredInProduction
| CookiePrefixUnsatisfied (option name requirement : string)
| TrustedForwardedForRequiresPredicate
| TrustedOriginsRequired
| TrustedOriginMalformed (origin : string)
| RefreshPathMismatch (prefix : string)
| OAuthToggleWithoutProvider
| OAuthStateStoreMissing
| MissingUserRepository
| MissingStores
| MissingInvitationStore
| SentinelHashFailed.

(** ** The settings *)

Module Settings.

Inductive JwtAlgorithm : Set := Hs256.
Inductive TokenDelivery : Set := Cookie | Bearer | Both.
Inductive SameSite : Set := Lax | Strict | SsNone.
Inductive Environment : Set := Production | Development | Test.
Inductive EvictionStrategy : Set := Fifo.

#[export] Instance TokenDelivery_eq_dec : EqDecision TokenDelivery.
Proof. solve_decision. Defined.
#[export] Instance SameSite_eq_dec : EqDecision SameSite.
Proof. solve_decision. Defined.
#[export] Instance Environment_eq_dec : EqDecision Environment.
Proof. solve_decision. Defined.

Record JwtConfig : Set := {
  jc_secret : string;
  jc_previous_secrets : list string;
  jc_access_expires_in : Z;
  jc_access_cookie_max_age : Z;
  jc_refresh_expires_in_days : Z;
  jc_absolute_session_lifetime_days : Z;
  jc_algorithm : JwtAlgorithm;
  jc_issuer : option string;
  jc_audience : option string;
  jc_refresh_grace_window : Z;
}.

Definition jwt_default : JwtConfig := {|
  jc_secret := ""; jc_previous_secrets := []; jc_access_expires_in := 15 * 60; jc_access_cookie_max_age := 15 * 60;
  jc_refresh_expires_in_days := 7; jc_absolute_session_lifetime_days := 30; jc_algorithm := Hs256;
  jc_issuer := None; jc_audience := None; jc_refresh_grace_window := 30 |}.

Record RolesConfig : Set := {
  rl_hierarchy : gmap string (list string);
  rl_platform_hierarchy : option (gmap string (list string));
}.

Record CookieConfig : Set := {
  ck_access_token_name : string;
  ck_refresh_token_name : string;
  ck_session_signal_name : string;
  ck_refresh_cookie_path : string;
  ck_mfa_temp_cookie_path : string;
  ck_same_site : SameSite;
  ck_trusted_origins : list string;
  ck_resolve_domains : option (string -> list string);
}.

Definition cookie_default : CookieConfig := {|
  ck_access_token_name := "access_token"; ck_refresh_token_name := "refresh_token";
  ck_session_signal_name := "has_session"; ck_refresh_cookie_path := "/auth";
  ck_mfa_temp_cookie_path := "/auth/mfa"; ck_same_site := Lax; ck_trusted_origins := [];
  ck_resolve_domains := None |}.

Record MfaConfig : Set := {
  mc_encryption_key : string;
  mc_previous_encryption_keys : list string;
  mc_issuer : string;
  mc_recovery_code_count : Z;
  mc_totp_window : Z;
}.

Record SessionConfig : Set := {
  sn_enabled : bool;
  sn_default_max_sessions : Z;
  sn_eviction_strategy : EvictionStrategy;
  sn_max_sessions_resolver : option (AuthUser -> Z);
}.

Definition session_default : SessionConfig := {|
  sn_enabled := false; sn_default_max_sessions := 5; sn_eviction_strategy := Fifo; sn_max_sessions_resolver := None |}.

Record BruteForceConfig : Set := { bc_max_attempts : Z; bc_window : Z }.
Definition brute_force_default : BruteForceConfig := {| bc_max_attempts := 5; bc_window := 900 |}.

Record PasswordResetConfig : Set := {
  rs_method : ResetMethod;
  rs_token_ttl : Z;
  rs_otp_ttl : Z;
  rs_otp_length : Z;
}.
Definition password_reset_default : PasswordResetConfig := {|
  rs_method := RmToken; rs_token_ttl := 600; rs_otp_ttl := 600; rs_otp_length := 6 |}.

Record EmailVerificationConfig : Set := { ev_required : bool; ev_otp_ttl : Z }.
Definition email_verification_default : EmailVerificationConfig := {| ev_required := true; ev_otp_ttl := 600 |}.

Record PlatformConfig : Set := { pl_enabled : bool }.
Record InvitationConfig : Set := { in_enabled : bool; in_token_ttl : Z }.
Definition invitation_default : InvitationConfig := {| in_enabled := false; in_token_ttl := 172800 |}.
Record EmailChangeConfig : Set := { ec_token_ttl : Z }.
Definition email_change_default : EmailChangeConfig := {| ec_token_ttl := 3600 |}.

Record GoogleOAuthConfig : Set := {
  go_client_id : string;
  go_client_secret : string;
  go_callback_url : string;
  go_scope : list string;
}.
Definition google_default : GoogleOAuthConfig := {|
  go_client_id := ""; go_client_secret := ""; go_callback_url := ""; go_scope := ["openid"; "email"; "profile"] |}.

Record OAuthConfig : Set := {
  oa_success_redirect_url : option string;
  oa_mfa_redirect_url : option string;
  oa_error_redirect_url : option string;
  oa_redirect_allowlist : list string;
  oa_google : option GoogleOAuthConfig;
}.
Definition oauth_default : OAuthConfig := {|
  oa_success_redirect_url := None; oa_mfa_redirect_url := None; oa_error_redirect_url := None;
  oa_redirect_allowlist := []; oa_google := None |}.

Record ControllerToggles : Set := {
  ct_auth : bool;
  ct_password_reset : bool;
  ct_mfa : bool;
  ct_sessions : bool;
  ct_platform : bool;
  ct_oauth : bool;
  ct_invitations : bool;
  ct_email_change : bool;
}.
Definition controllers_default : ControllerToggles := {|
  ct_auth := true; ct_password_reset := true; ct_mfa := false; ct_sessions := false; ct_platform := false;
  ct_oauth := false; ct_invitations := false; ct_email_change := false |}.

Definition scrypt_default : ScryptParams := {| sp_cost_factor := Z.shiftl 1 17; sp_block_size := 8; sp_parallelization := 1 |}.
Definition argon2_default : Argon2Params := {| ap_memory_kib := 19456; ap_iterations := 2; ap_parallelism := 1 |}.
Definition password_default : PasswordConfig := {|
  pw_active_algorithm := Scrypt; pw_scrypt := scrypt_default; pw_argon2 := argon2_default;
  pw_rehash_on_verify := true; pw_min_length := 15 |}.

(** The resolvers are the host's, so they act on the host's state [U]. *)
Record AuthConfig (U : Type) : Type := {
  ac_jwt : JwtConfig;
  ac_identifier_key : option string;
  ac_roles : RolesConfig;
  ac_password : PasswordConfig;
  ac_token_delivery : TokenDelivery;
  ac_secure_cookies : option bool;
  ac_cookies : CookieConfig;
  ac_mfa : option MfaConfig;
  ac_sessions : SessionConfig;
  ac_brute_force : BruteForceConfig;
  ac_password_reset : PasswordResetConfig;
  ac_email_verification : EmailVerificationConfig;
  ac_platform : PlatformConfig;
  ac_invitations : InvitationConfig;
  ac_email_change : EmailChangeConfig;
  ac_oauth : OAuthConfig;
  ac_route_prefix : string;
  ac_redis_namespace : string;
  ac_blocked_statuses : list string;
  ac_user_status_cache_ttl : Z;
  ac_controllers : ControllerToggles;
  ac_tenant_id_resolver : option (TenantIdResolver U);
  ac_enforce_tenant_binding : bool;
}.
Arguments ac_jwt {U} _.
Arguments ac_identifier_key {U} _.
Arguments ac_roles {U} _.
Arguments ac_password {U} _.
Arguments ac_token_delivery {U} _.
Arguments ac_secure_cookies {U} _.
Arguments ac_cookies {U} _.
Arguments ac_mfa {U} _.
Arguments ac_sessions {U} _.
Arguments ac_brute_force {U} _.
Arguments ac_password_reset {U} _.
Arguments ac_email_verification {U} _.
Arguments ac_platform {U} _.
Arguments ac_invitations {U} _.
Arguments ac_email_change {U} _.
Arguments ac_oauth {U} _.
Arguments ac_route_prefix {U} _.
Arguments ac_redis_namespace {U} _.
Arguments ac_blocked_statuses {U} _.
Arguments ac_user_status_cache_ttl {U} _.
Arguments ac_controllers {U} _.
Arguments ac_tenant_id_resolver {U} _.
Arguments ac_enforce_tenant_binding {U} _.

(** ** The two profiles *)

Definition base {U} (active_algorithm : PasswordAlgorithm) : AuthConfig U := {|
  ac_jwt := jwt_default;
  ac_identifier_key := None;
  ac_roles := {| rl_hierarchy := ∅; rl_platform_hierarchy := None |};
  ac_password := {| pw_active_algorithm := active_algorithm; pw_scrypt := pw_scrypt password_default;
                    pw_argon2 := pw_argon2 password_default; pw_rehash_on_verify := pw_rehash_on_verify password_default;
                    pw_min_length := pw_min_length password_default |};
  ac_token_delivery := Cookie;
  ac_secure_cookies := None;
  ac_cookies := cookie_default;
  ac_mfa := None;
  ac_sessions := session_default;
  ac_brute_force := brute_force_default;
  ac_password_reset := password_reset_default;
  ac_email_verification := email_verification_default;
  ac_platform := {| pl_enabled := false |};
  ac_invitations := invitation_default;
  ac_email_change := email_change_default;
  ac_oauth := oauth_default;
  ac_route_prefix := "auth";
  ac_redis_namespace := "auth";
  ac_blocked_statuses := ["BANNED"; "INACTIVE"; "SUSPENDED"];
  ac_user_status_cache_ttl := 60;
  ac_controllers := controllers_default;
  ac_tenant_id_resolver := None;
  ac_enforce_tenant_binding := false;
|}.

Definition nest_compat_defaults {U} : AuthConfig U := base Scrypt.
Definition secure_defaults {U} : AuthConfig U := base Argon2id.

End Settings.
