(* ===== verification/Validate.v ===== *)
(** * Startup validation

    Models [crates/bymax-auth-core/src/config/validate.rs] and [cookie_prefix.rs]:
    every rule a configuration must pass before an engine is built from it, in the
    order the code applies them.  [validate_accepts_iff] reads the rules as one
    declarative condition. *)

From stdpp Require Import sorting.
From Stdlib Require Import SpecFloat.
From S2P Require Import Prelude Types Crypto Jwt Repository Password AuthCore Totp UrlText Config.
From stdpp Require Import list.
#[local] Open Scope Z_scope.

Import Settings.

(** ** Results *)

#[export] Instance result_ret {E} : MRet (result E) := fun _ a => Ok a.
#[export] Instance result_bind {E} : MBind (result E) := fun _ _ f r => match r with Ok a => f a | Err e => Err e end.

Definition refuse_if {E} (b : bool) (e : E) : result E unit := if b then Err e else Ok tt.

(** A [for] loop whose body may return early. *)
Fixpoint for_each {E A} (f : A -> result E unit) (l : list A) : result E unit :=
  match l with [] => Ok tt | x :: l' => _ ← f x; for_each f l' end.

Lemma result_bind_ok {E A B} (r : result E A) (f : A -> result E B) (b : B) :
  r ≫= f = Ok b <-> exists a, r = Ok a /\ f a = Ok b.
Proof. destruct r as [a|e]; cbn; split; [eauto | by intros (? & [= <-] & ?) | done | by intros (? & ? & _)]. Qed.

Lemma then_ok {E B} (r : result E unit) (k : result E B) (b : B) :
  (_ ← r; k) = Ok b <-> r = Ok tt /\ k = Ok b.
Proof. rewrite result_bind_ok. split; [by intros ([] & ? & ?) | intros [? ?]; by exists tt]. Qed.

Lemma refuse_if_ok {E} (b : bool) (e : E) : refuse_if b e = Ok tt <-> b = false.
Proof. by destruct b. Qed.

Lemma for_each_ok {E A} (f : A -> result E unit) (l : list A) : for_each f l = Ok tt <-> Forall (fun x => f x = Ok tt) l.
Proof.
  induction l as [|x l IH]; cbn [for_each]; [split; [by constructor | done]|].
  rewrite then_ok, IH. split; [intros []; by constructor | by inversion 1].
Qed.

(** ** Entropy of a secret

    Binary64 arithmetic is the standard's; the base-two logarithm is the
    platform's, and so is the order a hash map yields its values in. *)

Definition f64_add : spec_float -> spec_float -> spec_float := SFadd 53 1024.
Definition f64_mul : spec_float -> spec_float -> spec_float := SFmul 53 1024.
Definition f64_div : spec_float -> spec_float -> spec_float := SFdiv 53 1024.
Definition f64_of_nat (n : nat) : spec_float := binary_normalize 53 1024 (Z.of_nat n) 0 false.

Class EntropyPlatform : Type := {
  f64_log2 : spec_float -> spec_float;
  values_order : list nat -> list nat;
  values_order_perm (l : list nat) : values_order l ≡ₚ l;
}.

(** [s.chars()], each character as its bytes. *)
Fixpoint chars (s : string) : list string :=
  match s with
  | EmptyString => []
  | String b s' =>
      match chars s' with
      | c :: cs => if Engine.is_continuation (match c with String x _ => x | EmptyString => b end)
                   then String b c :: cs else String b "" :: c :: cs
      | [] => [String b ""]
      end
  end.

(** The two remaining engines of the base64 package. *)
Class Base64Variants : Type := {
  url_safe_decode : string -> option string;
  standard_no_pad_decode : string -> option string;
}.

Definition MIN_SECRET_ENTROPY : spec_float := binary_normalize 53 1024 7 (-1) false.
Definition MIN_SECRET_LEN : Z := 32.

Section rules.
Context `{EntropyPlatform, Crypto, Base64, Base64Std, Base64Variants, UnicodeText}.

Definition frequencies (s : string) : gmap string nat :=
  foldl (fun freq c => <[c := Datatypes.S (default 0%nat (freq !! c))]> freq) ∅ (chars s).

Definition shannon_entropy (s : string) : spec_float :=
  let total := length (chars s) in
  if Nat.eqb total 0 then S754_zero false else
  let total := f64_of_nat total in
  foldl f64_add (S754_zero true)
    ((fun count => let p := f64_div (f64_of_nat count) total in f64_mul (SFopp p) (f64_log2 p))
       <$> values_order (map_to_list (frequencies s)).*2).

(** The bar every secret is held to: its length, then its entropy. *)
Definition check_secret (too_short : Z -> ConfigError) (low_entropy : spec_float -> ConfigError) (secret : string) :
    result ConfigError unit :=
  let len := chars_count secret in
  _ ← refuse_if (bool_decide (len < MIN_SECRET_LEN)) (too_short len);
  let entropy := shannon_entropy secret in
  refuse_if (SFltb entropy MIN_SECRET_ENTROPY) (low_entropy entropy).

(** ** Keys *)

Definition decode_base64_any (s : string) : option string :=
  match base64_decode s with
  | Some bytes => Some bytes
  | None =>
      match url_safe_decode s with
      | Some bytes => Some bytes
      | None => match standard_no_pad_decode s with Some bytes => Some bytes | None => b64_decode s end
      end
  end.

Definition decode_aes256_key (encoded : string) : option string :=
  decoded ← decode_base64_any encoded;
  if bool_decide (String.length decoded = 32%nat) then Some decoded else None.

Definition HMAC_KEY_LABEL : string := "bymax-auth:hmac-key:v1".

Definition derive_hmac_key (secret : string) : string := to_hex (sha256 (HMAC_KEY_LABEL +:+ ":" +:+ secret)).

(** A rotation list: each entry passes the check and repeats no earlier one. *)
Fixpoint check_retired (check : string -> result ConfigError unit) (seen retired : list string) : result ConfigError unit :=
  match retired with
  | [] => Ok tt
  | previous :: retired =>
      _ ← check previous;
      _ ← refuse_if (bool_decide (previous ∈ seen)) PreviousSecretRepeated;
      check_retired check (seen ++ [previous]) retired
  end.

(** ** Roles *)

Definition str_le (a b : string) : Prop := String.leb a b = true.
#[export] Instance str_le_dec : RelDecision str_le := fun a b => decide (String.leb a b = true).

Definition validate_referential (hierarchy : gmap string (list string)) : result ConfigError unit :=
  for_each (fun role =>
    for_each (fun child => refuse_if (negb (bool_decide (is_Some (hierarchy !! child)))) (UnknownRoleReference role child))
      (default [] (hierarchy !! role)))
    (merge_sort str_le (map_to_list hierarchy).*1).

Definition role_satisfies (hierarchy : gmap string (list string)) (held_role required_role : string) : bool :=
  if bool_decide (held_role = required_role) then true else
  match hierarchy !! held_role with
  | Some included => existsb (fun role => bool_decide (role = required_role)) included
  | None => false
  end.

(** ** Password parameters *)

Definition validate_password (password : PasswordConfig) : result ConfigError unit :=
  let scrypt := pw_scrypt password in
  let argon2 := pw_argon2 password in
  _ ← refuse_if (negb (is_power_of_two (sp_cost_factor scrypt)) || bool_decide (sp_cost_factor scrypt < 16384))
        (ScryptCostFactor (sp_cost_factor scrypt));
  _ ← refuse_if (bool_decide (sp_block_size scrypt < 8)) (ScryptBlockSize (sp_block_size scrypt));
  _ ← refuse_if (bool_decide (sp_parallelization scrypt < 1)) (ScryptParallelization (sp_parallelization scrypt));
  _ ← refuse_if (bool_decide (ap_memory_kib argon2 < 19456)) (Argon2Memory (ap_memory_kib argon2));
  _ ← refuse_if (bool_decide (ap_iterations argon2 < 2)) (Argon2Iterations (ap_iterations argon2));
  refuse_if (bool_decide (ap_parallelism argon2 < 1)) (Argon2Parallelism (ap_parallelism argon2)).

(** ** Cookie names *)

Definition SECURE_PREFIX : string := "__Secure-".
Definition HOST_PREFIX : string := "__Host-".

(** The first attribute a prefixed name asks for and the cookie lacks. *)
Definition unmet_requirement (cookies : CookieConfig) (secure : bool) (name path : string) : option string :=
  if starts_with HOST_PREFIX name then
    if negb secure then Some "secure_cookies = true"
    else if negb (bool_decide (path = "/")) then Some ("Path=/ (this cookie uses '" +:+ path +:+ "')")
    else if bool_decide (is_Some (ck_resolve_domains cookies)) then Some "no cookies.resolve_domains"
    else None
  else if starts_with SECURE_PREFIX name && negb secure then Some "secure_cookies = true"
  else None.

Definition validate_cookie_prefixes (cookies : CookieConfig) (secure : bool) : result ConfigError unit :=
  for_each (fun '(option, name, path) =>
    match unmet_requirement cookies secure name path with
    | Some requirement => Err (CookiePrefixUnsatisfied option name requirement)
    | None => Ok tt
    end)
    [("cookies.access_token_name", ck_access_token_name cookies, "/");
     ("cookies.refresh_token_name", ck_refresh_token_name cookies, ck_refresh_cookie_path cookies);
     ("cookies.session_signal_name", ck_session_signal_name cookies, "/")].

(** ** The rules, in the order they run *)

Definition MAX_REFRESH_GRACE_WINDOW_SECS : Z := 300.

Context {U : Type} (c : AuthConfig U).

Definition resolve_secure_cookies (environment : Environment) : bool :=
  default (bool_decide (environment = Production)) (ac_secure_cookies c).

Definition check_tenant_binding : result ConfigError unit :=
  refuse_if (ac_enforce_tenant_binding c && negb (bool_decide (is_Some (ac_tenant_id_resolver c)))) TenantBindingWithoutResolver.

Definition check_secrets : result ConfigError unit :=
  _ ← check_secret JwtSecretTooShort JwtSecretLowEntropy (jc_secret (ac_jwt c));
  _ ← match ac_identifier_key c with
      | Some key => check_secret IdentifierKeyTooShort IdentifierKeyLowEntropy key
      | None => Ok tt
      end;
  check_retired (check_secret JwtSecretTooShort JwtSecretLowEntropy) [jc_secret (ac_jwt c)] (jc_previous_secrets (ac_jwt c)).

Definition check_refresh : result ConfigError unit :=
  let days := jc_refresh_expires_in_days (ac_jwt c) in
  _ ← refuse_if (Z.eqb days 0) (RefreshLifetimeInvalid 0);
  let grace := jc_refresh_grace_window (ac_jwt c) in
  let lifetime := days * 86400 in
  _ ← refuse_if (bool_decide (lifetime <= grace)) (RefreshGraceTooLarge grace lifetime);
  refuse_if (bool_decide (MAX_REFRESH_GRACE_WINDOW_SECS < grace)) (RefreshGraceCeiling grace MAX_REFRESH_GRACE_WINDOW_SECS).

Definition check_brute_force : result ConfigError unit :=
  _ ← refuse_if (Z.eqb (bc_window (ac_brute_force c)) 0) BruteForceWindowInvalid;
  refuse_if (negb (bool_decide (1 <= bc_max_attempts (ac_brute_force c) <= 100)))
    (BruteForceAttemptsRange (bc_max_attempts (ac_brute_force c))).

Definition check_access_lifetime : result ConfigError unit :=
  let access := jc_access_expires_in (ac_jwt c) in
  refuse_if (bool_decide (TOKEN_EPOCH_RETENTION_SECS < access))
    (AccessLifetimeExceedsEpochRetention access TOKEN_EPOCH_RETENTION_SECS).

Definition check_retired_mfa_keys : result ConfigError unit :=
  match ac_mfa c with
  | None => Ok tt
  | Some mfa =>
      check_retired (fun previous => refuse_if (negb (bool_decide (is_Some (decode_aes256_key previous)))) MfaKeyInvalidBase64)
        [mc_encryption_key mfa] (mc_previous_encryption_keys mfa)
  end.

Definition check_roles : result ConfigError unit :=
  let roles := ac_roles c in
  _ ← refuse_if (bool_decide (rl_hierarchy roles = ∅)) EmptyRoleHierarchy;
  _ ← validate_referential (rl_hierarchy roles);
  _ ← match rl_platform_hierarchy roles with Some h => validate_referential h | None => Ok tt end;
  refuse_if (pl_enabled (ac_platform c) && negb (bool_decide (is_Some (rl_platform_hierarchy roles)))) MissingPlatformHierarchy.

Definition check_mfa_key : result ConfigError unit :=
  match ac_mfa c with
  | None => Ok tt
  | Some mfa =>
      decoded ← ok_or MfaKeyInvalidBase64 (decode_base64_any (mc_encryption_key mfa));
      _ ← refuse_if (negb (bool_decide (String.length decoded = 32%nat))) (MfaKeyLength (Z.of_nat (String.length decoded)));
      refuse_if (string_is_empty (str_trim (mc_issuer mfa))) MfaIssuerMissing
  end.

Definition check_mfa_bounds : result ConfigError unit :=
  match ac_mfa c with
  | None => Ok tt
  | Some mfa =>
      _ ← refuse_if (bool_decide (MAX_VERIFY_WINDOW < mc_totp_window mfa))
            (TotpWindowRange (mc_totp_window mfa) (mc_totp_window mfa * 2 + 1));
      refuse_if (negb (bool_decide (1 <= mc_recovery_code_count mfa <= 50))) (RecoveryCodeCountRange (mc_recovery_code_count mfa))
  end.

Definition check_google (environment : Environment) (google : GoogleOAuthConfig) : result ConfigError unit :=
  _ ← refuse_if (string_is_empty (str_trim (go_client_id google))) (OAuthFieldMissing "google" "client_id");
  _ ← refuse_if (string_is_empty (str_trim (go_client_secret google))) (OAuthFieldMissing "google" "client_secret");
  _ ← refuse_if (string_is_empty (str_trim (go_callback_url google))) (OAuthFieldMissing "google" "callback_url");
  refuse_if (bool_decide (environment = Production) && negb (is_secure_https (go_callback_url google)))
    (OAuthCallbackInsecure "google" (go_callback_url google)).

Definition redirect_urls : list (string * option string) :=
  [("success", oa_success_redirect_url (ac_oauth c)); ("mfa", oa_mfa_redirect_url (ac_oauth c));
   ("error", oa_error_redirect_url (ac_oauth c))].

Definition allowlist_candidate_urls : list string :=
  omap id [oa_success_redirect_url (ac_oauth c); oa_mfa_redirect_url (ac_oauth c); oa_error_redirect_url (ac_oauth c)]
  ++ match oa_google (ac_oauth c) with Some google => [go_callback_url google] | None => [] end.

Definition check_redirects : result ConfigError unit :=
  _ ← for_each (fun '(kind, url) =>
        match url with
        | Some url => refuse_if (negb (is_https_or_relative url)) (OAuthRedirectInsecure kind url)
        | None => Ok tt
        end) redirect_urls;
  match oa_redirect_allowlist (ac_oauth c) with
  | [] => Ok tt
  | allowlist =>
      for_each (fun url => refuse_if (negb (host_allowlisted url allowlist)) (OAuthRedirectNotAllowlisted url))
        allowlist_candidate_urls
  end.

Definition validate_oauth (environment : Environment) : result ConfigError unit :=
  _ ← match oa_google (ac_oauth c) with Some google => check_google environment google | None => Ok tt end;
  _ ← refuse_if (bool_decide (is_Some (oa_success_redirect_url (ac_oauth c)))
                 && negb (bool_decide (ac_token_delivery c = Cookie) || bool_decide (ac_token_delivery c = Both)))
        OAuthRedirectNeedsCookie;
  if bool_decide (environment = Production) then check_redirects else Ok tt.

Definition validate_trusted_origins : result ConfigError unit :=
  let cross_site := bool_decide (ck_same_site (ac_cookies c) = SsNone) in
  let listed := negb (bool_decide (ck_trusted_origins (ac_cookies c) = [])) in
  _ ← refuse_if (cross_site && negb listed) TrustedOriginsRequired;
  for_each (fun origin => refuse_if (negb (is_bare_origin origin)) (TrustedOriginMalformed origin))
    (ck_trusted_origins (ac_cookies c)).

Definition check_cookies (environment : Environment) (secure_cookies : bool) : result ConfigError unit :=
  _ ← refuse_if (bool_decide (ck_same_site (ac_cookies c) = SsNone) && negb secure_cookies) SameSiteNoneRequiresSecure;
  _ ← refuse_if (bool_decide (environment = Production) && bool_decide (ac_secure_cookies c = Some false))
        SecureCookiesRequiredInProduction;
  _ ← validate_trusted_origins;
  _ ← refuse_if (negb (bool_decide (ac_route_prefix c = "auth")) && bool_decide (ck_refresh_cookie_path (ac_cookies c) = "/auth"))
        (RefreshPathMismatch (ac_route_prefix c));
  validate_cookie_prefixes (ac_cookies c) secure_cookies.

Definition validate (environment : Environment) : result ConfigError bool :=
  let secure_cookies := resolve_secure_cookies environment in
  _ ← check_tenant_binding;
  _ ← check_secrets;
  _ ← check_refresh;
  _ ← check_brute_force;
  _ ← check_access_lifetime;
  _ ← check_retired_mfa_keys;
  _ ← check_roles;
  _ ← validate_password (ac_password c);
  _ ← check_mfa_key;
  _ ← refuse_if (ct_mfa (ac_controllers c) && negb (bool_decide (is_Some (ac_mfa c)))) MfaToggleWithoutConfig;
  _ ← check_mfa_bounds;
  _ ← refuse_if (negb (bool_decide (4 <= rs_otp_length (ac_password_reset c) <= 8)))
        (OtpLengthRange (rs_otp_length (ac_password_reset c)));
  _ ← validate_oauth environment;
  _ ← check_cookies environment secure_cookies;
  Ok secure_cookies.

End rules.

(** * What a validated configuration satisfies *)

Import Settings.


Section accepts.
Context `{EntropyPlatform, Crypto, Base64, Base64Std, Base64Variants, UnicodeText}.

(** ** The conditions *)

Definition strong (secret : string) : Prop :=
  MIN_SECRET_LEN <= chars_count secret /\ SFltb (shannon_entropy secret) MIN_SECRET_ENTROPY = false.

(** Every role a role includes is itself a role of the hierarchy. *)
Definition closed_hierarchy (hierarchy : gmap string (list string)) : Prop :=
  forall role included child, hierarchy !! role = Some included -> child ∈ included -> is_Some (hierarchy !! child).

Definition password_ok (password : PasswordConfig) : Prop :=
  (is_power_of_two (sp_cost_factor (pw_scrypt password)) = true /\ 16384 <= sp_cost_factor (pw_scrypt password) /\
   8 <= sp_block_size (pw_scrypt password) /\ 1 <= sp_parallelization (pw_scrypt password)) /\
  19456 <= ap_memory_kib (pw_argon2 password) /\ 2 <= ap_iterations (pw_argon2 password) /\ 1 <= ap_parallelism (pw_argon2 password).

Definition mfa_ok (mfa : MfaConfig) : Prop :=
  Forall (fun key => is_Some (decode_aes256_key key)) (mc_encryption_key mfa :: mc_previous_encryption_keys mfa) /\
  NoDup (mc_encryption_key mfa :: mc_previous_encryption_keys mfa) /\
  str_trim (mc_issuer mfa) <> "" /\ mc_totp_window mfa <= MAX_VERIFY_WINDOW /\ 1 <= mc_recovery_code_count mfa <= 50.

Definition google_ok (environment : Environment) (google : GoogleOAuthConfig) : Prop :=
  str_trim (go_client_id google) <> "" /\ str_trim (go_client_secret google) <> "" /\ str_trim (go_callback_url google) <> "" /\
  (environment = Production -> is_secure_https (go_callback_url google) = true).

Section config.
Context {U : Type} (environment : Environment) (c : AuthConfig U).

Abbreviation secure := (resolve_secure_cookies c environment).
Abbreviation secrets := (jc_secret (ac_jwt c) :: jc_previous_secrets (ac_jwt c)).

Record lifetimes_ok : Prop := {
  lo_refresh : jc_refresh_expires_in_days (ac_jwt c) <> 0;
  lo_grace : jc_refresh_grace_window (ac_jwt c) < jc_refresh_expires_in_days (ac_jwt c) * 86400;
  lo_grace_ceiling : jc_refresh_grace_window (ac_jwt c) <= MAX_REFRESH_GRACE_WINDOW_SECS;
  lo_access : jc_access_expires_in (ac_jwt c) <= TOKEN_EPOCH_RETENTION_SECS;
}.

Definition roles_ok : Prop :=
  rl_hierarchy (ac_roles c) <> ∅ /\ closed_hierarchy (rl_hierarchy (ac_roles c)) /\
  (forall h, rl_platform_hierarchy (ac_roles c) = Some h -> closed_hierarchy h) /\
  (pl_enabled (ac_platform c) = true -> is_Some (rl_platform_hierarchy (ac_roles c))).

Definition redirects_ok : Prop :=
  environment = Production ->
  Forall (fun url => is_https_or_relative url = true)
    (omap id [oa_success_redirect_url (ac_oauth c); oa_mfa_redirect_url (ac_oauth c); oa_error_redirect_url (ac_oauth c)]) /\
  (oa_redirect_allowlist (ac_oauth c) <> [] ->
   Forall (fun url => host_allowlisted url (oa_redirect_allowlist (ac_oauth c)) = true) (allowlist_candidate_urls c)).

Definition oauth_ok : Prop :=
  (forall google, oa_google (ac_oauth c) = Some google -> google_ok environment google) /\
  (is_Some (oa_success_redirect_url (ac_oauth c)) -> ac_token_delivery c <> Bearer) /\ redirects_ok.

(** A prefixed name keeps the attributes its prefix promises the browser. *)
Definition prefix_kept (name path : string) : Prop :=
  (starts_with HOST_PREFIX name = true -> secure = true /\ path = "/" /\ ck_resolve_domains (ac_cookies c) = None) /\
  (starts_with SECURE_PREFIX name = true -> secure = true).

Record cookies_ok : Prop := {
  co_cross_site : ck_same_site (ac_cookies c) = SsNone -> secure = true /\ ck_trusted_origins (ac_cookies c) <> [];
  co_production : environment = Production -> ac_secure_cookies c <> Some false;
  co_origins : Forall (fun origin => is_bare_origin origin = true) (ck_trusted_origins (ac_cookies c));
  co_path : ac_route_prefix c <> "auth" -> ck_refresh_cookie_path (ac_cookies c) <> "/auth";
  co_access : prefix_kept (ck_access_token_name (ac_cookies c)) "/";
  co_refresh : prefix_kept (ck_refresh_token_name (ac_cookies c)) (ck_refresh_cookie_path (ac_cookies c));
  co_signal : prefix_kept (ck_session_signal_name (ac_cookies c)) "/";
}.

Record config_ok : Prop := {
  ok_binding : ac_enforce_tenant_binding c = true -> is_Some (ac_tenant_id_resolver c);
  ok_strong : Forall strong secrets /\ (forall key, ac_identifier_key c = Some key -> strong key);
  ok_fresh : NoDup secrets;
  ok_lifetimes : lifetimes_ok;
  ok_lockout : bc_window (ac_brute_force c) <> 0 /\ 1 <= bc_max_attempts (ac_brute_force c) <= 100;
  ok_roles : roles_ok;
  ok_password : password_ok (ac_password c);
  ok_mfa : forall mfa, ac_mfa c = Some mfa -> mfa_ok mfa;
  ok_mfa_toggle : ct_mfa (ac_controllers c) = true -> is_Some (ac_mfa c);
  ok_otp : 4 <= rs_otp_length (ac_password_reset c) <= 8;
  ok_oauth : oauth_ok;
  ok_cookies : cookies_ok;
}.
End config.

(** ** Each rule reads as its condition *)

Lemma negb_some {A} (o : option A) : negb (bool_decide (is_Some o)) = false <-> is_Some o.
Proof. rewrite negb_false_iff. apply bool_decide_eq_true. Qed.

Lemma check_secret_ok too_short low secret : check_secret too_short low secret = Ok tt <-> strong secret.
Proof. unfold check_secret, strong. rewrite then_ok, !refuse_if_ok, bool_decide_eq_false. by rewrite Z.nlt_ge. Qed.

Lemma check_retired_ok check (P : string -> Prop) (seen retired : list string) :
  (forall s, check s = Ok tt <-> P s) ->
  check_retired check seen retired = Ok tt <-> Forall P retired /\ NoDup retired /\ forall s, s ∈ retired -> s ∉ seen.
Proof.
  intros HP. revert seen. induction retired as [|s retired IH]; intros seen; cbn [check_retired].
  - split; [|done]. intros _. split_and!; [constructor | constructor | by intros s ?%elem_of_nil].
  - rewrite !then_ok, IH, HP, refuse_if_ok, bool_decide_eq_false, Forall_cons, NoDup_cons. setoid_rewrite elem_of_app.
    setoid_rewrite list_elem_of_singleton. setoid_rewrite elem_of_cons. naive_solver.
Qed.

Lemma retired_distinct (current : string) (retired : list string) :
  (NoDup retired /\ forall s, s ∈ retired -> s ∉ [current]) <-> NoDup (current :: retired).
Proof. rewrite NoDup_cons. setoid_rewrite list_elem_of_singleton. naive_solver. Qed.

Lemma validate_referential_ok (hierarchy : gmap string (list string)) :
  validate_referential hierarchy = Ok tt <-> closed_hierarchy hierarchy.
Proof.
  unfold validate_referential. rewrite for_each_ok, Forall_forall. setoid_rewrite for_each_ok.
  setoid_rewrite Forall_forall. setoid_rewrite refuse_if_ok. setoid_rewrite negb_some.
  setoid_rewrite merge_sort_Permutation. split.
  - intros Hall role included child Hr Hc. apply (Hall role); [|by rewrite Hr].
    apply list_elem_of_fmap. exists (role, included). split; [done|]. by apply elem_of_map_to_list.
  - intros Hcl role _ child Hc. destruct (hierarchy !! role) as [included|] eqn:Hr; [by eapply Hcl|].
    by apply elem_of_nil in Hc.
Qed.

Lemma validate_password_ok (password : PasswordConfig) : validate_password password = Ok tt <-> password_ok password.
Proof.
  unfold validate_password, password_ok. rewrite !then_ok, !refuse_if_ok, orb_false_iff, negb_false_iff, !bool_decide_eq_false.
  rewrite !Z.nlt_ge. tauto.
Qed.

Section rules.
Context {U : Type} (c : AuthConfig U) (environment : Environment).

Lemma check_secrets_ok :
  check_secrets c = Ok tt <->
  (Forall strong (jc_secret (ac_jwt c) :: jc_previous_secrets (ac_jwt c)) /\
   (forall key, ac_identifier_key c = Some key -> strong key)) /\
  NoDup (jc_secret (ac_jwt c) :: jc_previous_secrets (ac_jwt c)).
Proof.
  unfold check_secrets. rewrite !then_ok, check_secret_ok, (check_retired_ok _ strong) by (intros; apply check_secret_ok).
  rewrite <- retired_distinct, Forall_cons.
  assert (Hk : match ac_identifier_key c with
               | Some key => check_secret IdentifierKeyTooShort IdentifierKeyLowEntropy key | None => Ok tt end = Ok tt <->
               forall key, ac_identifier_key c = Some key -> strong key).
  { destruct (ac_identifier_key c) as [key|]; [rewrite check_secret_ok|]; naive_solver. }
  rewrite Hk. tauto.
Qed.

Lemma check_lifetimes_ok : check_refresh c = Ok tt /\ check_access_lifetime c = Ok tt <-> lifetimes_ok c.
Proof.
  unfold check_refresh, check_access_lifetime. rewrite !then_ok, !refuse_if_ok, !bool_decide_eq_false, Z.eqb_neq. split.
  - intros ((? & ? & ?) & ?). split; lia.
  - intros []. split_and!; lia.
Qed.

Lemma check_brute_force_ok :
  check_brute_force c = Ok tt <-> bc_window (ac_brute_force c) <> 0 /\ 1 <= bc_max_attempts (ac_brute_force c) <= 100.
Proof. unfold check_brute_force. by rewrite then_ok, !refuse_if_ok, negb_false_iff, bool_decide_eq_true, Z.eqb_neq. Qed.

Lemma check_roles_ok : check_roles c = Ok tt <-> roles_ok c.
Proof.
  unfold check_roles, roles_ok. rewrite !then_ok, !refuse_if_ok, bool_decide_eq_false, validate_referential_ok, andb_false_iff.
  rewrite negb_some, <- not_true_iff_false.
  destruct (rl_platform_hierarchy (ac_roles c)) as [h|]; [rewrite validate_referential_ok|]; naive_solver.
Qed.

Lemma check_mfa_ok :
  check_retired_mfa_keys c = Ok tt /\ check_mfa_key c = Ok tt /\ check_mfa_bounds c = Ok tt <->
  forall mfa, ac_mfa c = Some mfa -> mfa_ok mfa.
Proof.
  unfold check_retired_mfa_keys, check_mfa_key, check_mfa_bounds. destruct (ac_mfa c) as [mfa|]; [|by split].
  transitivity (mfa_ok mfa); [|naive_solver].
  rewrite (check_retired_ok _ (fun key => is_Some (decode_aes256_key key)))
    by (intros; by rewrite refuse_if_ok, negb_some).
  rewrite result_bind_ok, !then_ok, !refuse_if_ok. setoid_rewrite then_ok. setoid_rewrite refuse_if_ok.
  rewrite negb_false_iff, bool_decide_eq_true, bool_decide_eq_false, Z.nlt_ge.
  setoid_rewrite string_is_empty_false. setoid_rewrite negb_false_iff. setoid_rewrite bool_decide_eq_true.
  assert (Hkey : (exists decoded, ok_or MfaKeyInvalidBase64 (decode_base64_any (mc_encryption_key mfa)) = Ok decoded /\
                    String.length decoded = 32%nat /\ str_trim (mc_issuer mfa) <> "") <->
                 is_Some (decode_aes256_key (mc_encryption_key mfa)) /\ str_trim (mc_issuer mfa) <> "").
  { unfold decode_aes256_key. destruct (decode_base64_any _) as [decoded|]; cbn; [|naive_solver].
    case_bool_decide; naive_solver. }
  rewrite Hkey. unfold mfa_ok. rewrite Forall_cons, <- retired_distinct. naive_solver.
Qed.
Lemma production_if {A} (r : result ConfigError A) (a : A) :
  (if bool_decide (environment = Production) then r else Ok a) = Ok a <-> (environment = Production -> r = Ok a).
Proof. case_bool_decide; naive_solver. Qed.

Lemma implies_false (b1 b2 : bool) : b1 && negb b2 = false <-> (b1 = true -> b2 = true).
Proof. destruct b1, b2; naive_solver. Qed.

Lemma check_google_ok (google : GoogleOAuthConfig) : check_google environment google = Ok tt <-> google_ok environment google.
Proof.
  unfold check_google, google_ok. rewrite !then_ok, !refuse_if_ok, !string_is_empty_false, implies_false, bool_decide_eq_true.
  done.
Qed.

Lemma check_redirects_ok : check_redirects c = Ok tt <->
  (Forall (fun url => is_https_or_relative url = true)
     (omap id [oa_success_redirect_url (ac_oauth c); oa_mfa_redirect_url (ac_oauth c); oa_error_redirect_url (ac_oauth c)]) /\
   (oa_redirect_allowlist (ac_oauth c) <> [] ->
    Forall (fun url => host_allowlisted url (oa_redirect_allowlist (ac_oauth c)) = true) (allowlist_candidate_urls c))).
Proof.
  unfold check_redirects, redirect_urls. rewrite then_ok. apply Morphisms_Prop.and_iff_morphism.
  - destruct (oa_success_redirect_url _), (oa_mfa_redirect_url _), (oa_error_redirect_url _); cbn [for_each omap list_omap id];
      rewrite ?Forall_cons, ?Forall_nil, !then_ok, ?refuse_if_ok, ?negb_false_iff; tauto.
  - destruct (oa_redirect_allowlist (ac_oauth c)) as [|a l]; [naive_solver|]. rewrite for_each_ok. setoid_rewrite refuse_if_ok.
    setoid_rewrite negb_false_iff. naive_solver.
Qed.

Lemma validate_oauth_ok : validate_oauth c environment = Ok tt <-> oauth_ok environment c.
Proof.
  unfold validate_oauth, oauth_ok, redirects_ok. rewrite !then_ok, refuse_if_ok, production_if, check_redirects_ok.
  rewrite implies_false, bool_decide_eq_true, orb_true_iff, !bool_decide_eq_true.
  assert (Hg : match oa_google (ac_oauth c) with Some google => check_google environment google | None => Ok tt end = Ok tt <->
               forall google, oa_google (ac_oauth c) = Some google -> google_ok environment google).
  { destruct (oa_google (ac_oauth c)) as [g|]; [rewrite check_google_ok|]; naive_solver. }
  rewrite Hg. destruct (ac_token_delivery c); naive_solver.
Qed.

Lemma unmet_requirement_ok (name path : string) :
  unmet_requirement (ac_cookies c) (resolve_secure_cookies c environment) name path = None <-> prefix_kept environment c name path.
Proof.
  unfold unmet_requirement, prefix_kept.
  assert (Hx : starts_with HOST_PREFIX name = true -> starts_with SECURE_PREFIX name = false).
  { intros [rest ->]%starts_with_true. reflexivity. }
  destruct (starts_with HOST_PREFIX name); [rewrite Hx by done|]; destruct (resolve_secure_cookies c environment); cbn;
    [case_bool_decide; cbn; [destruct (ck_resolve_domains (ac_cookies c)); case_bool_decide|]|..];
    destruct (starts_with SECURE_PREFIX name); naive_solver.
Qed.

Lemma validate_trusted_origins_ok :
  validate_trusted_origins c = Ok tt <->
  (ck_same_site (ac_cookies c) = SsNone -> ck_trusted_origins (ac_cookies c) <> []) /\
  Forall (fun origin => is_bare_origin origin = true) (ck_trusted_origins (ac_cookies c)).
Proof.
  unfold validate_trusted_origins. rewrite then_ok, refuse_if_ok, for_each_ok, negb_involutive, <- not_true_iff_false, andb_true_iff.
  rewrite !bool_decide_eq_true. setoid_rewrite refuse_if_ok. setoid_rewrite negb_false_iff. naive_solver.
Qed.

Lemma validate_cookie_prefixes_ok :
  validate_cookie_prefixes (ac_cookies c) (resolve_secure_cookies c environment) = Ok tt <->
  prefix_kept environment c (ck_access_token_name (ac_cookies c)) "/" /\
  prefix_kept environment c (ck_refresh_token_name (ac_cookies c)) (ck_refresh_cookie_path (ac_cookies c)) /\
  prefix_kept environment c (ck_session_signal_name (ac_cookies c)) "/".
Proof.
  unfold validate_cookie_prefixes. rewrite for_each_ok, !Forall_cons, Forall_nil, <- !unmet_requirement_ok.
  repeat destruct (unmet_requirement _ _ _ _); naive_solver.
Qed.

Lemma check_cookies_ok :
  check_cookies c environment (resolve_secure_cookies c environment) = Ok tt <-> cookies_ok environment c.
Proof.
  unfold check_cookies. rewrite !then_ok, !refuse_if_ok, implies_false, validate_trusted_origins_ok, validate_cookie_prefixes_ok.
  rewrite <- !not_true_iff_false, !andb_true_iff, negb_true_iff, bool_decide_eq_false, !bool_decide_eq_true. split.
  - intros (? & ? & [? ?] & ? & ? & ? & ?). split; naive_solver.
  - intros []. split_and!; naive_solver.
Qed.
End rules.

(** The rules in sequence, each as its condition. *)
Definition rules_hold {U} (environment : Environment) (c : AuthConfig U) : Prop :=
  check_tenant_binding c = Ok tt /\ check_secrets c = Ok tt /\ (check_refresh c = Ok tt /\ check_access_lifetime c = Ok tt) /\
  check_brute_force c = Ok tt /\ (check_retired_mfa_keys c = Ok tt /\ check_mfa_key c = Ok tt /\ check_mfa_bounds c = Ok tt) /\
  check_roles c = Ok tt /\ validate_password (ac_password c) = Ok tt /\
  (ct_mfa (ac_controllers c) = true -> is_Some (ac_mfa c)) /\ 4 <= rs_otp_length (ac_password_reset c) <= 8 /\
  validate_oauth c environment = Ok tt /\ check_cookies c environment (resolve_secure_cookies c environment) = Ok tt.

Lemma validate_rules {U} (environment : Environment) (c : AuthConfig U) (secure : bool) :
  validate c environment = Ok secure <-> rules_hold environment c /\ secure = resolve_secure_cookies c environment.
Proof.
  unfold validate, rules_hold. rewrite !then_ok, !refuse_if_ok, implies_false, negb_false_iff, !bool_decide_eq_true. split.
  - intros (? & ? & ? & ? & ? & ? & ? & ? & ? & ? & ? & ? & ? & ? & [= <-]). tauto.
  - intros [(? & ? & [] & ? & (? & ? & ?) & ?) ->]. tauto.
Qed.

Lemma rules_config_ok {U} (environment : Environment) (c : AuthConfig U) : rules_hold environment c <-> config_ok environment c.
Proof.
  unfold rules_hold. rewrite check_secrets_ok, check_lifetimes_ok, check_brute_force_ok, check_mfa_ok, check_roles_ok,
    validate_password_ok, validate_oauth_ok, check_cookies_ok.
  unfold check_tenant_binding. rewrite refuse_if_ok, implies_false, bool_decide_eq_true. split.
  - intros (? & [[? ?] ?] & ? & ? & ? & ? & ? & ? & ? & ? & ?). by split.
  - intros []. tauto.
Qed.

(** C21. What validation accepts, as one condition.  A configuration passes the
    startup rules in an environment exactly when every secret is long and varied
    enough and no rotation list repeats one, the lifetimes are coherent, the
    lockout can engage, every role the hierarchies mention is declared, the
    hashing parameters meet their floors, the second factor's keys decode to 32
    bytes and its knobs are within bounds, the redirects and callbacks are safe
    in production, and the cookies keep what their names and policy promise; the
    answer is then the resolved value of the secure-cookie flag. *)
Theorem validate_accepts_iff {U} (environment : Environment) (c : AuthConfig U) (secure : bool) :
  validate c environment = Ok secure <-> config_ok environment c /\ secure = resolve_secure_cookies c environment.
Proof. by rewrite validate_rules, rules_config_ok. Qed.
End accepts.
