(* ===== verification/Builder.v ===== *)
(** * Assembling an engine

    Models [ResolvedConfig] of [crates/bymax-auth-core/src/config/validate.rs] and
    [crates/bymax-auth-core/src/engine/builder.rs]: the rules on the collaborators
    a deployment supplies, and the wiring of one validated configuration into
    every service.  The collaborators are the classes of the other files, so a
    builder records which of them were supplied. *)

From S2P Require Import Prelude Errors Types Crypto Jwt Redis RedisSession SessionSpec RedisRefine SessionStore Engine Repository Password Totp TokenManager TokenVerify AccessClaims Sessions AuthCore SessionOps MfaService MfaSound Platform OAuth Invitation UrlText Config Validate.

Import Settings.

(** ** The resolved configuration *)

Record ResolvedConfig (U : Type) : Type := {
  rv_config : Settings.AuthConfig U;
  rv_environment : Environment;
  rv_secure_cookies : bool;
  rv_hmac_key : string;
  rv_previous_hmac_keys : list string;
}.
Arguments rv_config {U} _.
Arguments rv_environment {U} _.
Arguments rv_secure_cookies {U} _.
Arguments rv_hmac_key {U} _.
Arguments rv_previous_hmac_keys {U} _.

Section resolved.
Context `{Crypto} {U : Type}.

Definition new_resolved (config : Settings.AuthConfig U) (environment : Environment) (secure_cookies : bool) : ResolvedConfig U := {|
  rv_config := config;
  rv_environment := environment;
  rv_secure_cookies := secure_cookies;
  rv_hmac_key := derive_hmac_key (default (jc_secret (ac_jwt config)) (ac_identifier_key config));
  rv_previous_hmac_keys := derive_hmac_key <$> jc_previous_secrets (ac_jwt config);
|}.

Context (rv : ResolvedConfig U).

Definition dashboard_role_satisfies (held_role required_role : string) : bool :=
  role_satisfies (rl_hierarchy (ac_roles (rv_config rv))) held_role required_role.

Definition platform_role_satisfies (held_role required_role : string) : bool :=
  match rl_platform_hierarchy (ac_roles (rv_config rv)) with
  | Some hierarchy => role_satisfies hierarchy held_role required_role
  | None => false
  end.

Section keys.
Context `{Base64, Base64Std, Base64Variants}.

Definition mfa_encryption_key : option string :=
  mfa ← ac_mfa (rv_config rv);
  decode_aes256_key (mc_encryption_key mfa).

Definition previous_mfa_encryption_keys : list string :=
  match ac_mfa (rv_config rv) with
  | Some mfa => omap decode_aes256_key (mc_previous_encryption_keys mfa)
  | None => []
  end.
End keys.
End resolved.

(** ** The builder *)

Inductive Collaborator : Set :=
| CoUserRepository | CoPlatformUserRepository | CoEmailProvider | CoBreachChecker | CoHooks | CoSessionStore | CoOtpStore
| CoBruteForceStore | CoRateLimitStore | CoUserStatusCache | CoWsTicketStore | CoPasswordResetStore | CoInvitationStore
| CoHttpClient | CoOAuthStateStore | CoMfaStore.

#[export] Instance Collaborator_eq_dec : EqDecision Collaborator.
Proof. solve_decision. Defined.

Record AuthEngineBuilder (U : Type) : Type := {
  ab_config : option (Settings.AuthConfig U);
  ab_environment : Environment;
  ab_supplied : list Collaborator;
  ab_oauth_providers : gmap string (OAuthProvider U);
}.
Arguments ab_config {U} _.
Arguments ab_environment {U} _.
Arguments ab_supplied {U} _.
Arguments ab_oauth_providers {U} _.

Section setters.
Context {U : Type}.

Definition new_builder : AuthEngineBuilder U :=
  {| ab_config := None; ab_environment := Production; ab_supplied := []; ab_oauth_providers := ∅ |}.

Definition set_config (config : Settings.AuthConfig U) (b : AuthEngineBuilder U) : AuthEngineBuilder U :=
  {| ab_config := Some config; ab_environment := ab_environment b; ab_supplied := ab_supplied b;
     ab_oauth_providers := ab_oauth_providers b |}.

Definition set_environment (environment : Environment) (b : AuthEngineBuilder U) : AuthEngineBuilder U :=
  {| ab_config := ab_config b; ab_environment := environment; ab_supplied := ab_supplied b;
     ab_oauth_providers := ab_oauth_providers b |}.

(** The setter of each collaborator. *)
Definition supply (co : Collaborator) (b : AuthEngineBuilder U) : AuthEngineBuilder U :=
  {| ab_config := ab_config b; ab_environment := ab_environment b; ab_supplied := co :: ab_supplied b;
     ab_oauth_providers := ab_oauth_providers b |}.

(** One backend behind every store trait, in the build with the MFA store. *)
Definition redis_stores (b : AuthEngineBuilder U) : AuthEngineBuilder U :=
  foldr supply b [CoMfaStore; CoInvitationStore; CoPasswordResetStore; CoWsTicketStore; CoUserStatusCache; CoRateLimitStore;
                  CoBruteForceStore; CoOtpStore; CoSessionStore].

Definition oauth_provider (provider : OAuthProvider U) (b : AuthEngineBuilder U) : AuthEngineBuilder U :=
  {| ab_config := ab_config b; ab_environment := ab_environment b; ab_supplied := ab_supplied b;
     ab_oauth_providers := <[pv_name provider := provider]> (ab_oauth_providers b) |}.

Definition oauth_providers (providers : list (OAuthProvider U)) (b : AuthEngineBuilder U) : AuthEngineBuilder U :=
  foldl (fun b provider => oauth_provider provider b) b providers.

Definition supplied (co : Collaborator) (b : AuthEngineBuilder U) : bool := bool_decide (co ∈ ab_supplied b).
End setters.

(** ** Wiring *)

(** The engine: its resolved configuration, the services, and the collaborators a
    flow asks for by presence. *)
Record BuiltEngine (U : Type) : Type := {
  be_config : ResolvedConfig U;
  be_engine : AuthEngine U;
  be_otp_key : string;
  be_oauth : OAuth.OAuthConfig U;
  be_invitations : Invitation.InvitationConfig;
  be_mfa : option MfaService;
  be_platform_repository : bool;
  be_platform_auth : option PlatformAuthService;
  be_rate_limit_store : bool;
  be_ws_ticket_store : bool;
  be_oauth_warning : bool;
}.
Arguments be_config {U} _.
Arguments be_engine {U} _.
Arguments be_otp_key {U} _.
Arguments be_oauth {U} _.
Arguments be_invitations {U} _.
Arguments be_mfa {U} _.
Arguments be_platform_repository {U} _.
Arguments be_platform_auth {U} _.
Arguments be_rate_limit_store {U} _.
Arguments be_ws_ticket_store {U} _.
Arguments be_oauth_warning {U} _.

Definition oauth_enabled_without_custom_hook (oauth_enabled hooks_supplied : bool) : bool := oauth_enabled && negb hooks_supplied.

Definition promoted (toggles : ControllerToggles) (sessions platform invitations : bool) : ControllerToggles := {|
  ct_auth := ct_auth toggles; ct_password_reset := ct_password_reset toggles; ct_mfa := ct_mfa toggles;
  ct_sessions := sessions || ct_sessions toggles; ct_platform := platform || ct_platform toggles;
  ct_oauth := ct_oauth toggles; ct_invitations := invitations || ct_invitations toggles;
  ct_email_change := ct_email_change toggles |}.

(** The router toggles of enabled features are switched on. *)
Definition auto_promote {U} (c : Settings.AuthConfig U) : Settings.AuthConfig U := {|
  ac_jwt := ac_jwt c; ac_identifier_key := ac_identifier_key c; ac_roles := ac_roles c; ac_password := ac_password c;
  ac_token_delivery := ac_token_delivery c; ac_secure_cookies := ac_secure_cookies c; ac_cookies := ac_cookies c;
  ac_mfa := ac_mfa c; ac_sessions := ac_sessions c; ac_brute_force := ac_brute_force c;
  ac_password_reset := ac_password_reset c; ac_email_verification := ac_email_verification c;
  ac_platform := ac_platform c; ac_invitations := ac_invitations c; ac_email_change := ac_email_change c;
  ac_oauth := ac_oauth c; ac_route_prefix := ac_route_prefix c; ac_redis_namespace := ac_redis_namespace c;
  ac_blocked_statuses := ac_blocked_statuses c; ac_user_status_cache_ttl := ac_user_status_cache_ttl c;
  ac_controllers := promoted (ac_controllers c) (sn_enabled (ac_sessions c)) (pl_enabled (ac_platform c))
                      (in_enabled (ac_invitations c));
  ac_tenant_id_resolver := ac_tenant_id_resolver c; ac_enforce_tenant_binding := ac_enforce_tenant_binding c |}.

Section build.
Context `{EntropyPlatform, Crypto, Base64, Base64Std, Base64Variants, UnicodeText, PasswordHashLib} {U : Type}.

(** The settings the flows read off the resolved configuration. *)
Definition flow_settings (rv : ResolvedConfig U) : AuthCore.AuthConfig U := {|
  cf_hmac_key := rv_hmac_key rv;
  cf_blocked_statuses := ac_blocked_statuses (rv_config rv);
  cf_verification_required := ev_required (ac_email_verification (rv_config rv));
  cf_verification_otp_ttl := ev_otp_ttl (ac_email_verification (rv_config rv));
  cf_tenant_id_resolver := ac_tenant_id_resolver (rv_config rv);
  cf_enforce_tenant_binding := ac_enforce_tenant_binding (rv_config rv);
  cf_sessions_enabled := sn_enabled (ac_sessions (rv_config rv));
  cf_reset_method := rs_method (ac_password_reset (rv_config rv));
  cf_reset_otp_length := Z.to_nat (rs_otp_length (ac_password_reset (rv_config rv)));
  cf_reset_otp_ttl := rs_otp_ttl (ac_password_reset (rv_config rv));
  cf_reset_token_ttl := rs_token_ttl (ac_password_reset (rv_config rv));
  cf_email_change_token_ttl := ec_token_ttl (ac_email_change (rv_config rv));
  cf_user_status_cache_ttl := ac_user_status_cache_ttl (rv_config rv);
|}.

(** An empty issuer or audience reads as unconfigured. *)
Definition nonempty (value : option string) : option string :=
  match value with Some s => if string_is_empty s then None else Some s | None => None end.

Definition build_tokens (rv : ResolvedConfig U) (mfa_store : bool) : TokenManagerService :=
  let jwt := ac_jwt (rv_config rv) in
  let tokens := TokenManager.with_binding {| tb_issuer := nonempty (jc_issuer jwt); tb_audience := nonempty (jc_audience jwt) |}
    (TokenManager.new (jc_secret jwt) (jc_previous_secrets jwt)
       {| tl_access_ttl := jc_access_expires_in jwt; tl_refresh_expires_in_days := jc_refresh_expires_in_days jwt;
          tl_grace_window := jc_refresh_grace_window jwt;
          tl_absolute_session_lifetime_days := jc_absolute_session_lifetime_days jwt |}
       (rv_hmac_key rv)) in
  if mfa_store then with_mfa_support tokens else tokens.

Definition build_sessions (rv : ResolvedConfig U) : SessionServiceCfg := {|
  ss_config := {| sc_default_max_sessions := sn_default_max_sessions (ac_sessions (rv_config rv));
                  sc_max_sessions_resolver := sn_max_sessions_resolver (ac_sessions (rv_config rv)) |};
  ss_refresh_ttl_secs := jc_refresh_expires_in_days (ac_jwt (rv_config rv)) * 86400;
  ss_identifier_key := rv_hmac_key rv;
|}.

Definition build_mfa_service (rv : ResolvedConfig U) (mfa_store platform_repository : bool) (tokens : TokenManagerService)
    (sessions : SessionServiceCfg) (brute_force : BruteForceService) (passwords : PasswordService) : option MfaService :=
  mfa_config ← ac_mfa (rv_config rv);
  if negb mfa_store then None else
  encryption_key ← mfa_encryption_key rv;
  Some {|
    ms_platform_repo := platform_repository;
    ms_tokens := tokens;
    ms_sessions := sessions;
    ms_brute_force := brute_force;
    ms_passwords := passwords;
    ms_encryption_key := encryption_key;
    ms_previous_encryption_keys := previous_mfa_encryption_keys rv;
    ms_identifier_key := rv_hmac_key rv;
    ms_previous_identifier_keys := rv_previous_hmac_keys rv;
    ms_issuer := mc_issuer mfa_config;
    ms_totp_window := mc_totp_window mfa_config;
    ms_recovery_code_count := Z.to_nat (mc_recovery_code_count mfa_config);
    ms_sessions_enabled := sn_enabled (ac_sessions (rv_config rv));
    ms_blocked_statuses := ac_blocked_statuses (rv_config rv);
  |}.

Definition build_platform_auth (rv : ResolvedConfig U) (platform_repository : bool) (tokens : TokenManagerService)
    (passwords : PasswordService) (brute_force : BruteForceService) (mfa_enabled_for_build : bool) : option PlatformAuthService :=
  if pl_enabled (ac_platform (rv_config rv)) && platform_repository then
    Some {|
      pa_tokens := tokens;
      pa_passwords := passwords;
      pa_brute_force := brute_force;
      pa_identifier_key := rv_hmac_key rv;
      pa_mfa_enabled_for_build := mfa_enabled_for_build;
      pa_blocked_statuses := ac_blocked_statuses (rv_config rv);
    |}
  else None.

(** The collaborators the configuration needs are all there. *)
Definition check_collaborators (b : AuthEngineBuilder U) (config : Settings.AuthConfig U) : result ConfigError unit :=
  _ ← refuse_if (negb (supplied CoUserRepository b)) MissingUserRepository;
  _ ← refuse_if (negb (supplied CoSessionStore b && supplied CoOtpStore b && supplied CoBruteForceStore b)) MissingStores;
  _ ← refuse_if (pl_enabled (ac_platform config) && negb (supplied CoPlatformUserRepository b)) MissingPlatformRepository;
  _ ← refuse_if (ct_oauth (ac_controllers config) && bool_decide (ab_oauth_providers b = ∅)) OAuthToggleWithoutProvider;
  _ ← refuse_if (ct_oauth (ac_controllers config) && negb (supplied CoOAuthStateStore b)) OAuthStateStoreMissing;
  refuse_if (in_enabled (ac_invitations config) && negb (supplied CoInvitationStore b)) MissingInvitationStore.

Definition password_error (error : PasswordConfigError) : ConfigError :=
  match error with
  | Password.PasswordMinLengthRange got => Config.PasswordMinLengthRange got
  | Password.SentinelHashFailed => Config.SentinelHashFailed
  end.

Definition assemble (b : AuthEngineBuilder U) (rv : ResolvedConfig U) (passwords : PasswordService) : BuiltEngine U :=
  let config := rv_config rv in
  let tokens := build_tokens rv (supplied CoMfaStore b) in
  let brute_force := {| bf_max_attempts := bc_max_attempts (ac_brute_force config); bf_window_secs := bc_window (ac_brute_force config) |} in
  let sessions := build_sessions rv in
  let platform_repository := supplied CoPlatformUserRepository b in
  let mfa := build_mfa_service rv (supplied CoMfaStore b) platform_repository tokens sessions brute_force passwords in
  {| be_config := rv;
     be_engine := {| en_config := flow_settings rv; en_tokens := tokens; en_sessions := sessions; en_brute_force := brute_force;
                     en_passwords := passwords; en_password_reset_store := supplied CoPasswordResetStore b;
                     en_user_status_cache := supplied CoUserStatusCache b |};
     be_otp_key := rv_hmac_key rv;
     be_oauth := {| oc_providers := ab_oauth_providers b; oc_state_store := supplied CoOAuthStateStore b;
                    oc_success_redirect_url := oa_success_redirect_url (ac_oauth config);
                    oc_mfa_redirect_url := oa_mfa_redirect_url (ac_oauth config);
                    oc_error_redirect_url := oa_error_redirect_url (ac_oauth config) |};
     be_invitations := {| ic_store := supplied CoInvitationStore b; ic_hierarchy := rl_hierarchy (ac_roles config);
                          ic_token_ttl := in_token_ttl (ac_invitations config) |};
     be_mfa := mfa;
     be_platform_repository := platform_repository;
     be_platform_auth := build_platform_auth rv platform_repository tokens passwords brute_force (bool_decide (is_Some mfa));
     be_rate_limit_store := supplied CoRateLimitStore b;
     be_ws_ticket_store := supplied CoWsTicketStore b;
     be_oauth_warning := oauth_enabled_without_custom_hook (ct_oauth (ac_controllers config)) (supplied CoHooks b) |}.

(** [build]; [salt] is the draw the sentinel hash is salted with. *)
Definition build (salt : nat) (b : AuthEngineBuilder U) : result ConfigError (BuiltEngine U) :=
  let config := auto_promote (default nest_compat_defaults (ab_config b)) in
  secure_cookies ← validate config (ab_environment b);
  _ ← check_collaborators b config;
  passwords ← map_err password_error (new_password_service salt (ac_password config));
  Ok (assemble b (new_resolved config (ab_environment b) secure_cookies) passwords).

End build.

(** * What a built engine satisfies

    The premises the theorems on the flows ask of an engine (one identifier key
    behind every service, coherent lifetimes, a lockout that can engage) hold of
    every engine [build] answers. *)

Import Settings.

(** The widths of the fields the wiring multiplies: [u32] days and a [u64] window. *)
Definition machine_sized {U} (c : Settings.AuthConfig U) : Prop :=
  0 <= jc_refresh_expires_in_days (ac_jwt c) < 2 ^ 32 /\ 0 <= bc_window (ac_brute_force c).

Section fit.
Context `{Crypto} {U : Type}.

Record fit (be : BuiltEngine U) : Prop := {
  fit_one_key : one_key (be_engine be);
  fit_sessions_key : ss_identifier_key (en_sessions (be_engine be)) = cf_hmac_key (en_config (be_engine be));
  fit_otp_key : be_otp_key be = cf_hmac_key (en_config (be_engine be));
  fit_refresh : 0 < tm_refresh_ttl_secs (en_tokens (be_engine be)) <= i64_max;
  fit_grace : tm_grace_ttl_secs (en_tokens (be_engine be)) < tm_refresh_ttl_secs (en_tokens (be_engine be)) /\
              tm_grace_ttl_secs (en_tokens (be_engine be)) <= MAX_REFRESH_GRACE_WINDOW_SECS;
  fit_access : tm_access_ttl (en_tokens (be_engine be)) <= TOKEN_EPOCH_RETENTION_SECS;
  fit_lockout : 0 < bf_window_secs (en_brute_force (be_engine be)) /\ 1 <= bf_max_attempts (en_brute_force (be_engine be)) <= 100;
  fit_min_length : 8 <= ps_min_length (en_passwords (be_engine be)) <= 128;
  fit_otp_length : (4 <= cf_reset_otp_length (en_config (be_engine be)) <= 8)%nat;
  fit_binding : cf_enforce_tenant_binding (en_config (be_engine be)) = true ->
                is_Some (cf_tenant_id_resolver (en_config (be_engine be)));
  fit_hierarchy : ic_hierarchy (be_invitations be) <> ∅ /\ closed_hierarchy (ic_hierarchy (be_invitations be));
}.

(** The second factor: the keys of the engine it is wired into, of the right
    size, and bounded knobs. *)
Record mfa_fit (en : AuthEngine U) (ms : MfaService) : Prop := {
  mf_one_key : mfa_one_key ms;
  mf_tokens : ms_tokens ms = en_tokens en /\ tm_mfa (en_tokens en) = true;
  mf_keys : Forall (fun key => String.length key = 32%nat) (ms_encryption_key ms :: ms_previous_encryption_keys ms);
  mf_window : ms_totp_window ms <= MAX_VERIFY_WINDOW;
  mf_codes : (1 <= ms_recovery_code_count ms <= 50)%nat;
}.

Definition platform_fit (en : AuthEngine U) (pa : PlatformAuthService) : Prop :=
  pa_tokens pa = en_tokens en /\ pa_identifier_key pa = tm_identifier_key (en_tokens en) /\
  pa_brute_force pa = en_brute_force en /\ pa_blocked_statuses pa = cf_blocked_statuses (en_config en).
End fit.

Section claims.
Context `{EntropyPlatform, Crypto, Base64, Base64Std, Base64Variants, UnicodeText, PasswordHashLib} {U : Type}.
Context (b : AuthEngineBuilder U).

Abbreviation config := (auto_promote (default nest_compat_defaults (ab_config b))).

(** What a successful build went through. *)
Lemma build_ok (salt : nat) (be : BuiltEngine U) :
  build salt b = Ok be ->
  exists passwords, config_ok (ab_environment b) config /\ new_password_service salt (ac_password config) = Ok passwords /\
    be = assemble b (new_resolved config (ab_environment b) (resolve_secure_cookies config (ab_environment b))) passwords.
Proof.
  unfold build. cbv zeta. rewrite result_bind_ok. intros (secure & [Hok%rules_config_ok ->]%validate_rules & Hk).
  apply then_ok in Hk as [_ Hk]. apply result_bind_ok in Hk as (passwords & Hp & [= <-]).
  exists passwords. split_and!; [done | | done]. by destruct (new_password_service _ _); [injection Hp as ->|].
Qed.

Lemma password_service_length (salt : nat) (c : PasswordConfig) (ps : PasswordService) :
  new_password_service salt c = Ok ps -> 8 <= ps_min_length ps <= 128.
Proof.
  unfold new_password_service. case_bool_decide as Hr; [|done]. cbn [negb]. destruct (pw_hash _ _ _); [|done].
  intros [= <-]. exact Hr.
Qed.

Lemma build_tokens_fields (rv : ResolvedConfig U) (mfa_store : bool) :
  let tokens := build_tokens rv mfa_store in
  let jwt := ac_jwt (rv_config rv) in
  tm_identifier_key tokens = rv_hmac_key rv /\ tm_mfa tokens = mfa_store /\ tm_access_ttl tokens = jc_access_expires_in jwt /\
  tm_refresh_ttl_secs tokens = jc_refresh_expires_in_days jwt * 86400 /\ tm_grace_ttl_secs tokens = jc_refresh_grace_window jwt.
Proof. unfold build_tokens. by destruct mfa_store. Qed.

Lemma decoded_key_length (encoded key : string) : decode_aes256_key encoded = Some key -> String.length key = 32%nat.
Proof. unfold decode_aes256_key. destruct (decode_base64_any encoded) as [k|]; cbn; [|done]. case_bool_decide; naive_solver. Qed.

Lemma assembled_fit (rv : ResolvedConfig U) (passwords : PasswordService) :
  machine_sized (rv_config rv) -> config_ok (rv_environment rv) (rv_config rv) -> 8 <= ps_min_length passwords <= 128 ->
  fit (assemble b rv passwords).
Proof.
  intros [Hd Hw] [Hb _ _ [Hr Hg Hgc Ha] [Hwin Hmax] (Hne & Hcl & _) _ _ _ Ho _ _] Hlen.
  destruct (build_tokens_fields rv (supplied CoMfaStore b)) as (Hk & _ & Hacc & Href & Hgr).
  split; unfold assemble, one_key, flow_settings, build_sessions; cbn; try done;
    rewrite ?Hk, ?Hacc, ?Href, ?Hgr; try done; unfold i64_max; lia.
Qed.

Lemma assembled_mfa_fit (rv : ResolvedConfig U) (passwords : PasswordService) (ms : MfaService) :
  config_ok (rv_environment rv) (rv_config rv) -> be_mfa (assemble b rv passwords) = Some ms ->
  mfa_fit (be_engine (assemble b rv passwords)) ms.
Proof.
  intros Hok. cbn. unfold build_mfa_service. destruct (ac_mfa (rv_config rv)) as [mfa|] eqn:Hm; [|done]. cbn.
  destruct (supplied CoMfaStore b) eqn:Hs; [|done]. cbn [negb].
  unfold mfa_encryption_key. rewrite Hm. cbn. destruct (decode_aes256_key (mc_encryption_key mfa)) as [key|] eqn:Hkey; [|done].
  cbn. intros [= <-]. destruct (ok_mfa _ _ Hok mfa Hm) as (_ & _ & _ & Hwin & Hc).
  split; cbn; try done; [|lia]. constructor; [by eapply decoded_key_length|]. unfold previous_mfa_encryption_keys. rewrite Hm.
  apply list.Forall_forall. intros k (e & _ & He)%list_elem_of_omap. by eapply decoded_key_length.
Qed.

Lemma assembled_platform_fit (rv : ResolvedConfig U) (passwords : PasswordService) (pa : PlatformAuthService) :
  be_platform_auth (assemble b rv passwords) = Some pa -> platform_fit (be_engine (assemble b rv passwords)) pa.
Proof.
  cbn. unfold build_platform_auth. case_match; [|done]. intros [= <-]. unfold platform_fit. cbn.
  by destruct (build_tokens_fields rv (supplied CoMfaStore b)) as (-> & _).
Qed.

(** C20. Every engine the builder answers has what the theorems on the flows ask of
    one.  One derived key names the accounts in every service (tokens, sessions,
    codes, lockout, second factor, administration), so a revocation by one
    reaches the sessions the others filed; the refresh lifetime is positive and
    longer than the grace window, which is at most five minutes; an access token
    lives no longer than the epoch that revokes it is kept; the lockout counts in
    a real window with a ceiling between 1 and 100; codes have 4 to 8 digits; the
    role hierarchy is closed; the second factor is wired to the same token
    manager, its keys have 32 bytes and its knobs are within bounds; and
    administration shares the engine's token manager, lockout and blocked
    statuses. *)
Theorem built_engine_fit (salt : nat) (be : BuiltEngine U) :
  machine_sized config -> build salt b = Ok be ->
  fit be /\ (forall ms, be_mfa be = Some ms -> mfa_fit (be_engine be) ms) /\
  (forall pa, be_platform_auth be = Some pa -> platform_fit (be_engine be) pa).
Proof.
  intros Hm (passwords & Hok & Hp & ->)%build_ok. split_and!.
  - apply assembled_fit; [done | done |]. by eapply password_service_length.
  - intros ms. by apply assembled_mfa_fit.
  - intros pa. apply assembled_platform_fit.
Qed.

(** A production deployment with an allowlist redirects nowhere else.  Of every
    engine built for production with a redirect allowlist, each configured target
    of the callback (success, second factor, error) is an [https] URL whose host,
    as the authority names it, is on the list, or a path of the same origin; and
    so is the provider callback itself. *)
Theorem built_redirects_stay (salt : nat) (be : BuiltEngine U) (url : string) :
  build salt b = Ok be -> ab_environment b = Production -> oa_redirect_allowlist (ac_oauth config) <> [] ->
  Some url ∈ [oc_success_redirect_url (be_oauth be); oc_mfa_redirect_url (be_oauth be); oc_error_redirect_url (be_oauth be);
              go_callback_url <$> oa_google (ac_oauth config)] ->
  redirect_stays (oa_redirect_allowlist (ac_oauth config)) url.
Proof.
  intros (passwords & Hok & _ & ->)%build_ok Henv Hne Hin. destruct (ok_oauth _ _ Hok) as (Hg & _ & Hr).
  destruct (Hr Henv) as [Hsafe Hlist]. specialize (Hlist Hne). rewrite list.Forall_forall in Hsafe, Hlist.
  unfold allowlist_candidate_urls in Hlist. cbn [be_oauth assemble oc_success_redirect_url oc_mfa_redirect_url
    oc_error_redirect_url new_resolved rv_config] in Hin. set (o := ac_oauth config) in *.
  assert (Hcase : url ∈ omap id [oa_success_redirect_url o; oa_mfa_redirect_url o; oa_error_redirect_url o] \/
                  exists g, oa_google o = Some g /\ url = go_callback_url g).
  { rewrite !elem_of_cons, elem_of_nil in Hin. rewrite list_elem_of_omap. setoid_rewrite elem_of_cons. 
    destruct Hin as [->|[->|[->|[Heq|[]]]]]; [left; eexists; split; [|reflexivity]; set_solver.. |].
    right. destruct (oa_google o) as [g|]; [|done]. injection Heq as ->. eauto. }
  destruct Hcase as [Hu|(g & Hgo & ->)].
  - apply allowlisted_redirect; [by apply Hsafe|]. apply Hlist, elem_of_app. by left.
  - destruct (Hg g Hgo) as (_ & _ & _ & Hs). apply allowlisted_redirect; [unfold is_https_or_relative; by rewrite Hs|].
    apply Hlist, elem_of_app. right. rewrite Hgo. apply elem_of_cons. by left.
Qed.
End claims.

(** C9. Revoking reaches every access token already issued, for as long as it
    lives.  For an engine the builder answered over Redis: once [bump_epoch] has
    answered for an account, an access token of that account issued until then,
    stamped with an epoch no newer than the one in force and with the lifetime
    the engine gives, is refused as revoked at every later moment up to its own
    expiry, whichever of the configured keys it verifies under.  Without the
    configuration's ceiling on that lifetime the epoch could lapse first. *)
Theorem revocation_outlives_token
    `{EntropyPlatform, Crypto, Host, Base64, Base64Std, Base64Variants, UnicodeText, PasswordHashLib, HeaderJson, SessionJsonLaws}
    `{ClaimsJson DashboardClaims, ClaimsJson PlatformClaims, ClaimsJson MfaTempClaims}
    {U : Type} (b : AuthEngineBuilder U) (salt : nat) (be : BuiltEngine U) (ns : string) (subject : string) (r r1 : Redis)
    (n ms : Z) (token : string) (claims : DashboardClaims) (w : World Redis U) :
  let tm := en_tokens (be_engine be) in
  build salt b = Ok be ->
  wf ns r -> r_pool r = [] -> a_current_epoch SkDashboard subject (abs ns r) < i64_max ->
  served (bump_epoch_inner ns SkDashboard subject) r = (Ok n, r1) ->
  0 <= dc_iat claims -> dc_iat claims * 1000 <= r_now r -> dc_exp claims = access_expiry tm (dc_iat claims) ->
  0 <= ms -> r_now r + ms <= dc_exp claims * 1000 -> w_store w = advance ms r1 ->
  rotating_claims tm token w = Ok claims ->
  subject_hash tm SkDashboard (Some (dc_tenant_id claims)) (dc_sub claims) = subject ->
  dc_epoch claims <= a_current_epoch SkDashboard subject (abs ns r) ->
  (@verify_access _ _ _ _ _ Redis U (redis_session_store ns) tm token w).1 = Err TokenRevoked.
Proof.
  intros tm Hb Hwf Hp Hmax Hbump Hiat Hnow Hexp Hms Hlt Hst Hcl Hsub Hep.
  assert (Hacc : tm_access_ttl tm <= TOKEN_EPOCH_RETENTION_SECS).
  { apply build_ok in Hb as (passwords & Hok & _ & ->).
    pose proof (lo_access _ (ok_lifetimes _ _ Hok)) as Ha. unfold tm. cbn [assemble be_engine en_tokens].
    by destruct (build_tokens_fields (new_resolved (auto_promote (default nest_compat_defaults (ab_config b))) (ab_environment b)
      (resolve_secure_cookies (auto_promote (default nest_compat_defaults (ab_config b))) (ab_environment b)))
      (supplied CoMfaStore b)) as (_ & _ & -> & _). }
  eapply (bumped_epoch_ends_access ns tm subject r r1 n ms); try done. split; [done|].
  rewrite Hexp in Hlt. revert Hlt. unfold access_expiry, sat_add, u64_to_i64_sat, i64_min, i64_max, TOKEN_EPOCH_RETENTION_SECS in *. lia.
Qed.
