(* ===== verification/Facade.v ===== *)
(** * The surface an adapter calls

    Models [crates/bymax-auth-core/src/services/adapter_api.rs], [verifier.rs] and
    [rate_limit.rs]: verifying an access token end to end on either plane, the
    session list and its revocations, WebSocket tickets, the shared request
    counter, and the calls that reach an optional service. *)

From S2P Require Import Prelude Errors Types Crypto Jwt Redis RedisSession SessionSpec RedisRefine SessionStore RedisStores MfaStore Engine Repository Password Totp SideStores TokenManager TokenVerify Sessions AuthCore Login MfaService Platform OAuth Invitation Config Validate Builder.

(** ** Two more stores *)

(** [mint] draws the ticket itself: the draw is its first argument. *)
Class WsTicketStore (S : Type) : Type := {
  wt_mint : nat -> WsTicketSnapshot -> Z -> M S AuthError string;
  wt_redeem : string -> M S AuthError (option WsTicketSnapshot);
}.

Class RateLimitStore (S : Type) : Type := {
  rl_hit : string -> string -> Z -> M S AuthError Z;
}.

#[export] Instance redis_ws_ticket_store `{Crypto, Host, Json WsTicketSnapshot} (ns : string) : WsTicketStore Redis := {|
  wt_mint draw snapshot ttl_secs := served (mint_inner ns draw snapshot ttl_secs);
  wt_redeem ticket := served (redeem_inner ns ticket);
|}.

#[export] Instance redis_rate_limit_store (ns : string) : RateLimitStore Redis := {| rl_hit := hit ns |}.

(** ** Pure parts *)

Record IssuedWsTicket : Set := { it_ticket : string; it_expires_in : Z }.

Definition WS_TICKET_TTL_SECONDS : Z := 30.

(** A ticket lives half a minute at most, and ends before its token does. *)
Definition ticket_ttl (exp now : Z) : option Z :=
  let remaining := Z.max 0 (sat_sub exp now) in
  let ttl := Z.min WS_TICKET_TTL_SECONDS (Z.max 0 (remaining - 1)) in
  if bool_decide (0 < ttl) then Some ttl else None.

Definition current_session_hash `{Crypto} (raw_refresh : option string) : option string :=
  raw ← raw_refresh;
  if negb (is_refresh_token_shape raw) then None else Some (redis_hash raw).

Definition mfa_result_dashboard (result : LoginResultMfa) : option AuthResult :=
  match result with LrDashboard auth => Some auth | LrPlatform _ => None end.

Definition mfa_result_platform (result : LoginResultMfa) : option PlatformAuthResult :=
  match result with LrPlatform auth => Some auth | LrDashboard _ => None end.

Inductive AuthPlane : Set := PlaneDashboard | PlanePlatform.

Record VerifyAccessOptions : Type := {
  vo_plane : AuthPlane;
  vo_require_mfa : bool;
  vo_check_status : bool;
  vo_request : option RequestContext;
}.

Definition new_options (plane : AuthPlane) : VerifyAccessOptions :=
  {| vo_plane := plane; vo_require_mfa := true; vo_check_status := true; vo_request := None |}.

Inductive VerifiedAccessToken : Set := VtDashboard (claims : DashboardClaims) | VtPlatform (claims : PlatformClaims).

Definition MAX_SUBJECT_LEN : Z := 256.

Definition is_ascii_hexdigit (c : ascii) : bool :=
  is_ascii_digit c || bool_decide (65 <= byte_z c <= 70) || bool_decide (97 <= byte_z c <= 102).

Definition first_byte_is (f : ascii -> bool) (s : string) : bool := match s with String c _ => f c | EmptyString => false end.

Definition is_variant (c : ascii) : bool :=
  let c := ascii_lower c in
  bool_decide (c = "8"%char) || bool_decide (c = "9"%char) || bool_decide (c = "a"%char) || bool_decide (c = "b"%char).

Definition is_uuid_v4 (value : string) : bool :=
  let groups := split_on "-" value in
  Nat.eqb (length groups) 5
  && forallb (fun '(g, len) => Nat.eqb (String.length g) len && string_all is_ascii_hexdigit g) (zip groups [8; 4; 4; 4; 12]%nat)
  && starts_with "4" (default "" (groups !! 2%nat))
  && first_byte_is is_variant (default "" (groups !! 3%nat)).

Definition is_bounded_id (value : string) : bool := negb (string_is_empty value) && bool_decide (chars_count value <= MAX_SUBJECT_LEN).

Definition dashboard_shape_ok (claims : DashboardClaims) : bool :=
  is_uuid_v4 (dc_jti claims) && is_bounded_id (dc_sub claims) && is_bounded_id (dc_tenant_id claims).

Definition collapse (error : AuthError) : AuthError :=
  match error with TokenExpired | TokenRevoked => TokenInvalid | other => other end.

Section facade.
Context `{Crypto, Host, Base64, HeaderJson, UnicodeText}.
Context `{ClaimsJson DashboardClaims, ClaimsJson PlatformClaims, ClaimsJson MfaTempClaims}.
Context {S U : Type} `{SessionStore S, UserStatusCacheStore S, WsTicketStore S, RateLimitStore S}.
Context `{UserRepository U, PlatformUserRepository U}.
Context (be : BuiltEngine U).

Abbreviation Eng := (E S U).
Abbreviation en := (be_engine be).
Abbreviation tm := (en_tokens (be_engine be)).

(** [result.map_err(f)] on an awaited call. *)
Definition map_error {A} (f : AuthError -> AuthError) (m : Eng A) : Eng A :=
  r ← attempt m; lift (map_err f r).

(** ** Verification *)

Definition verify_access_token (token : string) : Eng DashboardClaims := TokenManager.verify_access tm token.
Definition verify_platform_token (token : string) : Eng PlatformClaims := verify_platform_access tm token.

Definition assert_user_active (sub tenant_id : string) : Eng unit := assert_account_usable en sub tenant_id false.
Definition assert_user_active_and_verified (sub tenant_id : string) : Eng unit := assert_account_usable en sub tenant_id true.

Definition assert_platform_active (admin_id : string) : Eng unit :=
  if negb (be_platform_repository be) then throw TokenInvalid else
  found ← from_users map_repository_error (admin_find_by_id admin_id);
  admin ← lift (ok_or TokenInvalid found);
  lift (assert_not_blocked (ap_status admin) (cf_blocked_statuses (en_config en))).

(** Without a request the binding is waived (the code logs that once). *)
Definition bind_to_request (tenant_id : string) (request : option RequestContext) : Eng unit :=
  match request with
  | Some request => map_error (fun _ => TokenInvalid) (assert_tenant_binding en tenant_id request)
  | None => mret tt
  end.

Definition verify_dashboard_plane (token : string) (options : VerifyAccessOptions) : Eng DashboardClaims :=
  claims ← map_error collapse (verify_access_token token);
  if negb (dashboard_shape_ok claims) then throw TokenInvalid else
  _ ← bind_to_request (dc_tenant_id claims) (vo_request options);
  _ ← (if vo_check_status options then assert_user_active_and_verified (dc_sub claims) (dc_tenant_id claims) else mret tt);
  if vo_require_mfa options && dc_mfa_enabled claims && negb (dc_mfa_verified claims) then throw MfaRequired else
  mret claims.

(** A validly signed dashboard token is told apart from a malformed one. *)
Definition explain_platform_refusal (token : string) (error : AuthError) : Eng AuthError :=
  match error with
  | TokenInvalid =>
      answer ← attempt (verify_access_token token);
      mret (match answer with
            | Ok claims => if dashboard_shape_ok claims then PlatformAuthRequired else TokenInvalid
            | Err TokenRevoked => PlatformAuthRequired
            | Err _ => TokenInvalid
            end)
  | error => mret (collapse error)
  end.

Definition verify_platform_plane (token : string) (options : VerifyAccessOptions) : Eng PlatformClaims :=
  answer ← attempt (verify_platform_token token);
  match answer with
  | Err error => refusal ← explain_platform_refusal token error; throw refusal
  | Ok claims =>
      if negb (is_uuid_v4 (pc_jti claims)) || negb (is_bounded_id (pc_sub claims)) then throw TokenInvalid else
      _ ← (if vo_check_status options then assert_platform_active (pc_sub claims) else mret tt);
      if vo_require_mfa options && pc_mfa_enabled claims && negb (pc_mfa_verified claims) then throw MfaRequired else
      mret claims
  end.

Definition verify_access (token : string) (options : VerifyAccessOptions) : Eng VerifiedAccessToken :=
  match vo_plane options with
  | PlaneDashboard => VtDashboard <$> verify_dashboard_plane token options
  | PlanePlatform => VtPlatform <$> verify_platform_plane token options
  end.

(** ** Roles and identifiers *)

Definition engine_role_satisfies (held_role required_role : string) : bool :=
  dashboard_role_satisfies (be_config be) held_role required_role.
Definition engine_platform_role_satisfies (held_role required_role : string) : bool :=
  platform_role_satisfies (be_config be) held_role required_role.
Definition hashed_identifier_for (tenant_id email : string) : string := hashed_identifier en tenant_id email.

(** ** The session list *)

Definition list_user_sessions (tenant_id user_id : string) (raw_refresh : option string) : Eng (list SessionInfo) :=
  SessionService.list_sessions (en_sessions en) tenant_id user_id (current_session_hash raw_refresh).

Definition revoke_user_session (tenant_id user_id session_hash : string) : Eng unit :=
  _ ← SessionService.revoke_session (en_sessions en) tenant_id user_id session_hash;
  _ ← on_store (bump_epoch SkDashboard (session_subject en SkDashboard (Some tenant_id) user_id));
  mret tt.

Definition revoke_other_user_sessions (tenant_id user_id : string) (raw_refresh : option string) : Eng unit :=
  match current_session_hash raw_refresh with
  | Some current => SessionService.revoke_all_except_current (en_sessions en) tenant_id user_id current
  | None => throw SessionNotFound
  end.

(** ** WebSocket tickets *)

Definition no_ticket_store : AuthError := internal_error "ws-ticket store not configured".

Definition snapshot_of (user : AuthUser) (claims : DashboardClaims) : WsTicketSnapshot := {|
  ws_sub := au_id user;
  ws_tenant_id := Some (au_tenant_id user);
  ws_role := au_role user;
  ws_status := au_status user;
  ws_mfa_enabled := dc_mfa_enabled claims;
  ws_mfa_verified := dc_mfa_verified claims;
  ws_jti := dc_jti claims;
  ws_epoch := dc_epoch claims;
|}.

Definition issue_ws_ticket (claims : DashboardClaims) : Eng IssuedWsTicket :=
  if negb (be_ws_ticket_store be) then throw no_ticket_store else
  if dc_mfa_enabled claims && negb (dc_mfa_verified claims) then throw MfaRequired else
  found ← from_users map_repository_error (repo_find_by_id (dc_sub claims) (Some (dc_tenant_id claims)));
  user ← lift (ok_or TokenInvalid found);
  _ ← lift (assert_user_not_blocked en (au_status user));
  now ← now_unix_ceil;
  ttl ← lift (ok_or TokenInvalid (ticket_ttl (dc_exp claims) now));
  draw ← take_draw id;
  ticket ← on_store (wt_mint draw (snapshot_of user claims) ttl);
  mret {| it_ticket := ticket; it_expires_in := ttl |}.

Definition ws_ticket_is_revoked (snapshot : WsTicketSnapshot) (tenant : string) : Eng bool :=
  if string_is_empty (ws_jti snapshot) then mret true else
  listed ← on_store (is_blacklisted (ws_jti snapshot));
  if listed : bool then mret true else
  current ← on_store (current_epoch SkDashboard (session_subject en SkDashboard (Some tenant) (ws_sub snapshot)));
  mret (bool_decide (ws_epoch snapshot < current)).

Definition redeem_ws_ticket (ticket : string) : Eng DashboardClaims :=
  if negb (be_ws_ticket_store be) then throw no_ticket_store else
  if negb (is_refresh_token_shape ticket) then throw TokenInvalid else
  redeemed ← on_store (wt_redeem ticket);
  snapshot ← lift (ok_or TokenInvalid redeemed);
  match nonempty (ws_tenant_id snapshot) with
  | None => throw TokenInvalid
  | Some tenant =>
      revoked ← ws_ticket_is_revoked snapshot tenant;
      if revoked : bool then throw TokenInvalid else
      now ← now_unix_secs;
      jti ← draw_uuid;
      mret {| dc_sub := ws_sub snapshot; dc_jti := jti; dc_tenant_id := tenant; dc_role := ws_role snapshot;
              dc_status := ws_status snapshot; dc_mfa_enabled := ws_mfa_enabled snapshot;
              dc_mfa_verified := ws_mfa_verified snapshot; dc_iat := now; dc_exp := sat_add now WS_TICKET_TTL_SECONDS;
              dc_epoch := 0; dc_iss := None; dc_aud := None |}
  end.

(** ** The shared request counter *)

Definition count_rate_limited_request (route client_bucket : string) (window_secs : Z) : Eng (option Z) :=
  if negb (be_rate_limit_store be) then mret None else
  let bucket_hash := to_hex (hmac_sha256 (rv_hmac_key (be_config be)) client_bucket) in
  count ← on_store (rl_hit route bucket_hash window_secs);
  mret (Some count).

(** ** Optional services *)

Section optional.
Context `{PasswordHashLib, Base32, UnicodeChars, Aes256Gcm, Base64Std, MfaJson}.
Context `{MfaStore S, BruteForceStore S, KdfRuntime U}.

Definition with_mfa {A} (f : MfaService -> Eng A) : Eng A := ms ← lift (ok_or MfaNotEnabled (be_mfa be)); f ms.
Definition with_platform {A} (f : PlatformAuthService -> Eng A) : Eng A :=
  pa ← lift (ok_or PlatformAuthRequired (be_platform_auth be)); f pa.

Definition mfa_setup (user_id : string) (ctx : MfaContext) (tenant_id password : option string) : Eng MfaSetupResult :=
  with_mfa (fun ms => setup ms user_id ctx tenant_id password).
Definition mfa_verify_enable (user_id code ip user_agent : string) (ctx : MfaContext) (tenant_id : option string) : Eng unit :=
  with_mfa (fun ms => verify_and_enable ms user_id code ip user_agent ctx tenant_id).
Definition mfa_challenge (mfa_temp_token code ip user_agent : string) : Eng LoginResultMfa :=
  with_mfa (fun ms => challenge ms mfa_temp_token code ip user_agent).
Definition platform_mfa_challenge (mfa_temp_token code ip user_agent : string) : Eng PlatformAuthResult :=
  result ← with_mfa (fun ms => challenge_platform_only ms mfa_temp_token code ip user_agent);
  lift (ok_or PlatformAuthRequired (mfa_result_platform result)).
Definition mfa_disable (user_id code ip user_agent : string) (ctx : MfaContext) (tenant_id : option string) : Eng unit :=
  with_mfa (fun ms => disable ms user_id code ip user_agent ctx tenant_id).
Definition mfa_regenerate_recovery_codes (user_id code ip user_agent : string) (ctx : MfaContext) (tenant_id : option string) :
    Eng (list string) :=
  with_mfa (fun ms => regenerate_recovery_codes ms user_id code ip user_agent ctx tenant_id).

Definition platform_login (email password ip user_agent : string) : Eng PlatformLoginResult :=
  with_platform (fun pa => PlatformAuth.login pa email password ip user_agent).
Definition platform_me (admin_id : string) : Eng SafeAuthPlatformUser := with_platform (fun pa => PlatformAuth.me admin_id).
Definition platform_refresh (old_refresh ip user_agent : string) : Eng RotatedTokens :=
  with_platform (fun pa => PlatformAuth.refresh pa old_refresh ip user_agent).
Definition platform_logout (access_token raw_refresh : string) : Eng string :=
  with_platform (fun pa => PlatformAuth.logout pa access_token raw_refresh).
Definition platform_revoke_all (admin_id : string) : Eng unit :=
  with_platform (fun pa => PlatformAuth.revoke_all_platform_sessions pa admin_id).
End optional.
End facade.

(** * What the adapter's surface guarantees *)

Lemma map_error_ok {S U A} (f : AuthError -> AuthError) (m : E S U A) (w w' : World S U) (a : A) :
  map_error f m w = (Ok a, w') -> m w = (Ok a, w').
Proof.
  unfold map_error. rewrite bind_run. unfold attempt. destruct (m w) as [[x|e] w1]; cbn; [|done]. by intros [= -> ->].
Qed.

Section claims.
Context `{Crypto, Host, Base64, HeaderJson}.
Context `{ClaimsJson DashboardClaims, ClaimsJson PlatformClaims, ClaimsJson MfaTempClaims}.
Context {S U : Type} `{SessionStoreLaws S} `{UserStatusCacheStore S, WsTicketStore S, RateLimitStore S}.
Context `{UserRepository U, PlatformUserRepository U}.
Context (be : BuiltEngine U).

Abbreviation en := (be_engine be).
Abbreviation tm := (en_tokens (be_engine be)).

(** ** The account behind a token *)

(** The facts the gate judged are the repository's, or the shared cache's. *)
Definition reported (sub tenant_id : string) (facts : AccountFacts) : Prop :=
  (exists u1 u2 user, repo_find_by_id sub (Some tenant_id) u1 = (Ok (Some user), u2) /\
     facts = {| af_status := au_status user; af_verified := Some (au_email_verified user) |}) \/
  (exists ttl s1 s2, status_cache en = Some ttl /\
     us_get_status (session_subject en SkDashboard (Some tenant_id) sub) s1 = (Ok (Some (af_status facts)), s2)).

Definition account_usable (sub tenant_id : string) : Prop :=
  exists facts, reported sub tenant_id facts /\ assert_user_not_blocked en (af_status facts) = Ok tt /\
    (cf_verification_required (en_config en) = true -> af_verified facts <> Some false).

Lemma fetch_facts_reported (subject sub tenant_id : string) (facts : AccountFacts) (w w' : World S U) :
  fetch_facts en subject sub tenant_id w = (Ok facts, w') -> reported sub tenant_id facts.
Proof.
  unfold fetch_facts. intros Hrun. einv Hrun. apply from_users_inv in Hrun0 as [Hf _]. destruct x as [user|]; [|done].
  left. exists (w_users w), (w_users w0), user. split; [done|]. by match goal with H : ok_or _ _ = Ok _ |- _ => injection H as -> end.
Qed.

Lemma account_facts_reported (sub tenant_id : string) (want : bool) (facts : AccountFacts) (w w' : World S U) :
  account_facts en sub tenant_id want w = (Ok facts, w') -> reported sub tenant_id facts.
Proof.
  unfold account_facts, cached_facts. intros Hrun. apply bind_ok_inv in Hrun as ([status verified] & w1 & Hc & Hrun).
  destruct (status_cache en) as [ttl|] eqn:Hs.
  - apply bind_ok_inv in Hc as (st & w2 & Hst & Hc). apply store_inv in Hst as [Hst _].
    apply bind_ok_inv in Hc as (v & w3 & _ & Hc). apply ret_inv in Hc as [[= -> ->] _].
    destruct st as [st|]; [|by eapply fetch_facts_reported]. destruct (negb want || _); [|by eapply fetch_facts_reported].
    apply ret_inv in Hrun as [-> _]. right. by exists ttl, (w_store w), (w_store w2).
  - apply ret_inv in Hc as [[= -> ->] _]. by eapply fetch_facts_reported.
Qed.

Lemma usable_sound (sub tenant_id : string) (w w' : World S U) :
  assert_user_active_and_verified be sub tenant_id w = (Ok tt, w') -> account_usable sub tenant_id.
Proof.
  unfold assert_user_active_and_verified, assert_account_usable. intros Hrun.
  apply bind_ok_inv in Hrun as (facts & w1 & Hf & Hrun). apply bind_ok_inv in Hrun as ([] & w2 & Hb & Hrun).
  apply lift_inv in Hb as [Hb ->]. exists facts. split; [by eapply account_facts_reported|]. split; [done|].
  intros Hv Hf0. rewrite Hv in Hrun. cbn [andb] in Hrun. by rewrite bool_decide_eq_true_2 in Hrun.
Qed.

(** The request's own tenant, where the deployment asks for the comparison. *)
Definition bound_to (tenant_id : string) (request : RequestContext) : Prop :=
  forall resolver, cf_tenant_id_resolver (en_config en) = Some resolver -> cf_enforce_tenant_binding (en_config en) = true ->
    exists u1 u2, resolver (request_parts_from_context request) u1 = (Ok tenant_id, u2).

Lemma bind_to_request_sound (tenant_id : string) (request : option RequestContext) (w w' : World S U) :
  bind_to_request be tenant_id request w = (Ok tt, w') -> forall r, request = Some r -> bound_to tenant_id r.
Proof.
  intros Hrun r ->. apply map_error_ok in Hrun. unfold assert_tenant_binding in Hrun. intros resolver Hr He. rewrite Hr, He in Hrun.
  cbn [negb] in Hrun. apply bind_ok_inv in Hrun as (t & w1 & Ht & Hrun). apply from_users_inv in Ht as [Ht _].
  case_bool_decide as Heq; [|done]. subst t. eauto.
Qed.

Lemma platform_active_sound (admin_id : string) (w w' : World S U) :
  assert_platform_active be admin_id w = (Ok tt, w') ->
  exists u1 u2 admin, admin_find_by_id admin_id u1 = (Ok (Some admin), u2) /\
    assert_not_blocked (ap_status admin) (cf_blocked_statuses (en_config en)) = Ok tt.
Proof.
  unfold assert_platform_active. destruct (be_platform_repository be); [|done]. cbn [negb]. intros Hrun. einv Hrun.
  apply from_users_inv in Hrun0 as [Hf _]. destruct x as [admin|]; [|done].
  match goal with H : ok_or _ _ = Ok _ |- _ => injection H as <- end. exists (w_users w), (w_users w0), admin.
  by split.
Qed.

(** ** Verification *)

(** What the token manager proved of a dashboard token. *)
Definition token_stands (token : string) (w : World S U) (claims : DashboardClaims) : Prop :=
  rotating_claims tm token w = Ok claims /\ a_is_blacklisted (dc_jti claims) (stands_for (w_store w)) = false /\
  a_current_epoch SkDashboard (subject_hash tm SkDashboard (Some (dc_tenant_id claims)) (dc_sub claims)) (stands_for (w_store w))
    <= dc_epoch claims.

Definition platform_token_stands (token : string) (w : World S U) (claims : PlatformClaims) : Prop :=
  rotating_claims tm token w = Ok claims /\ a_is_blacklisted (pc_jti claims) (stands_for (w_store w)) = false /\
  a_current_epoch SkPlatform (subject_hash tm SkPlatform None (pc_sub claims)) (stands_for (w_store w)) <= pc_epoch claims.

Lemma verify_access_stands (token : string) (w w' : World S U) (claims : DashboardClaims) :
  ready (w_store w) -> TokenManager.verify_access tm token w = (Ok claims, w') -> token_stands token w claims.
Proof.
  intros Hr Hrun. assert (Hw : at_state w (stands_for (w_store w))) by by split.
  destruct (ewp_run _ _ _ _ _ (verify_access_ewp tm token w _ Hw) Hrun) as [_ Hres].
  unfold token_stands. destruct (rotating_claims tm token w) as [c|e]; [|done]. destruct (a_is_blacklisted (dc_jti c) _) eqn:Hb; [done|].
  cbn [orb] in Hres. case_bool_decide as He; [done|]. injection Hres as ->. split_and!; [done | done | lia].
Qed.

Lemma verify_platform_stands (token : string) (w w' : World S U) (claims : PlatformClaims) :
  ready (w_store w) -> verify_platform_access tm token w = (Ok claims, w') -> platform_token_stands token w claims.
Proof.
  intros Hr Hrun. assert (Hw : at_state w (stands_for (w_store w))) by by split.
  destruct (ewp_run _ _ _ _ _ (verify_platform_access_ewp tm token w _ Hw) Hrun) as [_ Hres].
  unfold platform_token_stands. destruct (rotating_claims tm token w) as [c|e]; [|done]. destruct (a_is_blacklisted (pc_jti c) _) eqn:Hb; [done|].
  cbn [orb] in Hres. case_bool_decide as He; [done|]. injection Hres as ->. split_and!; [done | done | lia].
Qed.

(** What [options] asked to be checked of the account and the request. *)
Definition dashboard_checked (options : VerifyAccessOptions) (claims : DashboardClaims) : Prop :=
  (forall request, vo_request options = Some request -> bound_to (dc_tenant_id claims) request) /\
  (vo_check_status options = true -> account_usable (dc_sub claims) (dc_tenant_id claims)) /\
  (vo_require_mfa options = true -> dc_mfa_enabled claims = true -> dc_mfa_verified claims = true).

Definition platform_checked (options : VerifyAccessOptions) (claims : PlatformClaims) : Prop :=
  (vo_check_status options = true ->
   exists u1 u2 admin, admin_find_by_id (pc_sub claims) u1 = (Ok (Some admin), u2) /\
     assert_not_blocked (ap_status admin) (cf_blocked_statuses (en_config en)) = Ok tt) /\
  (vo_require_mfa options = true -> pc_mfa_enabled claims = true -> pc_mfa_verified claims = true).

Lemma dashboard_plane_sound (token : string) (options : VerifyAccessOptions) (w w' : World S U) (claims : DashboardClaims) :
  ready (w_store w) -> verify_dashboard_plane be token options w = (Ok claims, w') ->
  token_stands token w claims /\ dashboard_shape_ok claims = true /\ dashboard_checked options claims.
Proof.
  intros Hr Hrun. apply bind_ok_inv in Hrun as (c & w1 & Hv & Hrun). apply map_error_ok in Hv.
  pose proof (verify_access_stands _ _ _ _ Hr Hv) as Hst. destruct (dashboard_shape_ok c) eqn:Hs; [|done]. cbn [negb] in Hrun.
  apply bind_ok_inv in Hrun as ([] & w2 & Hb & Hrun). apply bind_ok_inv in Hrun as ([] & w3 & Hu & Hrun).
  destruct (vo_require_mfa options && dc_mfa_enabled c && negb (dc_mfa_verified c)) eqn:Hm; [done|].
  apply ret_inv in Hrun as [-> _]. split_and!; [done | done |]. split_and!.
  - by eapply bind_to_request_sound.
  - intros Hc. rewrite Hc in Hu. by eapply usable_sound.
  - intros Hq He. rewrite Hq, He in Hm. by apply negb_false_iff.
Qed.

Lemma platform_plane_sound (token : string) (options : VerifyAccessOptions) (w w' : World S U) (claims : PlatformClaims) :
  ready (w_store w) -> verify_platform_plane be token options w = (Ok claims, w') ->
  platform_token_stands token w claims /\ is_uuid_v4 (pc_jti claims) = true /\ is_bounded_id (pc_sub claims) = true /\
  platform_checked options claims.
Proof.
  intros Hr Hrun. apply bind_ok_inv in Hrun as ([c|e] & w1 & Hv & Hrun).
  - apply attempt_inv in Hv. pose proof (verify_platform_stands _ _ _ _ Hr Hv) as Hst.
    destruct (is_uuid_v4 (pc_jti c)) eqn:Hj, (is_bounded_id (pc_sub c)) eqn:Hb; cbn [negb orb] in Hrun; [|done..].
    apply bind_ok_inv in Hrun as ([] & w2 & Hu & Hrun).
    destruct (vo_require_mfa options && pc_mfa_enabled c && negb (pc_mfa_verified c)) eqn:Hm; [done|].
    apply ret_inv in Hrun as [-> _]. split_and!; [done | done | done |]. split.
    + intros Hc. rewrite Hc in Hu. by eapply platform_active_sound.
    + intros Hq He. rewrite Hq, He in Hm. by apply negb_false_iff.
  - by apply bind_ok_inv in Hrun as (refusal & w2 & _ & Hrun).
Qed.

(** C8. Nothing is served that skipped a link of the chain.  A token [verify_access]
    answers claims for verifies under one of the configured keys, is neither
    denylisted nor of a superseded epoch, and has a well-formed identifier and
    bounded subject; the claims are of the plane the caller named; on the
    dashboard plane the supplied request resolves to the token's tenant where the
    deployment enforces that, and unless the caller waived it the account is one
    the repository or the shared cache reports, not blocked and not unverified
    where verification is required; on the platform plane the administrator
    exists and is not blocked; and unless waived, an account with a second factor
    has passed it. *)
Theorem verified_access_sound (token : string) (options : VerifyAccessOptions) (w w' : World S U) (served : VerifiedAccessToken) :
  ready (w_store w) -> Facade.verify_access be token options w = (Ok served, w') ->
  match served with
  | VtDashboard claims =>
      vo_plane options = PlaneDashboard /\ token_stands token w claims /\ dashboard_shape_ok claims = true /\
      dashboard_checked options claims
  | VtPlatform claims =>
      vo_plane options = PlanePlatform /\ platform_token_stands token w claims /\ is_uuid_v4 (pc_jti claims) = true /\
      is_bounded_id (pc_sub claims) = true /\ platform_checked options claims
  end.
Proof.
  intros Hr. unfold Facade.verify_access. destruct (vo_plane options); unfold fmap, M_fmap.
  - destruct (verify_dashboard_plane be token options w) as [[c|e] w1] eqn:Hv; cbn; [|done]. intros [= <- <-].
    split; [done|]. by eapply dashboard_plane_sound.
  - destruct (verify_platform_plane be token options w) as [[c|e] w1] eqn:Hv; cbn; [|done]. intros [= <- <-].
    split; [done|]. by eapply platform_plane_sound.
Qed.
End claims.

(** ** Tickets *)

Class WsTicketStoreLaws (S : Type) `{WsTicketStore S, StoreView S} : Prop := {
  quiet_mint draw snapshot ttl : quiet (wt_mint draw snapshot ttl);
  quiet_redeem ticket : quiet (wt_redeem ticket);
}.

#[export] Instance redis_ws_ticket_laws `{SessionJsonLaws, Crypto, Host, Json WsTicketSnapshot} (ns : string) :
  @WsTicketStoreLaws Redis (redis_ws_ticket_store ns) (redis_view ns).
Proof.
  split; intros; apply confines_quiet; unfold mint_inner, redeem_inner, ws_ticket_key; eauto 10 with quiet.
Qed.

Section tickets.
Context `{Crypto, Host, Base64, HeaderJson}.
Context {S U : Type} `{SessionStoreLaws S} `{UserStatusCacheStore S, WsTicketStore S, !WsTicketStoreLaws S, RateLimitStore S}.
Context `{UserRepository U, PlatformUserRepository U} (be : BuiltEngine U).

Abbreviation en := (be_engine be).

(** The ticket's minting token is still good. *)
Definition minter_stands (snapshot : WsTicketSnapshot) (tenant : string) (a : AStore) : Prop :=
  ws_jti snapshot <> "" /\ a_is_blacklisted (ws_jti snapshot) a = false /\
  a_current_epoch SkDashboard (session_subject en SkDashboard (Some tenant) (ws_sub snapshot)) a <= ws_epoch snapshot.

Lemma ws_ticket_is_revoked_ewp (snapshot : WsTicketSnapshot) (tenant : string) (w w' : World S U) (a : AStore) :
  at_state w a -> ws_ticket_is_revoked be snapshot tenant w = (Ok false, w') -> minter_stands snapshot tenant a.
Proof.
  intros [Hr Hs]. unfold ws_ticket_is_revoked, minter_stands. destruct (string_is_empty (ws_jti snapshot)) eqn:Hj; [done|].
  intros Hrun. apply bind_ok_inv in Hrun as (listed & w1 & Hl & Hrun).
  destruct (law_is_blacklisted (w_store w) (ws_jti snapshot) Hr) as (s1 & Hs1 & Hr1 & He1).
  unfold on_store in Hl. rewrite Hs1 in Hl. injection Hl as <- <-. rewrite Hs in He1.
  destruct (a_is_blacklisted (ws_jti snapshot) (stands_for (w_store w))) eqn:Hb; [done|].
  apply bind_ok_inv in Hrun as (current & w2 & Hc & Hrun).
  destruct (law_current_epoch s1 SkDashboard (session_subject en SkDashboard (Some tenant) (ws_sub snapshot)) Hr1) as (s2 & Hs2 & _).
  unfold on_store in Hc. cbn [w_store with_store] in Hc. rewrite Hs2 in Hc. injection Hc as <- <-.
  apply ret_inv in Hrun as [Hf _]. symmetry in Hf. apply bool_decide_eq_false in Hf.
  split_and!; [intros He; by rewrite He in Hj | by rewrite <- Hs |]. rewrite <- He1. lia.
Qed.

Lemma nonempty_Some (o : option string) (s : string) : nonempty o = Some s -> o = Some s /\ s <> "".
Proof. destruct o as [x|]; [|done]. cbn. destruct x; [done|]. by intros [= <-]. Qed.

(** C27. A ticket opens a socket only for the account it was minted for, and only
    while the token it was minted from would still be served.  When redeeming
    answers claims, the presented value has the shape of a ticket and the store
    handed out (and spent) a snapshot that names a tenant; the token that minted
    it is identified, not denylisted, and of the epoch in force for that account;
    and the claims carry the snapshot's subject, tenant, role, status and second
    factor, with a lifetime of half a minute. *)
Theorem ws_ticket_follows_token (ticket : string) (w w' : World S U) (claims : DashboardClaims) :
  ready (w_store w) -> redeem_ws_ticket be ticket w = (Ok claims, w') ->
  is_refresh_token_shape ticket = true /\
  exists snapshot s1, wt_redeem ticket (w_store w) = (Ok (Some snapshot), s1) /\
    ws_tenant_id snapshot = Some (dc_tenant_id claims) /\ dc_tenant_id claims <> "" /\
    minter_stands snapshot (dc_tenant_id claims) (stands_for (w_store w)) /\
    dc_sub claims = ws_sub snapshot /\ dc_role claims = ws_role snapshot /\ dc_status claims = ws_status snapshot /\
    dc_mfa_enabled claims = ws_mfa_enabled snapshot /\ dc_mfa_verified claims = ws_mfa_verified snapshot /\
    dc_exp claims = sat_add (dc_iat claims) WS_TICKET_TTL_SECONDS.
Proof.
  intros Hr. unfold redeem_ws_ticket. destruct (be_ws_ticket_store be); [|done]. cbn [negb].
  destruct (is_refresh_token_shape ticket); [|done]. cbn [negb]. intros Hrun. split; [done|].
  apply bind_ok_inv in Hrun as (redeemed & w1 & Hred & Hrun). apply bind_ok_inv in Hrun as (snapshot & w2 & Hsn & Hrun).
  apply lift_inv in Hsn as [Hsn ->]. destruct redeemed as [sn|]; [|done]. injection Hsn as ->.
  assert (Hw1 : at_state w1 (stands_for (w_store w))).
  { eapply (equiet_at (on_store (wt_redeem ticket))); [apply equiet_store, quiet_redeem | by split | exact Hred]. }
  apply store_inv in Hred as [Hred _]. exists snapshot, (w_store w1). split; [done|].
  destruct (nonempty (ws_tenant_id snapshot)) as [tenant|] eqn:Ht; [|done]. apply nonempty_Some in Ht as [Ht Hne].
  apply bind_ok_inv in Hrun as ([] & w3 & Hrev & Hrun); [done|]. apply (ws_ticket_is_revoked_ewp _ _ _ _ _ Hw1) in Hrev.
  einv Hrun. by split_and!.
Qed.

Lemma issue_ws_ticket_quiet (claims : DashboardClaims) : equiet (issue_ws_ticket be claims : E S U IssuedWsTicket).
Proof. unfold issue_ws_ticket. hush. apply quiet_mint. Qed.

(** Minting: a second factor passed, an account the repository reports under the
    token's own tenant and that is not blocked, and a lifetime inside the token's. *)
Lemma issue_ws_ticket_sound (claims : DashboardClaims) (w w' : World S U) (issued : IssuedWsTicket) :
  issue_ws_ticket be claims w = (Ok issued, w') ->
  (dc_mfa_enabled claims = true -> dc_mfa_verified claims = true) /\
  exists user now, (repo_find_by_id (dc_sub claims) (Some (dc_tenant_id claims)) (w_users w)).1 = Ok (Some user) /\
    assert_user_not_blocked en (au_status user) = Ok tt /\ ticket_ttl (dc_exp claims) now = Some (it_expires_in issued) /\
    exists draw s s', wt_mint draw (snapshot_of user claims) (it_expires_in issued) s = (Ok (it_ticket issued), s').
Proof.
  unfold issue_ws_ticket. destruct (be_ws_ticket_store be); [|done]. cbn [negb].
  destruct (dc_mfa_enabled claims && negb (dc_mfa_verified claims)) eqn:Hm; [done|]. intros Hrun.
  split; [by destruct (dc_mfa_enabled claims), (dc_mfa_verified claims)|].
  apply bind_ok_inv in Hrun as (found & w1 & Hf & Hrun). apply from_users_inv in Hf as [Hf _].
  apply bind_ok_inv in Hrun as (user & w2 & Hu & Hrun). apply lift_inv in Hu as [Hu ->]. destruct found as [u|]; [|done].
  injection Hu as ->. apply bind_ok_inv in Hrun as ([] & w3 & Hb & Hrun). apply lift_inv in Hb as [Hb ->].
  apply bind_ok_inv in Hrun as (now & w4 & _ & Hrun). apply bind_ok_inv in Hrun as (ttl & w5 & Ht & Hrun).
  apply lift_inv in Ht as [Ht ->]. destruct (ticket_ttl (dc_exp claims) now) as [t|] eqn:Htt; [|done]. injection Ht as ->.
  apply bind_ok_inv in Hrun as (draw & w6 & _ & Hrun). apply bind_ok_inv in Hrun as (tk & w7 & Hmint & Hrun).
  apply ret_inv in Hrun as [-> _]. apply store_inv in Hmint as [Hmint _]. exists user, now. rewrite Hf. split_and!; [done..|]. eauto.
Qed.
End tickets.
