(* ===== verification/InMemory.v ===== *)
(** * The in-memory stores

    Models [crates/bymax-auth-core/src/testing/mod.rs] with its [rate_limit.rs] and
    [user_status.rs]: one handle that implements every store trait over maps, with
    the failures a test can arm.  [InMemoryClaims] compares its sessions with the
    contract the Redis store is proved against.

    Nothing but the two caches of [Instant] expires: every other lifetime is
    recorded and ignored.  The counters of bumps, failures and reads are unbounded
    here and 64 bits wide in the source. *)

From S2P Require Import Prelude Errors Types Crypto Redis RedisSession SessionSpec SessionStore RedisStores MfaStore Repository SideStores OAuth Invitation Facade.
#[local] Open Scope Z_scope.

#[export] Instance SessionKind_countable : Countable SessionKind :=
  inj_countable' (fun k => match k with SkDashboard => true | SkPlatform => false end)
                 (fun b => if b : bool then SkDashboard else SkPlatform) ltac:(by intros []).

#[export] Instance OtpPurpose_countable : Countable OtpPurpose :=
  inj_countable' (fun p => match p with EmailVerification => true | PasswordReset => false end)
                 (fun b => if b : bool then EmailVerification else PasswordReset) ltac:(by intros []).

(** ** State *)

(** A recovery pointer: the owner's subject hash, the record, the successor. *)
Abbreviation GracePointer := (string * SessionRecord * string)%type.

Record MemSessions : Set := MkMemSessions {
  mm_sessions : gmap (SessionKind * string) SessionRecord;
  mm_session_index : gmap (SessionKind * string) (list SessionDetail);
  mm_grace : gmap (SessionKind * string) GracePointer;
  mm_consumed : gmap (SessionKind * string) string;
  mm_families : gmap (SessionKind * string) (gset string);
  mm_epochs : gmap (SessionKind * string) Z;
  mm_blacklist : gset string;
  mm_recent_auth : gset string;
}.

(** The failures a test has armed, each a count of calls to come. *)
Record Armed : Set := MkArmed {
  ar_write_failures : nat;
  ar_session_lookups : nat;
  ar_session_listings : nat;
  ar_blacklist : nat;
  ar_recovery_refusals : nat;
  ar_epoch_bumps : nat;
  ar_otp_puts : nat;
  ar_lockout_reads : nat * nat;
  ar_lockout_ttl : nat;
}.

(** What a test can look at. *)
Record Observed : Set := MkObserved {
  ob_last_rotate_ttl_secs : option Z;
  ob_last_session_ttl_secs : option Z;
  ob_grace_reads : Z;
  ob_ticket_counter : Z;
}.

(** Instants are milliseconds of a clock of its own. *)
Record MemCodes : Set := MkMemCodes {
  mc_otps : gmap (OtpPurpose * string) (string * Z);
  mc_resend : gset (OtpPurpose * string);
  mc_brute_force : gmap string (Z * Z);
  mc_rate_limits : gmap (string * string) (Z * Z);
  mc_user_status : gmap (string * string) (string * Z);
  mc_tickets : gmap string WsTicketSnapshot;
}.

Record MemTokens : Set := MkMemTokens {
  mt_reset_tokens : gmap string ResetContext;
  mt_reset_verified : gmap string ResetContext;
  mt_email_changes : gmap string EmailChangeContext;
  mt_invitations : gmap string StoredInvitation;
  mt_invitation_index : gmap string string;
  mt_oauth_state : gmap string string;
}.

Record MemMfa : Set := MkMemMfa {
  mf_setup : gmap string string;
  mf_temp : gmap string string;
  mf_replay : gset string;
  mf_recovery_claims : gset string;
  mf_locks : gmap string string;
}.

Record InMemoryStores : Set := MkInMemoryStores {
  im_clock : Z;
  im_sessions : MemSessions;
  im_armed : Armed;
  im_observed : Observed;
  im_codes : MemCodes;
  im_tokens : MemTokens;
  im_mfa : MemMfa;
}.

Definition disarmed : Armed := MkArmed 0 0 0 0 0 0 0 (0, 0)%nat 0.

Definition new_stores (clock : Z) : InMemoryStores :=
  MkInMemoryStores clock (MkMemSessions ∅ ∅ ∅ ∅ ∅ ∅ ∅ ∅) disarmed (MkObserved None None 0 0)
    (MkMemCodes ∅ ∅ ∅ ∅ ∅ ∅) (MkMemTokens ∅ ∅ ∅ ∅ ∅ ∅) (MkMemMfa ∅ ∅ ∅ ∅ ∅).

Abbreviation Mem A := (M InMemoryStores AuthError A).

(** Change one part. *)
Definition on_sessions (f : MemSessions -> MemSessions) (s : InMemoryStores) : InMemoryStores :=
  MkInMemoryStores (im_clock s) (f (im_sessions s)) (im_armed s) (im_observed s) (im_codes s) (im_tokens s) (im_mfa s).
Definition on_armed (f : Armed -> Armed) (s : InMemoryStores) : InMemoryStores :=
  MkInMemoryStores (im_clock s) (im_sessions s) (f (im_armed s)) (im_observed s) (im_codes s) (im_tokens s) (im_mfa s).
Definition on_observed (f : Observed -> Observed) (s : InMemoryStores) : InMemoryStores :=
  MkInMemoryStores (im_clock s) (im_sessions s) (im_armed s) (f (im_observed s)) (im_codes s) (im_tokens s) (im_mfa s).
Definition on_codes (f : MemCodes -> MemCodes) (s : InMemoryStores) : InMemoryStores :=
  MkInMemoryStores (im_clock s) (im_sessions s) (im_armed s) (im_observed s) (f (im_codes s)) (im_tokens s) (im_mfa s).
Definition on_tokens (f : MemTokens -> MemTokens) (s : InMemoryStores) : InMemoryStores :=
  MkInMemoryStores (im_clock s) (im_sessions s) (im_armed s) (im_observed s) (im_codes s) (f (im_tokens s)) (im_mfa s).
Definition on_mfa (f : MemMfa -> MemMfa) (s : InMemoryStores) : InMemoryStores :=
  MkInMemoryStores (im_clock s) (im_sessions s) (im_armed s) (im_observed s) (im_codes s) (im_tokens s) (f (im_mfa s)).

(** Change one field of the sessions. *)
Definition with_live f (s : MemSessions) : MemSessions :=
  MkMemSessions (f (mm_sessions s)) (mm_session_index s) (mm_grace s) (mm_consumed s) (mm_families s) (mm_epochs s) (mm_blacklist s) (mm_recent_auth s).
Definition with_index f (s : MemSessions) : MemSessions :=
  MkMemSessions (mm_sessions s) (f (mm_session_index s)) (mm_grace s) (mm_consumed s) (mm_families s) (mm_epochs s) (mm_blacklist s) (mm_recent_auth s).
Definition with_grace f (s : MemSessions) : MemSessions :=
  MkMemSessions (mm_sessions s) (mm_session_index s) (f (mm_grace s)) (mm_consumed s) (mm_families s) (mm_epochs s) (mm_blacklist s) (mm_recent_auth s).
Definition with_consumed f (s : MemSessions) : MemSessions :=
  MkMemSessions (mm_sessions s) (mm_session_index s) (mm_grace s) (f (mm_consumed s)) (mm_families s) (mm_epochs s) (mm_blacklist s) (mm_recent_auth s).
Definition with_families f (s : MemSessions) : MemSessions :=
  MkMemSessions (mm_sessions s) (mm_session_index s) (mm_grace s) (mm_consumed s) (f (mm_families s)) (mm_epochs s) (mm_blacklist s) (mm_recent_auth s).
Definition with_epochs f (s : MemSessions) : MemSessions :=
  MkMemSessions (mm_sessions s) (mm_session_index s) (mm_grace s) (mm_consumed s) (mm_families s) (f (mm_epochs s)) (mm_blacklist s) (mm_recent_auth s).
Definition with_blacklist f (s : MemSessions) : MemSessions :=
  MkMemSessions (mm_sessions s) (mm_session_index s) (mm_grace s) (mm_consumed s) (mm_families s) (mm_epochs s) (f (mm_blacklist s)) (mm_recent_auth s).
Definition with_recent f (s : MemSessions) : MemSessions :=
  MkMemSessions (mm_sessions s) (mm_session_index s) (mm_grace s) (mm_consumed s) (mm_families s) (mm_epochs s) (mm_blacklist s) (f (mm_recent_auth s)).

(** ** What a test arms *)

Definition fail_next_cleanup_writes (n : nat) (s : Armed) : Armed := MkArmed n (ar_session_lookups s) (ar_session_listings s) (ar_blacklist s) (ar_recovery_refusals s) (ar_epoch_bumps s) (ar_otp_puts s) (ar_lockout_reads s) (ar_lockout_ttl s).
Definition fail_next_session_lookups (n : nat) (s : Armed) : Armed := MkArmed (ar_write_failures s) n (ar_session_listings s) (ar_blacklist s) (ar_recovery_refusals s) (ar_epoch_bumps s) (ar_otp_puts s) (ar_lockout_reads s) (ar_lockout_ttl s).
Definition fail_next_session_listings (n : nat) (s : Armed) : Armed := MkArmed (ar_write_failures s) (ar_session_lookups s) n (ar_blacklist s) (ar_recovery_refusals s) (ar_epoch_bumps s) (ar_otp_puts s) (ar_lockout_reads s) (ar_lockout_ttl s).
Definition fail_next_blacklist_writes (n : nat) (s : Armed) : Armed := MkArmed (ar_write_failures s) (ar_session_lookups s) (ar_session_listings s) n (ar_recovery_refusals s) (ar_epoch_bumps s) (ar_otp_puts s) (ar_lockout_reads s) (ar_lockout_ttl s).
Definition refuse_next_recovered_writes (n : nat) (s : Armed) : Armed := MkArmed (ar_write_failures s) (ar_session_lookups s) (ar_session_listings s) (ar_blacklist s) n (ar_epoch_bumps s) (ar_otp_puts s) (ar_lockout_reads s) (ar_lockout_ttl s).
Definition fail_next_epoch_bumps (n : nat) (s : Armed) : Armed := MkArmed (ar_write_failures s) (ar_session_lookups s) (ar_session_listings s) (ar_blacklist s) (ar_recovery_refusals s) n (ar_otp_puts s) (ar_lockout_reads s) (ar_lockout_ttl s).
Definition fail_next_otp_puts (n : nat) (s : Armed) : Armed := MkArmed (ar_write_failures s) (ar_session_lookups s) (ar_session_listings s) (ar_blacklist s) (ar_recovery_refusals s) (ar_epoch_bumps s) n (ar_lockout_reads s) (ar_lockout_ttl s).
Definition fail_lockout_reads (n : nat * nat) (s : Armed) : Armed := MkArmed (ar_write_failures s) (ar_session_lookups s) (ar_session_listings s) (ar_blacklist s) (ar_recovery_refusals s) (ar_epoch_bumps s) (ar_otp_puts s) n (ar_lockout_ttl s).
Definition fail_next_lockout_ttl_reads (n : nat) (s : Armed) : Armed := MkArmed (ar_write_failures s) (ar_session_lookups s) (ar_session_listings s) (ar_blacklist s) (ar_recovery_refusals s) (ar_epoch_bumps s) (ar_otp_puts s) (ar_lockout_reads s) n.
Definition saw_rotate_ttl (n : option Z) (s : Observed) : Observed := MkObserved n (ob_last_session_ttl_secs s) (ob_grace_reads s) (ob_ticket_counter s).
Definition saw_session_ttl (n : option Z) (s : Observed) : Observed := MkObserved (ob_last_rotate_ttl_secs s) n (ob_grace_reads s) (ob_ticket_counter s).
Definition saw_grace_reads (n : Z) (s : Observed) : Observed := MkObserved (ob_last_rotate_ttl_secs s) (ob_last_session_ttl_secs s) n (ob_ticket_counter s).
Definition saw_tickets (n : Z) (s : Observed) : Observed := MkObserved (ob_last_rotate_ttl_secs s) (ob_last_session_ttl_secs s) (ob_grace_reads s) n.

Definition take_armed (read : Armed -> nat) (write : nat -> Armed -> Armed) (e : AuthError) : Mem unit :=
  armed ← gets (fun s => read (im_armed s));
  match armed with O => mret tt | Datatypes.S rest => _ ← modify (on_armed (write rest)); throw e end.

(** The calls the library swallows the failure of. *)
Definition take_forced_failure : Mem unit :=
  take_armed ar_write_failures fail_next_cleanup_writes (Internal "session store unavailable").

Definition take_forced_lockout_read_failure : Mem unit :=
  armed ← gets (fun s => ar_lockout_reads (im_armed s));
  match armed with
  | (Datatypes.S skip, remaining) => modify (on_armed (fail_lockout_reads (skip, remaining)))
  | (O, O) => mret tt
  | (O, Datatypes.S remaining) =>
      _ ← modify (on_armed (fail_lockout_reads (O, remaining)));
      throw (Internal "brute-force store unavailable")
  end.

(** What a test reads back. *)
Definition peek_session_ttl (s : InMemoryStores) : option Z := ob_last_session_ttl_secs (im_observed s).
Definition peek_rotate_ttl (s : InMemoryStores) : option Z := ob_last_rotate_ttl_secs (im_observed s).
Definition grace_pointer_reads (s : InMemoryStores) : Z := ob_grace_reads (im_observed s).
Definition invitation_record_count (s : InMemoryStores) : nat := size (mt_invitations (im_tokens s)).
Definition peek_otp (purpose : OtpPurpose) (identifier : string) (s : InMemoryStores) : option string :=
  fst <$> (mc_otps (im_codes s) !! (purpose, identifier)).

(** The order a hash set is walked in. *)
Class HashOrder : Type := { hash_order : gset string -> list string }.
Class HashOrderLaws `{HashOrder} : Prop := { hash_order_perm (s : gset string) : hash_order s ≡ₚ elements s }.

(** ** Sessions *)

Section sessions.
Context `{HashOrder}.

Definition detail_of (token_hash : string) (record : SessionRecord) : SessionDetail := {|
  sd_session_hash := token_hash;
  sd_device := sr_device record;
  sd_ip := sr_ip record;
  sd_created_at := sr_created_at record;
  sd_last_activity_at := sr_created_at record;
|}.

Definition sessions_map (f : MemSessions -> MemSessions) : Mem unit := modify (on_sessions f).

(** The writes of a new session. *)
Definition created_sessions (kind : SessionKind) (subject_hash token_hash : string) (detail : SessionRecord) (s : MemSessions) : MemSessions :=
  let s := with_live <[(kind, token_hash) := detail]> s in
  let s := with_index (fun index =>
    <[(kind, subject_hash) := default [] (index !! (kind, subject_hash)) ++ [detail_of token_hash detail]]> index) s in
  if string_is_empty (sr_family_id detail) then s else
  with_families (fun families =>
    <[(kind, sr_family_id detail) := {[token_hash]} ∪ default ∅ (families !! (kind, sr_family_id detail))]> families) s.

Definition mem_create_session (kind : SessionKind) (subject_hash token_hash : string) (detail : SessionRecord) (ttl_secs : Z) : Mem unit :=
  _ ← modify (on_observed (saw_session_ttl (Some ttl_secs)));
  sessions_map (created_sessions kind subject_hash token_hash detail).

Definition mem_create_recovered_session (kind : SessionKind) (subject_hash token_hash : string) (detail : SessionRecord) (ttl_secs : Z) : Mem bool :=
  armed ← gets (fun s => ar_recovery_refusals (im_armed s));
  match armed with
  | Datatypes.S rest => _ ← modify (on_armed (refuse_next_recovered_writes rest)); mret false
  | O =>
      s ← gets im_sessions;
      if negb (bool_decide (is_Some (mm_session_index s !! (kind, subject_hash)))) then mret false else
      if negb (string_is_empty (sr_family_id detail)) && negb (bool_decide (is_Some (mm_families s !! (kind, sr_family_id detail))))
      then mret false else
      _ ← mem_create_session kind subject_hash token_hash detail ttl_secs;
      mret true
  end.

Definition without_hash (hash : string) (details : list SessionDetail) : list SessionDetail :=
  filter (fun d => sd_session_hash d <> hash) details.

(** The writes of a rotation of a live session. *)
Definition rotated_sessions (kind : SessionKind) (rotation : SessionRotation) (old_record : SessionRecord) (s : MemSessions) : MemSessions :=
  let old := ro_old_hash rotation in
  let new := ro_new_hash rotation in
  let record := ro_new_record rotation in
  let s := with_live (fun live => <[(kind, new) := record]> (delete (kind, old) live)) s in
  let s := with_grace <[(kind, old) := (ro_subject_hash rotation, record, new)]> s in
  let s := with_index (alter (fun details => without_hash old details ++ [detail_of new record]) (kind, ro_subject_hash rotation)) s in
  if string_is_empty (sr_family_id old_record) then s else
  let s := with_consumed <[(kind, old) := sr_family_id old_record]> s in
  with_families (alter (fun members => {[new]} ∪ (members ∖ {[old]})) (kind, sr_family_id old_record)) s.

Definition mem_rotate (kind : SessionKind) (rotation : SessionRotation) : Mem RotateOutcome :=
  _ ← modify (on_observed (saw_rotate_ttl (Some (ro_refresh_ttl rotation))));
  s ← gets im_sessions;
  let old := ro_old_hash rotation in
  match mm_sessions s !! (kind, old) with
  | Some old_record =>
      _ ← sessions_map (rotated_sessions kind rotation old_record);
      mret (Rotated old_record)
  | None =>
      match mm_grace s !! (kind, old) with
      | Some (_, recovered, _) =>
          _ ← sessions_map (with_grace (delete (kind, old)));
          if string_is_empty (sr_family_id recovered) || bool_decide (is_Some (mm_families s !! (kind, sr_family_id recovered)))
          then mret (Grace recovered) else mret Invalid
      | None =>
          match mm_consumed s !! (kind, old) with
          | Some family => mret (Reused family)
          | None => mret Invalid
          end
      end
  end.

Definition mem_find_session (kind : SessionKind) (token_hash : string) : Mem (option SessionRecord) :=
  _ ← take_armed ar_session_lookups fail_next_session_lookups (Internal "forced session lookup failure");
  gets (fun s => mm_sessions (im_sessions s) !! (kind, token_hash)).

Definition mem_list_sessions (kind : SessionKind) (subject_hash : string) : Mem (list SessionDetail) :=
  _ ← take_armed ar_session_listings fail_next_session_listings (Internal "forced session listing failure");
  gets (fun s => default [] (mm_session_index (im_sessions s) !! (kind, subject_hash))).

(** The default of the trait. *)
Definition mem_list_session_entries (kind : SessionKind) (subject_hash : string) : Mem (list SessionEntry) :=
  details ← mem_list_sessions kind subject_hash;
  mret ((fun detail => {| se_session_hash := sd_session_hash detail; se_detail := Some detail |}) <$> details).

Definition mem_revoke_session (kind : SessionKind) (subject_hash session_hash : string) : Mem unit :=
  _ ← take_forced_failure;
  index ← gets (fun s => mm_session_index (im_sessions s));
  match index !! (kind, subject_hash) with
  | None => throw SessionNotFound
  | Some details =>
      let kept := without_hash session_hash details in
      _ ← sessions_map (with_index <[(kind, subject_hash) := kept]>);
      if Nat.eqb (length kept) (length details) then throw SessionNotFound else
      sessions_map (with_live (delete (kind, session_hash)))
  end.

Definition mem_delete_grace_pointer (kind : SessionKind) (session_hash : string) : Mem unit :=
  _ ← take_forced_failure;
  sessions_map (with_grace (delete (kind, session_hash))).

Definition mem_grace_successor (kind : SessionKind) (session_hash : string) : Mem (option string) :=
  _ ← take_forced_failure;
  _ ← modify (on_observed (fun o => saw_grace_reads (ob_grace_reads o + 1) o));
  gets (fun s => snd <$> (mm_grace (im_sessions s) !! (kind, session_hash))).

(** A pointer of another account or plane. *)
Definition foreign (kind : SessionKind) (subject_hash : string) (entry : SessionKind * string * GracePointer) : Prop :=
  entry.1.1 <> kind \/ entry.2.1.1 <> subject_hash.

#[export] Instance foreign_dec kind subject_hash entry : Decision (foreign kind subject_hash entry).
Proof. unfold foreign. apply _. Defined.

Definition mem_sweep_grace_pointers (kind : SessionKind) (subject_hash : string) : Mem unit :=
  _ ← take_forced_failure;
  sessions_map (with_grace (filter (foreign kind subject_hash))).

Definition delete_all (kind : SessionKind) (hashes : list string) (live : gmap (SessionKind * string) SessionRecord) :
    gmap (SessionKind * string) SessionRecord :=
  foldl (fun live hash => delete (kind, hash) live) live hashes.

Definition mem_revoke_all (kind : SessionKind) (subject_hash : string) : Mem unit :=
  index ← gets (fun s => mm_session_index (im_sessions s));
  _ ← match index !! (kind, subject_hash) with
      | Some details =>
          _ ← sessions_map (with_index (delete (kind, subject_hash)));
          sessions_map (with_live (delete_all kind (sd_session_hash <$> details)))
      | None => mret tt
      end;
  sessions_map (with_grace (filter (foreign kind subject_hash))).

Definition mem_find_family_owner (kind : SessionKind) (family_id : string) : Mem (option SessionRecord) :=
  if string_is_empty family_id then mret None else
  s ← gets im_sessions;
  mret match mm_families s !! (kind, family_id) with
       | None => None
       | Some hashes =>
           head (filter (fun record => sr_user_id record <> "")
                        (omap (fun hash => mm_sessions s !! (kind, hash)) (hash_order hashes)))
       end.

Definition mem_revoke_family (kind : SessionKind) (family_id : string) (owner_subject_hash : option string) : Mem unit :=
  if string_is_empty family_id then mret tt else
  families ← gets (fun s => mm_families (im_sessions s));
  match families !! (kind, family_id) with
  | None => mret tt
  | Some hashes =>
      _ ← sessions_map (with_families (delete (kind, family_id)));
      _ ← sessions_map (with_live (delete_all kind (hash_order hashes)));
      match owner_subject_hash with
      | Some owner =>
          sessions_map (with_index (alter (fun details => foldl (fun details hash => without_hash hash details) details (hash_order hashes))
                                          (kind, owner)))
      | None => mret tt
      end
  end.

Definition mem_blacklist_access (jti_or_hash : string) (remaining_ttl_secs : Z) : Mem unit :=
  _ ← take_armed ar_blacklist fail_next_blacklist_writes (Internal "forced blacklist write failure");
  sessions_map (with_blacklist (union {[jti_or_hash]})).

Definition mem_is_blacklisted (jti_or_hash : string) : Mem bool :=
  gets (fun s => bool_decide (jti_or_hash ∈ mm_blacklist (im_sessions s))).

Definition mem_current_epoch (kind : SessionKind) (subject_hash : string) : Mem Z :=
  gets (fun s => default 0 (mm_epochs (im_sessions s) !! (kind, subject_hash))).

Definition mem_mark_recent_auth (user_id_hash : string) (ttl : Z) : Mem unit :=
  sessions_map (with_recent (union {[user_id_hash]})).

Definition mem_has_recent_auth (user_id_hash : string) : Mem bool :=
  gets (fun s => bool_decide (user_id_hash ∈ mm_recent_auth (im_sessions s))).

Definition mem_bump_epoch (kind : SessionKind) (subject_hash : string) : Mem Z :=
  _ ← take_armed ar_epoch_bumps fail_next_epoch_bumps (Internal "forced epoch bump failure");
  epoch ← mem_current_epoch kind subject_hash;
  _ ← sessions_map (with_epochs <[(kind, subject_hash) := epoch + 1]>);
  mret (epoch + 1).

#[export] Instance mem_session_store : SessionStore InMemoryStores := {|
  create_session := mem_create_session;
  create_recovered_session := mem_create_recovered_session;
  rotate := mem_rotate;
  find_session := mem_find_session;
  list_session_entries := mem_list_session_entries;
  list_sessions := mem_list_sessions;
  revoke_session := mem_revoke_session;
  delete_grace_pointer := mem_delete_grace_pointer;
  grace_successor := mem_grace_successor;
  sweep_grace_pointers := mem_sweep_grace_pointers;
  revoke_all := mem_revoke_all;
  find_family_owner := mem_find_family_owner;
  revoke_family := mem_revoke_family;
  blacklist_access := mem_blacklist_access;
  is_blacklisted := mem_is_blacklisted;
  current_epoch := mem_current_epoch;
  bump_epoch := mem_bump_epoch;
  mark_recent_auth := mem_mark_recent_auth;
  has_recent_auth := mem_has_recent_auth;
|}.
End sessions.

(** ** Codes, counters and tickets *)

Definition with_otps f (s : MemCodes) : MemCodes := MkMemCodes (f (mc_otps s)) (mc_resend s) (mc_brute_force s) (mc_rate_limits s) (mc_user_status s) (mc_tickets s).
Definition with_resend f (s : MemCodes) : MemCodes := MkMemCodes (mc_otps s) (f (mc_resend s)) (mc_brute_force s) (mc_rate_limits s) (mc_user_status s) (mc_tickets s).
Definition with_brute_force f (s : MemCodes) : MemCodes := MkMemCodes (mc_otps s) (mc_resend s) (f (mc_brute_force s)) (mc_rate_limits s) (mc_user_status s) (mc_tickets s).
Definition with_rate_limits f (s : MemCodes) : MemCodes := MkMemCodes (mc_otps s) (mc_resend s) (mc_brute_force s) (f (mc_rate_limits s)) (mc_user_status s) (mc_tickets s).
Definition with_user_status f (s : MemCodes) : MemCodes := MkMemCodes (mc_otps s) (mc_resend s) (mc_brute_force s) (mc_rate_limits s) (f (mc_user_status s)) (mc_tickets s).
Definition with_tickets f (s : MemCodes) : MemCodes := MkMemCodes (mc_otps s) (mc_resend s) (mc_brute_force s) (mc_rate_limits s) (mc_user_status s) (f (mc_tickets s)).
Definition with_reset_tokens f (s : MemTokens) : MemTokens := MkMemTokens (f (mt_reset_tokens s)) (mt_reset_verified s) (mt_email_changes s) (mt_invitations s) (mt_invitation_index s) (mt_oauth_state s).
Definition with_reset_verified f (s : MemTokens) : MemTokens := MkMemTokens (mt_reset_tokens s) (f (mt_reset_verified s)) (mt_email_changes s) (mt_invitations s) (mt_invitation_index s) (mt_oauth_state s).
Definition with_email_changes f (s : MemTokens) : MemTokens := MkMemTokens (mt_reset_tokens s) (mt_reset_verified s) (f (mt_email_changes s)) (mt_invitations s) (mt_invitation_index s) (mt_oauth_state s).
Definition with_invitations f (s : MemTokens) : MemTokens := MkMemTokens (mt_reset_tokens s) (mt_reset_verified s) (mt_email_changes s) (f (mt_invitations s)) (mt_invitation_index s) (mt_oauth_state s).
Definition with_invitation_index f (s : MemTokens) : MemTokens := MkMemTokens (mt_reset_tokens s) (mt_reset_verified s) (mt_email_changes s) (mt_invitations s) (f (mt_invitation_index s)) (mt_oauth_state s).
Definition with_oauth_state f (s : MemTokens) : MemTokens := MkMemTokens (mt_reset_tokens s) (mt_reset_verified s) (mt_email_changes s) (mt_invitations s) (mt_invitation_index s) (f (mt_oauth_state s)).
Definition with_setup f (s : MemMfa) : MemMfa := MkMemMfa (f (mf_setup s)) (mf_temp s) (mf_replay s) (mf_recovery_claims s) (mf_locks s).
Definition with_temp f (s : MemMfa) : MemMfa := MkMemMfa (mf_setup s) (f (mf_temp s)) (mf_replay s) (mf_recovery_claims s) (mf_locks s).
Definition with_replay f (s : MemMfa) : MemMfa := MkMemMfa (mf_setup s) (mf_temp s) (f (mf_replay s)) (mf_recovery_claims s) (mf_locks s).
Definition with_recovery_claims f (s : MemMfa) : MemMfa := MkMemMfa (mf_setup s) (mf_temp s) (mf_replay s) (f (mf_recovery_claims s)) (mf_locks s).
Definition with_locks f (s : MemMfa) : MemMfa := MkMemMfa (mf_setup s) (mf_temp s) (mf_replay s) (mf_recovery_claims s) (f (mf_locks s)).

Definition mem_otp_put (purpose : OtpPurpose) (identifier code : string) (ttl_secs : Z) : Mem unit :=
  _ ← take_armed ar_otp_puts fail_next_otp_puts (Internal "otp store unavailable");
  modify (on_codes (with_otps <[(purpose, identifier) := (code, 0)]>)).

Definition mem_otp_verify (purpose : OtpPurpose) (identifier code : string) (max_attempts : Z) : Mem unit :=
  otps ← gets (fun s => mc_otps (im_codes s));
  match otps !! (purpose, identifier) with
  | None => throw OtpExpired
  | Some (stored, attempts) =>
      if bool_decide (max_attempts <= attempts) then
        _ ← modify (on_codes (with_otps (delete (purpose, identifier))));
        throw OtpMaxAttempts
      else if constant_time_eq stored code then modify (on_codes (with_otps (delete (purpose, identifier))))
      else
        _ ← modify (on_codes (with_otps <[(purpose, identifier) := (stored, attempts + 1)]>));
        throw OtpInvalid
  end.

(** [HashSet::insert] answers whether the value was new. *)
Definition mem_try_begin_resend (purpose : OtpPurpose) (identifier : string) (cooldown_secs : Z) : Mem bool :=
  resend ← gets (fun s => mc_resend (im_codes s));
  _ ← modify (on_codes (with_resend (union {[(purpose, identifier)]})));
  mret (bool_decide ((purpose, identifier) ∉ resend)).

Definition expire_resend_cooldown (purpose : OtpPurpose) (identifier : string) : Mem bool :=
  resend ← gets (fun s => mc_resend (im_codes s));
  _ ← modify (on_codes (with_resend (fun held => held ∖ {[(purpose, identifier)]})));
  mret (bool_decide ((purpose, identifier) ∈ resend)).

Definition mem_is_locked (identifier : string) (max_attempts : Z) : Mem bool :=
  _ ← take_forced_lockout_read_failure;
  counters ← gets (fun s => mc_brute_force (im_codes s));
  mret match counters !! identifier with Some (count, _) => bool_decide (max_attempts <= count) | None => false end.

Definition mem_record_failure (identifier : string) (window_secs : Z) : Mem Z :=
  counters ← gets (fun s => mc_brute_force (im_codes s));
  let '(count, window) := default (0, window_secs) (counters !! identifier) in
  _ ← modify (on_codes (with_brute_force <[identifier := (count + 1, window)]>));
  mret (count + 1).

Definition mem_reset (identifier : string) : Mem unit := modify (on_codes (with_brute_force (delete identifier))).

Definition mem_remaining_lockout_secs (identifier : string) : Mem Z :=
  _ ← take_armed ar_lockout_ttl fail_next_lockout_ttl_reads (Internal "brute-force store unavailable");
  counters ← gets (fun s => mc_brute_force (im_codes s));
  mret match counters !! identifier with Some (_, window) => window | None => 0 end.

Definition mem_mint `{Host} (draw : nat) (snapshot : WsTicketSnapshot) (ttl_secs : Z) : Mem string :=
  let ticket := generate_secure_token draw 32 in
  _ ← modify (on_observed (fun o => saw_tickets (ob_ticket_counter o + 1) o));
  _ ← modify (on_codes (with_tickets <[ticket := snapshot]>));
  mret ticket.

Definition mem_redeem (ticket : string) : Mem (option WsTicketSnapshot) :=
  tickets ← gets (fun s => mc_tickets (im_codes s));
  _ ← modify (on_codes (with_tickets (delete ticket)));
  mret (tickets !! ticket).

(** A fixed window, opened by its first request. *)
Definition mem_hit (route bucket_hash : string) (window_secs : Z) : Mem Z :=
  now ← gets im_clock;
  counters ← gets (fun s => mc_rate_limits (im_codes s));
  let '(count, opened) := default (0, now) (counters !! (route, bucket_hash)) in
  let '(count, opened) := if bool_decide (window_secs * 1000 <= now - opened) then (0, now) else (count, opened) in
  _ ← modify (on_codes (with_rate_limits <[(route, bucket_hash) := (count + 1, opened)]>));
  mret (count + 1).

Definition STATUS : string := "status".
Definition VERIFIED : string := "verified".

Definition read_fact (subject_hash fact : string) : Mem (option string) :=
  now ← gets im_clock;
  entries ← gets (fun s => mc_user_status (im_codes s));
  match entries !! (subject_hash, fact) with
  | Some (value, expires) =>
      if bool_decide (now < expires) then mret (Some value) else
      _ ← modify (on_codes (with_user_status (delete (subject_hash, fact))));
      mret None
  | None => mret None
  end.

Definition write_fact (subject_hash fact value : string) (ttl_secs : Z) : Mem unit :=
  now ← gets im_clock;
  modify (on_codes (with_user_status <[(subject_hash, fact) := (value, now + ttl_secs * 1000)]>)).

Definition mem_get_status (subject_hash : string) : Mem (option string) := read_fact subject_hash STATUS.
Definition mem_get_verified (subject_hash : string) : Mem (option bool) :=
  value ← read_fact subject_hash VERIFIED;
  mret ((fun value => negb (bool_decide (value = "0"))) <$> value).
Definition mem_put_status (subject_hash status : string) (ttl_secs : Z) : Mem unit := write_fact subject_hash STATUS status ttl_secs.
Definition mem_put_verified (subject_hash : string) (verified : bool) (ttl_secs : Z) : Mem unit :=
  write_fact subject_hash VERIFIED (if verified then "1" else "0") ttl_secs.
Definition mem_invalidate (subject_hash : string) : Mem unit :=
  modify (on_codes (with_user_status (fun entries => delete (subject_hash, STATUS) (delete (subject_hash, VERIFIED) entries)))).

(** ** Stored tokens *)

Section tokens.
Context `{Crypto}.

Definition invitee_key (tenant_id invitee_hash : string) : string := tenant_id +:+ ":" +:+ invitee_hash.
Definition token_key (token : string) : string := to_hex (sha256 token).

(** Remove an entry and answer it. *)
Definition take_value {A} (read : MemTokens -> gmap string A) (write : (gmap string A -> gmap string A) -> MemTokens -> MemTokens)
    (key : string) : Mem (option A) :=
  held ← gets (fun s => read (im_tokens s));
  _ ← modify (on_tokens (write (delete key)));
  mret (held !! key).

Definition mem_put_email_change (token : string) (context : EmailChangeContext) (ttl_secs : Z) : Mem unit :=
  modify (on_tokens (with_email_changes <[token_key token := context]>)).
Definition mem_consume_email_change (token : string) : Mem (option EmailChangeContext) :=
  take_value mt_email_changes with_email_changes (token_key token).
Definition mem_put_token (token : string) (context : ResetContext) (ttl_secs : Z) : Mem unit :=
  modify (on_tokens (with_reset_tokens <[token_key token := context]>)).
Definition mem_consume_token (token : string) : Mem (option ResetContext) := take_value mt_reset_tokens with_reset_tokens (token_key token).
Definition mem_delete_token (token : string) : Mem unit :=
  _ ← take_forced_failure;
  modify (on_tokens (with_reset_tokens (delete (token_key token)))).
Definition mem_put_verified_token (token : string) (context : ResetContext) (ttl_secs : Z) : Mem unit :=
  modify (on_tokens (with_reset_verified <[token_key token := context]>)).
Definition mem_consume_verified (token : string) : Mem (option ResetContext) :=
  take_value mt_reset_verified with_reset_verified (token_key token).

Definition mem_put_invitation (token : string) (invitation : StoredInvitation) (ttl_secs : Z) : Mem unit :=
  modify (on_tokens (with_invitations <[token_key token := invitation]>)).
Definition mem_consume_invitation (token : string) : Mem (option StoredInvitation) :=
  take_value mt_invitations with_invitations (token_key token).
Definition mem_put_invitation_index (tenant_id email token_hash : string) (ttl_secs : Z) : Mem unit :=
  modify (on_tokens (with_invitation_index <[invitee_key tenant_id email := token_hash]>)).
Definition mem_claim_invitation_index (tenant_id email token_hash : string) (ttl_secs : Z) (expected : option string) : Mem bool :=
  index ← gets (fun s => mt_invitation_index (im_tokens s));
  if negb (bool_decide (index !! invitee_key tenant_id email = expected)) then mret false else
  _ ← mem_put_invitation_index tenant_id email token_hash ttl_secs;
  mret true.
Definition mem_read_invitation_index (tenant_id email : string) : Mem (option string) :=
  gets (fun s => mt_invitation_index (im_tokens s) !! invitee_key tenant_id email).
Definition mem_take_invitation_index (tenant_id email : string) : Mem (option string) :=
  take_value mt_invitation_index with_invitation_index (invitee_key tenant_id email).
Definition mem_read_invitation_by_hash (token_hash : string) : Mem (option StoredInvitation) :=
  gets (fun s => mt_invitations (im_tokens s) !! token_hash).
Definition mem_delete_invitation_by_hash (token_hash : string) : Mem bool :=
  taken ← take_value mt_invitations with_invitations token_hash;
  mret (bool_decide (is_Some taken)).
End tokens.

Definition mem_put_state (state_hash payload : string) (ttl_secs : Z) : Mem unit :=
  modify (on_tokens (with_oauth_state <[state_hash := payload]>)).
Definition mem_take_state (state_hash : string) : Mem (option string) := take_value mt_oauth_state with_oauth_state state_hash.

(** ** The second factor *)

Definition mem_put_setup_nx (user_id_hash value : string) (ttl : Z) : Mem bool :=
  setups ← gets (fun s => mf_setup (im_mfa s));
  match setups !! user_id_hash with
  | Some _ => mret false
  | None => _ ← modify (on_mfa (with_setup <[user_id_hash := value]>)); mret true
  end.
Definition mem_get_setup (user_id_hash : string) : Mem (option string) := gets (fun s => mf_setup (im_mfa s) !! user_id_hash).
Definition mem_take_setup (user_id_hash : string) : Mem (option string) :=
  setups ← gets (fun s => mf_setup (im_mfa s));
  _ ← modify (on_mfa (with_setup (delete user_id_hash)));
  mret (setups !! user_id_hash).

Definition mem_put_temp (jti_hash user_id : string) (ttl : Z) : Mem unit := modify (on_mfa (with_temp <[jti_hash := user_id]>)).
Definition mem_get_temp (jti_hash : string) : Mem (option string) := gets (fun s => mf_temp (im_mfa s) !! jti_hash).
Definition mem_del_temp (jti_hash : string) : Mem bool :=
  temp ← mem_get_temp jti_hash;
  _ ← modify (on_mfa (with_temp (delete jti_hash)));
  mret (bool_decide (is_Some temp)).

Definition mem_mark_totp_used (replay_id : string) (ttl : Z) : Mem bool :=
  replay ← gets (fun s => mf_replay (im_mfa s));
  _ ← modify (on_mfa (with_replay (union {[replay_id]})));
  mret (bool_decide (replay_id ∉ replay)).
Definition mem_claim_recovery_code (claim_id : string) (ttl : Z) : Mem bool :=
  claims ← gets (fun s => mf_recovery_claims (im_mfa s));
  _ ← modify (on_mfa (with_recovery_claims (union {[claim_id]})));
  mret (bool_decide (claim_id ∉ claims)).

(** What a test arranged to happen at the moment the lock is granted acts outside
    the stores. *)
Definition mem_acquire_mfa_lock (lock_id token : string) (ttl : Z) : Mem bool :=
  locks ← gets (fun s => mf_locks (im_mfa s));
  match locks !! lock_id with
  | Some _ => mret false
  | None => _ ← modify (on_mfa (with_locks <[lock_id := token]>)); mret true
  end.
Definition mem_release_mfa_lock (lock_id token : string) : Mem unit :=
  locks ← gets (fun s => mf_locks (im_mfa s));
  if bool_decide (locks !! lock_id = Some token) then modify (on_mfa (with_locks (delete lock_id))) else mret tt.

Definition mem_challenge_consume (replay_id jti_hash : string) (ttl : Z) : Mem bool :=
  mfa ← gets im_mfa;
  if bool_decide (replay_id ∈ mf_replay mfa) then mret false else
  match mf_temp mfa !! jti_hash with
  | Some _ =>
      _ ← modify (on_mfa (with_replay (union {[replay_id]})));
      _ ← modify (on_mfa (with_temp (delete jti_hash)));
      mret true
  | None => mret false
  end.

(** ** The interfaces *)

#[export] Instance mem_otp_store : OtpStore InMemoryStores :=
  {| os_put := mem_otp_put; os_verify := mem_otp_verify; os_try_begin_resend := mem_try_begin_resend |}.

#[export] Instance mem_brute_force_store : BruteForceStore InMemoryStores :=
  {| bf_is_locked := mem_is_locked; bf_record_failure := mem_record_failure; bf_reset := mem_reset;
     bf_remaining_lockout_secs := mem_remaining_lockout_secs |}.

#[export] Instance mem_ws_ticket_store `{Host} : WsTicketStore InMemoryStores := {| wt_mint := mem_mint; wt_redeem := mem_redeem |}.

#[export] Instance mem_rate_limit_store : RateLimitStore InMemoryStores := {| rl_hit := mem_hit |}.

#[export] Instance mem_user_status_cache : UserStatusCacheStore InMemoryStores :=
  {| us_get_status := mem_get_status; us_put_status := mem_put_status; us_get_verified := mem_get_verified;
     us_put_verified := mem_put_verified; us_invalidate := mem_invalidate |}.

#[export] Instance mem_password_reset_store `{Crypto} : PasswordResetStore InMemoryStores :=
  {| pr_put_token := mem_put_token; pr_consume_token := mem_consume_token; pr_delete_token := mem_delete_token;
     pr_put_verified := mem_put_verified_token; pr_consume_verified := mem_consume_verified;
     pr_put_email_change := mem_put_email_change; pr_consume_email_change := mem_consume_email_change |}.

#[export] Instance mem_invitation_store `{Crypto} : InvitationStore InMemoryStores :=
  {| is_put_invitation := mem_put_invitation; is_consume_invitation := mem_consume_invitation;
     is_put_index := mem_put_invitation_index; is_claim_index := mem_claim_invitation_index;
     is_read_index := mem_read_invitation_index; is_take_index := mem_take_invitation_index;
     is_read_by_hash := mem_read_invitation_by_hash; is_delete_by_hash := mem_delete_invitation_by_hash |}.

#[export] Instance mem_oauth_state_store : OAuthStateStore InMemoryStores :=
  {| oa_put_state := mem_put_state; oa_take_state := mem_take_state |}.

#[export] Instance mem_mfa_store : MfaStore InMemoryStores :=
  {| mfa_put_setup_nx := mem_put_setup_nx; mfa_get_setup := mem_get_setup; mfa_take_setup := mem_take_setup;
     mfa_put_temp := mem_put_temp; mfa_get_temp := mem_get_temp; mfa_del_temp := mem_del_temp;
     mfa_mark_totp_used := mem_mark_totp_used; mfa_claim_recovery_code := mem_claim_recovery_code;
     mfa_acquire_lock := mem_acquire_mfa_lock; mfa_release_lock := mem_release_mfa_lock;
     mfa_challenge_consume := mem_challenge_consume |}.
