(* ===== verification/InMemoryClaims.v ===== *)
(** * The in-memory sessions against the contract

    The in-memory session store beside the contract the Redis store refines
    ([SessionSpec]): one relation between its maps and an abstract store whose
    expiries are forgotten, one lemma per call, and the theorem on conversations.
    What a test is told is what the contract allows and what the Redis store
    answers, as long as each session has a fresh hash and no rotation meets one of
    the two cases the maps answer otherwise, which [InMemorySample] exhibits.  No
    time passes between the calls: what expires in Redis stays in the maps. *)

From S2P Require Import Prelude Errors Types Crypto Redis RedisSession SessionSpec RedisRefine RefineRevoke RefineListing SessionStore Lineage RedisLife RedisContract InMemory.
From stdpp Require Import list.
#[local] Open Scope Z_scope.

(** ** Maps and updates *)

Section maps.
Context {A : Type}.
Implicit Types (m : gmap (SessionKind * string) A) (k : SessionKind) (h : string).

Lemma insert_at m k h (v : A) k' h' : <[(k, h) := v]> m !! (k', h') = if decide (k = k' /\ h = h') then Some v else m !! (k', h').
Proof.
  case_decide as Hd; [destruct Hd as [<- <-]; apply lookup_insert_eq|]. apply lookup_insert_ne. intros [= -> ->]. by apply Hd.
Qed.

Lemma delete_at m k h k' h' : delete (k, h) m !! (k', h') = if decide (k = k' /\ h = h') then None else m !! (k', h').
Proof.
  case_decide as Hd; [destruct Hd as [<- <-]; apply lookup_delete_eq|]. apply lookup_delete_ne. intros [= -> ->]. by apply Hd.
Qed.

Lemma alter_at m (f : A -> A) k h k' h' :
  alter f (k, h) m !! (k', h') = if decide (k = k' /\ h = h') then f <$> m !! (k', h') else m !! (k', h').
Proof.
  case_decide as Hd; [destruct Hd as [<- <-]; apply lookup_alter_eq|]. apply lookup_alter_ne. intros [= -> ->]. by apply Hd.
Qed.
End maps.

Lemma delete_all_at (kind : SessionKind) (l : list string) (live : gmap (SessionKind * string) SessionRecord) (k : SessionKind) (h : string) :
  delete_all kind l live !! (k, h) = if decide (kind = k /\ h ∈ l) then None else live !! (k, h).
Proof.
  unfold delete_all. revert live. induction l as [|x l IH]; intros live; cbn [foldl].
  - rewrite decide_False; [done|]. by intros [_ ?%elem_of_nil].
  - rewrite IH, delete_at. repeat case_decide; try done; set_solver.
Qed.

Lemma members_add (o : option (gset string * Z)) (x : string) (t : Z) : members_of (add_member o x t) = {[x]} ∪ members_of o.
Proof. done. Qed.

(** A set that is there has members. *)
Definition filled (o : option (gset string * Z)) : Prop := forall m t, o = Some (m, t) -> m <> ∅.

Lemma filled_add (o : option (gset string * Z)) (x : string) (t : Z) : filled (add_member o x t).
Proof. intros m t' [= <- <-]. set_solver. Qed.

Lemma filled_drops (o : option (gset string * Z)) (xs : gset string) : filled (drop_members o xs).
Proof. intros m t. destruct o as [[m' t']|]; cbn; [|done]. case_bool_decide; [done|]. by intros [= <- <-]. Qed.

Lemma filled_drop (o : option (gset string * Z)) (x : string) : filled (drop_member o x).
Proof. apply (filled_drops o {[x]}). Qed.

Lemma drop_none (o : option (gset string * Z)) : filled o -> drop_members o ∅ = o.
Proof.
  intros Hf. destruct o as [[m t]|]; [|done]. cbn. assert (Hm : m ∖ ∅ = m) by set_solver. rewrite Hm.
  rewrite bool_decide_eq_false_2; [done|]. by eapply Hf.
Qed.

Lemma filled_member (o : option (gset string * Z)) (x : string) : x ∈ members_of o -> is_Some o.
Proof. destruct o; [done|]. by intros ?%elem_of_empty. Qed.

(** ** The hashes an index names *)

Section hashes.
Implicit Types (details : list SessionDetail).

Lemma without_hash_in (h h' : string) details :
  h' ∈ sd_session_hash <$> without_hash h details <-> h' ∈ sd_session_hash <$> details /\ h' <> h.
Proof.
  unfold without_hash. rewrite !list_elem_of_fmap. split.
  - intros (d & -> & [Hd Hin]%list_elem_of_filter). split; [by exists d | done].
  - intros [(d & -> & Hin) Hne]. exists d. split; [done|]. by apply list_elem_of_filter.
Qed.

Lemma without_hash_distinct (h : string) details : NoDup (sd_session_hash <$> details) -> NoDup (sd_session_hash <$> without_hash h details).
Proof.
  unfold without_hash. induction details as [|d details IH]; [done|]. cbn [fmap list_fmap]. intros [Hd Hn]%NoDup_cons. rewrite filter_cons.
  case_decide; cbn [fmap list_fmap]; [|by apply IH]. apply NoDup_cons. split; [|by apply IH].
  intros Hin. apply Hd. by apply (without_hash_in h) in Hin as [? _].
Qed.

Lemma without_hash_absent (h : string) details : h ∉ sd_session_hash <$> details -> without_hash h details = details.
Proof.
  unfold without_hash. induction details as [|d details IH]; [done|]. cbn [fmap list_fmap]. rewrite elem_of_cons. intros Hh.
  rewrite filter_cons, decide_True by (intros Hx; apply Hh; left; by rewrite Hx). f_equal. apply IH. intros Hx. apply Hh. by right.
Qed.

Lemma without_hash_length (h : string) details :
  Nat.eqb (length (without_hash h details)) (length details) = negb (bool_decide (h ∈ sd_session_hash <$> details)).
Proof.
  unfold without_hash. induction details as [|d details IH]; [done|]. rewrite filter_cons. cbn [fmap list_fmap].
  destruct (decide (sd_session_hash d <> h)) as [Hd|Hd].
  - cbn [length Nat.eqb]. rewrite IH. f_equal. apply bool_decide_ext. rewrite elem_of_cons. naive_solver.
  - apply dec_stable in Hd. rewrite bool_decide_eq_true_2 by (rewrite elem_of_cons; by left). cbn.
    apply Nat.eqb_neq. pose proof (length_filter (fun d => sd_session_hash d <> h) details). lia.
Qed.

Lemma without_hashes_in (l : list string) (h : string) details :
  h ∈ sd_session_hash <$> foldl (fun details hash => without_hash hash details) details l <->
  h ∈ sd_session_hash <$> details /\ h ∉ l.
Proof.
  revert details. induction l as [|x l IH]; intros details; cbn [foldl]; [set_solver|].
  rewrite IH, without_hash_in, elem_of_cons. naive_solver.
Qed.

Lemma without_hashes_distinct (l : list string) details :
  NoDup (sd_session_hash <$> details) -> NoDup (sd_session_hash <$> foldl (fun details hash => without_hash hash details) details l).
Proof. revert details. induction l as [|x l IH]; intros details Hn; [done|]. cbn. apply IH. by apply without_hash_distinct. Qed.
End hashes.

(** ** Calls and what the contract allows *)

Inductive Call : Set :=
| CCreate (k : SessionKind) (subject h : string) (rec : SessionRecord)
| CRecover (k : SessionKind) (subject h : string) (rec : SessionRecord)
| CRotate (k : SessionKind) (ro : SessionRotation)
| CFind (k : SessionKind) (h : string)
| CList (k : SessionKind) (subject : string)
| CRevoke (k : SessionKind) (subject h : string)
| CDeleteGrace (k : SessionKind) (h : string)
| CSuccessor (k : SessionKind) (h : string)
| CSweep (k : SessionKind) (subject : string)
| CRevokeAll (k : SessionKind) (subject : string)
| CFindOwner (k : SessionKind) (family : string)
| CRevokeFamily (k : SessionKind) (family : string) (owner : option string)
| CBlacklist (j : string) (remaining : Z)
| CIsBlacklisted (j : string)
| CEpoch (k : SessionKind) (subject : string)
| CBump (k : SessionKind) (subject : string)
| CMark (u : string) (lifetime : Z)
| CHas (u : string).

Inductive Answer : Set :=
| AnUnit
| AnBool (b : bool)
| AnOutcome (o : RotateOutcome)
| AnRecord (o : option SessionRecord)
| AnEntries (es : list SessionEntry)
| AnHash (o : option string)
| AnEpoch (n : Z).

Definition call {S} `{SessionStore S} (ttl : Z) (c : Call) : M S AuthError Answer :=
  match c with
  | CCreate k subject h rec => _ ← create_session k subject h rec ttl; mret AnUnit
  | CRecover k subject h rec => b ← create_recovered_session k subject h rec ttl; mret (AnBool b)
  | CRotate k ro => o ← SessionStore.rotate k ro; mret (AnOutcome o)
  | CFind k h => o ← find_session k h; mret (AnRecord o)
  | CList k subject => es ← list_session_entries k subject; mret (AnEntries es)
  | CRevoke k subject h => _ ← revoke_session k subject h; mret AnUnit
  | CDeleteGrace k h => _ ← delete_grace_pointer k h; mret AnUnit
  | CSuccessor k h => o ← grace_successor k h; mret (AnHash o)
  | CSweep k subject => _ ← sweep_grace_pointers k subject; mret AnUnit
  | CRevokeAll k subject => _ ← revoke_all k subject; mret AnUnit
  | CFindOwner k family => o ← find_family_owner k family; mret (AnRecord o)
  | CRevokeFamily k family o => _ ← revoke_family k family o; mret AnUnit
  | CBlacklist j remaining => _ ← blacklist_access j remaining; mret AnUnit
  | CIsBlacklisted j => b ← is_blacklisted j; mret (AnBool b)
  | CEpoch k subject => n ← current_epoch k subject; mret (AnEpoch n)
  | CBump k subject => n ← bump_epoch k subject; mret (AnEpoch n)
  | CMark u lifetime => _ ← mark_recent_auth u lifetime; mret AnUnit
  | CHas u => b ← has_recent_auth u; mret (AnBool b)
  end.

(** What the contract lets a store answer, and what it is afterwards. *)
Inductive contract (ttl : Z) (a : AStore) : Call -> result AuthError Answer -> AStore -> Prop :=
| CoCreate k subject h rec : contract ttl a (CCreate k subject h rec) (Ok AnUnit) (a_create k subject h rec ttl a)
| CoRecover k subject h rec :
    contract ttl a (CRecover k subject h rec) (Ok (AnBool (a_create_recovered k subject h rec ttl a).1))
      (a_create_recovered k subject h rec ttl a).2
| CoRotate k ro : contract ttl a (CRotate k ro) (Ok (AnOutcome (a_rotate k ro a).1)) (a_rotate k ro a).2
| CoFind k h : contract ttl a (CFind k h) (Ok (AnRecord (a_find k h a))) a
| CoList k subject es a' : listing k subject a es a' -> contract ttl a (CList k subject) (Ok (AnEntries es)) a'
| CoRevoke k subject h :
    contract ttl a (CRevoke k subject h) (if (a_revoke k subject h a).1 then Ok AnUnit else Err SessionNotFound) (a_revoke k subject h a).2
| CoDeleteGrace k h : contract ttl a (CDeleteGrace k h) (Ok AnUnit) (a_delete_grace k h a)
| CoSuccessor k h : contract ttl a (CSuccessor k h) (Ok (AnHash (a_grace_successor k h a))) a
| CoSweep k subject : contract ttl a (CSweep k subject) (Ok AnUnit) (a_sweep_grace k subject a)
| CoRevokeAll k subject : contract ttl a (CRevokeAll k subject) (Ok AnUnit) (a_revoke_all k subject a)
| CoFindOwner k family o : family_owner k family a o -> contract ttl a (CFindOwner k family) (Ok (AnRecord o)) a
| CoRevokeFamily k family o : contract ttl a (CRevokeFamily k family o) (Ok AnUnit) (a_revoke_family k family o a)
| CoBlacklist j remaining : contract ttl a (CBlacklist j remaining) (Ok AnUnit) (a_blacklist j remaining a)
| CoIsBlacklisted j : contract ttl a (CIsBlacklisted j) (Ok (AnBool (a_is_blacklisted j a))) a
| CoEpoch k subject : contract ttl a (CEpoch k subject) (Ok (AnEpoch (a_current_epoch k subject a))) a
| CoBump k subject : contract ttl a (CBump k subject) (Ok (AnEpoch (a_bump_epoch k subject a).1)) (a_bump_epoch k subject a).2
| CoMark u lifetime : contract ttl a (CMark u lifetime) (Ok AnUnit) (a_mark_recent u lifetime a)
| CoHas u : contract ttl a (CHas u) (Ok (AnBool (a_has_recent u a))) a.

Inductive dialogue (ttl : Z) : AStore -> list Call -> list (result AuthError Answer) -> Prop :=
| DiNil a : dialogue ttl a [] []
| DiCons a c r a' cs rs : contract ttl a c r a' -> dialogue ttl a' cs rs -> dialogue ttl a (c :: cs) (r :: rs).

(** The answers of a store to one call after another. *)
Fixpoint answers_to {S} `{SessionStore S} (ttl : Z) (calls : list Call) (s : S) : list (result AuthError Answer) :=
  match calls with
  | [] => []
  | c :: calls => let '(r, s) := call ttl c s in r :: answers_to ttl calls s
  end.

(** ** The relation *)

Section simulation.
Context `{HashOrder, !HashOrderLaws} (owner : SessionKind -> SessionRecord -> string) (ttl : Z).

(** The contract's store after a call that the maps answer alike. *)
Definition after (c : Call) (a : AStore) : AStore :=
  match c with
  | CCreate k subject h rec => a_create k subject h rec ttl a
  | CRecover k subject h rec => (a_create_recovered k subject h rec ttl a).2
  | CRotate k ro => (a_rotate k ro a).2
  | CRevoke k subject h => (a_revoke k subject h a).2
  | CDeleteGrace k h => a_delete_grace k h a
  | CSweep k subject => a_sweep_grace k subject a
  | CRevokeAll k subject => a_revoke_all k subject a
  | CRevokeFamily k family o => a_revoke_family k family o a
  | CBlacklist j remaining => a_blacklist j remaining a
  | CBump k subject => (a_bump_epoch k subject a).2
  | CMark u lifetime => a_mark_recent u lifetime a
  | _ => a
  end.

Definition files (a : AStore) (k : SessionKind) (s h : string) : Prop :=
  live_member k h ∈ members_of (a_index a k s) \/ grace_member k h ∈ members_of (a_index a k s).

Definition unfiled (a : AStore) (k : SessionKind) (h : string) : Prop := forall s, ~ files a k s h.

(** What the engine and its callers ask for, and no rotation into either of the two
    cases the maps answer otherwise: no grace window, or a recovery whose successor
    is gone. *)
Definition servable (a : AStore) (c : Call) : Prop :=
  match c with
  | CCreate k subject h rec => subject = owner k rec /\ unfiled a k h
  | CRecover k subject h rec => subject = owner k rec /\ unfiled a k h /\ is_Some (a_index a k subject)
  | CRotate k ro =>
      admissible owner ttl a (OpRotate k ro) /\ unfiled a k (ro_new_hash ro) /\ is_hash_shape (ro_new_hash ro) = true /\
      0 < ro_grace_ttl ro /\
      (a_live a k (ro_old_hash ro) = None -> forall successor rec t, a_grace a k (ro_old_hash ro) = Some (successor, rec, t) ->
         is_Some (a_live a k successor))
  | CBlacklist j remaining => 0 < remaining
  | CBump k subject => a_current_epoch k subject a < i64_max
  | CMark u lifetime => 0 < lifetime
  | _ => True
  end.

Fixpoint all_servable (a : AStore) (calls : list Call) : Prop :=
  match calls with [] => True | c :: calls => servable a c /\ all_servable (after c a) calls end.

(** What holds of the contract's stores: the life of [Lineage], one account per
    hash, no empty index, and successors of the shape of a hash. *)
Record orderly (a : AStore) : Prop := {
  ord_sound : sound owner ttl a;
  ord_one k h s s' : files a k s h -> files a k s' h -> s = s';
  ord_filled k s : filled (a_index a k s);
  ord_shape k h successor rec t : a_grace a k h = Some (successor, rec, t) -> is_hash_shape successor = true;
}.

Definition hashes (m : MemSessions) (k : SessionKind) (s : string) : list string :=
  sd_session_hash <$> default [] (mm_session_index m !! (k, s)).

(** The maps hold what the contract's store holds, less its expiries.  An index the
    contract has the maps have too; theirs may outlast it, empty. *)
Record mirrors (m : MemSessions) (a : AStore) : Prop := {
  mir_live k h : mm_sessions m !! (k, h) = fst <$> a_live a k h;
  mir_grace k h : mm_grace m !! (k, h) = (fun '(successor, rec, _) => (owner k rec, rec, successor)) <$> a_grace a k h;
  mir_consumed k h : mm_consumed m !! (k, h) = fst <$> a_consumed a k h;
  mir_family k f : mm_families m !! (k, f) = fst <$> a_family a k f;
  mir_index k s h : h ∈ hashes m k s <-> live_member k h ∈ members_of (a_index a k s);
  mir_keyed k s : is_Some (a_index a k s) -> is_Some (mm_session_index m !! (k, s));
  mir_distinct k s : NoDup (hashes m k s);
  mir_epoch k s : mm_epochs m !! (k, s) = fst <$> a_epoch a k s;
  mir_revoked j : j ∈ mm_blacklist m <-> is_Some (a_revoked a j);
  mir_recent u : u ∈ mm_recent_auth m <-> is_Some (a_recent a u);
}.

(** ** The contract's side *)

Lemma orderly_shrinks (a a' : AStore) :
  orderly a -> sound owner ttl a' ->
  (forall k s, members_of (a_index a' k s) ⊆ members_of (a_index a k s)) -> (forall k s, filled (a_index a' k s)) ->
  (forall k h v, a_grace a' k h = Some v -> a_grace a k h = Some v) -> orderly a'.
Proof.
  intros [Hs Ho Hf Hh] Hs' Hi Hf' Hg. split; [done | | done |].
  - intros k h s s' Hfs Hfs'. assert (Hsub : forall x, files a' k x h -> files a k x h).
    { intros x [Hx|Hx]; [left | right]; by apply Hi. }
    apply (Ho k h); by apply Hsub.
  - intros k h successor rec t Hx. by apply Hg, Hh in Hx.
Qed.

(** Filing one more hash under an account. *)
Lemma orderly_grows (a a' : AStore) (k : SessionKind) (subject : string) (added : string -> Prop) :
  orderly a -> sound owner ttl a' ->
  (forall k' s h, files a' k' s h -> files a k' s h \/ k' = k /\ s = subject /\ added h) ->
  (forall h s, added h -> files a k s h -> s = subject) -> (forall k s, filled (a_index a' k s)) ->
  (forall k h successor rec t, a_grace a' k h = Some (successor, rec, t) -> is_hash_shape successor = true) -> orderly a'.
Proof.
  intros [Hs Ho Hf Hh] Hs' Hfiles Hadded Hf' Hg. split; try done. intros k' h s s' H1 H2.
  apply Hfiles in H1 as [H1|(E1 & E2 & H1)]; apply Hfiles in H2 as [H2|(E3 & E4 & H2)]; subst; try done.
  - by apply (Ho k' h).
  - by apply (Hadded h).
  - symmetry. by apply (Hadded h).
Qed.

Lemma create_index (k k' : SessionKind) (subject h s : string) (rec : SessionRecord) (a : AStore) :
  a_index (a_create k subject h rec ttl a) k' s =
  (if decide (k = k' /\ subject = s) then add_member (a_index a k subject) (live_member k h) (until ttl a) else a_index a k' s).
Proof. unfold a_create, family_add. by destruct (string_is_empty _). Qed.

Lemma create_grace (k k' : SessionKind) (subject h s : string) (rec : SessionRecord) (a : AStore) :
  a_grace (a_create k subject h rec ttl a) k' s = a_grace a k' s.
Proof. unfold a_create, family_add. by destruct (string_is_empty _). Qed.

Lemma create_orderly (k : SessionKind) (h : string) (rec : SessionRecord) (a : AStore) :
  orderly a -> unfiled a k h -> orderly (a_create k (owner k rec) h rec ttl a).
Proof.
  intros Ho Hf. apply (orderly_grows a _ k (owner k rec) (eq h)); [done | by apply create_sound, ord_sound | | | |].
  - unfold files. intros k' s h'. rewrite create_index. case_decide as Hd; [|by left]. destruct Hd as [<- <-].
    rewrite members_add, !elem_of_union, !elem_of_singleton. intros [[->%live_member_inj|?]|[Hx|?]]; [by right | by left; left | | by left; right].
    by apply eq_sym, live_grace_ne in Hx.
  - intros h' s <- Hx. by apply Hf in Hx.
  - intros k' s. rewrite create_index. case_decide; [apply filled_add | apply Ho].
  - intros k' h' successor rec' t. rewrite create_grace. apply Ho.
Qed.

(** The account of a live session is the one its index entry is under. *)
Lemma live_filed (a : AStore) (k : SessionKind) (h : string) (rec : SessionRecord) (t : Z) :
  orderly a -> a_live a k h = Some (rec, t) -> live_member k h ∈ members_of (a_index a k (owner k rec)).
Proof. intros Ho Hl. destruct (snd_live _ _ _ (ord_sound _ Ho) _ _ _ _ Hl) as (m & t' & -> & Hm & _). done. Qed.

Lemma grace_filed (a : AStore) (k : SessionKind) (h successor : string) (rec : SessionRecord) (t : Z) (s : string) :
  orderly a -> a_grace a k h = Some (successor, rec, t) -> grace_member k h ∈ members_of (a_index a k s) <-> owner k rec = s.
Proof.
  intros Ho Hg. destruct (snd_grace _ _ _ (ord_sound _ Ho) _ _ _ _ _ Hg) as (m & t' & Hi & Hm & _).
  assert (Hin : grace_member k h ∈ members_of (a_index a k (owner k rec))) by by rewrite Hi. split; [|by intros <-].
  intros Hs. apply (ord_one _ Ho k h); by right.
Qed.

Definition rotated_index (k : SessionKind) (ro : SessionRotation) (a : AStore) : option (gset string * Z) :=
  add_member (add_member (drop_member (a_index a k (ro_subject_hash ro)) (live_member k (ro_old_hash ro)))
                         (live_member k (ro_new_hash ro)) (until (ro_refresh_ttl ro) a))
             (grace_member k (ro_old_hash ro)) (until (ro_refresh_ttl ro) a).

Lemma rotated_index_at (k k' : SessionKind) (ro : SessionRotation) (a : AStore) (s : string) : 0 < ro_grace_ttl ro ->
  a_index (a_rotated k ro a) k' s = if decide (k = k' /\ ro_subject_hash ro = s) then rotated_index k ro a else a_index a k' s.
Proof.
  intros Hg. unfold a_rotated, rotated_index. rewrite bool_decide_eq_true_2 by done. by destruct (string_is_empty _).
Qed.

Lemma rotated_grace_at (k k' : SessionKind) (ro : SessionRotation) (a : AStore) (h : string) : 0 < ro_grace_ttl ro ->
  a_grace (a_rotated k ro a) k' h =
  if decide (k = k' /\ ro_old_hash ro = h) then Some (ro_new_hash ro, ro_new_record ro, until (ro_grace_ttl ro) a) else a_grace a k' h.
Proof. intros Hg. unfold a_rotated. rewrite bool_decide_eq_true_2 by done. by destruct (string_is_empty _). Qed.

Lemma rotated_orderly (k : SessionKind) (ro : SessionRotation) (a : AStore) (rec : SessionRecord) (t : Z) :
  orderly a -> servable a (CRotate k ro) -> a_live a k (ro_old_hash ro) = Some (rec, t) -> orderly (a_rotated k ro a).
Proof.
  intros Ho (Hadm & Hf & Hsh & Hg & _) Hl. pose proof Hadm as (Hs & Ht & Hgt & Hsame). destruct (Hsame _ _ Hl) as [Hown _].
  assert (Hold : files a k (ro_subject_hash ro) (ro_old_hash ro)) by (left; rewrite Hs, <- Hown; by eapply live_filed).
  apply (orderly_grows a _ k (ro_subject_hash ro) (fun h => h = ro_new_hash ro \/ h = ro_old_hash ro)); [done | | | | |].
  - apply rotated_sound; [apply Ho | done..].
  - unfold files. intros k' s h. rewrite rotated_index_at by done. case_decide as Hd; [|by left]. destruct Hd as [<- <-].
    unfold rotated_index. rewrite !members_add, members_drop. set_unfold.
    intros [[Hx|[->%live_member_inj|[Hx _]]]|[->%grace_member_inj|[Hx|[Hx _]]]]; [|by right; auto | by left; auto | by right; auto | | by left; auto].
    + by apply live_grace_ne in Hx.
    + by apply eq_sym, live_grace_ne in Hx.
  - intros h s [->| ->] Hx; [by apply Hf in Hx|]. by apply (ord_one _ Ho k (ro_old_hash ro)).
  - intros k' s. rewrite rotated_index_at by done. case_decide; [apply filled_add | apply Ho].
  - intros k' h successor rec' t'. rewrite rotated_grace_at by done. case_decide; [by intros [= <- <- <-] | apply Ho].
Qed.

Lemma servable_sound (a : AStore) (c : Call) : orderly a -> servable a c -> sound owner ttl (after c a).
Proof.
  intros Ho%ord_sound Hc. destruct c; cbn [after]; try done.
  - destruct Hc as [-> _]. by apply create_sound.
  - destruct Hc as [-> _]. by apply recover_sound.
  - apply rotate_sound; [done | apply Hc].
  - by apply revoke_sound.
  - by apply set_grace_none_sound.
  - by apply sweep_sound.
  - by apply revoke_all_sound.
  - by apply revoke_family_sound.
  - apply (sound_equiv _ _ a); [|done]. unfold a_blacklist. by case_bool_decide.
  - by apply (sound_equiv _ _ a).
  - by apply (sound_equiv _ _ a).
Qed.

Lemma sweep_members (k : SessionKind) (h : string) (m : gset string) :
  live_member k h ∉ filter (fun x => starts_with (prefix_as_str (rp_of k) +:+ ":") x = true) m.
Proof. intros [[h' Hx]%starts_with_grace _]%elem_of_filter. by apply live_grace_ne in Hx. Qed.

Lemma after_orderly (a : AStore) (c : Call) : orderly a -> servable a c -> orderly (after c a).
Proof.
  intros Ho Hc. pose proof (servable_sound _ _ Ho Hc) as Hs. destruct c; cbn [after] in *; try done;
    try (apply (orderly_shrinks a); [done | done | intros k' s; cbn; set_solver | intros k' s; apply Ho | done]).
  - destruct Hc as [-> Hf]. by apply create_orderly.
  - destruct Hc as (-> & Hf & _). unfold a_create_recovered in *. case_match; [by apply create_orderly | done].
  - unfold a_rotate in *. destruct (a_live a k (ro_old_hash ro)) as [[rec t]|] eqn:Hl; [by eapply rotated_orderly|].
    destruct (a_grace a k (ro_old_hash ro)) as [[[successor rec] t]|]; [|done].
    assert (Hd : orderly (set_grace k (ro_old_hash ro) None a)).
    { apply (orderly_shrinks a); [done | by apply set_grace_none_sound, ord_sound | done | apply Ho |].
      intros k' h' v. cbn. unfold upd. by case_decide. }
    by destruct (a_live a k successor).
  - unfold a_revoke in *. case_bool_decide; [|done]. cbn [snd] in *. apply (orderly_shrinks a); [done | done | | | done];
      intros k' s; cbn; unfold upd; (case_decide as Hd; [destruct Hd as [<- <-]|]);
      [rewrite members_drop; set_solver | done | apply filled_drop | apply Ho].
  - unfold a_delete_grace in *. apply (orderly_shrinks a); [done | done | done | apply Ho |].
    intros k' h' v. cbn. unfold upd. by case_decide.
  - unfold a_sweep_grace in *. apply (orderly_shrinks a); [done | done | | | intros k' h' v; cbn; by case_decide];
      intros k' s; cbn; unfold upd; (case_decide as Hd; [destruct Hd as [<- <-]|]);
      [rewrite members_drops; set_solver | done | apply filled_drops | apply Ho].
  - unfold a_revoke_all in *. apply (orderly_shrinks a); [done | done | | | intros k' h' v; cbn; by case_decide];
      intros k' s; cbn; unfold upd; (case_decide as Hd; [destruct Hd as [<- <-]|]); cbn; [set_solver | done | done | apply Ho].
  - unfold a_revoke_family in *. case_match; [done|]. destruct owner0 as [o|]; (apply (orderly_shrinks a); [done | done | | | done]);
      intros k' s; cbn; unfold upd; try (case_decide as Hd; [destruct Hd as [<- <-]|]);
      [rewrite members_drops; set_solver | done | apply filled_drops | apply Ho | done | apply Ho].
  - unfold a_blacklist in *. case_bool_decide; [done|]. apply (orderly_shrinks a); [done | done | done | apply Ho | done].
Qed.

(** ** The maps' side *)

(** Decide every updated key, on both sides. *)
Ltac at_keys :=
  rewrite ?insert_at, ?delete_at, ?alter_at; unfold upd, upd1; repeat case_decide; destruct_and?; simplify_eq/=; try done.

Lemma created_hashes (k k' : SessionKind) (subject s h : string) (rec : SessionRecord) (m : MemSessions) :
  hashes (created_sessions k subject h rec m) k' s =
  if decide (k = k' /\ subject = s) then hashes m k' s ++ [h] else hashes m k' s.
Proof.
  unfold hashes, created_sessions. destruct (string_is_empty _); cbn; rewrite insert_at; case_decide as Hd; try done;
    destruct Hd as [<- <-]; cbn; by rewrite fmap_app.
Qed.

Lemma created_mirrors (m : MemSessions) (a : AStore) (k : SessionKind) (h subject : string) (rec : SessionRecord) :
  mirrors m a -> unfiled a k h -> mirrors (created_sessions k subject h rec m) (a_create k subject h rec ttl a).
Proof.
  intros [Ml Mg Mc Mf Mi Mk Md Me Mr Mn] Hf. split.
  - intros k' h'. unfold created_sessions, a_create, family_add. destruct (string_is_empty _); cbn; at_keys.
  - intros k' h'. unfold created_sessions, a_create, family_add. by destruct (string_is_empty _).
  - intros k' h'. unfold created_sessions, a_create, family_add. by destruct (string_is_empty _).
  - intros k' f. unfold created_sessions, a_create, family_add. destruct (string_is_empty _); cbn; [done|]. at_keys.
    rewrite Mf. by destruct (a_family a _ _) as [[fam t]|].
  - intros k' s h'. rewrite created_hashes, create_index. case_decide as Hd; [|apply Mi]. destruct Hd as [<- <-].
    rewrite elem_of_app, list_elem_of_singleton, members_add, elem_of_union, elem_of_singleton, Mi.
    split; [intros [?| ->]; auto | intros [?%live_member_inj|?]; auto].
  - intros k' s. rewrite create_index. unfold created_sessions. destruct (string_is_empty _); cbn; at_keys; apply Mk.
  - intros k' s. rewrite created_hashes. case_decide as Hd; [|apply Md]. destruct Hd as [<- <-]. apply NoDup_app. split_and!; [apply Md | |].
    + intros h' Hh' ->%list_elem_of_singleton. apply (Hf subject). left. by apply Mi.
    + apply NoDup_singleton.
  - intros k' s. unfold created_sessions, a_create, family_add. by destruct (string_is_empty _).
  - intros j. unfold created_sessions, a_create, family_add. by destruct (string_is_empty _).
  - intros u. unfold created_sessions, a_create, family_add. by destruct (string_is_empty _).
Qed.

Lemma rotated_hashes (k k' : SessionKind) (ro : SessionRotation) (s : string) (rec : SessionRecord) (m : MemSessions) :
  is_Some (mm_session_index m !! (k, ro_subject_hash ro)) ->
  hashes (rotated_sessions k ro rec m) k' s =
  if decide (k = k' /\ ro_subject_hash ro = s)
  then (sd_session_hash <$> without_hash (ro_old_hash ro) (default [] (mm_session_index m !! (k', s)))) ++ [ro_new_hash ro]
  else hashes m k' s.
Proof.
  intros [l Hl]. unfold hashes, rotated_sessions. destruct (string_is_empty _); cbn; rewrite alter_at; case_decide as Hd; try done;
    destruct Hd as [<- <-]; rewrite Hl; cbn; by rewrite fmap_app.
Qed.

Section rotation.
Context (m : MemSessions) (a : AStore) (k : SessionKind) (ro : SessionRotation) (rec : SessionRecord) (t : Z).
Hypothesis (Hm : mirrors m a) (Ho : orderly a) (Hc : servable a (CRotate k ro)) (Hl : a_live a k (ro_old_hash ro) = Some (rec, t)).

Lemma rotation_family : sr_family_id rec = sr_family_id (ro_new_record ro).
Proof. destruct Hc as ((_ & _ & _ & Hsame) & _). by destruct (Hsame _ _ Hl). Qed.

Lemma rotation_owner : ro_subject_hash ro = owner k (ro_new_record ro).
Proof. by destruct Hc as ((-> & _) & _). Qed.

Lemma rotation_graced : 0 < ro_grace_ttl ro.
Proof. by destruct Hc as (_ & _ & _ & Hg & _). Qed.

Lemma rotation_filed : live_member k (ro_old_hash ro) ∈ members_of (a_index a k (ro_subject_hash ro)).
Proof.
  rewrite rotation_owner. destruct Hc as ((_ & _ & _ & Hsame) & _). destruct (Hsame _ _ Hl) as [<- _]. by eapply live_filed.
Qed.

Lemma rotation_new : ro_old_hash ro <> ro_new_hash ro.
Proof. intros Heq. destruct Hc as (_ & Hf & _). apply (Hf (ro_subject_hash ro)). left. rewrite <- Heq. apply rotation_filed. Qed.

Lemma rotation_keyed : is_Some (mm_session_index m !! (k, ro_subject_hash ro)).
Proof. apply (mir_keyed _ _ Hm). eapply filled_member, rotation_filed. Qed.

Lemma rotated_mirrors : mirrors (rotated_sessions k ro rec m) (a_rotated k ro a).
Proof.
  pose proof rotation_family as Hfam. pose proof rotation_owner as Hown. pose proof rotation_graced as Hg.
  pose proof rotation_new as Hne. pose proof rotation_keyed as Hk. pose proof Hm as [Ml Mg Mc Mf Mi Mk Md Me Mr Mn].
  split.
  - intros k' h. unfold rotated_sessions, a_rotated. rewrite Hfam, bool_decide_eq_true_2 by done.
    destruct (string_is_empty _); cbn; at_keys.
  - intros k' h. rewrite rotated_grace_at by done. unfold rotated_sessions. destruct (string_is_empty _); cbn; at_keys; by rewrite Hown.
  - intros k' h. unfold rotated_sessions, a_rotated. rewrite Hfam, bool_decide_eq_true_2 by done.
    destruct (string_is_empty _); cbn; at_keys.
  - intros k' f. unfold rotated_sessions, a_rotated. rewrite Hfam, bool_decide_eq_true_2 by done.
    destruct (string_is_empty _) eqn:He; cbn; [done|]. at_keys. rewrite Mf, <- Hfam.
    destruct (snd_family _ _ _ (ord_sound _ Ho) _ _ _ _ Hl) as (fam & t' & -> & _); [by intros Hx; rewrite <- Hfam, Hx in He|].
    cbn. f_equal. f_equal. symmetry. apply (members_drop (Some (fam, t'))).
  - intros k' s h. rewrite rotated_hashes, rotated_index_at by done. case_decide as Hd; [|apply Mi]. destruct Hd as [<- <-].
    unfold rotated_index. rewrite elem_of_app, without_hash_in, list_elem_of_singleton, !members_add, members_drop. fold (hashes m k (ro_subject_hash ro)).
    rewrite Mi. set_unfold. split.
    + intros [[Hx Hn]| ->]; [|by right; left]. right. right. split; [done|]. by intros ->%live_member_inj.
    + intros [Hx|[->%live_member_inj|[Hx Hn]]]; [by apply live_grace_ne in Hx | by right | left]. split; [done|]. by intros ->.
  - intros k' s. rewrite rotated_index_at by done. unfold rotated_sessions.
    destruct (string_is_empty _); cbn; rewrite alter_at; case_decide as Hd; try apply Mk; destruct Hd as [<- <-]; intros _; by apply fmap_is_Some.
  - intros k' s. rewrite rotated_hashes by done. case_decide as Hd; [|apply Md]. destruct Hd as [<- <-]. apply NoDup_app. split_and!.
    + apply without_hash_distinct, Md.
    + intros h [Hh _]%without_hash_in ->%list_elem_of_singleton. destruct Hc as (_ & Hf & _). apply (Hf (ro_subject_hash ro)). left. by apply Mi.
    + apply NoDup_singleton.
  - intros k' s. unfold rotated_sessions, a_rotated. rewrite bool_decide_eq_true_2 by done. destruct (string_is_empty _), (string_is_empty _); apply Me.
  - intros j. unfold rotated_sessions, a_rotated. rewrite bool_decide_eq_true_2 by done. destruct (string_is_empty _), (string_is_empty _); apply Mr.
  - intros u. unfold rotated_sessions, a_rotated. rewrite bool_decide_eq_true_2 by done. destruct (string_is_empty _), (string_is_empty _); apply Mn.
Qed.
End rotation.

(** The fields a call leaves alone. *)
Ltac untouched Hm := let H := fresh in pose proof Hm as H; destruct H; split; cbn; unfold hashes in *; cbn; try assumption.

Lemma graces_mirrors (m : MemSessions) (a a' : AStore) (f : gmap (SessionKind * string) GracePointer -> gmap (SessionKind * string) GracePointer) :
  mirrors m a -> a' ≡ {| a_now := a_now a; a_live := a_live a; a_grace := a_grace a'; a_consumed := a_consumed a; a_family := a_family a;
                         a_index := a_index a'; a_epoch := a_epoch a; a_revoked := a_revoked a; a_recent := a_recent a |} ->
  (forall k h, f (mm_grace m) !! (k, h) = (fun '(successor, rec, _) => (owner k rec, rec, successor)) <$> a_grace a' k h) ->
  (forall k s h, live_member k h ∈ members_of (a_index a' k s) <-> live_member k h ∈ members_of (a_index a k s)) ->
  (forall k s, is_Some (a_index a' k s) -> is_Some (a_index a k s)) ->
  mirrors (with_grace f m) a'.
Proof.
  intros Hm [_ El _ Ec Ef _ Ee Er En] Hg Hi Hk. untouched Hm; cbn in *; intros; rewrite ?El, ?Ec, ?Ef, ?Ee, ?Er, ?En, ?Hi; eauto.
Qed.

Lemma grace_delete_mirrors (m : MemSessions) (a : AStore) (k : SessionKind) (h : string) :
  mirrors m a -> mirrors (with_grace (delete (k, h)) m) (set_grace k h None a).
Proof. intros Hm. eapply graces_mirrors; [done | done | | done | done]. intros k' h'. cbn. at_keys. apply Hm. Qed.

(** A pointer is swept or kept by its owner, as by its index. *)
Lemma foreign_at (m : MemSessions) (a : AStore) (k : SessionKind) (s : string) : orderly a -> mirrors m a ->
  forall k' h, filter (foreign k s) (mm_grace m) !! (k', h) =
    (fun '(successor, rec, _) => (owner k' rec, rec, successor)) <$>
      (if decide (k = k' /\ grace_member k h ∈ members_of (a_index a k s)) then None else a_grace a k' h).
Proof.
  intros Ho Hm k' h. pose proof (mir_grace _ _ Hm k' h) as Hg. destruct (a_grace a k' h) as [[[successor rec] t]|] eqn:Ha; cbn in Hg.
  - case_decide as Hd.
    + destruct Hd as [<- Hx]. apply (grace_filed _ _ _ _ _ _ _ Ho Ha) in Hx. apply map_lookup_filter_None. right. intros v Hv.
      pose proof (eq_trans (eq_sym Hg) Hv) as [= <-]. by intros [?|?].
    + cbn. apply map_lookup_filter_Some. split; [done|]. unfold foreign. cbn. destruct (decide (k' = k)) as [->|]; [right | by left].
      intros Hx. apply Hd. split; [done|]. by apply (grace_filed _ _ _ _ _ _ _ Ho Ha).
  - assert (Hn : filter (foreign k s) (mm_grace m) !! (k', h) = None) by (apply map_lookup_filter_None; by left).
    rewrite Hn. by case_decide.
Qed.

Lemma sweep_mirrors (m : MemSessions) (a : AStore) (k : SessionKind) (s : string) :
  orderly a -> mirrors m a -> mirrors (with_grace (filter (foreign k s)) m) (a_sweep_grace k s a).
Proof.
  intros Ho Hm. eapply graces_mirrors; [done | done | by apply foreign_at | |]; intros k' s'; cbn; unfold upd.
  - intros h. case_decide as Hd; [|done]. destruct Hd as [<- <-]. rewrite members_drops, elem_of_difference.
    split; [by intros [? _]|]. intros Hx. split; [done|]. apply sweep_members.
  - case_decide as Hd; [|done]. destruct Hd as [<- <-]. by destruct (a_index a k s).
Qed.

Lemma rewritten_hashes (m : MemSessions) f (k k' : SessionKind) (s s' : string) (details : list SessionDetail) :
  hashes (with_live f (with_index <[(k, s) := details]> m)) k' s' = if decide (k = k' /\ s = s') then sd_session_hash <$> details else hashes m k' s'.
Proof. unfold hashes. cbn. rewrite insert_at. by case_decide. Qed.

Lemma revoke_mirrors (m : MemSessions) (a : AStore) (k : SessionKind) (s h : string) (details : list SessionDetail) :
  mirrors m a -> mm_session_index m !! (k, s) = Some details -> live_member k h ∈ members_of (a_index a k s) ->
  mirrors (with_live (delete (k, h)) (with_index <[(k, s) := without_hash h details]> m)) (a_revoke k s h a).2.
Proof.
  intros Hm Hd Hh. unfold a_revoke. rewrite bool_decide_eq_true_2 by done. cbn [snd].
  assert (Hs : hashes m k s = sd_session_hash <$> details) by (unfold hashes; by rewrite Hd).
  split; try (apply Hm).
  - intros k' h'. cbn. at_keys. apply Hm.
  - intros k' s' h'. cbn [a_index set_live set_index]. unfold upd. rewrite rewritten_hashes. case_decide as Hk; [|apply Hm].
    destruct Hk as [<- <-]. rewrite without_hash_in, <- Hs, (mir_index _ _ Hm), members_drop, elem_of_difference, elem_of_singleton.
    split; intros [? Hn]; (split; [done|]); [by intros ->%live_member_inj | by intros ->].
  - intros k' s'. cbn. at_keys. apply Hm.
  - intros k' s'. rewrite rewritten_hashes.
    case_decide as Hk; [|apply Hm]. destruct Hk as [<- <-]. apply without_hash_distinct. rewrite <- Hs. apply Hm.
Qed.

Lemma missed_revoke_mirrors (m : MemSessions) (a : AStore) (k : SessionKind) (s h : string) (details : list SessionDetail) :
  mirrors m a -> mm_session_index m !! (k, s) = Some details -> h ∉ sd_session_hash <$> details ->
  mirrors (with_index <[(k, s) := without_hash h details]> m) a.
Proof.
  intros Hm Hd Hh. rewrite without_hash_absent by done.
  replace (with_index <[(k, s):=details]> m) with m; [done|]. destruct m. unfold with_index. cbn in *. f_equal.
  by rewrite insert_id.
Qed.

Lemma revoke_all_mirrors (m : MemSessions) (a : AStore) (k : SessionKind) (s : string) :
  orderly a -> mirrors m a ->
  mirrors (with_grace (filter (foreign k s)) (with_live (delete_all k (hashes m k s)) (with_index (delete (k, s)) m))) (a_revoke_all k s a).
Proof.
  intros Ho Hm. split; try (apply Hm).
  - intros k' h. cbn. rewrite delete_all_at. unfold hashes. rewrite (mir_live _ _ Hm). pose proof (mir_index _ _ Hm k s h) as Hi. unfold hashes in Hi.
    destruct (decide (k = k' /\ h ∈ sd_session_hash <$> default [] (mm_session_index m !! (k, s)))) as [[<- Hx]|Hd]; case_decide as Hd'; try done.
    + exfalso. apply Hd'. by rewrite <- Hi.
    + exfalso. apply Hd. by rewrite Hi.
  - intros k' h. cbn. by apply foreign_at.
  - intros k' s' h. unfold hashes. cbn. rewrite delete_at. unfold upd. case_decide; [cbn; set_solver | apply Hm].
  - intros k' s'. cbn. unfold upd. rewrite delete_at. case_decide; [done | apply Hm].
  - intros k' s'. unfold hashes. cbn. rewrite delete_at. case_decide; [apply NoDup_nil_2 | apply Hm].
Qed.

Lemma mirrors_equiv (m : MemSessions) (a b : AStore) : a ≡ b -> mirrors m a -> mirrors m b.
Proof.
  intros [En El Eg Ec Ef Ei Ee Er Ea] Hm. untouched Hm; intros *; rewrite <-?El, <-?Eg, <-?Ec, <-?Ef, <-?Ei, <-?Ee, <-?Er, <-?Ea; auto.
Qed.

#[export] Instance mirrors_proper (m : MemSessions) : Proper ((≡) ==> iff) (mirrors m).
Proof. intros a b Hab. split; by apply mirrors_equiv. Qed.

Lemma unknown_family (a : AStore) (k : SessionKind) (family : string) (o : option string) :
  orderly a -> a_family a k family = None -> a_revoke_family k family o a ≡ a.
Proof.
  intros Ho Hf. unfold a_revoke_family. destruct (string_is_empty family); [done|]. rewrite Hf. cbn [members_of].
  assert (Hd : forall s, drop_members (a_index a k s) (set_map (live_member k) (∅ : gset string)) = a_index a k s).
  { intros s. rewrite set_map_empty. apply drop_none, Ho. }
  destruct o as [s|]; split; intros; cbn; unfold upd; rewrite ?Hd; repeat case_decide; destruct_and?; subst; try done; set_solver.
Qed.

(** A family the index of an account forgets. *)
Definition forgotten (k : SessionKind) (l : list string) (o : option string) (m : MemSessions) : MemSessions :=
  match o with
  | Some s => with_index (alter (fun details => foldl (fun details hash => without_hash hash details) details l) (k, s)) m
  | None => m
  end.

Lemma revoke_family_mirrors (m : MemSessions) (a : AStore) (k : SessionKind) (family : string) (o : option string) (members : gset string) :
  mirrors m a -> family <> "" -> mm_families m !! (k, family) = Some members ->
  mirrors (forgotten k (hash_order members) o (with_live (delete_all k (hash_order members)) (with_families (delete (k, family)) m)))
    (a_revoke_family k family o a).
Proof.
  intros Hm Hne Hf. unfold a_revoke_family. rewrite (mir_family _ _ Hm) in Hf. destruct (a_family a k family) as [[mem t]|] eqn:Ha; [|done].
  injection Hf as ->. destruct (string_is_empty family) eqn:He; [by apply string_is_empty_true in He|]. cbn [members_of].
  assert (Hord : forall h, h ∈ hash_order members <-> h ∈ members) by (intros h; by rewrite hash_order_perm, elem_of_elements).
  assert (Hin : forall h, live_member k h ∈ (set_map (live_member k) members : gset string) <-> h ∈ members).
  { intros h. rewrite elem_of_map. split; [by intros (? & ->%live_member_inj & ?) | by exists h]. }
  assert (Hl : forall k' h, delete_all k (hash_order members) (mm_sessions m) !! (k', h) =
                 fst <$> (if decide (k = k' /\ h ∈ members) then None else a_live a k' h)).
  { intros k' h. rewrite delete_all_at, (mir_live _ _ Hm). pose proof (Hord h). repeat case_decide; naive_solver. }
  assert (Hfam : forall k' f, delete (k, family) (mm_families m) !! (k', f) = fst <$> upd (a_family a) k family None k' f).
  { intros k' f. at_keys. apply Hm. }
  destruct o as [s|]; cbn [forgotten]; split; try (apply Hm); try done; [| |].
  - intros k' s' h. unfold hashes. cbn. rewrite alter_at. unfold upd. case_decide as Hk; [|apply Hm]. destruct Hk as [<- <-].
    rewrite members_drops, elem_of_difference, Hin, <- Hord, <- (mir_index _ _ Hm). unfold hashes.
    destruct (mm_session_index m !! (k, s)) as [details|]; cbn; [apply without_hashes_in | set_solver].
  - intros k' s'. cbn. unfold upd. rewrite alter_at. case_decide as Hk; [|apply Hm]. destruct Hk as [<- <-]. intros Hx. apply fmap_is_Some, Hm.
    by destruct (a_index a k s).
  - intros k' s'. unfold hashes. cbn. rewrite alter_at. case_decide as Hk; [|apply Hm]. destruct Hk as [<- <-].
    pose proof (mir_distinct _ _ Hm k s) as Hn. unfold hashes in Hn.
    destruct (mm_session_index m !! (k, s)); cbn; [by apply without_hashes_distinct | apply NoDup_nil_2].
Qed.

Lemma epoch_mirrors (m : MemSessions) (a : AStore) (k : SessionKind) (s : string) (n t : Z) :
  mirrors m a -> mirrors (with_epochs <[(k, s) := n]> m) (set_epoch k s (Some (n, t)) a).
Proof. intros Hm. untouched Hm. intros k' s'. at_keys. Qed.

Lemma blacklist_mirrors (m : MemSessions) (a : AStore) (j : string) (t : Z) :
  mirrors m a -> mirrors (with_blacklist (union {[j]}) m) (set_revoked j (Some (tt, t)) a).
Proof.
  intros Hm. untouched Hm. intros j'. rewrite elem_of_union, elem_of_singleton, (mir_revoked _ _ Hm). unfold upd1.
  case_decide; split; eauto; naive_solver.
Qed.

Lemma recent_mirrors (m : MemSessions) (a : AStore) (u : string) (t : Z) :
  mirrors m a -> mirrors (with_recent (union {[u]}) m) (set_recent u (Some (tt, t)) a).
Proof.
  intros Hm. untouched Hm. intros j'. rewrite elem_of_union, elem_of_singleton, (mir_recent _ _ Hm). unfold upd1.
  case_decide; split; eauto; naive_solver.
Qed.

(** ** Every call *)

(** The answer of a call and what it leaves: a call no failure is armed for. *)
Definition answered (a : AStore) (c : Call) (out : result AuthError Answer * InMemoryStores) : Prop :=
  contract ttl a c out.1 (after c a) /\ mirrors (im_sessions out.2) (after c a) /\ im_armed out.2 = disarmed.

Lemma family_alive_mirrors (m : MemSessions) (a : AStore) (k : SessionKind) (f : string) :
  mirrors m a -> family_alive k f a = string_is_empty f || bool_decide (is_Some (mm_families m !! (k, f))).
Proof.
  intros Hm. unfold family_alive. f_equal. apply bool_decide_ext. rewrite (mir_family _ _ Hm), fmap_is_Some. done.
Qed.

Section calls.
Context (m : InMemoryStores) (a : AStore).
Hypothesis (Hm : mirrors (im_sessions m) a) (Ho : orderly a) (Ha : im_armed m = disarmed).

(** Run a call that no failure is armed for. *)
Ltac run_disarmed := cbn; mrun; rewrite ?Ha; cbn; rewrite ?Ha; cbn.

Lemma create_answered (k : SessionKind) (subject h : string) (rec : SessionRecord) :
  servable a (CCreate k subject h rec) -> answered a (CCreate k subject h rec) (call ttl (CCreate k subject h rec) m).
Proof. intros [_ Hf]. split_and!; [constructor | by apply created_mirrors | done]. Qed.

Lemma recover_answered (k : SessionKind) (subject h : string) (rec : SessionRecord) :
  servable a (CRecover k subject h rec) -> answered a (CRecover k subject h rec) (call ttl (CRecover k subject h rec) m).
Proof.
  intros (_ & Hf & Hi). pose proof (CoRecover ttl a k subject h rec) as Hco. unfold answered. cbn [after].
  unfold a_create_recovered in *. rewrite bool_decide_eq_true_2, (family_alive_mirrors (im_sessions m)) in * by done.
  cbn. unfold mem_create_recovered_session. run_disarmed.
  pose proof (mir_keyed _ _ Hm _ _ Hi) as Hk. rewrite (bool_decide_eq_true_2 _ Hk). cbn in *.
  destruct (string_is_empty _); cbn in *; [split_and!; [done | by apply created_mirrors | done]|].
  destruct (bool_decide _); cbn in *; split_and!; try done. by apply created_mirrors.
Qed.

Lemma rotate_answered (k : SessionKind) (ro : SessionRotation) :
  servable a (CRotate k ro) -> answered a (CRotate k ro) (call ttl (CRotate k ro) m).
Proof.
  intros Hs. pose proof (CoRotate ttl a k ro) as Hco. unfold answered. cbn [after]. unfold a_rotate, a_reuse_check in *.
  cbn. unfold mem_rotate. run_disarmed. rewrite (mir_live _ _ Hm), (mir_grace _ _ Hm), (mir_consumed _ _ Hm).
  pose proof Hs as (_ & _ & _ & _ & Hlive).
  destruct (a_live a k (ro_old_hash ro)) as [[rec t]|] eqn:Hl; cbn; [split_and!; [done | by eapply rotated_mirrors | done]|].
  destruct (a_grace a k (ro_old_hash ro)) as [[[successor rec] t]|] eqn:Hg; cbn.
  - destruct (Hlive eq_refl _ _ _ eq_refl) as [[rec' t'] Hsu]. rewrite Hsu in *.
    assert (Hm' := grace_delete_mirrors _ _ k (ro_old_hash ro) Hm). rewrite (family_alive_mirrors _ _ _ _ Hm') in *. cbn in *.
    by destruct (string_is_empty _ || bool_decide _).
  - by destruct (a_consumed a k (ro_old_hash ro)) as [[family t]|].
Qed.

Lemma find_answered (k : SessionKind) (h : string) : answered a (CFind k h) (call ttl (CFind k h) m).
Proof.
  pose proof (CoFind ttl a k h) as Hco. unfold answered, a_find in *. cbn. unfold mem_find_session, take_armed. run_disarmed.
  rewrite (mir_live _ _ Hm). by destruct (a_live a k h) as [[rec t]|].
Qed.

Lemma list_answered (k : SessionKind) (subject : string) : answered a (CList k subject) (call ttl (CList k subject) m).
Proof.
  unfold answered. cbn. unfold mem_list_session_entries, mem_list_sessions, take_armed. run_disarmed. split_and!; [|done..].
  constructor. set (details := default [] _). assert (Hs : hashes (im_sessions m) k subject = sd_session_hash <$> details) by done.
  split_and!.
  - rewrite <- list_fmap_compose. change (NoDup (sd_session_hash <$> details)). rewrite <- Hs. apply Hm.
  - intros e (d & -> & Hd)%list_elem_of_fmap. cbn. apply (mir_index _ _ Hm). rewrite Hs. apply list_elem_of_fmap. by exists d.
  - intros h rec t _ Hx. apply (mir_index _ _ Hm) in Hx. rewrite Hs in Hx. apply list_elem_of_fmap in Hx as (d & -> & Hd).
    eexists. split; [apply list_elem_of_fmap; by exists d | done].
  - exists ∅. split; [set_solver|]. rewrite drop_none by apply Ho. split; intros; cbn; unfold upd; try done. case_decide as Hd; [|done].
    by destruct Hd as [<- <-].
Qed.

Lemma revoke_answered (k : SessionKind) (subject h : string) : answered a (CRevoke k subject h) (call ttl (CRevoke k subject h) m).
Proof.
  pose proof (CoRevoke ttl a k subject h) as Hco. unfold answered. cbn [after]. cbn. unfold mem_revoke_session, take_forced_failure, take_armed. run_disarmed.
  pose proof (mir_index _ _ Hm k subject h) as Hi. unfold hashes in Hi.
  destruct (mm_session_index (im_sessions m) !! (k, subject)) as [details|] eqn:Hd; cbn in *.
  - rewrite without_hash_length. case_bool_decide as Hx; cbn.
    + split_and!; [|by apply revoke_mirrors, Hi|done]. unfold a_revoke in *. by rewrite bool_decide_eq_true_2 in * by by apply Hi.
    + unfold a_revoke in *. rewrite bool_decide_eq_false_2 in * by by rewrite <- Hi. split_and!; [done | by apply missed_revoke_mirrors | done].
  - unfold a_revoke in *. rewrite bool_decide_eq_false_2 in * by (rewrite <- Hi; by intros ?%elem_of_nil). done.
Qed.

Lemma delete_grace_answered (k : SessionKind) (h : string) : answered a (CDeleteGrace k h) (call ttl (CDeleteGrace k h) m).
Proof.
  unfold answered. cbn. unfold mem_delete_grace_pointer, take_forced_failure, take_armed. run_disarmed.
  split_and!; [constructor | by apply grace_delete_mirrors | done].
Qed.

Lemma successor_answered (k : SessionKind) (h : string) : answered a (CSuccessor k h) (call ttl (CSuccessor k h) m).
Proof.
  pose proof (CoSuccessor ttl a k h) as Hco. unfold answered, a_grace_successor in *. cbn.
  unfold mem_grace_successor, take_forced_failure, take_armed. run_disarmed. rewrite (mir_grace _ _ Hm).
  destruct (a_grace a k h) as [[[successor rec] t]|] eqn:Hg; [|done]. by rewrite (ord_shape _ Ho _ _ _ _ _ Hg) in Hco.
Qed.

Lemma sweep_answered (k : SessionKind) (subject : string) : answered a (CSweep k subject) (call ttl (CSweep k subject) m).
Proof.
  unfold answered. cbn. unfold mem_sweep_grace_pointers, take_forced_failure, take_armed. run_disarmed.
  split_and!; [constructor | by apply sweep_mirrors | done].
Qed.

Lemma revoke_all_answered (k : SessionKind) (subject : string) : answered a (CRevokeAll k subject) (call ttl (CRevokeAll k subject) m).
Proof.
  pose proof (revoke_all_mirrors _ _ k subject Ho Hm) as Hr. unfold answered. cbn. unfold mem_revoke_all. run_disarmed. unfold hashes in Hr.
  destruct (mm_session_index (im_sessions m) !! (k, subject)) as [details|] eqn:Hd; cbn in *; split_and!; [constructor | done | done | constructor | | done].
  unfold with_index, with_live in Hr. cbn in Hr. by rewrite (delete_id _ _ Hd) in Hr.
Qed.

Lemma find_owner_answered (k : SessionKind) (family : string) : answered a (CFindOwner k family) (call ttl (CFindOwner k family) m).
Proof.
  unfold answered. cbn. unfold mem_find_family_owner. destruct (string_is_empty family) eqn:He.
  { split_and!; [constructor; left; by apply string_is_empty_true | done..]. }
  run_disarmed. split_and!; [|done..]. constructor. rewrite (mir_family _ _ Hm). destruct (a_family a k family) as [[members t]|] eqn:Hf; cbn.
  2: { right. intros h rec t. rewrite Hf. by intros ?%elem_of_empty. }
  set (found := filter _ _). assert (Hin : forall rec, rec ∈ found <-> sr_user_id rec <> "" /\ exists h t', h ∈ members /\ a_live a k h = Some (rec, t')).
  { intros rec. unfold found. rewrite list_elem_of_filter, list_elem_of_omap. apply and_iff_compat_l. split.
    - intros (h & Hh & Hl). rewrite (mir_live _ _ Hm) in Hl. destruct (a_live a k h) as [[rec' t']|] eqn:Hx; [|done]. injection Hl as ->.
      exists h, t'. by rewrite hash_order_perm, elem_of_elements in Hh.
    - intros (h & t' & Hh & Hl). exists h. by rewrite hash_order_perm, elem_of_elements, (mir_live _ _ Hm), Hl. }
  destruct found as [|rec found']; cbn.
  - right. rewrite Hf. intros h rec t' Hh Hl. destruct (decide (sr_user_id rec = "")); [done|]. exfalso. eapply not_elem_of_nil. apply Hin. eauto.
  - destruct (proj1 (Hin rec) (list_elem_of_here _ _)) as (Hu & h & t' & Hh & Hl). exists h, t'. by rewrite Hf.
Qed.

Lemma revoke_family_answered (k : SessionKind) (family : string) (o : option string) :
  answered a (CRevokeFamily k family o) (call ttl (CRevokeFamily k family o) m).
Proof.
  pose proof (CoRevokeFamily ttl a k family o) as Hco. unfold answered. cbn [after]. cbn. unfold mem_revoke_family.
  destruct (string_is_empty family) eqn:He; [unfold a_revoke_family in *; by rewrite He in *|].
  assert (Hne : family <> "") by by intros ->. run_disarmed.
  destruct (mm_families (im_sessions m) !! (k, family)) as [members|] eqn:Hf.
  - pose proof (revoke_family_mirrors _ _ _ _ o _ Hm Hne Hf) as Hr. by destruct o.
  - cbn. split_and!; [done | | done]. rewrite unknown_family; [done | done |].
    rewrite (mir_family _ _ Hm) in Hf. by destruct (a_family a k family).
Qed.

Lemma blacklist_answered (j : string) (remaining : Z) :
  servable a (CBlacklist j remaining) -> answered a (CBlacklist j remaining) (call ttl (CBlacklist j remaining) m).
Proof.
  intros Hs. pose proof (CoBlacklist ttl a j remaining) as Hco. unfold answered. cbn [after]. cbn. unfold mem_blacklist_access, take_armed. run_disarmed.
  unfold a_blacklist in *. cbn in Hs. rewrite bool_decide_eq_false_2 in * by lia. split_and!; [done | by apply blacklist_mirrors | done].
Qed.

Lemma is_blacklisted_answered (j : string) : answered a (CIsBlacklisted j) (call ttl (CIsBlacklisted j) m).
Proof.
  pose proof (CoIsBlacklisted ttl a j) as Hco. unfold answered, a_is_blacklisted in *. cbn. unfold mem_is_blacklisted. run_disarmed. split_and!; [|done..].
  by rewrite (bool_decide_ext _ _ (mir_revoked _ _ Hm j)).
Qed.

Lemma epoch_read (k : SessionKind) (subject : string) :
  default 0 (mm_epochs (im_sessions m) !! (k, subject)) = a_current_epoch k subject a.
Proof. rewrite (mir_epoch _ _ Hm). unfold a_current_epoch. by destruct (a_epoch a k subject) as [[n t]|]. Qed.

Lemma epoch_answered (k : SessionKind) (subject : string) : answered a (CEpoch k subject) (call ttl (CEpoch k subject) m).
Proof. pose proof (CoEpoch ttl a k subject) as Hco. unfold answered. cbn. unfold mem_current_epoch. run_disarmed. by rewrite epoch_read. Qed.

Lemma bump_answered (k : SessionKind) (subject : string) : answered a (CBump k subject) (call ttl (CBump k subject) m).
Proof.
  pose proof (CoBump ttl a k subject) as Hco. unfold answered. cbn [after]. cbn. unfold mem_bump_epoch, mem_current_epoch, take_armed. run_disarmed.
  rewrite epoch_read. split_and!; [done | by apply epoch_mirrors | done].
Qed.

Lemma mark_answered (u : string) (lifetime : Z) : answered a (CMark u lifetime) (call ttl (CMark u lifetime) m).
Proof. unfold answered. cbn. split_and!; [constructor | by apply recent_mirrors | done]. Qed.

Lemma has_answered (u : string) : answered a (CHas u) (call ttl (CHas u) m).
Proof.
  pose proof (CoHas ttl a u) as Hco. unfold answered, a_has_recent in *. cbn. unfold mem_has_recent_auth. run_disarmed. split_and!; [|done..].
  by rewrite (bool_decide_ext _ _ (mir_recent _ _ Hm u)).
Qed.

Lemma call_answered (c : Call) : servable a c -> answered a c (call ttl c m).
Proof.
  intros Hs. destruct c;
    [by apply create_answered | by apply recover_answered | by apply rotate_answered | apply find_answered | apply list_answered | apply revoke_answered
    | apply delete_grace_answered | apply successor_answered | apply sweep_answered | apply revoke_all_answered | apply find_owner_answered
    | apply revoke_family_answered | by apply blacklist_answered | apply is_blacklisted_answered | apply epoch_answered | apply bump_answered
    | apply mark_answered | apply has_answered].
Qed.
End calls.

Lemma empty_orderly (now : Z) : orderly (a_empty now).
Proof.
  split; [apply empty_sound | | done | done]. intros k h s s' [Hx|Hx]; by apply elem_of_empty in Hx.
Qed.

Lemma new_mirrors (clock now : Z) : mirrors (im_sessions (new_stores clock)) (a_empty now).
Proof.
  split; try done; unfold hashes; cbn; intros *; rewrite ?lookup_empty; cbn; try done.
  - split; [by intros ?%elem_of_nil | by intros ?%elem_of_empty].
  - apply NoDup_nil_2.
Qed.

Lemma conversation (calls : list Call) (m : InMemoryStores) (a : AStore) :
  mirrors (im_sessions m) a -> orderly a -> im_armed m = disarmed -> all_servable a calls -> dialogue ttl a calls (answers_to ttl calls m).
Proof.
  revert m a. induction calls as [|c calls IH]; intros m a Hm Ho Ha Hs; [constructor|]. destruct Hs as [Hc Hs].
  destruct (call_answered m a Hm Ho Ha c Hc) as (Hco & Hm' & Ha'). cbn. destruct (call ttl c m) as [r m']. cbn in *.
  econstructor; [done|]. apply IH; try done. by apply after_orderly.
Qed.

(** ** A store that keeps the contract answers alike *)

(** A call the contract leaves one answer to. *)
Definition settled (c : Call) : Prop := match c with CList _ _ | CFindOwner _ _ => False | _ => True end.

(** What the contract asks of a call besides: records the store can hold. *)
Definition holdable (S : Type) `{StoreView S} (c : Call) : Prop :=
  match c with
  | CCreate _ _ _ rec | CRecover _ _ _ rec => storable (S := S) rec
  | CRotate _ ro => rotation_served S ro
  | _ => True
  end.

Definition expected (a : AStore) (c : Call) : result AuthError Answer :=
  match c with
  | CRecover k subject h rec => Ok (AnBool (a_create_recovered k subject h rec ttl a).1)
  | CRotate k ro => Ok (AnOutcome (a_rotate k ro a).1)
  | CFind k h => Ok (AnRecord (a_find k h a))
  | CRevoke k subject h => if (a_revoke k subject h a).1 then Ok AnUnit else Err SessionNotFound
  | CSuccessor k h => Ok (AnHash (a_grace_successor k h a))
  | CIsBlacklisted j => Ok (AnBool (a_is_blacklisted j a))
  | CEpoch k subject => Ok (AnEpoch (a_current_epoch k subject a))
  | CBump k subject => Ok (AnEpoch (a_bump_epoch k subject a).1)
  | CHas u => Ok (AnBool (a_has_recent u a))
  | _ => Ok AnUnit
  end.

Lemma contract_settles (a a' : AStore) (c : Call) (r : result AuthError Answer) : settled c -> contract ttl a c r a' -> r = expected a c.
Proof. intros Hc Hco. by destruct Hco. Qed.

Lemma answers_call {S A} `{StoreView S} (m : M S AuthError A) (f : A -> Answer) (s : S) (x y : A) (b b' : AStore) :
  answers m s x b -> x = y -> b ≡ b' ->
  exists s', (m ≫= (fun z => mret (f z))) s = (Ok (f y), s') /\ ready s' /\ stands_for s' ≡ b'.
Proof. intros (s' & Hr & Hrdy & Hst) <- Hb. exists s'. rewrite (bind_ok _ _ _ _ _ Hr). split_and!; [done..|]. by rewrite Hst. Qed.

Section lawful.
Context {S : Type} `{SessionStoreLaws S} (s : S) (a : AStore).
Hypothesis (Httl : 0 < ttl <= i64_max) (Hr : ready s) (Hs : stands_for s ≡ a).

Lemma law_answered (c : Call) : servable a c -> holdable S c -> settled c ->
  exists s', call ttl c s = (expected a c, s') /\ ready s' /\ stands_for s' ≡ after c a.
Proof.
  intros Hc Hh Hd. destruct c; cbn [call expected after holdable servable settled] in *; try done.
  - eapply (answers_call _ (fun _ => AnUnit)); [by apply law_create | done | by apply a_create_proper].
  - eapply (answers_call _ AnBool); [by apply law_create_recovered | by apply a_create_recovered_equiv..].
  - eapply (answers_call _ AnOutcome); [by apply law_rotate | by apply a_rotate_equiv..].
  - eapply (answers_call _ AnRecord); [by apply law_find | by apply a_find_proper | done].
  - destruct (a_revoke_equiv k subject h _ _ Hs) as [He1 He2]. pose proof (law_revoke s k subject h Hr) as Hl. rewrite He1 in Hl.
    destruct (a_revoke k subject h a).1 eqn:Hx; [by eapply (answers_call _ (fun _ => AnUnit))|]. destruct Hl as (s' & Hrun & ? & Hst). exists s'.
    split; [by rewrite bind_run, Hrun|]. split; [done|]. rewrite Hst, Hs.
    clear He1 He2. unfold a_revoke in Hx |- *. by case_bool_decide.
  - eapply (answers_call _ (fun _ => AnUnit)); [by apply law_delete_grace | done | by apply a_delete_grace_proper].
  - eapply (answers_call _ AnHash); [by apply law_grace_successor | by apply a_grace_successor_proper | done].
  - eapply (answers_call _ (fun _ => AnUnit)); [by apply law_sweep | done | by apply a_sweep_grace_proper].
  - eapply (answers_call _ (fun _ => AnUnit)); [by apply law_revoke_all | done | by apply a_revoke_all_proper].
  - eapply (answers_call _ (fun _ => AnUnit)); [by apply law_revoke_family | done | by apply a_revoke_family_proper].
  - eapply (answers_call _ (fun _ => AnUnit)); [apply law_blacklist; [done | lia] | done | by apply a_blacklist_proper].
  - eapply (answers_call _ AnBool); [by apply law_is_blacklisted | by apply a_is_blacklisted_proper | done].
  - eapply (answers_call _ AnEpoch); [by apply law_current_epoch | by apply a_current_epoch_proper | done].
  - eapply (answers_call _ AnEpoch); [|by apply a_bump_epoch_equiv..]. apply law_bump_epoch; [done|]. by rewrite (a_current_epoch_proper k subject _ _ Hs).
  - eapply (answers_call _ (fun _ => AnUnit)); [by apply law_mark_recent | done | by apply a_mark_recent_proper].
  - eapply (answers_call _ AnBool); [by apply law_has_recent | by apply a_has_recent_proper | done].
Qed.
End lawful.

(** [holdable] and [settled] for a whole conversation. *)
Definition ordinary (S : Type) `{StoreView S} (calls : list Call) : Prop := Forall (fun c => holdable S c /\ settled c) calls.

Lemma answered_alike {S : Type} `{SessionStoreLaws S} (calls : list Call) (m : InMemoryStores) (s : S) (a : AStore) :
  0 < ttl <= i64_max -> mirrors (im_sessions m) a -> orderly a -> im_armed m = disarmed -> ready s -> stands_for s ≡ a ->
  all_servable a calls -> ordinary S calls -> answers_to ttl calls m = answers_to ttl calls s.
Proof.
  intros Httl. revert m s a. induction calls as [|c calls IH]; intros m s a Hm Ho Ha Hr Hs Hc Hor; [done|].
  destruct Hc as [Hc Hcs]. apply Forall_cons in Hor as [[Hh Hd] Hor].
  destruct (call_answered m a Hm Ho Ha c Hc) as (Hco & Hm' & Ha'). destruct (law_answered s a Httl Hr Hs c Hc Hh Hd) as (s' & Hrun & Hr' & Hs').
  cbn. rewrite Hrun. apply contract_settles in Hco; [|done]. destruct (call ttl c m) as [r m']. cbn in *. subst r.
  f_equal. apply (IH _ _ (after c a)); try done. by apply after_orderly.
Qed.

End simulation.

Module InMemorySample.
Import Concrete.
#[local] Existing Instances Sample.session_json Sample.session_json_laws.

#[export] Instance sorted_hashes : HashOrder := {| hash_order := elements |}.
#[export] Instance sorted_hashes_laws : HashOrderLaws.
Proof. by split. Qed.

Definition digest (c : ascii) : string := Nat.iter 64 (String c) EmptyString.

(** A session rotated twice, one of them recovered, then signed out with the rest
    of its account. *)
Definition signed : SessionRecord  := Sample.session "u1" "f1".
Definition talk : list Call := [
  CCreate SkDashboard "u1" (digest "a") signed;
  CRotate SkDashboard (Sample.rotation (digest "a") (digest "b") signed);
  CSuccessor SkDashboard (digest "a");
  CRotate SkDashboard (Sample.rotation (digest "a") (digest "c") signed);
  CRecover SkDashboard "u1" (digest "d") signed;
  CRotate SkDashboard (Sample.rotation (digest "a") (digest "c") signed);
  CBump SkDashboard "u1";
  CRevoke SkDashboard "u1" (digest "a");
  CRevokeFamily SkDashboard "f1" (Some "u1");
  CRevokeAll SkDashboard "u1";
  CFind SkDashboard (digest "b");
  CBlacklist "j1" 60;
  CIsBlacklisted "j1"].

Definition told : list (result AuthError Answer) := answers_to 100 talk (new_stores 0).

Example talk_told : told = [
  Ok AnUnit; Ok (AnOutcome (Rotated signed)); Ok (AnHash (Some (digest "b"))); Ok (AnOutcome (Grace signed)); Ok (AnBool true);
  Ok (AnOutcome (Reused "f1")); Ok (AnEpoch 1); Err SessionNotFound; Ok AnUnit; Ok AnUnit; Ok (AnRecord None); Ok AnUnit; Ok (AnBool true)].
Proof. vm_compute. reflexivity. Qed.

(** Only the index of "u1" is touched. *)
Definition touches (c : Call) (s : string) : Prop :=
  match c with
  | CCreate _ subject _ _ | CRecover _ subject _ _ | CRevoke _ subject _ | CSweep _ subject | CRevokeAll _ subject => s = subject
  | CRotate _ ro => s = ro_subject_hash ro
  | CRevokeFamily _ _ (Some subject) => s = subject
  | _ => False
  end.

Lemma elsewhere (c : Call) (a : AStore) (k : SessionKind) (s : string) :
  ~ touches c s -> a_index (after 100 c a) k s = a_index a k s.
Proof.
  intros Hc. destruct c; cbn in *; try done.
  - rewrite create_index, decide_False by naive_solver. done.
  - unfold a_create_recovered. case_match; [|done]. cbn. rewrite create_index, decide_False by naive_solver. done.
  - unfold a_rotate, a_rotated. repeat case_match; cbn; unfold upd; try done; rewrite !decide_False by naive_solver; done.
  - unfold a_revoke. case_match; [|done]. cbn. unfold upd. by rewrite decide_False by naive_solver.
  - unfold upd. by rewrite decide_False by naive_solver.
  - unfold upd. by rewrite decide_False by naive_solver.
  - unfold a_revoke_family. repeat case_match; cbn; unfold upd; try done. by rewrite decide_False by naive_solver.
  - unfold a_blacklist. by case_match.
Qed.

Lemma unfiled_by (a : AStore) (h : string) :
  (forall s, s <> "u1" -> a_index a SkDashboard s = None) ->
  bool_decide (live_member SkDashboard h ∈ members_of (a_index a SkDashboard "u1") \/
               grace_member SkDashboard h ∈ members_of (a_index a SkDashboard "u1")) = false -> unfiled a SkDashboard h.
Proof.
  intros Hs Hh%bool_decide_eq_false_1 s Hx. destruct (decide (s = "u1")) as [->|Hne]; [by apply Hh|]. unfold files in Hx. rewrite Hs in Hx by done.
  by destruct Hx as [?%elem_of_empty|?%elem_of_empty].
Qed.

Lemma rotation_servable (a : AStore) (old new : ascii) :
  unfiled a SkDashboard (digest new) -> is_hash_shape (digest new) = true ->
  match a_live a SkDashboard (digest old), a_grace a SkDashboard (digest old) with
  | Some (rec, _), _ => bool_decide (rec = signed)
  | None, Some (successor, _, _) => bool_decide (is_Some (a_live a SkDashboard successor))
  | None, None => true
  end = true ->
  servable Sample.owner 100 a (CRotate SkDashboard (Sample.rotation (digest old) (digest new) signed)).
Proof.
  intros Hf Hsh Hl. unfold servable, admissible. split_and!; [done | done | cbn; lia | | done | done | done |]; cbn -[digest].
  - intros rec t Hx. rewrite Hx in Hl. by apply bool_decide_eq_true_1 in Hl as ->.
  - intros Hx successor rec t Hg. rewrite Hx, Hg in Hl. by apply bool_decide_eq_true_1 in Hl.
Qed.

Ltac unused := apply unfiled_by; [by intros s Hs; rewrite ?elsewhere by (cbn; naive_solver) | vm_compute; reflexivity].

Lemma talk_servable : all_servable Sample.owner 100 (a_empty 0) talk.
Proof.
  unfold talk. cbn [all_servable]. split; [split; [done | unused]|].
  split; [apply rotation_servable; [unused | vm_compute; reflexivity..]|]. split; [done|].
  split; [apply rotation_servable; [unused | vm_compute; reflexivity..]|].
  split; [split; [done|]; split; [unused|]; apply (bool_decide_eq_true_1 (is_Some _)); vm_compute; reflexivity|].
  split; [apply rotation_servable; [unused | vm_compute; reflexivity..]|].
  split; [vm_compute; reflexivity|]. repeat (split; [vm_compute; done|]). exact I.
Qed.

Lemma rotation_held (old new : ascii) : contains_char ":" (digest new) = false ->
  @rotation_served Redis (redis_view Sample.ns) (Sample.rotation (digest old) (digest new) signed).
Proof. intros Hn. split; [by eexists | done | done]. Qed.

Lemma talk_ordinary : @ordinary Redis (redis_view Sample.ns) talk.
Proof.
  unfold talk. repeat (apply Forall_cons; split); try apply Forall_nil_2; (split; [|done]); cbn [holdable]; try done; try (by eexists);
    apply rotation_held; vm_compute; reflexivity.
Qed.


(** ** The two cases the maps answer otherwise *)

(** The successor of the recovery was signed out: the maps replay the recovery,
    Redis reports a reuse. *)
Definition orphaned : list Call := [
  CCreate SkDashboard "u1" (digest "a") signed;
  CRotate SkDashboard (Sample.rotation (digest "a") (digest "b") signed);
  CRevoke SkDashboard "u1" (digest "b");
  CRotate SkDashboard (Sample.rotation (digest "a") (digest "c") signed)].

Example orphaned_recovery :
  last (answers_to 100 orphaned (new_stores 0)) = Some (Ok (AnOutcome (Grace signed))) /\
  last (@answers_to Redis (redis_session_store Sample.ns) 100 orphaned (RedisLife.fresh 0)) = Some (Ok (AnOutcome (Reused "f1"))).
Proof. vm_compute. by split. Qed.

(** No grace window: the maps plant a pointer all the same. *)
Definition ungraced (old new : ascii) : SessionRotation := {|
  ro_old_hash := digest old; ro_new_hash := digest new; ro_new_raw := ""; ro_new_record := signed;
  ro_subject_hash := "u1"; ro_refresh_ttl := 100; ro_grace_ttl := 0 |}.

Definition replayed : list Call := [
  CCreate SkDashboard "u1" (digest "a") signed;
  CRotate SkDashboard (ungraced "a" "b");
  CRotate SkDashboard (ungraced "a" "c")].

Example ungraced_replay :
  last (answers_to 100 replayed (new_stores 0)) = Some (Ok (AnOutcome (Grace signed))) /\
  last (@answers_to Redis (redis_session_store Sample.ns) 100 replayed (RedisLife.fresh 0)) = Some (Ok (AnOutcome (Reused "f1"))).
Proof. vm_compute. by split. Qed.
End InMemorySample.
