(* ===== verification/Net.v ===== *)
(** * Addresses

    The parts of [std::net] the HTTP adapter uses: [IpAddr], its canonical form,
    the parser behind [str::parse::<IpAddr>] and the text [Display] writes. *)

From S2P Require Import Prelude Crypto UrlText.

(** An octet is a [u8] and a segment a [u16]. *)
Inductive IpAddr : Set :=
| V4 (a b c d : Z)
| V6 (a b c d e f g h : Z).

#[export] Instance IpAddr_eq_dec : EqDecision IpAddr.
Proof. solve_decision. Defined.

Definition segments (ip : IpAddr) : list Z :=
  match ip with V4 _ _ _ _ => [] | V6 a b c d e f g h => [a; b; c; d; e; f; g; h] end.

(** [Ipv6Addr::to_ipv4_mapped]: [::ffff:a.b.c.d]. *)
Definition to_ipv4_mapped (ip : IpAddr) : option IpAddr :=
  match ip with
  | V6 0 0 0 0 0 65535 g h => Some (V4 (g / 256) (g mod 256) (h / 256) (h mod 256))
  | _ => None
  end.

Definition to_canonical (ip : IpAddr) : IpAddr := default ip (to_ipv4_mapped ip).

(** ** Parsing *)

(** A reader takes a prefix of the text, or fails and takes nothing. *)
Definition reader (A : Type) : Type := string -> option (A * string).

Definition to_digit (radix : Z) (c : ascii) : option Z :=
  let n := byte_z c in
  let d := if bool_decide (48 <= n <= 57) then n - 48
           else if bool_decide (97 <= n <= 122) then n - 87
           else if bool_decide (65 <= n <= 90) then n - 55 else radix in
  if bool_decide (d < radix) then Some d else None.

Fixpoint span_digits (radix : Z) (s : string) : list Z * string :=
  match s with
  | EmptyString => ([], EmptyString)
  | String c s' =>
      match to_digit radix c with
      | Some d => let '(ds, rest) := span_digits radix s' in (d :: ds, rest)
      | None => ([], s)
      end
  end.

Definition digits_value (radix : Z) (ds : list Z) : Z := foldl (fun n d => n * radix + d) 0 ds.

Definition read_number (radix max : Z) (max_digits : nat) (allow_zero_prefix : bool) : reader Z := fun s =>
  let '(ds, rest) := span_digits radix s in
  if bool_decide (max_digits < length ds)%nat then None else
  match ds with
  | [] => None
  | d :: tail =>
      if negb allow_zero_prefix && Z.eqb d 0 && negb (bool_decide (tail = [])) then None else
      if bool_decide (max < digits_value radix ds) then None else Some (digits_value radix ds, rest)
  end.

Definition read_given_char (c : ascii) : reader unit := fun s =>
  match s with String a rest => if decide (a = c) then Some (tt, rest) else None | EmptyString => None end.

(** Every element but the first is preceded by the separator. *)
Definition read_separator {A} (sep : ascii) (index : nat) (inner : reader A) : reader A := fun s =>
  if Nat.eqb index 0 then inner s else '(_, s) ← read_given_char sep s; inner s.

Definition read_octet : reader Z := read_number 10 255 3 false.
Definition read_group : reader Z := read_number 16 65535 4 true.

Definition read_ipv4_addr : reader (Z * Z * Z * Z) := fun s =>
  '(a, s) ← read_separator "." 0 read_octet s;
  '(b, s) ← read_separator "." 1 read_octet s;
  '(c, s) ← read_separator "." 2 read_octet s;
  '(d, s) ← read_separator "." 3 read_octet s;
  Some ((a, b, c, d), s).

(** Up to [left] groups, the last two of which may be an embedded IPv4 address;
    whether they were is the second answer. *)
Fixpoint read_groups (left index : nat) (s : string) : list Z * bool * string :=
  match left with
  | 0%nat => ([], false, s)
  | Datatypes.S left' =>
      match (if bool_decide (1 < left)%nat then read_separator ":" index read_ipv4_addr s else None) with
      | Some ((a, b, c, d), rest) => ([a * 256 + b; c * 256 + d], true, rest)
      | None =>
          match read_separator ":" index read_group s with
          | Some (g, rest) => let '(gs, ipv4, rest) := read_groups left' (Datatypes.S index) rest in (g :: gs, ipv4, rest)
          | None => ([], false, s)
          end
      end
  end.

Definition of_segments (gs : list Z) : option IpAddr :=
  match gs with [a; b; c; d; e; f; g; h] => Some (V6 a b c d e f g h) | _ => None end.

Definition read_ipv6_addr : reader IpAddr := fun s =>
  let '(head, head_ipv4, rest) := read_groups 8 0 s in
  if Nat.eqb (length head) 8 then ip ← of_segments head; Some (ip, rest) else
  if head_ipv4 then None else
  '(_, rest) ← read_given_char ":" rest;
  '(_, rest) ← read_given_char ":" rest;
  let '(tail, _, rest) := read_groups (8 - (length head + 1)) 0 rest in
  ip ← of_segments (head ++ replicate (8 - length head - length tail) 0 ++ tail);
  Some (ip, rest).

(** [s.parse::<IpAddr>()]: the whole text is one address. *)
Definition parse_ip (s : string) : option IpAddr :=
  '(ip, rest) ← match read_ipv4_addr s with
                | Some ((a, b, c, d), rest) => Some (V4 a b c d, rest)
                | None => read_ipv6_addr s
                end;
  if string_is_empty rest then Some ip else None.

(** ** Printing *)

Definition hex_digit (d : Z) : ascii := z_byte (if bool_decide (d < 10) then d + 48 else d + 87).

(** [{:x}] of a [u16]: lower case, no leading zeros. *)
Definition hex_of (n : Z) : string :=
  if bool_decide (n < 16) then String (hex_digit n) ""
  else if bool_decide (n < 256) then String (hex_digit (n / 16)) (String (hex_digit (n mod 16)) "")
  else if bool_decide (n < 4096) then
    String (hex_digit (n / 256)) (String (hex_digit (n / 16 mod 16)) (String (hex_digit (n mod 16)) ""))
  else String (hex_digit (n / 4096)) (String (hex_digit (n / 256 mod 16))
         (String (hex_digit (n / 16 mod 16)) (String (hex_digit (n mod 16)) ""))).

Definition fmt_subslice (chunk : list Z) : string := String.concat ":" (hex_of <$> chunk).

Definition display_v4 (a b c d : Z) : string :=
  z_to_string a +:+ "." +:+ z_to_string b +:+ "." +:+ z_to_string c +:+ "." +:+ z_to_string d.

(** The first longest run of zero segments, as its start and length. *)
Fixpoint zero_span (i : nat) (current longest : nat * nat) (gs : list Z) : nat * nat :=
  match gs with
  | [] => longest
  | g :: gs' =>
      if Z.eqb g 0 then
        let current := (if Nat.eqb current.2 0 then i else current.1, Datatypes.S current.2) in
        zero_span (Datatypes.S i) current (if bool_decide (longest.2 < current.2)%nat then current else longest) gs'
      else zero_span (Datatypes.S i) (0, 0)%nat longest gs'
  end.

Definition display_ip (ip : IpAddr) : string :=
  match ip with
  | V4 a b c d => display_v4 a b c d
  | V6 _ _ _ _ _ _ _ _ =>
      match to_ipv4_mapped ip with
      | Some (V4 a b c d) => "::ffff:" +:+ display_v4 a b c d
      | _ =>
          let '(start, len) := zero_span 0 (0, 0)%nat (0, 0)%nat (segments ip) in
          if bool_decide (1 < len)%nat then
            fmt_subslice (take start (segments ip)) +:+ "::" +:+ fmt_subslice (drop (start + len) (segments ip))
          else fmt_subslice (segments ip)
      end
  end.

Module AddressSamples.
Example address_mapped : to_canonical (V6 0 0 0 0 0 65535 49320 258) = V4 192 168 1 2.
Proof. reflexivity. Qed.
Example address_parsed : parse_ip <$> ["203.0.113.9"; "2001:db8::1"; "::ffff:192.168.1.2"; "1.2.3"; "01.2.3.4"; "1::2::3"] =
  [Some (V4 203 0 113 9); Some (V6 8193 3512 0 0 0 0 0 1); Some (V6 0 0 0 0 0 65535 49320 258); None; None; None].
Proof. vm_compute. reflexivity. Qed.
Example address_printed : display_ip <$> [V4 203 0 113 9; V6 8193 3512 0 0 0 0 0 1; V6 0 0 0 0 0 65535 49320 258; V6 0 0 1 0 0 0 0 0] =
  ["203.0.113.9"; "2001:db8::1"; "::ffff:192.168.1.2"; "0:0:1::"].
Proof. vm_compute. reflexivity. Qed.
End AddressSamples.

(** * Addresses as text

    [parse_display]: what [Display] writes for an address, the parser reads back
    as the same address; so no two addresses share a text. *)

Definition octet (n : Z) : Prop := 0 <= n < 256.
Definition segment (n : Z) : Prop := 0 <= n < 65536.

Definition valid_ip (ip : IpAddr) : Prop :=
  match ip with
  | V4 a b c d => Forall octet [a; b; c; d]
  | V6 _ _ _ _ _ _ _ _ => Forall segment (segments ip)
  end.

(** ** Digits *)

Definition stops (radix : Z) (s : string) : Prop := match s with String c _ => to_digit radix c = None | EmptyString => True end.

Lemma span_digits_stops (radix : Z) (s : string) : stops radix s -> span_digits radix s = ([], s).
Proof. destruct s as [|c s]; cbn; [done|]. by intros ->. Qed.

Lemma span_digits_app (radix : Z) (s rest : string) :
  stops radix rest -> (span_digits radix s).2 = "" -> span_digits radix (s +:+ rest) = ((span_digits radix s).1, rest).
Proof.
  intros Hrest. induction s as [|c s IH]; [intros _; by apply span_digits_stops|]. rewrite string_app_cons. cbn.
  destruct (to_digit radix c); [|done]. destruct (span_digits radix s) as [ds r]. cbn. intros Hr. by rewrite (IH Hr).
Qed.

Lemma span_digits_suffix (radix : Z) (s : string) : exists p, s = p +:+ (span_digits radix s).2.
Proof.
  induction s as [|c s [p IH]]; [by exists ""|]. cbn. destruct (to_digit radix c); [|by exists ""].
  destruct (span_digits radix s) as [ds r] eqn:Hs. cbn in *. exists (String c p). by rewrite string_app_cons, <- IH.
Qed.

(** The reader of a number takes exactly a text whose digits are in order. *)
Lemma read_number_app (radix max : Z) (n_digits : nat) (zero : bool) (s rest : string) (n : Z) :
  read_number radix max n_digits zero s = Some (n, "") -> stops radix rest ->
  read_number radix max n_digits zero (s +:+ rest) = Some (n, rest).
Proof.
  intros Hs Hrest. unfold read_number in *. pose proof (span_digits_app radix s rest Hrest) as Happ.
  destruct (span_digits radix s) as [ds r]. cbn in Happ.
  assert (Hr : r = "") by (repeat (case_match; simplify_eq/=; try done)). rewrite (Happ Hr).
  repeat (case_match; simplify_eq/=; try done).
Qed.

Lemma octet_text (n : Z) : octet n -> read_octet (z_to_string n) = Some (n, "").
Proof.
  intros Hn. assert (Hall : forallb (fun k => bool_decide (read_octet (z_to_string (Z.of_nat k)) = Some (Z.of_nat k, ""))) (seq 0 256) = true)
    by (vm_compute; reflexivity).
  rewrite forallb_forall in Hall. specialize (Hall (Z.to_nat n)). rewrite in_seq, bool_decide_eq_true, Z2Nat.id in Hall by (unfold octet in Hn; lia).
  apply Hall. unfold octet in Hn. lia.
Qed.

Lemma hex_digit_value (d : Z) : 0 <= d < 16 -> to_digit 16 (hex_digit d) = Some d.
Proof.
  intros Hd. assert (Hall : forallb (fun k => bool_decide (to_digit 16 (hex_digit (Z.of_nat k)) = Some (Z.of_nat k))) (seq 0 16) = true)
    by (vm_compute; reflexivity).
  rewrite forallb_forall in Hall. specialize (Hall (Z.to_nat d)). rewrite in_seq, bool_decide_eq_true, Z2Nat.id in Hall by lia.
  apply Hall. lia.
Qed.

Lemma nibble_bounds (n k : Z) : 0 <= n -> 0 < k -> 0 <= n / k /\ 0 <= n mod 16 < 16.
Proof. intros Hn Hk. split; [by apply Z.div_pos | by apply Z.mod_pos_bound]. Qed.

Lemma group_text (n : Z) : segment n -> read_group (hex_of n) = Some (n, "").
Proof.
  unfold segment. intros Hn. unfold read_group, read_number, hex_of.
  pose proof (Z.div_mod n 16 ltac:(lia)) as H1. pose proof (Z.div_mod (n / 16) 16 ltac:(lia)) as H2.
  pose proof (Z.div_mod (n / 16 / 16) 16 ltac:(lia)) as H3.
  pose proof (nibble_bounds n 16 ltac:(lia) ltac:(lia)). pose proof (nibble_bounds (n / 16) 16 ltac:(lia) ltac:(lia)).
  pose proof (nibble_bounds (n / 16 / 16) 16 ltac:(lia) ltac:(lia)).
  replace (n / 256) with (n / 16 / 16) by (by rewrite Z.div_div by lia).
  replace (n / 4096) with (n / 16 / 16 / 16) by (by rewrite !Z.div_div by lia).
  set (m0 := n mod 16) in *. set (m1 := n / 16 mod 16) in *. set (m2 := n / 16 / 16 mod 16) in *.
  set (q3 := n / 16 / 16 / 16) in *. set (q2 := n / 16 / 16) in *. set (q1 := n / 16) in *.
  repeat case_bool_decide; cbn [span_digits]; rewrite !hex_digit_value by lia;
    rewrite (bool_decide_false (4 < _)%nat) by (cbn; lia); cbn [negb andb];
    rewrite (bool_decide_false (65535 < _)) by (unfold digits_value; cbn; lia); unfold digits_value; cbn; do 2 f_equal; lia.
Qed.

(** ** IPv4 *)

Definition no_dot (s : string) : Prop := contains_char "." s = false.

Lemma no_dot_suffix (p s : string) : no_dot (p +:+ s) -> no_dot s.
Proof. unfold no_dot. rewrite contains_char_app. by intros [_ ?]%orb_false_iff. Qed.

Lemma read_octet_suffix (s : string) (n : Z) (rest : string) : read_octet s = Some (n, rest) -> exists p, s = p +:+ rest.
Proof.
  intros Hs. destruct (span_digits_suffix 10 s) as [p Hp]. exists p. unfold read_octet, read_number in Hs.
  destruct (span_digits 10 s) as [ds r]. cbn in Hp. rewrite Hp. f_equal. repeat (case_match; simplify_eq/=; try done).
Qed.

Lemma no_dot_no_ipv4 (s : string) : no_dot s -> read_ipv4_addr s = None.
Proof.
  intros Hs. unfold read_ipv4_addr, read_separator. cbn [Nat.eqb]. destruct (read_octet s) as [[a rest]|] eqn:Ha; [|done].
  apply read_octet_suffix in Ha as [p ->]. apply no_dot_suffix in Hs. cbn. destruct rest as [|c rest]; cbn; [done|].
  unfold no_dot in Hs. rewrite contains_char_cons in Hs. apply orb_false_iff in Hs as [Hc%bool_decide_eq_false _].
  by rewrite decide_False.
Qed.

Lemma read_dotted (n : Z) (s rest : string) : octet n -> stops 10 rest -> s = z_to_string n +:+ rest -> read_octet s = Some (n, rest).
Proof. intros Hn Hrest ->. apply read_number_app; [by apply octet_text | done]. Qed.

Lemma read_ipv4_app (a b c d : Z) (rest : string) :
  Forall octet [a; b; c; d] -> stops 10 rest -> read_ipv4_addr (display_v4 a b c d +:+ rest) = Some ((a, b, c, d), rest).
Proof.
  intros Hall Hrest. rewrite !list.Forall_cons in Hall. destruct Hall as (Ha & Hb & Hc & Hd & _).
  unfold display_v4. rewrite !string_app_assoc. unfold read_ipv4_addr, read_separator. cbn [Nat.eqb].
  rewrite (read_dotted a _ ("." +:+ z_to_string b +:+ "." +:+ z_to_string c +:+ "." +:+ z_to_string d +:+ rest)) by done.
  cbn [mbind option_bind]. change (read_given_char "." ("." +:+ ?x)) with (Some (tt, x)). cbn [mbind option_bind].
  rewrite (read_dotted b _ ("." +:+ z_to_string c +:+ "." +:+ z_to_string d +:+ rest)) by done.
  cbn [mbind option_bind]. change (read_given_char "." ("." +:+ ?x)) with (Some (tt, x)). cbn [mbind option_bind].
  rewrite (read_dotted c _ ("." +:+ z_to_string d +:+ rest)) by done.
  cbn [mbind option_bind]. change (read_given_char "." ("." +:+ ?x)) with (Some (tt, x)). cbn [mbind option_bind].
  by rewrite (read_dotted d _ rest).
Qed.

(** ** Groups *)

Fixpoint groups_text (index : nat) (gs : list Z) : string :=
  match gs with
  | [] => ""
  | g :: gs' => (if Nat.eqb index 0 then "" else ":") +:+ hex_of g +:+ groups_text (Datatypes.S index) gs'
  end.

Lemma groups_text_sep (gs : list Z) (i j : nat) : i <> 0%nat -> j <> 0%nat -> groups_text i gs = groups_text j gs.
Proof.
  revert i j. induction gs as [|g gs IH]; intros i j Hi Hj; [done|]. cbn.
  destruct i as [|i], j as [|j]; [done..|]. cbn. by rewrite (IH (Datatypes.S (Datatypes.S i)) (Datatypes.S (Datatypes.S j))).
Qed.

Lemma fmt_subslice_text (gs : list Z) : fmt_subslice gs = groups_text 0 gs.
Proof.
  unfold fmt_subslice. assert (Htl : forall g l, String.concat ":" (hex_of <$> (g :: l)) = hex_of g +:+ groups_text 1 l).
  { intros g l. revert g. induction l as [|h l IH]; intros g; [cbn; by rewrite string_app_nil_r|].
    change (hex_of g +:+ ":" +:+ String.concat ":" (hex_of <$> (h :: l)) = hex_of g +:+ groups_text 1 (h :: l)).
    rewrite IH. cbn. by rewrite (groups_text_sep l 2 1). }
  destruct gs as [|g gs]; [done|]. by rewrite Htl.
Qed.

(** What may follow the groups: the end of the text, or the double colon. *)
Definition ends_groups (s : string) : Prop := s = "" \/ exists s', s = "::" +:+ s'.

Lemma ends_groups_read (left index : nat) (s : string) : ends_groups s -> no_dot s -> read_groups left index s = ([], false, s).
Proof.
  intros Hs Hd. destruct left as [|left]; [done|]. cbn [read_groups].
  assert (Hnone : forall A (inner : reader A), inner "" = None -> (forall s', inner (String ":" s') = None) ->
                  read_separator ":" index inner s = None).
  { intros A inner H0 Hc. unfold read_separator. destruct index as [|i]; cbn; [|].
    - destruct Hs as [->|[s' ->]]; [done | apply Hc].
    - destruct Hs as [->|[s' ->]]; [done|]. cbn. apply Hc. }
  rewrite !Hnone by done. by case_bool_decide.
Qed.

Lemma hex_of_no_dot (n : Z) : segment n -> no_dot (hex_of n).
Proof.
  intros Hn. unfold no_dot. apply group_text in Hn. destruct (contains_char "." (hex_of n)) eqn:Hc; [|done]. exfalso.
  unfold read_group, read_number in Hn. assert (Hsp : (span_digits 16 (hex_of n)).2 = "").
  { destruct (span_digits 16 (hex_of n)) as [ds r]. cbn. repeat (case_match; simplify_eq/=; try done). }
  clear Hn. induction (hex_of n) as [|c s IH]; [done|]. rewrite contains_char_cons in Hc. cbn in Hsp.
  destruct (to_digit 16 c) eqn:Ht; [|done]. destruct (span_digits 16 s) as [ds r]. cbn in *.
  apply orb_true_iff in Hc as [Hc%bool_decide_eq_true|Hc]; [by subst c | by apply IH].
Qed.

Lemma groups_text_no_dot (index : nat) (gs : list Z) : Forall segment gs -> no_dot (groups_text index gs).
Proof.
  intros Hall. revert index. induction Hall as [|g gs Hg Hall IH]; intros index; [done|]. cbn [groups_text]. unfold no_dot.
  rewrite !contains_char_app, hex_of_no_dot, IH by done. by destruct index.
Qed.

Lemma stops_after (index : nat) (gs : list Z) (s : string) :
  index <> 0%nat -> ends_groups s -> stops 16 (groups_text index gs +:+ s).
Proof. intros Hi Hs. destruct gs as [|g gs]; [by destruct Hs as [->|[s' ->]]|]. cbn. by destruct index. Qed.

Lemma read_groups_text (gs : list Z) (left index : nat) (s : string) :
  Forall segment gs -> (length gs <= left)%nat -> ends_groups s -> no_dot s ->
  read_groups left index (groups_text index gs +:+ s) = (gs, false, s).
Proof.
  intros Hall. revert left index. induction Hall as [|g gs Hg Hall IH]; intros left index Hlen Hs Hd; [by apply ends_groups_read|].
  destruct left as [|left]; [cbn in Hlen; lia|].
  assert (Hnd : no_dot (hex_of g +:+ groups_text (Datatypes.S index) gs +:+ s)).
  { unfold no_dot. by rewrite !contains_char_app, hex_of_no_dot, groups_text_no_dot, Hd. }
  cbn [read_groups groups_text].
  set (tail := groups_text (Datatypes.S index) gs +:+ s) in *.
  assert (Hgo : forall A (inner : reader A), inner (hex_of g +:+ tail) = read_separator ":" index inner
            (((if Nat.eqb index 0 then "" else ":") +:+ hex_of g +:+ groups_text (Datatypes.S index) gs) +:+ s)).
  { intros A inner. rewrite !string_app_assoc. fold tail. unfold read_separator. by destruct index. }
  rewrite <- !Hgo, no_dot_no_ipv4 by done.
  unfold read_group at 1. rewrite (read_number_app 16 65535 4 true (hex_of g) tail g); [|by apply group_text | by apply stops_after].
  unfold tail. rewrite IH by (cbn in Hlen; done || lia). by case_bool_decide.
Qed.

(** ** The run of zeros *)

Definition zeros_at (gs : list Z) (span : nat * nat) : Prop :=
  (span.1 + span.2 <= length gs)%nat /\ take span.2 (drop span.1 gs) = replicate span.2 0.

Lemma zeros_at_app (gs l : list Z) (span : nat * nat) : zeros_at gs span -> zeros_at (gs ++ l) span.
Proof.
  intros [Hlen Hz]. split; [rewrite length_app; lia|]. rewrite drop_app_le, take_app_le by (rewrite ?length_drop; lia). done.
Qed.

Lemma zeros_at_snoc (gs : list Z) (s n : nat) : (s + n)%nat = length gs -> zeros_at gs (s, n) -> zeros_at (gs ++ [0]) (s, Datatypes.S n).
Proof.
  intros Hend [_ Hz]. cbn in *. split; [rewrite length_app; cbn; lia|]. cbn [fst snd].
  rewrite drop_app_le by lia. rewrite take_ge by (rewrite length_app, length_drop; cbn; lia).
  rewrite take_ge in Hz by (rewrite length_drop; lia). rewrite Hz. by rewrite replicate_S_end.
Qed.

Lemma zero_span_zeros (gs pre : list Z) (current longest : nat * nat) :
  zeros_at pre longest -> zeros_at pre current -> current.2 = 0%nat \/ (current.1 + current.2)%nat = length pre ->
  zeros_at (pre ++ gs) (zero_span (length pre) current longest gs).
Proof.
  revert pre current longest. induction gs as [|g gs IH]; intros pre current longest Hl Hc Hend; [by rewrite app_nil_r|].
  cbn [zero_span]. rewrite cons_middle, app_assoc. replace (Datatypes.S (length pre)) with (length (pre ++ [g])) by (rewrite length_app; cbn; lia).
  destruct (Z.eqb_spec g 0) as [->|Hg].
  - assert (Hc' : zeros_at (pre ++ [0]) (if Nat.eqb current.2 0 then length pre else current.1, Datatypes.S current.2)).
    { destruct (Nat.eqb_spec current.2 0) as [H0|H0].
      - rewrite H0. apply zeros_at_snoc; [lia|]. split; cbn; [lia|]. done.
      - destruct Hend as [?|Hend]; [done|]. apply zeros_at_snoc; [done | by destruct current]. }
    apply IH; [case_bool_decide; [done | by apply zeros_at_app] | done |]. right. cbn. rewrite length_app. cbn.
    destruct (Nat.eqb_spec current.2 0); lia.
  - apply IH; [by apply zeros_at_app | split; cbn; [lia | done] | by left].
Qed.

Lemma zeros_split (gs : list Z) (start len : nat) :
  zeros_at gs (start, len) -> gs = take start gs ++ replicate len 0 ++ drop (start + len) gs.
Proof.
  intros [Hlen Hz]. cbn in *. rewrite <- Hz, <- drop_drop, take_drop. by rewrite take_drop.
Qed.

(** ** The round trip *)

Lemma of_segments_list (ip : IpAddr) : segments ip <> [] -> of_segments (segments ip) = Some ip.
Proof. by destruct ip. Qed.

Lemma parse_groups_full (ip : IpAddr) :
  Forall segment (segments ip) -> segments ip <> [] -> parse_ip (fmt_subslice (segments ip)) = Some ip.
Proof.
  intros Hall Hne. rewrite fmt_subslice_text. unfold parse_ip. rewrite no_dot_no_ipv4 by (by apply groups_text_no_dot).
  unfold read_ipv6_addr. rewrite <- (string_app_nil_r (groups_text 0 _)).
  assert (Hlen : length (segments ip) = 8%nat) by (by destruct ip).
  rewrite read_groups_text; [|done | lia | by left | done]. rewrite Hlen. cbn [Nat.eqb]. by rewrite of_segments_list.
Qed.

Lemma parse_groups_gap (ip : IpAddr) (start len : nat) :
  Forall segment (segments ip) -> segments ip <> [] -> (1 < len)%nat -> zeros_at (segments ip) (start, len) ->
  parse_ip (fmt_subslice (take start (segments ip)) +:+ "::" +:+ fmt_subslice (drop (start + len) (segments ip))) = Some ip.
Proof.
  intros Hall Hne Hl Hz. assert (Hlen : length (segments ip) = 8%nat) by (by destruct ip).
  pose proof (zeros_split _ _ _ Hz) as Hsplit. destruct Hz as [Hb _]. cbn in Hb. rewrite Hlen in Hb.
  assert (Hh : Forall segment (take start (segments ip))) by (by apply Forall_take).
  assert (Ht : Forall segment (drop (start + len) (segments ip))) by (by apply Forall_drop).
  rewrite !fmt_subslice_text. set (tail := groups_text 0 (drop (start + len) (segments ip))).
  assert (Hdot : no_dot ("::" +:+ tail)) by (apply (groups_text_no_dot 0) in Ht; exact Ht).
  unfold parse_ip. rewrite no_dot_no_ipv4.
  2: { unfold no_dot. rewrite contains_char_app, groups_text_no_dot by done. exact Hdot. }
  unfold read_ipv6_addr.
  rewrite read_groups_text; [|done | rewrite length_take; lia | right; by exists tail | exact Hdot].
  rewrite length_take, Hlen. replace (start `min` 8)%nat with start by lia.
  rewrite (proj2 (Nat.eqb_neq start 8)) by lia. cbn [mbind option_bind].
  change (read_given_char ":" ("::" +:+ tail)) with (Some (tt, ":" +:+ tail)). cbn [mbind option_bind].
  change (read_given_char ":" (":" +:+ tail)) with (Some (tt, tail)). cbn [mbind option_bind].
  unfold tail. rewrite <- (string_app_nil_r (groups_text 0 _)).
  rewrite read_groups_text; [|done | rewrite length_drop; lia | by left | done].
  rewrite length_drop, Hlen. replace (8 - start - (8 - (start + len)))%nat with len by lia.
  rewrite <- Hsplit, of_segments_list by done. done.
Qed.

Lemma read_groups_v4 (left index : nat) (s rest : string) (a b c d : Z) :
  read_separator ":" index read_ipv4_addr s = Some ((a, b, c, d), rest) ->
  read_groups (Datatypes.S (Datatypes.S left)) index s = ([a * 256 + b; c * 256 + d], true, rest).
Proof. intros Hs. cbn [read_groups]. rewrite bool_decide_true by lia. by rewrite Hs. Qed.

Lemma read_groups_one (left index : nat) (s rest : string) (g : Z) :
  read_separator ":" index read_ipv4_addr s = None -> read_separator ":" index read_group s = Some (g, rest) ->
  read_groups (Datatypes.S left) index s =
  (g :: (read_groups left (Datatypes.S index) rest).1.1, (read_groups left (Datatypes.S index) rest).1.2,
   (read_groups left (Datatypes.S index) rest).2).
Proof.
  intros Hv Hs. cbn [read_groups]. rewrite Hv, Hs. destruct (read_groups left (Datatypes.S index) rest) as [[gs v4] r].
  by case_bool_decide.
Qed.

Lemma parse_mapped (g h : Z) : segment g -> segment h ->
  parse_ip ("::ffff:" +:+ display_v4 (g / 256) (g mod 256) (h / 256) (h mod 256)) = Some (V6 0 0 0 0 0 65535 g h).
Proof.
  unfold segment. intros Hg Hh.
  assert (Ho : Forall octet [g / 256; g mod 256; h / 256; h mod 256]).
  { repeat apply Forall_cons; try apply Forall_nil; unfold octet; try apply Z.mod_pos_bound; try done;
      split; [apply Z.div_pos; lia | apply Z.div_lt_upper_bound; lia | apply Z.div_pos; lia | apply Z.div_lt_upper_bound; lia]. }
  pose proof (read_ipv4_app _ _ _ _ "" Ho I) as Hv4. rewrite string_app_nil_r in Hv4.
  set (text := display_v4 _ _ _ _) in *. unfold parse_ip. change (read_ipv4_addr ("::ffff:" +:+ text)) with (@None (Z * Z * Z * Z * string)).
  cbn [mbind option_bind]. unfold read_ipv6_addr. change (read_groups 8 0 ("::ffff:" +:+ text)) with (@nil Z, false, "::ffff:" +:+ text).
  cbn [length Nat.eqb]. change (read_given_char ":" ("::ffff:" +:+ text)) with (Some (tt, ":ffff:" +:+ text)). cbn [mbind option_bind].
  change (read_given_char ":" (":ffff:" +:+ text)) with (Some (tt, "ffff:" +:+ text)). cbn [mbind option_bind].
  assert (Hgs : read_groups (8 - (0 + 1)) 0 ("ffff:" +:+ text) = ([65535; g / 256 * 256 + g mod 256; h / 256 * 256 + h mod 256], true, "")).
  { rewrite (read_groups_one 6 0 _ (":" +:+ text) 65535) by done. rewrite (read_groups_v4 4 1 (":" +:+ text) "" _ _ _ _ Hv4). done. }
  rewrite Hgs. cbn [length Nat.sub replicate app of_segments mbind option_bind].
  rewrite !(Z.mul_comm _ 256), <- !Z.div_mod by lia. done.
Qed.

Lemma to_ipv4_mapped_Some (ip v4 : IpAddr) :
  to_ipv4_mapped ip = Some v4 -> exists g h, ip = V6 0 0 0 0 0 65535 g h /\ v4 = V4 (g / 256) (g mod 256) (h / 256) (h mod 256).
Proof.
  unfold to_ipv4_mapped. destruct ip as [|a b c d e f g h]; [done|]. intros Hm.
  repeat (case_match; simplify_eq; try done). by exists g, h.
Qed.

(** The text of an address is read back as that address. *)
Theorem parse_display (ip : IpAddr) : valid_ip ip -> parse_ip (display_ip ip) = Some ip.
Proof.
  destruct ip as [a b c d|a b c d e f g h]; intros Hv.
  - unfold parse_ip, display_ip. rewrite <- (string_app_nil_r (display_v4 a b c d)). by rewrite read_ipv4_app.
  - cbn [valid_ip] in Hv. unfold display_ip. destruct (to_ipv4_mapped _) as [v4|] eqn:Hm.
    + apply to_ipv4_mapped_Some in Hm as (g' & h' & [= -> -> -> -> -> -> <- <-] & ->).
      cbn [segments] in Hv. rewrite !list.Forall_cons in Hv. destruct Hv as (_ & _ & _ & _ & _ & _ & Hg & Hh & _).
      by apply parse_mapped.
    + pose proof (zero_span_zeros (segments (V6 a b c d e f g h)) [] (0, 0)%nat (0, 0)%nat) as Hz.
      destruct (zero_span _ _ _ _) as [start len]. case_bool_decide; [apply parse_groups_gap; try done | by apply parse_groups_full].
      apply Hz; [split; cbn; [lia | done].. | by left].
Qed.

Corollary display_ip_inj (x y : IpAddr) : valid_ip x -> valid_ip y -> display_ip x = display_ip y -> x = y.
Proof. intros Hx Hy Heq. apply parse_display in Hx, Hy. rewrite Heq in Hx. congruence. Qed.
