(* ===== verification/Http.v ===== *)
(** * Requests and responses

    What the HTTP adapter sees of a request and answers, with
    [crates/bymax-auth-axum/src/response.rs] and [transport.rs]: how a failure is
    rendered, and the fixed answers to a request the adapter cannot read. *)

From S2P Require Import Prelude Errors Types Crypto Engine Sessions AuthCore Net.

(** ** The http package

    A header map is read by name (in lower case) or in order; a value is its
    text, or [None] where it is not visible ASCII. *)
Class HttpLib : Type := {
  HeaderMap : Type;
  header_get : HeaderMap -> string -> option string;
  header_get_all : HeaderMap -> string -> list (option string);
  header_contains : HeaderMap -> string -> bool;
  header_iter : HeaderMap -> list (string * option string);
  Method : Type;
  Method_eq_dec :: EqDecision Method;
  mGET : Method; mHEAD : Method; mOPTIONS : Method; mDELETE : Method; mPOST : Method;
  is_safe : Method -> bool;
  method_text : Method -> string;
  header_value_valid : string -> bool;
}.

(** A request without its body: what the extractors read.  The peer is the
    transport's, the matched path and the captured parameter are the router's. *)
Record Parts `{HttpLib} : Type := {
  pt_method : Method;
  pt_path : string;
  pt_query : option string;
  pt_headers : HeaderMap;
  pt_peer : option IpAddr;
  pt_resolved_ip : option IpAddr;
  pt_matched_path : option string;
  pt_param : result Z string;
}.

(** ** Responses *)

(** A session as the list shows it: its instants in milliseconds. *)
Record SessionBody : Set := {
  sb_id : string;
  sb_session_hash : string;
  sb_device : string;
  sb_ip : string;
  sb_is_current : bool;
  sb_created_at : Z;
  sb_last_activity_at : Z;
}.

(** The bodies: none, the plain text of a layer, or the JSON a handler writes. *)
Inductive Body : Type :=
| BNone
| BText
| BEmptyObject
| BError (envelope : Error.AuthErrorEnvelope)
| BProfile (user : SafeAuthUser)
| BUser (user : SafeAuthUser)
| BBearer (user : SafeAuthUser) (access_token refresh_token : string)
| BAdminProfile (admin : SafeAuthPlatformUser)
| BPlatformBearer (admin : SafeAuthPlatformUser) (access_token refresh_token : string)
| BChallenge (challenge : MfaChallengeResult)
| BVerifiedToken (token : string)
| BMfaSetup (secret qr_code_uri : string) (recovery_codes : list string)
| BRecoveryCodes (codes : list string)
| BSessions (sessions : list SessionBody)
| BTicket (ticket : string) (expires_in : Z).

Record Response (C : Type) : Type := {
  rs_status : Z;
  rs_body : Body;
  rs_retry_after : option Z;
  rs_location : option string;
  rs_extra_cookies : list C;
}.
Arguments rs_status {C} _.
Arguments rs_body {C} _.
Arguments rs_retry_after {C} _.
Arguments rs_location {C} _.
Arguments rs_extra_cookies {C} _.

Section responses.
Context {C : Type}.

Definition plain (status : Z) (body : Body) : Response C :=
  {| rs_status := status; rs_body := body; rs_retry_after := None; rs_location := None; rs_extra_cookies := [] |}.

Definition no_content : Response C := plain 204 BNone.

(** ** Failures *)

Definition retry_after_seconds (error : AuthError) : option Z :=
  match error with AccountLocked seconds | TooManyRequests seconds => seconds | _ => None end.

Definition error_response (error : AuthError) : Response C :=
  {| rs_status := Error.http_status error; rs_body := BError (Error.to_envelope error);
     rs_retry_after := retry_after_seconds error; rs_location := None; rs_extra_cookies := [] |}.

(** Only a refusal the account cannot explain is told apart. *)
Definition anti_enumerating_outcome (outcome : result AuthError unit) (uniform : Response C) : Response C :=
  match outcome with Err (Validation details) => error_response (Validation details) | _ => uniform end.
End responses.

(** ** Requests refused by the transport *)

Inductive Transport : Set := Malformed (status : Z) | TooLarge | UnsupportedMedia.

Definition PAYLOAD_TOO_LARGE : Z := 413.

Definition from_body_status (status : Z) : Transport :=
  if Z.eqb status PAYLOAD_TOO_LARGE then TooLarge else Malformed status.

Definition transport_status (t : Transport) : Z :=
  match t with Malformed status => status | TooLarge => PAYLOAD_TOO_LARGE | UnsupportedMedia => 415 end.

Definition transport_message (t : Transport) : string :=
  match t with
  | Malformed _ => "Malformed request"
  | TooLarge => "Request entity too large"
  | UnsupportedMedia => "Unsupported media type"
  end.

Definition transport_response {C} (t : Transport) : Response C :=
  plain (transport_status t)
    (BError {| Error.env_error := {| Error.body_code := Code.Validation; Error.body_message := transport_message t;
                                     Error.body_details := None |} |}).

Inductive BodyRejection : Set := RjValidation (error : AuthError) | RjTransport (t : Transport).

Definition rejection_response {C} (r : BodyRejection) : Response C :=
  match r with RjValidation error => error_response error | RjTransport t => transport_response t end.

Definition content_type (body : Body) : option string :=
  match body with BNone => None | BText => Some "text/plain; charset=utf-8" | _ => Some "application/json" end.

(** The body-limit layer answers its own plain text; a JSON answer is ours. *)
Definition envelope_for_layer_payload_too_large {C} (response : Response C) : Response C :=
  let is_json := match content_type (rs_body response) with Some value => starts_with "application/json" value | None => false end in
  if Z.eqb (rs_status response) PAYLOAD_TOO_LARGE && negb is_json then transport_response TooLarge else response.

(** ** Addresses of a request *)

Definition peer_or_resolved `{HttpLib} (parts : Parts) : option IpAddr :=
  match pt_resolved_ip parts with Some ip => Some ip | None => pt_peer parts end.
