(* ===== verification/ClientIp.v ===== *)
(** * Which client a request is from

    Models [crates/bymax-auth-axum/src/client_ip.rs] (the address a request is
    attributed to), the address bucket of [rate_limit.rs], and the address the
    engine context carries ([routes/mod.rs]). *)

From S2P Require Import Prelude Errors Types Crypto Engine AuthCore UrlText Net Http.

(** ** The policy *)

Inductive ClientIpSource : Set := PeerAddr | TrustedForwardedFor.

#[export] Instance ClientIpSource_eq_dec : EqDecision ClientIpSource.
Proof. solve_decision. Defined.

(** The host's predicate; [None] is an answer that panicked. *)
Definition TrustedProxyFn : Type := IpAddr -> option bool.

Record ClientIpPolicy : Type := {
  cp_source : ClientIpSource;
  cp_is_trusted_proxy : option TrustedProxyFn;
}.

Definition trusts (is_trusted : TrustedProxyFn) (ip : IpAddr) : bool := default false (is_trusted ip).

Section policy.
Context `{UnicodeText}.

(** The walk over the hops, the last one first. *)
Fixpoint walk (is_trusted : TrustedProxyFn) (client : IpAddr) (entries : list string) : IpAddr :=
  match entries with
  | [] => client
  | entry :: entries' =>
      match parse_ip (str_trim entry) with
      | None => client
      | Some hop =>
          let client := to_canonical hop in
          if trusts is_trusted client then walk is_trusted client entries' else client
      end
  end.

Definition resolve (policy : ClientIpPolicy) (peer : option IpAddr) (forwarded_for : string) : option IpAddr :=
  let peer := to_canonical <$> peer in
  match cp_source policy, cp_is_trusted_proxy policy with
  | TrustedForwardedFor, Some is_trusted =>
      peer ← peer;
      Some (if trusts is_trusted peer then walk is_trusted peer (reverse (split_on "," forwarded_for)) else peer)
  | _, _ => peer
  end.

Definition set_resolved `{HttpLib} (ip : IpAddr) (parts : Parts) : Parts :=
  {| pt_method := pt_method parts; pt_path := pt_path parts; pt_query := pt_query parts; pt_headers := pt_headers parts;
     pt_peer := pt_peer parts; pt_resolved_ip := Some ip; pt_matched_path := pt_matched_path parts;
     pt_param := pt_param parts |}.

(** Every header line counts, joined in the order of arrival. *)
Definition forwarded_for `{HttpLib} (parts : Parts) : string :=
  String.concat "," (omap id (header_get_all (pt_headers parts) "x-forwarded-for")).

Definition resolve_client_ip `{HttpLib} (policy : ClientIpPolicy) (parts : Parts) : Parts :=
  match resolve policy (pt_peer parts) (forwarded_for parts) with
  | Some ip => set_resolved ip parts
  | None => parts
  end.

(** ** What reads the address *)

Definition client_ip `{HttpLib} (parts : Parts) : string :=
  match peer_or_resolved parts with Some ip => display_ip ip | None => "" end.

Definition rate_limit_bucket (ip : IpAddr) : IpAddr :=
  match ip with
  | V4 _ _ _ _ => ip
  | V6 a b c d _ _ _ _ => match to_ipv4_mapped ip with Some v4 => v4 | None => V6 a b c d 0 0 0 0 end
  end.

(** [ClientIpBucketKeyExtractor::extract]. *)
Definition extract_bucket `{HttpLib} (parts : Parts) : option IpAddr := rate_limit_bucket <$> peer_or_resolved parts.

Definition UNKNOWN_CLIENT : string := "unknown".

Definition client_bucket `{HttpLib} (parts : Parts) : string :=
  match extract_bucket parts with Some ip => display_ip ip | None => UNKNOWN_CLIENT end.

(** ** What a client cannot choose *)

(** One entry of the list, naming a hop. *)
Definition names_hop (entry : string) (hop : IpAddr) : Prop :=
  contains_char "," entry = false /\ parse_ip (str_trim entry) = Some hop.

Definition join_entries (entries : list string) : string := String.concat "," entries.

Lemma split_on_ne (c : ascii) (s : string) : split_on c s <> [].
Proof. destruct s as [|a s]; cbn; [done|]. case_decide; [done|]. by destruct (split_on c s). Qed.

Lemma split_on_glue (c : ascii) (a b : string) : split_on c (a +:+ String c b) = split_on c a ++ split_on c b.
Proof.
  induction a as [|x a IH]; [rewrite string_app_nil_l; cbn [split_on]; by rewrite decide_True|]. rewrite string_app_cons. cbn [split_on]. rewrite IH.
  case_decide; [done|]. destruct (split_on c a) as [|w ws] eqn:Hs; [by apply split_on_ne in Hs | done].
Qed.

Lemma split_on_join (entries : list string) :
  entries <> [] -> Forall (fun e => contains_char "," e = false) entries -> split_on "," (join_entries entries) = entries.
Proof.
  intros Hne Hall. induction Hall as [|e es He Hall IH]; [done|]. destruct es as [|e' es]; [by apply split_on_no_sep|].
  change (join_entries (e :: e' :: es)) with (e +:+ String "," (join_entries (e' :: es))).
  rewrite split_on_app by done. by rewrite IH.
Qed.

Lemma walk_trusted (is_trusted : TrustedProxyFn) (client : IpAddr) (entries : list string) (hops : list IpAddr) (rest : list string) :
  Forall2 names_hop entries hops -> Forall (fun hop => trusts is_trusted (to_canonical hop) = true) hops ->
  walk is_trusted client (entries ++ rest) = walk is_trusted (foldl (fun _ hop => to_canonical hop) client hops) rest.
Proof.
  intros Hn Ht. revert client. induction Hn as [|e h es hs [_ Hp] Hn IH]; intros client; [done|].
  apply list.Forall_cons in Ht as [Hh Ht]. cbn [app walk foldl]. rewrite Hp, Hh. by apply IH.
Qed.

(** A client behind the deployment's proxies is attributed the address the
    outermost of them saw, whatever the client wrote into the header itself. *)
Lemma forwarded_unforgeable (policy : ClientIpPolicy) (is_trusted : TrustedProxyFn) (peer client : IpAddr)
    (written entry : string) (entries : list string) (proxies : list IpAddr) :
  cp_source policy = TrustedForwardedFor -> cp_is_trusted_proxy policy = Some is_trusted ->
  trusts is_trusted (to_canonical peer) = true ->
  names_hop entry client -> trusts is_trusted (to_canonical client) = false ->
  Forall2 names_hop entries proxies -> Forall (fun hop => trusts is_trusted (to_canonical hop) = true) proxies ->
  resolve policy (Some peer) (written +:+ "," +:+ join_entries (entry :: entries)) = Some (to_canonical client).
Proof.
  intros Hsrc Hp Hpeer [He Hparse] Hc Hn Ht. unfold resolve. rewrite Hsrc, Hp. cbn [fmap option_fmap option_map mbind option_bind].
  rewrite Hpeer. f_equal. change (written +:+ "," +:+ ?x) with (written +:+ String "," x). rewrite split_on_glue, split_on_join.
  - rewrite reverse_app. change (entry :: entries) with ([entry] ++ entries). rewrite reverse_app, <- app_assoc.
    rewrite (walk_trusted is_trusted _ (reverse entries) (reverse proxies)).
    + cbn [reverse rev_append app walk]. by rewrite Hparse, Hc.
    + by apply Forall2_reverse.
    + by apply Forall_reverse.
  - done.
  - constructor; [done|]. clear -Hn. induction Hn as [|? ? ? ? [? _]]; by constructor.
Qed.

(** A peer nobody vouches for is the client, header or not. *)
Lemma untrusted_peer_is_client (policy : ClientIpPolicy) (peer : IpAddr) (header : string) :
  (cp_source policy = PeerAddr \/ cp_is_trusted_proxy policy = None \/
   exists is_trusted, cp_is_trusted_proxy policy = Some is_trusted /\ trusts is_trusted (to_canonical peer) = false) ->
  resolve policy (Some peer) header = Some (to_canonical peer).
Proof.
  intros Hp. unfold resolve. destruct (cp_source policy) eqn:Hs; [done|].
  destruct Hp as [?|[->|(t & -> & Ht)]]; [done | done |]. cbn. by rewrite Ht.
Qed.

(** C19. The address a request is attributed to, and charged and recorded under, is
    not the client's to choose.  Where the peer is not a proxy the deployment
    vouches for (or none is configured), it is the peer, whatever the headers
    say; behind such proxies it is the hop the outermost of them saw, whatever
    the client had written into the header before it, however the header was
    split into lines and however the addresses are spelled. *)
Theorem client_address_unforgeable `{HttpLib} (policy : ClientIpPolicy) (parts : Parts) (peer : IpAddr) :
  pt_peer parts = Some peer ->
  ((cp_source policy = PeerAddr \/ cp_is_trusted_proxy policy = None \/
    exists is_trusted, cp_is_trusted_proxy policy = Some is_trusted /\ trusts is_trusted (to_canonical peer) = false) ->
   pt_resolved_ip (resolve_client_ip policy parts) = Some (to_canonical peer)) /\
  (forall is_trusted client written entry entries proxies,
     cp_source policy = TrustedForwardedFor -> cp_is_trusted_proxy policy = Some is_trusted ->
     trusts is_trusted (to_canonical peer) = true ->
     forwarded_for parts = written +:+ "," +:+ join_entries (entry :: entries) ->
     names_hop entry client -> trusts is_trusted (to_canonical client) = false ->
     Forall2 names_hop entries proxies -> Forall (fun hop => trusts is_trusted (to_canonical hop) = true) proxies ->
     pt_resolved_ip (resolve_client_ip policy parts) = Some (to_canonical client)).
Proof.
  intros Hpeer. unfold resolve_client_ip. rewrite Hpeer. split; [intros Hp; by rewrite untrusted_peer_is_client|].
  intros is_trusted client written entry entries proxies Hs Hp Ht -> He Hc Hn Hall.
  by rewrite (forwarded_unforgeable policy is_trusted peer client written entry entries proxies).
Qed.
End policy.

(** ** Budgets *)

(** Two addresses of one allocation: the same IPv4 host, however spelled, or two
    hosts of one IPv6 subnet of 64 bits. *)
Definition same_allocation (x y : IpAddr) : Prop :=
  match to_canonical x, to_canonical y with
  | V6 a b c d _ _ _ _, V6 a' b' c' d' _ _ _ _ => (a, b, c, d) = (a', b', c', d')
  | V4 _ _ _ _, V4 _ _ _ _ => to_canonical x = to_canonical y
  | _, _ => False
  end.

Lemma valid_mapped (ip v4 : IpAddr) : valid_ip ip -> to_ipv4_mapped ip = Some v4 -> valid_ip v4.
Proof.
  intros Hv (g & h & -> & ->)%to_ipv4_mapped_Some. cbn in Hv. rewrite !list.Forall_cons in Hv.
  destruct Hv as (_ & _ & _ & _ & _ & _ & Hg & Hh & _). unfold segment in *.
  repeat apply Forall_cons; try apply Forall_nil; unfold octet; try (by apply Z.mod_pos_bound);
    (split; [apply Z.div_pos; lia | apply Z.div_lt_upper_bound; lia]).
Qed.

Lemma valid_bucket (ip : IpAddr) : valid_ip ip -> valid_ip (rate_limit_bucket ip).
Proof.
  destruct ip as [|a b c d e f g h]; [done|]. intros Hv. unfold rate_limit_bucket. destruct (to_ipv4_mapped _) eqn:Hm.
  - by eapply valid_mapped.
  - cbn in Hv |- *. rewrite !list.Forall_cons in Hv |- *. destruct Hv as (? & ? & ? & ? & _). unfold segment in *.
    split_and!; try done; lia.
Qed.

Lemma bucket_canonical (ip : IpAddr) :
  rate_limit_bucket ip = match to_canonical ip with V6 a b c d _ _ _ _ => V6 a b c d 0 0 0 0 | v4 => v4 end.
Proof.
  destruct ip as [|a b c d e f g h]; [done|]. unfold rate_limit_bucket, to_canonical.
  destruct (to_ipv4_mapped _) as [v4|] eqn:Hm; [|done]. by apply to_ipv4_mapped_Some in Hm as (? & ? & _ & ->).
Qed.

Lemma same_bucket (x y : IpAddr) : rate_limit_bucket x = rate_limit_bucket y <-> same_allocation x y.
Proof.
  rewrite !bucket_canonical. unfold same_allocation.
  destruct (to_canonical x), (to_canonical y); split; try done; intros [= -> -> -> ->]; done.
Qed.

(** A request's budget belongs to the allocation it comes from.  Two requests
    are counted in the same bucket exactly when they come from one IPv4 host,
    however its address is spelled, or from one IPv6 subnet of 64 bits, or when
    neither has a readable address; so no client multiplies its budget by
    rotating the addresses it was handed, and no two allocations share one. *)
Theorem budget_per_allocation `{HttpLib} (p q : Parts) :
  (forall ip, peer_or_resolved p = Some ip -> valid_ip ip) -> (forall ip, peer_or_resolved q = Some ip -> valid_ip ip) ->
  client_bucket p = client_bucket q <->
  match peer_or_resolved p, peer_or_resolved q with
  | Some x, Some y => same_allocation x y
  | None, None => True
  | _, _ => False
  end.
Proof.
  intros Hp Hq. unfold client_bucket, extract_bucket.
  assert (Hun : forall ip, valid_ip ip -> display_ip ip <> UNKNOWN_CLIENT).
  { intros ip Hv Heq. apply parse_display in Hv. rewrite Heq in Hv. by vm_compute in Hv. }
  destruct (peer_or_resolved p) as [x|], (peer_or_resolved q) as [y|]; cbn; try done.
  - rewrite <- same_bucket. split; [|by intros ->]. apply display_ip_inj; apply valid_bucket; auto.
  - split; [|done]. intros Heq. exfalso. apply (Hun (rate_limit_bucket x)); [by apply valid_bucket, Hp | done].
  - split; [|done]. intros Heq. exfalso. apply (Hun (rate_limit_bucket y)); [by apply valid_bucket, Hq | done].
Qed.
