(* ===== verification/Delivery.v ===== *)
(** * Delivering a session

    Models [crates/bymax-auth-axum/src/delivery.rs] (which cookies a response
    plants or clears and what its body carries), the resolved adapter
    configuration of [state.rs] and [router.rs], and the cookie-domain and
    refresh-token sourcing of [routes/mod.rs]. *)

From S2P Require Import Prelude Errors Types Crypto Jwt Engine Repository Password Totp AuthCore UrlText Config Validate Builder Net Http ClientIp.
From stdpp Require Import list.
#[local] Open Scope Z_scope.

Import Settings.

(** ** Cookies *)

(** What a [Set-Cookie] line says. *)
Record SetCookie : Set := {
  sc_name : string;
  sc_value : string;
  sc_path : option string;
  sc_domain : option string;
  sc_http_only : option bool;
  sc_secure : option bool;
  sc_same_site : option SameSite;
  sc_max_age : option Z;
}.

(** The cookie and tower-cookies packages.  A jar holds the cookies of the request
    and the changes the response announces, one per name; removing a cookie is
    announced where the request carried one of that name, and otherwise only
    drops a pending change. *)
Class CookieLib : Type := {
  Jar : Type;
  jar_get : Jar -> string -> option string;
  jar_add : SetCookie -> Jar -> Jar;
  jar_remove : SetCookie -> Jar -> Jar;
  jar_carried : Jar -> string -> bool;
  jar_changes : Jar -> list SetCookie;
  make_removal : SetCookie -> SetCookie;
  cookie_text : SetCookie -> string;
}.

Definition cookie (name value path : string) : SetCookie :=
  {| sc_name := name; sc_value := value; sc_path := Some path; sc_domain := None; sc_http_only := None; sc_secure := None;
     sc_same_site := None; sc_max_age := None |}.

Definition http_only (b : bool) (c : SetCookie) : SetCookie :=
  {| sc_name := sc_name c; sc_value := sc_value c; sc_path := sc_path c; sc_domain := sc_domain c; sc_http_only := Some b;
     sc_secure := sc_secure c; sc_same_site := sc_same_site c; sc_max_age := sc_max_age c |}.
Definition secure (b : bool) (c : SetCookie) : SetCookie :=
  {| sc_name := sc_name c; sc_value := sc_value c; sc_path := sc_path c; sc_domain := sc_domain c;
     sc_http_only := sc_http_only c; sc_secure := Some b; sc_same_site := sc_same_site c; sc_max_age := sc_max_age c |}.
Definition same_site (s : SameSite) (c : SetCookie) : SetCookie :=
  {| sc_name := sc_name c; sc_value := sc_value c; sc_path := sc_path c; sc_domain := sc_domain c;
     sc_http_only := sc_http_only c; sc_secure := sc_secure c; sc_same_site := Some s; sc_max_age := sc_max_age c |}.
Definition max_age (seconds : Z) (c : SetCookie) : SetCookie :=
  {| sc_name := sc_name c; sc_value := sc_value c; sc_path := sc_path c; sc_domain := sc_domain c;
     sc_http_only := sc_http_only c; sc_secure := sc_secure c; sc_same_site := sc_same_site c; sc_max_age := Some seconds |}.

Definition with_domain (domain : option string) (c : SetCookie) : SetCookie :=
  match domain with
  | Some value =>
      {| sc_name := sc_name c; sc_value := sc_value c; sc_path := sc_path c; sc_domain := Some value;
         sc_http_only := sc_http_only c; sc_secure := sc_secure c; sc_same_site := sc_same_site c; sc_max_age := sc_max_age c |}
  | None => c
  end.

(** ** The resolved adapter configuration *)

Record ResolvedCookies : Set := {
  rk_access_name : string;
  rk_refresh_name : string;
  rk_signal_name : string;
  rk_refresh_path : string;
  rk_mfa_temp_path : string;
  rk_secure : bool;
  rk_same_site : SameSite;
  rk_trusted_origins : list string;
  rk_access_max_age_secs : Z;
  rk_refresh_max_age_secs : Z;
}.

Record AdapterConfig : Set := {
  ad_route_prefix : string;
  ad_delivery : TokenDelivery;
  ad_cookies : ResolvedCookies;
  ad_client_ip_source : ClientIpSource;
}.

Definition clamp_secs (secs : Z) : Z := if bool_decide (secs <= i64_max) then secs else i64_max.
Definition refresh_max_age_secs (days : Z) : Z := Z.max i64_min (Z.min i64_max (days * 86400)).

Definition resolve_config {U} (rv : ResolvedConfig U) (route_prefix : string) (client_ip_source : ClientIpSource) : AdapterConfig :=
  let auth_config := rv_config rv in
  {| ad_route_prefix := route_prefix;
     ad_delivery := ac_token_delivery auth_config;
     ad_cookies := {|
       rk_access_name := ck_access_token_name (ac_cookies auth_config);
       rk_refresh_name := ck_refresh_token_name (ac_cookies auth_config);
       rk_signal_name := ck_session_signal_name (ac_cookies auth_config);
       rk_refresh_path := ck_refresh_cookie_path (ac_cookies auth_config);
       rk_mfa_temp_path := ck_mfa_temp_cookie_path (ac_cookies auth_config);
       rk_secure := rv_secure_cookies rv;
       rk_same_site := ck_same_site (ac_cookies auth_config);
       rk_trusted_origins := ck_trusted_origins (ac_cookies auth_config);
       rk_access_max_age_secs := clamp_secs (jc_access_cookie_max_age (ac_jwt auth_config));
       rk_refresh_max_age_secs := refresh_max_age_secs (jc_refresh_expires_in_days (ac_jwt auth_config)) |};
     ad_client_ip_source := client_ip_source |}.

Definition AUTH_HAS_SESSION_COOKIE_VALUE : string := "1".
Definition MFA_TEMP_COOKIE_NAME : string := "mfa_temp_token".
Definition MFA_TEMP_COOKIE_MAX_AGE_SECONDS : Z := 300.
Definition OAUTH_STATE_COOKIE_NAME : string := "oauth_state".
Definition OAUTH_STATE_COOKIE_MAX_AGE_SECONDS : Z := 600.

(** ** The cookies themselves *)

Section delivery.
Context `{CookieLib, HttpLib} (config : AdapterConfig) (domains : list string).

Abbreviation ck := (ad_cookies config).

Definition scopes : list (option string) :=
  match domains with [] => [None] | _ => Some <$> domains end.

(** A further scope is written as a line of its own, which has to be a valid
    header value. *)
Definition header_line (c : SetCookie) : list SetCookie := if header_value_valid (cookie_text c) then [c] else [].

(** The first scope goes through the jar, which knows a cookie by its name alone;
    every further one is an extra line of the response. *)
Definition write_scopes (remove : bool) (cookies_for : option string -> list SetCookie) (jar : Jar) : list SetCookie * Jar :=
  match scopes with
  | [] => ([], jar)
  | first :: further =>
      (further ≫= (fun scope => cookies_for scope ≫= (fun c => header_line (if remove then make_removal c else c))),
       foldl (fun jar c => (if remove then jar_remove c else jar_add c) jar) jar (cookies_for first))
  end.

Definition build_access_cookie (value : string) : SetCookie :=
  max_age (rk_access_max_age_secs ck) (same_site (rk_same_site ck) (secure (rk_secure ck) (http_only true
    (cookie (rk_access_name ck) value "/")))).

Definition refresh_same_site : SameSite :=
  match rk_same_site ck with SsNone => SsNone | Lax | Strict => Strict end.

Definition build_refresh_cookie (value : string) : SetCookie :=
  max_age (rk_refresh_max_age_secs ck) (same_site refresh_same_site (secure (rk_secure ck) (http_only true
    (cookie (rk_refresh_name ck) value (rk_refresh_path ck))))).

Definition build_signal_cookie : SetCookie :=
  max_age (rk_refresh_max_age_secs ck) (same_site (rk_same_site ck) (secure (rk_secure ck) (http_only false
    (cookie (rk_signal_name ck) AUTH_HAS_SESSION_COOKIE_VALUE "/")))).

Definition session_cookies (access refresh : string) (domain : option string) : list SetCookie :=
  [with_domain domain (build_access_cookie access); with_domain domain (build_refresh_cookie refresh);
   with_domain domain build_signal_cookie].

Definition set_auth_cookies (access refresh : string) (jar : Jar) : list SetCookie * Jar :=
  write_scopes false (session_cookies access refresh) jar.

Definition cleared_cookies (domain : option string) : list SetCookie :=
  [with_domain domain (secure (rk_secure ck) (cookie (rk_access_name ck) "" "/"));
   with_domain domain (same_site refresh_same_site (secure (rk_secure ck) (cookie (rk_refresh_name ck) "" (rk_refresh_path ck))));
   with_domain domain (secure (rk_secure ck) (cookie (rk_signal_name ck) "" "/"))].

Definition clear_session (jar : Jar) : list SetCookie * Jar := write_scopes true cleared_cookies jar.

Definition set_oauth_state_cookie (state : string) (jar : Jar) : Jar :=
  jar_add (max_age OAUTH_STATE_COOKIE_MAX_AGE_SECONDS (same_site Lax (secure (rk_secure ck) (http_only true
    (cookie OAUTH_STATE_COOKIE_NAME state "/"))))) jar.

Definition clear_oauth_state_cookie (jar : Jar) : Jar :=
  jar_remove (same_site Lax (secure (rk_secure ck) (http_only true (cookie OAUTH_STATE_COOKIE_NAME "" "/")))) jar.

Definition set_mfa_temp_cookie (value : string) (jar : Jar) : Jar :=
  jar_add (max_age MFA_TEMP_COOKIE_MAX_AGE_SECONDS (same_site (rk_same_site ck) (secure (rk_secure ck) (http_only true
    (cookie MFA_TEMP_COOKIE_NAME value (rk_mfa_temp_path ck)))))) jar.

Definition clear_mfa_temp_cookie (jar : Jar) : Jar :=
  jar_remove (same_site (rk_same_site ck) (secure (rk_secure ck) (http_only true
    (cookie MFA_TEMP_COOKIE_NAME "" (rk_mfa_temp_path ck))))) jar.

(** ** What a response carries *)

Definition with_extra_cookies (extras : list SetCookie) (r : Response SetCookie) : Response SetCookie :=
  {| rs_status := rs_status r; rs_body := rs_body r; rs_retry_after := rs_retry_after r; rs_location := rs_location r;
     rs_extra_cookies := rs_extra_cookies r ++ extras |}.

Definition bearer_body (result : AuthResult) : Body :=
  BBearer (ar_user result) (ar_access_token result) (ar_refresh_token result).

Definition platform_bearer_body (result : PlatformAuthResult) : Body :=
  BPlatformBearer (pr_admin result) (pr_access_token result) (pr_refresh_token result).

Definition deliver_auth (result : AuthResult) (status : Z) (jar : Jar) : Response SetCookie * Jar :=
  match ad_delivery config with
  | Bearer => (plain status (bearer_body result), jar)
  | mode =>
      let '(extras, jar) := set_auth_cookies (ar_access_token result) (ar_refresh_token result) jar in
      (with_extra_cookies extras
         (plain status (if bool_decide (mode = Cookie) then BUser (ar_user result) else bearer_body result)), jar)
  end.

Definition deliver_platform_auth (result : PlatformAuthResult) (status : Z) : Response SetCookie :=
  plain status (platform_bearer_body result).

Definition deliver_refresh (result : AuthResult) (jar : Jar) : Response SetCookie * Jar := deliver_auth result 200 jar.

Definition deliver_mfa_challenge (challenge : MfaChallengeResult) : Response SetCookie := plain 200 (BChallenge challenge).
End delivery.

(** ** Sourcing *)

Section sourcing.
Context `{CookieLib}.

Definition nonempty_cookie (jar : Jar) (name : string) : option string := nonempty (jar_get jar name).

Definition source_refresh_token (delivery : TokenDelivery) (jar : Jar) (refresh_cookie_name : string) (body_value : option string) : string :=
  default "" match delivery with
             | Cookie => nonempty_cookie jar refresh_cookie_name
             | Bearer => nonempty body_value
             | Both => match nonempty_cookie jar refresh_cookie_name with
                       | Some token => Some token
                       | None => nonempty body_value
                       end
             end.

End sourcing.

(** ** Cookie domains *)

Definition is_host_char (c : ascii) : bool :=
  is_ascii_alphanumeric c || bool_decide (c = "."%char) || bool_decide (c = "-"%char).

Definition cookie_host (raw : string) : string :=
  let host := take_until (fun c => bool_decide (c = ":"%char)) raw in
  if negb (string_is_empty host) && string_all is_host_char host then host else "".

(** The [CookieDomains] extractor. *)
Definition cookie_domains `{HttpLib} {U} (be : BuiltEngine U) (parts : Parts) : list string :=
  match ck_resolve_domains (ac_cookies (rv_config (be_config be))) with
  | None => []
  | Some resolver =>
      resolver match header_get (pt_headers parts) "host" with Some value => cookie_host value | None => "" end
  end.

(** * Cookies in the browser

    What the browser is left with: sign-out removes every cookie a sign-in
    planted, and the cookies an assembled engine plants are ones a browser keeps
    and protects. *)

Import Settings.

(** ** The packages' behaviour *)

Class CookieLaws `{CookieLib} : Prop := {
  changes_add (c : SetCookie) (j : Jar) :
    jar_changes (jar_add c j) ≡ₚ c :: filter (fun c' => sc_name c' <> sc_name c) (jar_changes j);
  changes_remove (c : SetCookie) (j : Jar) :
    jar_changes (jar_remove c j) ≡ₚ
      (if jar_carried j (sc_name c) then [make_removal c] else []) ++ filter (fun c' => sc_name c' <> sc_name c) (jar_changes j);
  carried_remove (c : SetCookie) (j : Jar) (name : string) : jar_carried (jar_remove c j) name = jar_carried j name;
  removal_name (c : SetCookie) : sc_name (make_removal c) = sc_name c;
  removal_domain (c : SetCookie) : sc_domain (make_removal c) = sc_domain c;
  removal_path (c : SetCookie) : sc_path (make_removal c) = sc_path c;
  removal_expired (c : SetCookie) : sc_max_age (make_removal c) = Some 0;
}.

(** ** The browser

    A cookie is known by its name, its domain (none where it is host-only) and
    its path (RFC 6265, 5.3); an expired one is deleted, and one for a domain the
    browser does not accept from this host is ignored. *)

Abbreviation CookieKey := (string * option string * option string)%type.
Abbreviation Browser := (gmap CookieKey string).

Definition cookie_key (c : SetCookie) : CookieKey := (sc_name c, sc_domain c, sc_path c).

Definition expired (c : SetCookie) : bool := match sc_max_age c with Some seconds => bool_decide (seconds <= 0) | None => false end.

Section browser.
Context (accepts : option string -> bool).

Definition receive (b : Browser) (c : SetCookie) : Browser :=
  if negb (accepts (sc_domain c)) then b else
  if expired c then delete (cookie_key c) b else <[cookie_key c := sc_value c]> b.

Definition receives : Browser -> list SetCookie -> Browser := foldl receive.

(** A response that only expires cookies leaves of them what it does not name. *)
Lemma receives_expired (lines : list SetCookie) (b : Browser) (k : CookieKey) :
  Forall (fun c => expired c = true) lines ->
  (b !! k = None \/ Exists (fun c => accepts (sc_domain c) = true /\ cookie_key c = k) lines) -> receives b lines !! k = None.
Proof.
  revert b. induction lines as [|c lines IH]; intros b Hall Hk.
  - destruct Hk as [Hk|Hk]; [done | by inversion Hk].
  - apply list.Forall_cons in Hall as [Hc Hall]. cbn. apply IH; [done|]. unfold receive. rewrite Hc.
    rewrite Exists_cons in Hk. destruct (accepts (sc_domain c)) eqn:Ha; cbn [negb].
    + destruct (decide (cookie_key c = k)) as [<-|Hne]; [left; by rewrite lookup_delete_eq|].
      rewrite lookup_delete_ne by done. destruct Hk as [?|[[_ ?]|?]]; [by left | done | by right].
    + destruct Hk as [?|[[? _]|?]]; [by left | done | by right].
Qed.
End browser.

Section claims.
Context `{CookieLaws, HttpLib}.

(** ** Signing out *)

Lemma filter_keeps {A} (P : A -> Prop) `{!forall x, Decision (P x)} (l : list A) : Forall P l -> filter P l = l.
Proof. induction 1 as [|x l Hx Hl IH]; [done|]. by rewrite filter_cons_True, IH. Qed.

Lemma clear_first (j : Jar) (cs : list SetCookie) :
  NoDup (sc_name <$> cs) -> Forall (fun c' => sc_name c' ∉ sc_name <$> cs) (jar_changes j) ->
  jar_changes (foldl (fun jar c => jar_remove c jar) j cs) ≡ₚ
    (make_removal <$> filter (fun c => jar_carried j (sc_name c) = true) cs) ++ jar_changes j.
Proof.
  revert j. induction cs as [|c cs IH]; intros j Hnd Hout; [done|]. cbn in Hnd. apply NoDup_cons in Hnd as [Hc Hnd]. cbn [foldl].
  assert (Hch : jar_changes (jar_remove c j) ≡ₚ (if jar_carried j (sc_name c) then [make_removal c] else []) ++ jar_changes j).
  { rewrite changes_remove. apply Permutation_app_head. rewrite filter_keeps; [done|].
    eapply list.Forall_impl; [exact Hout|]. intros c' Hin Heq. apply Hin. cbn. rewrite Heq. by constructor. }
  rewrite IH; [|done|].
  - rewrite (list_filter_iff _ (fun c' => jar_carried j (sc_name c') = true)) by (intros c'; by rewrite carried_remove). rewrite Hch. rewrite filter_cons. case_decide as Hcar.
    + rewrite Hcar. cbn. by rewrite Permutation_middle.
    + destruct (jar_carried j (sc_name c)); [done|]. done.
  - rewrite list.Forall_forall. intros c' Hin. rewrite Hch in Hin. apply elem_of_app in Hin as [Hin|Hin].
    + destruct (jar_carried j (sc_name c)); [|by apply elem_of_nil in Hin]. apply list_elem_of_singleton in Hin as ->.
      by rewrite removal_name.
    + rewrite list.Forall_forall in Hout. specialize (Hout c' Hin). intros Hin'. apply Hout. cbn. by constructor.
Qed.

Lemma removal_key (c : SetCookie) : cookie_key (make_removal c) = cookie_key c.
Proof. unfold cookie_key. by rewrite removal_name, removal_domain, removal_path. Qed.

Lemma removal_is_expired (c : SetCookie) : expired (make_removal c) = true.
Proof. unfold expired. by rewrite removal_expired. Qed.

Section config.
Context (config : AdapterConfig) (domains : list string).

Definition session_names : list string :=
  [rk_access_name (ad_cookies config); rk_refresh_name (ad_cookies config); rk_signal_name (ad_cookies config)].

Lemma cleared_names (scope : option string) : sc_name <$> cleared_cookies config scope = session_names.
Proof. by destruct scope. Qed.

(** What is cleared is what is planted, scope by scope. *)
Lemma cleared_as_planted (scope : option string) (access refresh : string) :
  cookie_key <$> cleared_cookies config scope = cookie_key <$> session_cookies config access refresh scope.
Proof. by destruct scope. Qed.

Lemma scopes_cons : exists first further, scopes domains = first :: further.
Proof. unfold scopes. destruct domains as [|d ds]; [by exists None, [] | by exists (Some d), (Some <$> ds)]. Qed.

Lemma clear_session_lines (jar : Jar) (first : option string) (further : list (option string)) :
  scopes domains = first :: further -> NoDup session_names -> jar_changes jar = [] ->
  jar_changes (clear_session config domains jar).2 ++ (clear_session config domains jar).1 ≡ₚ
    (make_removal <$> filter (fun c => jar_carried jar (sc_name c) = true) (cleared_cookies config first)) ++
    (further ≫= (fun scope => cleared_cookies config scope ≫= (fun c => header_line (make_removal c)))).
Proof.
  intros Hsc Hnd Hj. unfold clear_session, write_scopes. rewrite Hsc. cbn [fst snd]. apply Permutation_app_tail.
  rewrite clear_first; [by rewrite Hj, app_nil_r | by rewrite cleared_names | by rewrite Hj].
Qed.

(** C31. Signing out in the browser.  After the answer to a sign-out has been
    received, the browser holds no session cookie that any sign-in of this
    deployment plants, in any scope it accepts cookies for: each cookie is
    expired under the name, domain and path it was planted with.  The browser is
    assumed to have presented the session cookies it holds in the first scope,
    and the cookie names to be distinct. *)
Theorem signed_out_browser_forgets (accepts : option string -> bool) (b : Browser) (jar : Jar) :
  NoDup session_names -> jar_changes jar = [] ->
  (forall c, c ∈ cleared_cookies config (default None (head (scopes domains))) -> is_Some (b !! cookie_key c) ->
     jar_carried jar (sc_name c) = true) ->
  (forall scope c, scope ∈ scopes domains -> c ∈ cleared_cookies config scope ->
     header_value_valid (cookie_text (make_removal c)) = true) ->
  let '(extras, jar') := clear_session config domains jar in
  forall scope access refresh c, scope ∈ scopes domains -> accepts scope = true ->
    c ∈ session_cookies config access refresh scope ->
    receives accepts b (jar_changes jar' ++ extras) !! cookie_key c = None.
Proof.
  intros Hnd Hj Hsent Hvalid. destruct scopes_cons as (first & further & Hsc).
  pose proof (clear_session_lines jar first further Hsc Hnd Hj) as Hlines. rewrite Hsc in Hsent, Hvalid |- *.
  destruct (clear_session config domains jar) as [extras jar']. cbn [fst snd] in Hlines.
  intros scope access refresh c Hscope Hacc Hc. apply (list_elem_of_fmap_2 cookie_key) in Hc.
  rewrite <- cleared_as_planted in Hc. apply list_elem_of_fmap in Hc as (d & Hk & Hd). rewrite Hk.
  assert (Hdom : accepts (sc_domain d) = true).
  { destruct scope; unfold cleared_cookies in Hd; rewrite !elem_of_cons, elem_of_nil in Hd; by destruct Hd as [->|[->|[->|[]]]]. }
  apply receives_expired.
  - rewrite Hlines. apply list.Forall_forall. intros l [Hl|Hl]%elem_of_app.
    + apply list_elem_of_fmap in Hl as (? & -> & _). apply removal_is_expired.
    + apply list_elem_of_bind in Hl as (s & Hl & _). apply list_elem_of_bind in Hl as (e & Hl & _). unfold header_line in Hl.
      case_match; [|by apply elem_of_nil in Hl]. apply list_elem_of_singleton in Hl as ->. apply removal_is_expired.
  - setoid_rewrite Hlines. rewrite Exists_exists. apply elem_of_cons in Hscope as [->|Hscope].
    + destruct (b !! cookie_key d) eqn:Hb; [right | by left]. exists (make_removal d).
      rewrite removal_key, removal_domain. split; [|done]. apply elem_of_app. left. apply list_elem_of_fmap_2.
      apply list_elem_of_filter. split; [|done]. apply Hsent; [done | by rewrite Hb].
    + right. exists (make_removal d). rewrite removal_key, removal_domain. split; [|done]. apply elem_of_app. right.
      apply list_elem_of_bind. exists scope. split; [|done]. apply list_elem_of_bind. exists d. split; [|done].
      unfold header_line. rewrite (Hvalid scope d); [by apply list_elem_of_singleton | by constructor | done].
Qed.
End config.

(** ** Signing in *)

Lemma added_changes (cs : list SetCookie) (j : Jar) (c : SetCookie) :
  c ∈ jar_changes (foldl (fun jar c => jar_add c jar) j cs) -> c ∈ cs \/ c ∈ jar_changes j.
Proof.
  revert j. induction cs as [|d cs IH]; intros j Hc; [by right|]. cbn in Hc. apply IH in Hc as [Hc|Hc]; [by left; right|].
  rewrite changes_add in Hc. apply elem_of_cons in Hc as [->|Hc]; [by left; left|].
  apply list_elem_of_filter in Hc as [_ Hc]. by right.
Qed.

(** Every line of a sign-in is one of the session's cookies in one of its scopes. *)
Lemma planted_line (config : AdapterConfig) (domains : list string) (access refresh : string) (jar : Jar) (c : SetCookie) :
  jar_changes jar = [] ->
  c ∈ jar_changes (set_auth_cookies config domains access refresh jar).2 ++ (set_auth_cookies config domains access refresh jar).1 ->
  exists scope, scope ∈ scopes domains /\ c ∈ session_cookies config access refresh scope.
Proof.
  intros Hj. unfold set_auth_cookies, write_scopes. destruct (scopes_cons domains) as (first & further & ->). cbn [fst snd].
  intros [Hc|Hc]%elem_of_app.
  - apply added_changes in Hc as [Hc|Hc]; [by exists first; split; [left|] | rewrite Hj in Hc; by apply elem_of_nil in Hc].
  - apply list_elem_of_bind in Hc as (scope & Hc & Hs). apply list_elem_of_bind in Hc as (d & Hc & Hd). unfold header_line in Hc.
    case_match; [|by apply elem_of_nil in Hc]. apply list_elem_of_singleton in Hc as ->. exists scope. split; [by right | done].
Qed.

(** A cookie the browser keeps, and keeps from scripts and from the clear. *)
Record protected (environment : Environment) (c : SetCookie) : Prop := {
  pc_scripts : sc_http_only c = Some true \/ sc_value c = AUTH_HAS_SESSION_COOKIE_VALUE;
  pc_production : environment = Production -> sc_secure c = Some true;
  pc_cross_site : sc_same_site c = Some SsNone -> sc_secure c = Some true;
  pc_host : starts_with HOST_PREFIX (sc_name c) = true ->
    sc_secure c = Some true /\ sc_path c = Some "/" /\ sc_domain c = None;
  pc_secure_prefix : starts_with SECURE_PREFIX (sc_name c) = true -> sc_secure c = Some true;
}.

End claims.

Section assembled.
Context `{CookieLaws, HttpLib, EntropyPlatform, Crypto, Base64, Base64Std, Base64Variants, UnicodeText, PasswordHashLib} {U : Type}.
Context (b : AuthEngineBuilder U) (prefix : string) (source : ClientIpSource).

Lemma cross_site_refresh (config : AdapterConfig) : refresh_same_site config = SsNone -> rk_same_site (ad_cookies config) = SsNone.
Proof. unfold refresh_same_site. by destruct (rk_same_site (ad_cookies config)). Qed.

Lemma session_cookie_protected (c : AuthConfig U) (environment : Environment) (access refresh : string) (scope : option string) (sc : SetCookie) :
  cookies_ok environment c ->
  (is_Some scope -> is_Some (ck_resolve_domains (ac_cookies c))) ->
  sc ∈ session_cookies (resolve_config (new_resolved c environment (resolve_secure_cookies c environment)) prefix source) access refresh scope ->
  protected environment sc.
Proof.
  intros Hok Hscope Hsc.
  assert (Hprod : environment = Production -> resolve_secure_cookies c environment = true).
  { intros ->. unfold resolve_secure_cookies. pose proof (co_production _ _ Hok eq_refl).
    destruct (ac_secure_cookies c) as [[]|]; cbn; [done | done | by case_bool_decide]. }
  assert (Hnone : scope = None \/ ck_resolve_domains (ac_cookies c) <> None)
    by (destruct scope; [right; intros Hn; rewrite Hn in Hscope; by destruct (Hscope ltac:(eauto)) | by left]).
  destruct (co_access _ _ Hok) as [Ha Ha'], (co_refresh _ _ Hok) as [Hr Hr'], (co_signal _ _ Hok) as [Hs Hs'].
  pose proof (co_cross_site _ _ Hok) as Hx.
  unfold session_cookies in Hsc. rewrite !elem_of_cons, elem_of_nil in Hsc.
  destruct Hsc as [->|[->|[->|[]]]]; destruct scope as [domain|];
    (split; cbn in *; [by auto | intros He; by rewrite Hprod
     | try (intros [= Hn]; first [by destruct (Hx Hn) as [-> _] | apply cross_site_refresh in Hn; by destruct (Hx Hn) as [-> _]])
     | intros Hp | intros Hp]);
    first [by rewrite (Ha' Hp) | by rewrite (Hr' Hp) | by rewrite (Hs' Hp)
          | destruct (Ha Hp) as (-> & _ & Hd) | destruct (Hr Hp) as (-> & -> & Hd) | destruct (Hs Hp) as (-> & _ & Hd)];
    destruct Hnone; congruence || by split_and!.
Qed.

(** C32. The cookies of a sign-in.  For every engine the builder answers, however
    it was configured, each cookie a sign-in plants is out of the reach of scripts
    (the one that is not says only that a session exists), travels over TLS in
    production and whenever it travels cross-site, and satisfies what a
    [__Host-] or [__Secure-] name demands of it, so that no browser drops it;
    where tokens are delivered in the body nothing is planted, and where they are
    delivered in cookies the body carries none. *)
Theorem planted_cookies_protected (salt : nat) (be : BuiltEngine U) (parts : Parts) (result : AuthResult) (status : Z) (jar : Jar) :
  build salt b = Ok be -> jar_changes jar = [] ->
  let config := resolve_config (be_config be) prefix source in
  let '(response, jar') := deliver_auth config (cookie_domains be parts) result status jar in
  Forall (protected (ab_environment b)) (jar_changes jar' ++ rs_extra_cookies response) /\
  (ad_delivery config = Bearer -> jar_changes jar' ++ rs_extra_cookies response = []) /\
  (ad_delivery config = Cookie -> rs_body response = BUser (ar_user result)).
Proof.
  intros (passwords & Hok & _ & ->)%build_ok Hj. cbv zeta. unfold deliver_auth.
  match goal with |- context [set_auth_cookies ?c ?d ?a ?r jar] => pose proof (planted_line c d a r jar) as Hline;
    destruct (set_auth_cookies c d a r jar) as [extras jar'] eqn:Hset end.
  cbn [fst snd] in Hline.
  assert (Hall : Forall (protected (ab_environment b)) (jar_changes jar' ++ extras)).
  { apply list.Forall_forall. intros c Hc. apply (fun H => Hline c Hj H) in Hc as (scope & Hscope & Hc).
    eapply session_cookie_protected; [exact (ok_cookies _ _ Hok) | | exact Hc].
    intros [d ->]. unfold cookie_domains in Hscope. cbn in Hscope |- *. destruct (ck_resolve_domains _); [by eexists|].
    by apply list_elem_of_singleton in Hscope. }
  destruct (ad_delivery _) eqn:Hd; cbn; rewrite ?Hj; [by split_and! | by split_and! | by split_and!].
Qed.
End assembled.
