(* ===== verification/Bodies.v ===== *)
(** * Request bodies and queries

    Models [crates/bymax-auth-axum/src/validation.rs], [dto.rs] with its
    [text_rules.rs] and [code_formats.rs], and [routes/refresh_body.rs]: which
    bodies are read at all, how an e-mail address is brought to its canonical
    form, the bounds of every field, and what a refusal says. *)

From S2P Require Import Prelude Errors Types Crypto Engine Totp Sessions AuthCore MfaService MfaSound UrlText Config Validate Builder Facade Net Http ClientIp.
From stdpp Require Import list.
#[local] Open Scope Z_scope.

(** ** The serde and garde packages *)

(** Reading JSON answers the value, a value that does not fit the type, or that
    the text is not JSON. *)
Inductive JsonOutcome (T : Type) : Type := JsOk (value : T) | JsData | JsOther.
Arguments JsOk {T} value.
Arguments JsData {T}.
Arguments JsOther {T}.

(** The derived readers: what a type's fields hold before any adapter runs. *)
Class JsonBody (T : Type) : Type := { from_slice : string -> JsonOutcome T }.
Class QueryText (T : Type) : Type := { query_from_str : string -> option T }.

(** A JSON document as far as it is looked at: its root, and the entries of an
    object, which is a map with one entry per key. *)
Inductive JsonField : Set := JfNull | JfString (s : string) | JfOther.
Inductive JsonRoot : Set := JrObject (entries : list (string * JsonField)) | JrArray | JrScalar.

Class JsonText : Type := { value_from_slice : string -> option JsonRoot }.

(** The [email] and [length] rules answer a message where they are broken;
    [garde_units] is the length the second one measures.  A report lists what was
    broken under the name of its field, in an order of its own. *)
Class GardeLib : Type := {
  garde_email : string -> option string;
  garde_units : string -> Z;
  garde_length : Z -> Z -> string -> option string;
  report_order : list FieldError -> list FieldError;
}.

Class GardeLaws `{GardeLib} : Prop := {
  length_in_bounds (min max : Z) (s : string) : garde_length min max s = None <-> min <= garde_units s <= max;
  report_perm (l : list FieldError) : report_order l ≡ₚ l;
}.

(** ** Text rules *)

(** The scalar value a UTF-8 encoded character stands for. *)
Definition code_point (c : string) : Z :=
  match c with
  | EmptyString => 0
  | String a EmptyString => byte_z a
  | String a (String b EmptyString) => byte_z a mod 32 * 64 + byte_z b mod 64
  | String a (String b (String d EmptyString)) => byte_z a mod 16 * 4096 + byte_z b mod 64 * 64 + byte_z d mod 64
  | String a (String b (String d (String e _))) =>
      byte_z a mod 8 * 262144 + byte_z b mod 64 * 4096 + byte_z d mod 64 * 64 + byte_z e mod 64
  end.

Definition is_js_whitespace (ch : Z) : bool :=
  bool_decide (ch ∈ [9; 10; 11; 12; 13; 32; 160; 5760; 8232; 8233; 8239; 8287; 12288; 65279])
  || bool_decide (8192 <= ch <= 8202).

Definition is_control (ch : Z) : bool := bool_decide (0 <= ch <= 31) || bool_decide (127 <= ch <= 159).

(** [str::trim_matches]. *)
Fixpoint drop_while (f : Z -> bool) (cs : list string) : list string :=
  match cs with [] => [] | c :: cs' => if f (code_point c) then drop_while f cs' else cs end.

Definition trim_matches (f : Z -> bool) (s : string) : string :=
  String.concat "" (reverse (drop_while f (reverse (drop_while f (chars s))))).

Definition trim_start_matches (f : Z -> bool) (s : string) : string := String.concat "" (drop_while f (chars s)).
Definition trim_end_matches (f : Z -> bool) (s : string) : string :=
  String.concat "" (reverse (drop_while f (reverse (chars s)))).

Definition normalize `{UnicodeText} (raw : string) : string := str_to_lowercase (trim_matches is_js_whitespace raw).

Definition not_blank (value : string) : option string :=
  if forallb (fun c => is_js_whitespace (code_point c)) (chars value) then Some "must not be blank" else None.

Definition no_control_characters (value : string) : option string :=
  if existsb (fun c => is_control (code_point c)) (chars value) then Some "must not contain control characters" else None.

(** ** Second-factor codes *)

Definition is_totp_code (value : string) : bool := Nat.eqb (String.length value) 6 && string_all is_ascii_digit value.

Definition is_recovery_code (value : string) : bool :=
  let groups := split_on "-" value in
  Nat.eqb (length groups) 6
  && forallb (fun group => Nat.eqb (String.length group) 4 && string_all is_ascii_hexdigit group) groups.

Definition totp_code (value : string) : option string :=
  if is_totp_code value then None else Some "must be exactly 6 digits".

Definition totp_or_recovery_code (value : string) : option string :=
  if is_totp_code value || is_recovery_code value then None
  else Some "must be a 6-digit code or a recovery code in XXXX-XXXX-XXXX-XXXX-XXXX-XXXX format".

(** ** Which bodies are read *)

Definition BODY_SHAPE_MESSAGE : string := "Request body does not match the expected shape.".
Definition QUERY_SHAPE_MESSAGE : string := "Query string does not match the expected shape.".

Definition one_error (field message : string) : AuthError := Validation [{| fe_field := field; fe_message := message |}].

Definition ends_with (suffix s : string) : bool :=
  Nat.leb (String.length suffix) (String.length s)
  && bool_decide (String.substring (String.length s - String.length suffix) (String.length suffix) s = suffix).

Section headers.
Context `{UnicodeText, HttpLib}.

Definition require_json_content_type (headers : HeaderMap) : result AuthError unit :=
  let is_json :=
    match header_get headers "content-type" with
    | Some value =>
        let essence := to_ascii_lowercase (str_trim (default "" (head (split_on ";" value)))) in
        bool_decide (essence = "application/json") || ends_with "+json" essence
    | None => false
    end in
  if is_json then Ok tt else Err (one_error "content-type" "Content-Type must be application/json.").

Definition trim_quotes (s : string) : string := trim_matches (fun c => bool_decide (c = 34)) s.

Definition charset_is_utf8 (headers : HeaderMap) : bool :=
  match header_get headers "content-type" with
  | None => true
  | Some value =>
      forallb (fun parameter =>
        match split_once_str "=" parameter with
        | None => true
        | Some (name, charset) =>
            negb (eq_ignore_ascii_case (str_trim name) "charset")
            || eq_ignore_ascii_case (trim_quotes (str_trim charset)) "utf-8"
        end) (tail (split_on ";" value))
  end.

Definition encoding_is_identity (headers : HeaderMap) : bool :=
  forallb (fun value =>
    match value with
    | Some list => forallb (fun coding => eq_ignore_ascii_case (str_trim coding) "identity") (split_on "," list)
    | None => false
    end) (header_get_all headers "content-encoding").

Definition require_readable_json (headers : HeaderMap) : result BodyRejection unit :=
  match require_json_content_type headers with
  | Err error => Err (RjValidation error)
  | Ok _ =>
      if negb (charset_is_utf8 headers) || negb (encoding_is_identity headers) then Err (RjTransport UnsupportedMedia) else Ok tt
  end.
End headers.

(** ** Fields *)

(** One rule of a field: the message where it is broken. *)
Abbreviation Rule := (string -> option string).

Definition field (path : string) (rules : list Rule) (value : string) : list FieldError :=
  omap (fun rule => (fun message => {| fe_field := path; fe_message := message |}) <$> rule value) rules.

(** [inner]: the rules of an optional field bind its value. *)
Definition inner (path : string) (rules : list Rule) (value : option string) : list FieldError :=
  match value with Some v => field path rules v | None => [] end.

(** A request body: what its deserializer does to the fields it names, and the
    rules of its fields. *)
Class Dto (T : Type) : Type := {
  dto_adapted : T -> T;
  dto_violations : T -> list FieldError;
}.

Section reading.
Context `{GardeLib} {T : Type} `{Dto T}.

Definition is_json_space (b : ascii) : bool := bool_decide (byte_z b ∈ [32; 9; 10; 13]).

Fixpoint first_significant (bytes : string) : option ascii :=
  match bytes with
  | EmptyString => None
  | String b bytes' => if is_json_space b then first_significant bytes' else Some b
  end.

Definition malformed : BodyRejection := RjTransport (Malformed 400).

Definition deserialize_json `{JsonBody T} (bytes : string) : result BodyRejection T :=
  if negb (match first_significant bytes with
           | Some b => bool_decide (b = "{"%char) || bool_decide (b = "["%char)
           | None => false
           end) then Err malformed else
  match from_slice bytes with
  | JsOk raw => Ok (dto_adapted raw)
  | JsData => Err (RjValidation (one_error "body" BODY_SHAPE_MESSAGE))
  | JsOther => Err malformed
  end.

Definition run_garde (value : T) : result AuthError unit :=
  match dto_violations value with [] => Ok tt | broken => Err (Validation (report_order broken)) end.

Definition map_bytes_rejection (status : Z) : BodyRejection := RjTransport (from_body_status status).

(** What the transport makes of the body: its bytes, or the status of a failure. *)
Abbreviation RawBody := (result Z string).

Definition request_bytes (body : RawBody) : result BodyRejection string := map_err map_bytes_rejection body.

Context `{UnicodeText, HttpLib}.

Definition validate_bytes `{JsonBody T} (bytes : string) : result BodyRejection T :=
  value ← deserialize_json bytes;
  _ ← map_err RjValidation (run_garde value);
  Ok value.

(** The [ValidatedJson] extractor. *)
Definition validated_json `{JsonBody T} (headers : HeaderMap) (body : RawBody) : result BodyRejection T :=
  _ ← require_readable_json headers;
  bytes ← request_bytes body;
  validate_bytes bytes.

Definition validate_optional_json `{JsonBody T} (empty : T) (headers : HeaderMap) (bytes : string) : result BodyRejection T :=
  if string_is_empty bytes then Ok empty else
  _ ← require_readable_json headers;
  validate_bytes bytes.

Definition deserialize_query `{QueryText T} (query : string) : result AuthError T :=
  match query_from_str query with Some value => Ok value | None => Err (one_error "query" QUERY_SHAPE_MESSAGE) end.

(** The [ValidatedQuery] extractor. *)
Definition validated_query `{QueryText T} (parts : Parts) : result AuthError T :=
  value ← deserialize_query (default "" (pt_query parts));
  _ ← run_garde value;
  Ok value.
End reading.

Definition is_client_error (status : Z) : bool := bool_decide (400 <= status < 500).

(** The [PathParam] extractor. *)
Definition path_param `{HttpLib} (parts : Parts) : result BodyRejection string :=
  match pt_param parts with
  | Ok value => Ok value
  | Err status =>
      if is_client_error status then Err (RjTransport (Malformed status))
      else Err (RjValidation (internal_error "a route's path parameter was not captured"))
  end.

(** ** A refresh token in the body *)

Import Settings.

Definition MAX_TOKEN_CHARS : Z := 2048.
Definition TOKEN_MESSAGE : string := "refreshToken must be a string of 1 to 2048 characters.".

Definition reads_body (delivery : TokenDelivery) : bool := negb (bool_decide (delivery = Cookie)).

Definition object_get (key : string) (entries : list (string * JsonField)) : option JsonField :=
  snd <$> List.find (fun e => bool_decide (e.1 = key)) entries.

Definition parse_refresh_body `{JsonText} (bytes : string) (reads_body : bool) : result BodyRejection (option string) :=
  if string_is_empty bytes then Ok None else
  match value_from_slice bytes with
  | None => Err malformed
  | Some (JrObject object) =>
      if negb reads_body then Ok None else
      match object_get "refreshToken" object with
      | None | Some JfNull => Ok None
      | Some (JfString token) =>
          if bool_decide (1 <= Password.chars_count token <= MAX_TOKEN_CHARS) then Ok (Some token)
          else Err (RjValidation (one_error "refreshToken" TOKEN_MESSAGE))
      | Some _ => Err (RjValidation (one_error "refreshToken" TOKEN_MESSAGE))
      end
  | Some JrArray => if negb reads_body then Ok None else Err malformed
  | Some _ => Err malformed
  end.

(** * The request bodies

    Models [crates/bymax-auth-axum/src/dto.rs]: one record per body or query, with
    the rules of its fields in the order they are declared.  What a handler
    receives is the value its deserializer answers after the e-mail address has
    been brought to its canonical form, and only where no rule is broken. *)

Record RegisterDto : Set := {
  reg_email : string;
  reg_password : string;
  reg_name : string;
  reg_tenant_id : option string;
}.
Record LoginDto : Set := { lgi_email : string; lgi_password : string; lgi_tenant_id : option string }.
Record ForgotPasswordDto : Set := { fgt_email : string; fgt_tenant_id : option string }.
Record ChangePasswordDto : Set := {
  chg_current_password : string;
  chg_new_password : string;
  chg_refresh_token : option string;
}.
Record ResetPasswordDto : Set := {
  rst_email : string;
  rst_new_password : string;
  rst_token : option string;
  rst_otp : option string;
  rst_verified_token : option string;
  rst_tenant_id : option string;
}.
Record VerifyOtpDto : Set := { vot_email : string; vot_otp : string; vot_tenant_id : option string }.
Record ResendOtpDto : Set := { rso_email : string; rso_tenant_id : option string }.
Record VerifyEmailDto : Set := { vem_email : string; vem_otp : string; vem_tenant_id : option string }.
Record ResendVerificationDto : Set := { rsv_email : string; rsv_tenant_id : option string }.
Record MfaSetupDto : Set := { mst_password : option string }.
Record MfaVerifyDto : Set := { mvf_code : string }.
Record MfaChallengeDto : Set := { mch_mfa_temp_token : option string; mch_code : string }.
Record MfaDisableDto : Set := { mds_code : string }.
Record MfaRegenerateRecoveryCodesDto : Set := { mrg_code : string }.
Record PlatformLoginDto : Set := { plg_email : string; plg_password : string }.
Record CreateInvitationDto : Set := { civ_email : string; civ_role : string; civ_tenant_name : option string }.
Record ChangeEmailDto : Set := { cem_new_email : string; cem_current_password : string }.
Record ConfirmEmailChangeDto : Set := { cce_token : string }.
Record RevokeInvitationDto : Set := { riv_email : string }.
Record AcceptInvitationDto : Set := { aiv_token : string; aiv_name : string; aiv_password : string }.
Record OAuthInitiateQuery : Set := { oin_tenant_id : option string }.
Record OAuthCallbackQuery : Set := {
  ocb_code : option string;
  ocb_error : option string;
  ocb_error_description : option string;
  ocb_error_uri : option string;
  ocb_state : string;
  ocb_iss : option string;
  ocb_scope : option string;
  ocb_authuser : option string;
  ocb_prompt : option string;
  ocb_hd : option string;
}.

Section rules.
Context `{GardeLib, UnicodeText}.

Definition email_rules : list Rule := [garde_email; garde_length 0 255].
Definition tenant_rules : list Rule := [garde_length 1 128; no_control_characters].

#[export] Instance RegisterDto_dto : Dto RegisterDto := {|
  dto_adapted := fun d => {| reg_email := normalize (reg_email d); reg_password := reg_password d; reg_name := reg_name d;
    reg_tenant_id := reg_tenant_id d |};
  dto_violations d :=
    field "email" email_rules (reg_email d)
    ++ field "password" [garde_length 8 128] (reg_password d)
    ++ field "name" [garde_length 2 128] (reg_name d)
    ++ inner "tenant_id" tenant_rules (reg_tenant_id d);
|}.

#[export] Instance LoginDto_dto : Dto LoginDto := {|
  dto_adapted := fun d => {| lgi_email := normalize (lgi_email d); lgi_password := lgi_password d; lgi_tenant_id :=
    lgi_tenant_id d |};
  dto_violations d :=
    field "email" email_rules (lgi_email d)
    ++ field "password" [garde_length 1 128] (lgi_password d)
    ++ inner "tenant_id" tenant_rules (lgi_tenant_id d);
|}.

#[export] Instance ForgotPasswordDto_dto : Dto ForgotPasswordDto := {|
  dto_adapted := fun d => {| fgt_email := normalize (fgt_email d); fgt_tenant_id := fgt_tenant_id d |};
  dto_violations d :=
    field "email" email_rules (fgt_email d)
    ++ inner "tenant_id" tenant_rules (fgt_tenant_id d);
|}.

#[export] Instance ChangePasswordDto_dto : Dto ChangePasswordDto := {|
  dto_adapted := fun d => d;
  dto_violations d :=
    field "current_password" [garde_length 1 128] (chg_current_password d)
    ++ field "new_password" [garde_length 8 128] (chg_new_password d)
    ++ inner "refresh_token" [garde_length 1 2048] (chg_refresh_token d);
|}.

#[export] Instance ResetPasswordDto_dto : Dto ResetPasswordDto := {|
  dto_adapted := fun d => {| rst_email := normalize (rst_email d); rst_new_password := rst_new_password d; rst_token :=
    rst_token d; rst_otp := rst_otp d; rst_verified_token := rst_verified_token d; rst_tenant_id := rst_tenant_id d |};
  dto_violations d :=
    field "email" email_rules (rst_email d)
    ++ field "new_password" [garde_length 8 128] (rst_new_password d)
    ++ inner "token" [garde_length 1 2048] (rst_token d)
    ++ inner "otp" [garde_length 4 8] (rst_otp d)
    ++ inner "verified_token" [garde_length 64 64] (rst_verified_token d)
    ++ inner "tenant_id" tenant_rules (rst_tenant_id d);
|}.

#[export] Instance VerifyOtpDto_dto : Dto VerifyOtpDto := {|
  dto_adapted := fun d => {| vot_email := normalize (vot_email d); vot_otp := vot_otp d; vot_tenant_id := vot_tenant_id d |};
  dto_violations d :=
    field "email" email_rules (vot_email d)
    ++ field "otp" [garde_length 4 8] (vot_otp d)
    ++ inner "tenant_id" tenant_rules (vot_tenant_id d);
|}.

#[export] Instance ResendOtpDto_dto : Dto ResendOtpDto := {|
  dto_adapted := fun d => {| rso_email := normalize (rso_email d); rso_tenant_id := rso_tenant_id d |};
  dto_violations d :=
    field "email" email_rules (rso_email d)
    ++ inner "tenant_id" tenant_rules (rso_tenant_id d);
|}.

#[export] Instance VerifyEmailDto_dto : Dto VerifyEmailDto := {|
  dto_adapted := fun d => {| vem_email := normalize (vem_email d); vem_otp := vem_otp d; vem_tenant_id := vem_tenant_id d |};
  dto_violations d :=
    field "email" email_rules (vem_email d)
    ++ field "otp" [garde_length 6 6] (vem_otp d)
    ++ inner "tenant_id" tenant_rules (vem_tenant_id d);
|}.

#[export] Instance ResendVerificationDto_dto : Dto ResendVerificationDto := {|
  dto_adapted := fun d => {| rsv_email := normalize (rsv_email d); rsv_tenant_id := rsv_tenant_id d |};
  dto_violations d :=
    field "email" email_rules (rsv_email d)
    ++ inner "tenant_id" tenant_rules (rsv_tenant_id d);
|}.

#[export] Instance MfaSetupDto_dto : Dto MfaSetupDto := {|
  dto_adapted := fun d => d;
  dto_violations d := inner "password" [garde_length 1 128] (mst_password d);
|}.

#[export] Instance MfaVerifyDto_dto : Dto MfaVerifyDto := {|
  dto_adapted := fun d => d;
  dto_violations d := field "code" [garde_length 6 6; totp_code] (mvf_code d);
|}.

#[export] Instance MfaChallengeDto_dto : Dto MfaChallengeDto := {|
  dto_adapted := fun d => d;
  dto_violations d :=
    inner "mfa_temp_token" [garde_length 1 512] (mch_mfa_temp_token d)
    ++ field "code" [garde_length 1 29; totp_or_recovery_code] (mch_code d);
|}.

#[export] Instance MfaDisableDto_dto : Dto MfaDisableDto := {|
  dto_adapted := fun d => d;
  dto_violations d := field "code" [garde_length 6 6; totp_code] (mds_code d);
|}.

#[export] Instance MfaRegenerateRecoveryCodesDto_dto : Dto MfaRegenerateRecoveryCodesDto := {|
  dto_adapted := fun d => d;
  dto_violations d := field "code" [garde_length 6 6; totp_code] (mrg_code d);
|}.

#[export] Instance PlatformLoginDto_dto : Dto PlatformLoginDto := {|
  dto_adapted := fun d => {| plg_email := normalize (plg_email d); plg_password := plg_password d |};
  dto_violations d :=
    field "email" email_rules (plg_email d)
    ++ field "password" [garde_length 1 128; not_blank] (plg_password d);
|}.

#[export] Instance CreateInvitationDto_dto : Dto CreateInvitationDto := {|
  dto_adapted := fun d => {| civ_email := normalize (civ_email d); civ_role := civ_role d; civ_tenant_name := civ_tenant_name d
    |};
  dto_violations d :=
    field "email" email_rules (civ_email d)
    ++ field "role" [garde_length 1 64] (civ_role d)
    ++ inner "tenant_name" [garde_length 1 128] (civ_tenant_name d);
|}.

#[export] Instance ChangeEmailDto_dto : Dto ChangeEmailDto := {|
  dto_adapted := fun d => {| cem_new_email := normalize (cem_new_email d); cem_current_password := cem_current_password d |};
  dto_violations d :=
    field "new_email" email_rules (cem_new_email d)
    ++ field "current_password" [garde_length 1 128] (cem_current_password d);
|}.

#[export] Instance ConfirmEmailChangeDto_dto : Dto ConfirmEmailChangeDto := {|
  dto_adapted := fun d => d;
  dto_violations d := field "token" [garde_length 64 64] (cce_token d);
|}.

#[export] Instance RevokeInvitationDto_dto : Dto RevokeInvitationDto := {|
  dto_adapted := fun d => {| riv_email := normalize (riv_email d) |};
  dto_violations d := field "email" email_rules (riv_email d);
|}.

#[export] Instance AcceptInvitationDto_dto : Dto AcceptInvitationDto := {|
  dto_adapted := fun d => d;
  dto_violations d :=
    field "token" [garde_length 64 64] (aiv_token d)
    ++ field "name" [garde_length 2 100] (aiv_name d)
    ++ field "password" [garde_length 8 128] (aiv_password d);
|}.

#[export] Instance OAuthInitiateQuery_dto : Dto OAuthInitiateQuery := {|
  dto_adapted := fun d => d;
  dto_violations d := inner "tenant_id" tenant_rules (oin_tenant_id d);
|}.

#[export] Instance OAuthCallbackQuery_dto : Dto OAuthCallbackQuery := {|
  dto_adapted := fun d => d;
  dto_violations d :=
    inner "code" [garde_length 1 2048] (ocb_code d)
    ++ inner "error" [garde_length 0 128] (ocb_error d)
    ++ inner "error_description" [garde_length 0 512] (ocb_error_description d)
    ++ inner "error_uri" [garde_length 0 512] (ocb_error_uri d)
    ++ field "state" [garde_length 1 128] (ocb_state d)
    ++ inner "iss" [garde_length 0 512] (ocb_iss d)
    ++ inner "scope" [garde_length 0 2048] (ocb_scope d)
    ++ inner "authuser" [garde_length 0 16] (ocb_authuser d)
    ++ inner "prompt" [garde_length 0 64] (ocb_prompt d)
    ++ inner "hd" [garde_length 0 253] (ocb_hd d);
|}.

Definition MfaSetupDto_default : MfaSetupDto := {| mst_password := None |}.
End rules.

(** * What an accepted body is

    The bounds every field a handler receives has, and the second-factor codes the
    engine hands out. *)

Section claims.
Context `{GardeLaws, UnicodeText, HttpLib}.

(** ** Reading *)

Lemma no_violation (path : string) (rules : list Rule) (value : string) :
  field path rules value = [] <-> Forall (fun rule => rule value = None) rules.
Proof.
  unfold field. induction rules as [|rule rules IH]; [split; [constructor | done]|]. rewrite list.Forall_cons, <- IH.
  cbn. destruct (rule value); cbn; [split; [done | by intros [? _]] | split; [by split | by intros [_ ?]]].
Qed.

Lemma no_inner_violation (path : string) (rules : list Rule) (value : option string) :
  inner path rules value = [] <-> forall v, value = Some v -> Forall (fun rule => rule v = None) rules.
Proof.
  destruct value as [v|]; cbn; [rewrite no_violation | by split]. split; [by intros Hv ? [= <-] | by intros Hv; apply Hv].
Qed.

(** What a handler receives breaks no rule of its type. *)
Lemma accepted_rules {T} `{Dto T, JsonBody T} (headers : HeaderMap) (body : result Z string) (value : T) :
  validated_json headers body = Ok value -> dto_violations value = [].
Proof.
  unfold validated_json, validate_bytes. rewrite result_bind_ok. intros (_ & _ & Hk). apply result_bind_ok in Hk as (bytes & _ & Hk).
  apply result_bind_ok in Hk as (v & _ & Hk). apply result_bind_ok in Hk as ([] & Hg & [= <-]).
  unfold run_garde in Hg. by destruct (dto_violations v).
Qed.

(** ** Bounds *)

Definition within (min max : Z) (s : string) : Prop := min <= garde_units s <= max.

Definition clean_tenant (tenant : option string) : Prop :=
  forall v, tenant = Some v -> within 1 128 v /\ Forall (fun c => is_control (code_point c) = false) (chars v).

Lemma tenant_clean (tenant : option string) : inner "tenant_id" tenant_rules tenant = [] -> clean_tenant tenant.
Proof.
  rewrite no_inner_violation. intros Hr v Hv. specialize (Hr v Hv). unfold tenant_rules in Hr. rewrite !list.Forall_cons in Hr.
  destruct Hr as (Hl & Hc & _). split; [by apply length_in_bounds|]. unfold no_control_characters in Hc.
  destruct (existsb _ _) eqn:He; [done|]. apply list.Forall_forall. intros c Hin. apply not_true_iff_false. intros Ht.
  apply not_true_iff_false in He. apply He, existsb_exists. exists c. by rewrite <- list_elem_of_In.
Qed.

Lemma length_within (path : string) (min max : Z) (s : string) : field path [garde_length min max] s = [] -> within min max s.
Proof. rewrite no_violation, list.Forall_singleton. apply length_in_bounds. Qed.

Definition accepted {T} `{Dto T, JsonBody T} (P : T -> Prop) : Prop :=
  forall headers body value, validated_json headers body = Ok value -> P value.

Lemma code_shape (path : string) (a b : Z) (rule : Rule) (value : string) :
  field path [garde_length a b; rule] value = [] -> rule value = None.
Proof. rewrite no_violation, !list.Forall_cons. tauto. Qed.

Lemma totp_shape (code : string) : totp_code code = None -> Bodies.is_totp_code code = true.
Proof. unfold totp_code. by destruct (Bodies.is_totp_code code). Qed.

Lemma challenge_shape (code : string) : totp_or_recovery_code code = None -> Bodies.is_totp_code code || is_recovery_code code = true.
Proof. unfold totp_or_recovery_code. by destruct (_ || _). Qed.

Section bounds.
Context `{JsonBody RegisterDto, JsonBody LoginDto, JsonBody ResetPasswordDto, JsonBody ChangePasswordDto, JsonBody ChangeEmailDto}.
Context `{JsonBody AcceptInvitationDto, JsonBody ForgotPasswordDto, JsonBody VerifyOtpDto}.
Context `{JsonBody VerifyEmailDto, JsonBody MfaVerifyDto, JsonBody MfaDisableDto, JsonBody MfaRegenerateRecoveryCodesDto, JsonBody MfaChallengeDto}.

Ltac bounds := intros headers body d Hd; apply accepted_rules in Hd;
  cbn [dto_violations RegisterDto_dto LoginDto_dto ResetPasswordDto_dto ChangePasswordDto_dto ChangeEmailDto_dto AcceptInvitationDto_dto ForgotPasswordDto_dto VerifyOtpDto_dto VerifyEmailDto_dto MfaVerifyDto_dto MfaDisableDto_dto MfaRegenerateRecoveryCodesDto_dto MfaChallengeDto_dto] in Hd;
  repeat match goal with Hx : _ ++ _ = [] |- _ => apply app_eq_nil in Hx as [? ?] end;
  split_and?; first [apply tenant_clean; assumption | eapply length_within; eassumption
                    | eapply totp_shape, code_shape; eassumption | eapply challenge_shape, code_shape; eassumption].

(** The bounds of what reaches the engine.  Whatever bytes are posted, the
    value a handler receives holds passwords of at most 128 units, and at least 8
    where one is being set, so that no request buys a longer key derivation; a
    tenant of 1 to 128 units without a control character, so that none forges a
    log record or a key segment; and second-factor codes of the two shapes the
    engine mints. *)
Theorem accepted_bodies_bounded :
  accepted (fun d : RegisterDto => within 8 128 (reg_password d) /\ within 2 128 (reg_name d) /\ clean_tenant (reg_tenant_id d)) /\
  accepted (fun d : LoginDto => within 1 128 (lgi_password d) /\ clean_tenant (lgi_tenant_id d)) /\
  accepted (fun d : ResetPasswordDto => within 8 128 (rst_new_password d) /\ clean_tenant (rst_tenant_id d)) /\
  accepted (fun d : ChangePasswordDto => within 1 128 (chg_current_password d) /\ within 8 128 (chg_new_password d)) /\
  accepted (fun d : ChangeEmailDto => within 1 128 (cem_current_password d)) /\
  accepted (fun d : AcceptInvitationDto => within 64 64 (aiv_token d) /\ within 8 128 (aiv_password d)) /\
  accepted (fun d : ForgotPasswordDto => clean_tenant (fgt_tenant_id d)) /\
  accepted (fun d : VerifyOtpDto => within 4 8 (vot_otp d) /\ clean_tenant (vot_tenant_id d)) /\
  accepted (fun d : VerifyEmailDto => within 6 6 (vem_otp d) /\ clean_tenant (vem_tenant_id d)) /\
  accepted (fun d : MfaVerifyDto => Bodies.is_totp_code (mvf_code d) = true) /\
  accepted (fun d : MfaDisableDto => Bodies.is_totp_code (mds_code d) = true) /\
  accepted (fun d : MfaRegenerateRecoveryCodesDto => Bodies.is_totp_code (mrg_code d) = true) /\
  accepted (fun d : MfaChallengeDto => Bodies.is_totp_code (mch_code d) || is_recovery_code (mch_code d) = true).
Proof.
  split_and!; bounds.
Qed.
End bounds.
End claims.

(** ** The engine's own codes *)

Lemma get_all (f : ascii -> bool) (s : string) (i : nat) (c : ascii) : string_all f s = true -> String.get i s = Some c -> f c = true.
Proof.
  revert i. induction s as [|x s IH]; intros i; [done|]. cbn [string_all]. intros [Hx Hs]%andb_true_iff.
  destruct i as [|i]; cbn; [by intros [= <-] | by apply IH].
Qed.

Lemma hex_upper_digit (n : Z) : is_ascii_hexdigit (hex_upper n) = true.
Proof.
  unfold hex_upper. destruct (String.get (Z.to_nat n) HEX_UPPER) as [c|] eqn:Hg; [|reflexivity].
  by apply (get_all is_ascii_hexdigit HEX_UPPER (Z.to_nat n)).
Qed.

Lemma upper_hex_digits (bytes : string) : string_all is_ascii_hexdigit (upper_hex bytes) = true.
Proof. induction bytes as [|b bytes IH]; [done|]. cbn [upper_hex string_all]. by rewrite !hex_upper_digit, IH. Qed.

Lemma hexdigits_no_hyphen (s : string) : string_all is_ascii_hexdigit s = true -> contains_char "-" s = false.
Proof.
  unfold contains_char. rewrite negb_false_iff. induction s as [|c s IH]; [done|]. cbn [string_all].
  intros [Hc Hs]%andb_true_iff. rewrite IH by done. rewrite andb_true_r. rewrite negb_true_iff, bool_decide_eq_false.
  intros ->. by vm_compute in Hc.
Qed.

(** Six groups of four hexadecimal digits. *)
Lemma six_groups (g1 g2 g3 g4 g5 g6 : string) :
  Forall (fun g => String.length g = 4%nat /\ string_all is_ascii_hexdigit g = true) [g1; g2; g3; g4; g5; g6] ->
  is_recovery_code (g1 +:+ String "-" (g2 +:+ String "-" (g3 +:+ String "-" (g4 +:+ String "-" (g5 +:+ String "-" g6))))) = true.
Proof.
  rewrite !list.Forall_cons. intros ((L1 & D1) & (L2 & D2) & (L3 & D3) & (L4 & D4) & (L5 & D5) & (L6 & D6) & _).
  unfold is_recovery_code. rewrite !split_on_app, split_on_no_sep by by apply hexdigits_no_hyphen.
  cbn [length forallb]. by rewrite L1, L2, L3, L4, L5, L6, D1, D2, D3, D4, D5, D6.
Qed.

Lemma printed_code_shape (hex : string) :
  String.length hex = 24%nat -> string_all is_ascii_hexdigit hex = true -> is_recovery_code (group_four 0 hex) = true.
Proof.
  intros Hl Hd.
  do 24 (destruct hex as [|? hex]; [discriminate Hl|]; apply Nat.succ_inj in Hl). destruct hex; [|discriminate Hl]. clear Hl.
  cbn [string_all] in Hd. rewrite !andb_true_iff in Hd.
  let g := uconstr:(String _ (String _ (String _ (String _ "")))) in refine (six_groups g g g g g g _).
  rewrite !list.Forall_cons. destruct_and!. cbn [string_all].
  repeat match goal with Hx : is_ascii_hexdigit _ = true |- _ => rewrite Hx; clear Hx end. by split_and!.
Qed.

(** Every recovery code the engine prints is one the challenge accepts as it
    is printed: its shape passes the request's rule, no longer than the rule
    allows, and it is never read as an authenticator code. *)
Theorem printed_codes_pass_the_edge `{HostLaws} {S U : Type} (n : nat) (w w' : World S U) (codes : list string) (code : string) :
  generate_recovery_codes n w = (Ok codes, w') -> code ∈ codes ->
  totp_or_recovery_code code = None /\ Bodies.is_totp_code code = false /\ (String.length code <= 29)%nat.
Proof.
  intros Hrun Hc. assert (Hbytes : exists bytes, String.length bytes = 12%nat /\ code = recovery_code_of bytes).
  { revert w w' codes Hrun Hc. induction n as [|n IH]; intros w w' codes Hrun Hc; cbn [generate_recovery_codes] in Hrun.
    - apply ret_inv in Hrun as [-> _]. by apply elem_of_nil in Hc.
    - apply bind_ok_inv in Hrun as (first & w1 & [= <- <-] & Hrun). apply bind_ok_inv in Hrun as (rest & w2 & Hrest & Hrun).
      apply ret_inv in Hrun as [-> _]. apply elem_of_cons in Hc as [->|Hc]; [|by eapply IH].
      eexists. split; [|done]. by rewrite entropy_length. }
  destruct Hbytes as (bytes & Hl & ->). unfold recovery_code_of.
  assert (Hhex : String.length (upper_hex bytes) = 24%nat) by (rewrite MfaSound.upper_hex_length; lia).
  pose proof (printed_code_shape _ Hhex (upper_hex_digits bytes)) as Hs.
  assert (Hlen : String.length (group_four 0 (upper_hex bytes)) = 29%nat).
  { revert Hhex. generalize (upper_hex bytes). clear. intros hex Hl.
    do 24 (destruct hex as [|? hex]; [discriminate Hl|]; apply Nat.succ_inj in Hl). by destruct hex; [|discriminate Hl]. }
  split_and!; [|unfold Bodies.is_totp_code; by rewrite Hlen | lia].
  unfold totp_or_recovery_code. by rewrite Hs, orb_true_r.
Qed.
