(* ===== verification/Guards.v ===== *)
(** * The request guards

    Models [crates/bymax-auth-axum/src/extractors/] (every guard a handler may
    name), the request context and token sourcing of [routes/mod.rs], and the
    WebSocket handshake guards of [ws.rs].

    A guard runs on a connection: the engine's world, the claims a guard before
    it has verified and left on the request, and the cookie jar.  Its requests
    come through the router's own cookie manager, so that a jar is present. *)

From S2P Require Import Prelude Errors Types Crypto Redis RedisStores Jwt SessionSpec SessionStore MfaStore Engine Repository Password SideStores TokenManager Sessions AuthCore Login Totp MfaService Platform OAuth Invitation Config Validate Builder Facade Net Http ClientIp Delivery Bodies.

Import Settings.

(** ** The context of a request *)

Definition SENSITIVE_HEADERS : list string :=
  ["authorization"; "cookie"; "proxy-authorization"; "www-authenticate"; "x-api-key"; "x-auth-token"; "x-csrf-token";
   "x-session-id"; "x-forwarded-for"; "x-forwarded-host"; "x-real-ip"; "x-original-forwarded-for"; "cf-connecting-ip";
   "true-client-ip"; "x-cluster-client-ip"].

Definition SENSITIVE_HEADER_SUFFIXES : list string :=
  ["-token"; "-secret"; "-key"; "-password"; "-credential"; "-auth"; "-bearer"; "-signature"; "-hmac"].

Definition is_sensitive_header (key : string) : bool :=
  bool_decide (key ∈ SENSITIVE_HEADERS)
  || match strip_prefix "x-" key with
     | Some rest => existsb (fun suffix => ends_with suffix rest) SENSITIVE_HEADER_SUFFIXES
     | None => false
     end.

Section context.
Context `{HttpLib}.

(** A name sent twice keeps its last readable value. *)
Definition sanitize_headers (parts : Parts) : gmap string string :=
  foldl (fun map '(name, value) =>
    let key := to_ascii_lowercase name in
    if is_sensitive_header key then map else
    match value with Some text => <[key := text]> map | None => map end) ∅ (header_iter (pt_headers parts)).

Definition request_context (parts : Parts) : RequestContext := {|
  rc_ip := client_ip parts;
  rc_user_agent := default "" (header_get (pt_headers parts) "user-agent");
  rc_sanitized_headers := sanitize_headers parts;
|}.

Definition bearer_from_header `{UnicodeText} (parts : Parts) : option string :=
  value ← header_get (pt_headers parts) "authorization";
  token ← match strip_prefix "Bearer " value with Some rest => Some rest | None => strip_prefix "bearer " value end;
  let token := str_trim token in
  if string_is_empty token then None else Some token.
End context.

(** ** Connections *)

Record Conn `{CookieLib} (S U : Type) : Type := MkConn {
  cn_world : World S U;
  cn_claims : option DashboardClaims;
  cn_admin : option PlatformClaims;
  cn_jar : Jar;
}.
Arguments MkConn {_ S U} _ _ _ _.
Arguments cn_world {_ S U} _.
Arguments cn_claims {_ S U} _.
Arguments cn_admin {_ S U} _.
Arguments cn_jar {_ S U} _.

Section connection.
Context `{CookieLib} {S U : Type}.

(** Awaiting an engine call. *)
Definition call {A} (m : E S U A) : M (Conn S U) AuthError A :=
  fun c => let '(r, w) := m (cn_world c) in (r, MkConn w (cn_claims c) (cn_admin c) (cn_jar c)).

Definition cached_claims : M (Conn S U) AuthError (option DashboardClaims) := fun c => (Ok (cn_claims c), c).
Definition cached_admin : M (Conn S U) AuthError (option PlatformClaims) := fun c => (Ok (cn_admin c), c).
Definition cache_claims (claims : DashboardClaims) : M (Conn S U) AuthError unit :=
  fun c => (Ok tt, MkConn (cn_world c) (Some claims) (cn_admin c) (cn_jar c)).
Definition cache_admin (claims : PlatformClaims) : M (Conn S U) AuthError unit :=
  fun c => (Ok tt, MkConn (cn_world c) (cn_claims c) (Some claims) (cn_jar c)).

Definition the_jar {Err} : M (Conn S U) Err Jar := fun c => (Ok (cn_jar c), c).

(** A step on the jar, and what it leaves for the response. *)
Definition on_jar {Err A} (f : Jar -> A * Jar) : M (Conn S U) Err A :=
  fun c => let '(a, j) := f (cn_jar c) in (Ok a, MkConn (cn_world c) (cn_claims c) (cn_admin c) j).
End connection.

(** ** The guards *)

Section guards.
Context `{CookieLib, HttpLib, Crypto, Host, Base64, HeaderJson, UnicodeText}.
Context `{ClaimsJson DashboardClaims, ClaimsJson PlatformClaims, ClaimsJson MfaTempClaims}.
Context {S U : Type} `{SessionStore S, UserStatusCacheStore S, WsTicketStore S}.
Context `{UserRepository U}.
Context (be : BuiltEngine U) (config : AdapterConfig).

Abbreviation Guard := (M (Conn S U) AuthError).

Definition access_cookie (jar : Jar) : option string := nonempty_cookie jar (rk_access_name (ad_cookies config)).

Definition source_access_token (parts : Parts) (jar : Jar) : option string :=
  match ad_delivery config with
  | Cookie => access_cookie jar
  | Bearer => bearer_from_header parts
  | Both => match access_cookie jar with Some token => Some token | None => bearer_from_header parts end
  end.

Definition source_platform_access_token (parts : Parts) : option string := bearer_from_header parts.

Definition verified_dashboard_claims (parts : Parts) : Guard DashboardClaims :=
  cached ← cached_claims;
  match cached with
  | Some claims => mret claims
  | None =>
      jar ← the_jar;
      token ← lift (ok_or TokenMissing (source_access_token parts jar));
      claims ← call (verify_access_token be token);
      _ ← call (assert_tenant_binding (be_engine be) (dc_tenant_id claims) (request_context parts));
      _ ← cache_claims claims;
      mret claims
  end.

(** [AuthUser] and [CurrentUser]. *)
Definition auth_user (parts : Parts) : Guard DashboardClaims := verified_dashboard_claims parts.
Definition current_user (parts : Parts) : Guard DashboardClaims := verified_dashboard_claims parts.

(** The account is judged before the second factor is asked for. *)
Definition mfa_satisfied (parts : Parts) : Guard DashboardClaims :=
  claims ← verified_dashboard_claims parts;
  if dc_mfa_enabled claims && negb (dc_mfa_verified claims) then
    _ ← call (assert_user_active_and_verified be (dc_sub claims) (dc_tenant_id claims));
    throw MfaRequired
  else mret claims.

Definition optional_auth_user (parts : Parts) : Guard (option DashboardClaims) :=
  answer ← attempt (verified_dashboard_claims parts);
  mret match answer with Ok claims => Some claims | Err _ => None end.

Definition require_role (name : string) (parts : Parts) : Guard DashboardClaims :=
  claims ← verified_dashboard_claims parts;
  if engine_role_satisfies be (dc_role claims) name then mret claims else throw InsufficientRole.

Definition self_or_admin (admin_name : string) (parts : Parts) : Guard DashboardClaims :=
  claims ← verified_dashboard_claims parts;
  user_id ← lift (map_err (fun _ => TokenInvalid) (pt_param parts));
  let is_self := bool_decide (user_id = dc_sub claims) in
  let is_admin := engine_role_satisfies be (dc_role claims) admin_name in
  if is_self || is_admin then mret claims else throw Forbidden.

Definition user_status (parts : Parts) : Guard DashboardClaims :=
  claims ← verified_dashboard_claims parts;
  _ ← call (assert_user_active_and_verified be (dc_sub claims) (dc_tenant_id claims));
  mret claims.

Definition verified_user (parts : Parts) : Guard DashboardClaims :=
  claims ← verified_dashboard_claims parts;
  _ ← call (assert_user_active_and_verified be (dc_sub claims) (dc_tenant_id claims));
  mret claims.

(** *** Administration *)

Definition map_platform_verify_error (error : AuthError) : AuthError :=
  match error with TokenInvalid | TokenExpired | TokenRevoked => PlatformAuthRequired | other => other end.

Definition verified_platform_claims (parts : Parts) : Guard PlatformClaims :=
  cached ← cached_admin;
  match cached with
  | Some claims => mret claims
  | None =>
      token ← lift (ok_or PlatformAuthRequired (source_platform_access_token parts));
      claims ← call (map_error map_platform_verify_error (verify_platform_token be token));
      _ ← cache_admin claims;
      mret claims
  end.

Definition platform_user (parts : Parts) : Guard PlatformClaims := verified_platform_claims parts.

Definition require_platform_role (name : string) (parts : Parts) : Guard PlatformClaims :=
  claims ← verified_platform_claims parts;
  if engine_platform_role_satisfies be (pc_role claims) name then mret claims else throw InsufficientRole.

(** *** Presented tokens *)

Definition presented_access_token (parts : Parts) (jar : Jar) : string := default "" (source_access_token parts jar).
Definition presented_platform_access_token (parts : Parts) : string := default "" (source_platform_access_token parts).

(** *** WebSocket handshakes *)

Record TicketQuery : Set := { tq_ticket : string }.

Definition ticket_from_query `{QueryText TicketQuery} (parts : Parts) : option string :=
  query ← pt_query parts;
  q ← query_from_str query;
  nonempty (Some (tq_ticket q)).

Definition enforce_tenant_binding (claims : DashboardClaims) (parts : Parts) : Guard unit :=
  call (assert_tenant_binding (be_engine be) (dc_tenant_id claims) (request_context parts)).

Definition ws_auth_user `{QueryText TicketQuery} (parts : Parts) : Guard DashboardClaims :=
  ticket ← lift (ok_or TokenInvalid (ticket_from_query parts));
  claims ← call (redeem_ws_ticket be ticket);
  _ ← enforce_tenant_binding claims parts;
  mret claims.

Definition ws_auth_user_from_header (parts : Parts) : Guard DashboardClaims :=
  token ← lift (ok_or TokenInvalid (bearer_from_header parts));
  claims ← call (verify_access_token be token);
  _ ← enforce_tenant_binding claims parts;
  mret claims.
End guards.
