(* ===== verification/Edge.v ===== *)
(** * The edge of the router

    Models what stands between the transport and a handler:
    [crates/bymax-auth-axum/src/trusted_origin.rs], [encoding_policy.rs],
    [shared_limit.rs] and the limits of [rate_limit.rs], the adapter's
    configuration of [state.rs], and the order of the layers in [middleware.rs]
    and [router.rs].

    A layer is a function of the request and of the rest of the stack; the rest
    runs on a connection and ends in a response. *)

From S2P Require Import Prelude Errors Types Crypto Redis RedisStores Jwt SessionSpec SessionStore MfaStore Engine Repository Password SideStores TokenManager Sessions AuthCore Login Totp MfaService Platform OAuth Invitation UrlText Config Validate Builder Facade Net Http ClientIp Delivery Bodies Guards.

Import Settings.

(** ** Limits *)

Record RateLimit : Set := { rt_burst : Z; rt_per_seconds : Z }.

(** The seconds after which one unit of a burst is restored. *)
Definition replenish_secs (limit : RateLimit) : Z := Z.max 1 (rt_per_seconds limit `div` Z.max 1 (rt_burst limit)).

Record RateLimitConfig : Set := {
  lm_login : option RateLimit;
  lm_register : option RateLimit;
  lm_refresh : option RateLimit;
  lm_forgot_password : option RateLimit;
  lm_reset_password : option RateLimit;
  lm_verify_otp : option RateLimit;
  lm_resend_password_otp : option RateLimit;
  lm_verify_email : option RateLimit;
  lm_resend_verification : option RateLimit;
  lm_mfa_setup : option RateLimit;
  lm_mfa_verify_enable : option RateLimit;
  lm_mfa_challenge : option RateLimit;
  lm_mfa_disable : option RateLimit;
  lm_platform_login : option RateLimit;
  lm_invitation_create : option RateLimit;
  lm_invitation_accept : option RateLimit;
  lm_invitation_revoke : option RateLimit;
  lm_email_change_request : option RateLimit;
  lm_email_change_confirm : option RateLimit;
  lm_list_sessions : option RateLimit;
  lm_revoke_session : option RateLimit;
  lm_revoke_all_sessions : option RateLimit;
  lm_oauth_initiate : option RateLimit;
  lm_oauth_callback : option RateLimit;
  lm_change_password : option RateLimit;
  lm_logout : option RateLimit;
  lm_ws_ticket : option RateLimit;
}.

Definition limit (burst per_seconds : Z) : option RateLimit := Some {| rt_burst := burst; rt_per_seconds := per_seconds |}.

Definition rate_limits_default : RateLimitConfig := {|
  lm_login := limit 5 60;
  lm_register := limit 10 3600;
  lm_refresh := limit 10 60;
  lm_forgot_password := limit 3 300;
  lm_reset_password := limit 3 300;
  lm_verify_otp := limit 3 300;
  lm_resend_password_otp := limit 3 300;
  lm_verify_email := limit 5 60;
  lm_resend_verification := limit 3 300;
  lm_mfa_setup := limit 5 60;
  lm_mfa_verify_enable := limit 5 60;
  lm_mfa_challenge := limit 5 60;
  lm_mfa_disable := limit 3 300;
  lm_platform_login := limit 5 60;
  lm_invitation_create := limit 10 3600;
  lm_invitation_accept := limit 5 60;
  lm_invitation_revoke := limit 10 3600;
  lm_email_change_request := limit 3 300;
  lm_email_change_confirm := limit 5 60;
  lm_list_sessions := limit 30 60;
  lm_revoke_session := limit 10 60;
  lm_revoke_all_sessions := limit 5 60;
  lm_oauth_initiate := limit 10 60;
  lm_oauth_callback := limit 10 60;
  lm_change_password := limit 5 60;
  lm_logout := limit 20 60;
  lm_ws_ticket := limit 20 60;
|}.

(** ** The adapter's configuration *)

Definition DEFAULT_MAX_BODY_BYTES : Z := 1024 * 1024.

Record AxumAuthConfig : Type := {
  ax_route_prefix : string;
  ax_max_body_bytes : Z;
  ax_rate_limits : RateLimitConfig;
  ax_client_ip_source : ClientIpSource;
  ax_is_trusted_proxy : option TrustedProxyFn;
}.

Definition new_axum_config (client_ip_source : ClientIpSource) : AxumAuthConfig := {|
  ax_route_prefix := "auth";
  ax_max_body_bytes := DEFAULT_MAX_BODY_BYTES;
  ax_rate_limits := rate_limits_default;
  ax_client_ip_source := client_ip_source;
  ax_is_trusted_proxy := None;
|}.

Definition is_trusted_proxy (predicate : TrustedProxyFn) (config : AxumAuthConfig) : AxumAuthConfig := {|
  ax_route_prefix := ax_route_prefix config;
  ax_max_body_bytes := ax_max_body_bytes config;
  ax_rate_limits := ax_rate_limits config;
  ax_client_ip_source := ax_client_ip_source config;
  ax_is_trusted_proxy := Some predicate;
|}.

Record RouteGroups : Set := {
  rg_auth : bool;
  rg_mfa : bool;
  rg_password_reset : bool;
  rg_sessions : bool;
  rg_platform : bool;
  rg_platform_mfa : bool;
  rg_oauth : bool;
  rg_invitations : bool;
  rg_email_change : bool;
}.

Definition from_toggles (toggles : ControllerToggles) : RouteGroups := {|
  rg_auth := ct_auth toggles;
  rg_mfa := ct_mfa toggles;
  rg_password_reset := ct_password_reset toggles;
  rg_sessions := ct_sessions toggles;
  rg_platform := ct_platform toggles;
  rg_platform_mfa := ct_platform toggles && ct_mfa toggles;
  rg_oauth := ct_oauth toggles;
  rg_invitations := ct_invitations toggles;
  rg_email_change := ct_email_change toggles;
|}.

(** ** Encodings *)

Definition is_slash (c : Z) : bool := bool_decide (c = 47).

Section encoding.
Context `{UnicodeText, HttpLib}.

Definition METHODS_NEVER_CHECKED : list Method := [mGET; mHEAD; mOPTIONS; mDELETE].

Definition UNCHECKED : list string :=
  ["POST logout"; "POST refresh"; "POST ws-ticket"; "POST platform/logout"; "POST platform/refresh"; "POST sessions/revoke-all"].

Definition WHEN_BODY : list string := ["POST mfa/setup"; "POST platform/mfa/setup"].

Definition carries_a_body (headers : HeaderMap) : bool :=
  match header_get headers "content-length" with
  | Some length => negb (bool_decide (str_trim length = "0"))
  | None => false
  end || header_contains headers "transfer-encoding".

(** The policy is its prefix, without a slash at its end. *)
Definition new_encoding_policy (prefix : string) : string := trim_end_matches is_slash prefix.

Definition refuses (prefix : string) (parts : Parts) : bool :=
  if bool_decide (pt_method parts ∈ METHODS_NEVER_CHECKED) then false else
  let relative := trim_start_matches is_slash (default (pt_path parts) (strip_prefix prefix (pt_path parts))) in
  let route := method_text (pt_method parts) +:+ " " +:+ relative in
  if bool_decide (route ∈ UNCHECKED) then false else
  if bool_decide (route ∈ WHEN_BODY) && negb (carries_a_body (pt_headers parts)) then false else
  negb (encoding_is_identity (pt_headers parts)).
End encoding.

(** ** Layers *)

(** The governor package's refusals. *)
Inductive GovernorError : Set := GeTooManyRequests (wait_time : Z) | GeUnableToExtractKey | GeOther.

Definition governor_error_to_response {C} (error : GovernorError) : Response C :=
  error_response (TooManyRequests match error with GeTooManyRequests wait_time => Some wait_time | _ => None end).

(** What goes out: every answer of the router is stamped uncacheable. *)
Record Answer : Type := {
  an_response : Response SetCookie;
  an_set_cookie : list SetCookie;
  an_cache_control : string;
  an_pragma : string;
}.

Section layers.
Context `{CookieLib, HttpLib, Crypto, Host, Base64, HeaderJson, UnicodeText}.
Context `{ClaimsJson DashboardClaims, ClaimsJson PlatformClaims, ClaimsJson MfaTempClaims}.
Context {S U : Type} `{RateLimitStore S}.
Context (be : BuiltEngine U) (config : AdapterConfig).

(** The rest of the stack, on a connection. *)
Abbreviation Next := (Conn S U -> Response SetCookie * Conn S U).

(** A handler answers a response, or a guard of it does. *)
Definition finish (h : M (Conn S U) (Response SetCookie) (Response SetCookie)) : Next :=
  fun c => let '(r, c') := h c in (match r with Ok response => response | Err response => response end, c').

(** *** Cross-site requests *)

Definition SAFE_FETCH_SITES : list string := ["same-origin"; "none"].

Definition origin_allowed (trusted : list string) (fetch_site origin : option string) : bool :=
  if match fetch_site with Some site => bool_decide (site ∈ SAFE_FETCH_SITES) | None => false end then true else
  match origin with
  | Some origin =>
      existsb (fun allowed => eq_ignore_ascii_case allowed origin) trusted
      || (negb (bool_decide (is_Some fetch_site)) && bool_decide (trusted = []))
  | None => negb (bool_decide (is_Some fetch_site))
  end.

Definition enforce_trusted_origin (parts : Parts) (next : Next) : Next :=
  if is_safe (pt_method parts) then next else
  if origin_allowed (rk_trusted_origins (ad_cookies config)) (header_get (pt_headers parts) "sec-fetch-site")
       (header_get (pt_headers parts) "origin")
  then next
  else fun c => (error_response UntrustedOrigin, c).

(** *** The limits *)

Definition route_label (parts : Parts) : string := method_text (pt_method parts) +:+ " " +:+ default "" (pt_matched_path parts).

Definition shared_limit (limit : RateLimit) (parts : Parts) (next : Next) : Next := fun c =>
  let window := Z.max 1 (rt_per_seconds limit) in
  let '(counted, c) := call (count_rate_limited_request be (route_label parts) (client_bucket parts) window) c in
  match counted with
  | Ok (Some hits) => if bool_decide (Z.max 1 (rt_burst limit) < hits) then (error_response (TooManyRequests (Some window)), c)
                      else next c
  | Ok None => next c
  | Err error => (error_response error, c)
  end.

(** The in-process limiter counts elsewhere: per route, period and burst, under
    the key it is handed. *)
Context (governor : string -> Z -> Z -> IpAddr -> M (Conn S U) GovernorError unit).

Definition in_process_limit (limit : RateLimit) (parts : Parts) (next : Next) : Next := fun c =>
  match extract_bucket parts with
  | None => (governor_error_to_response GeUnableToExtractKey, c)
  | Some key =>
      match governor (route_label parts) (replenish_secs limit) (Z.max 1 (rt_burst limit)) key c with
      | (Ok _, c) => next c
      | (Err error, c) => (governor_error_to_response error, c)
      end
  end.

Definition throttled (limit : option RateLimit) (parts : Parts) (next : Next) : Next :=
  match limit with
  | None => next
  | Some limit => if be_rate_limit_store be then shared_limit limit parts next else in_process_limit limit parts next
  end.

(** *** The stack *)

(** The body-limit layer refuses a declared length of its own accord; the cookie
    manager reads the jar of a request and announces its changes. *)
Context (declares_more_than : HeaderMap -> Z -> bool) (jar_of : HeaderMap -> Jar).

Definition stamped (response : Response SetCookie) (changes : list SetCookie) : Answer :=
  {| an_response := response; an_set_cookie := changes ++ rs_extra_cookies response; an_cache_control := "no-store";
     an_pragma := "no-cache" |}.

Definition apply_middleware (policy : ClientIpPolicy) (encoding : string) (max_body_bytes : Z) (parts : Parts)
    (routed : Parts -> Next) (w : World S U) : Answer * World S U :=
  if refuses encoding parts then (stamped (transport_response UnsupportedMedia) [], w) else
  if declares_more_than (pt_headers parts) max_body_bytes
  then (stamped (envelope_for_layer_payload_too_large (plain PAYLOAD_TOO_LARGE BText)) [], w) else
  let parts := resolve_client_ip policy parts in
  let '(response, c) := enforce_trusted_origin parts (routed parts) (MkConn w None None (jar_of (pt_headers parts))) in
  (stamped (envelope_for_layer_payload_too_large response) (jar_changes (cn_jar c)), cn_world c).
End layers.
