(* ===== verification/Routes.v ===== *)
(** * The routes

    Models [crates/bymax-auth-axum/src/routes/]: every handler with the guards of
    its signature, in the order they run, and the table of the groups with their
    limits.  A handler's last argument reads the body. *)

From S2P Require Import Prelude Errors Types Crypto Redis RedisStores Jwt SessionSpec SessionStore MfaStore Engine Repository Password SideStores TokenManager Sessions AuthCore OtpService Login PasswordReset Account Totp MfaService Platform OAuth Invitation Config Validate Builder Facade Net Http ClientIp Delivery Bodies Guards Edge.

Import Settings.

(** ** Pure parts *)

Definition clamp_millis (millis : Z) : Z := Z.max i64_min (Z.min i64_max millis).
Definition to_millis (value : OffsetDateTime) : Z := clamp_millis (Z.quot value 1000000).

Definition session_to_json (info : SessionInfo) : SessionBody := {|
  sb_id := si_id info;
  sb_session_hash := si_session_hash info;
  sb_device := si_device info;
  sb_ip := si_ip info;
  sb_is_current := si_is_current info;
  sb_created_at := to_millis (si_created_at info);
  sb_last_activity_at := to_millis (si_last_activity_at info);
|}.

Definition OAUTH_ERROR_SHORT_CODE : string := "oauth_failed".

Definition found `{HttpLib} {C} (url : string) : Response C :=
  if header_value_valid url
  then {| rs_status := 302; rs_body := BNone; rs_retry_after := None; rs_location := Some url; rs_extra_cookies := [] |}
  else error_response OauthFailed.

Definition mfa_temp_cookie `{CookieLib} (jar : Jar) : option string := nonempty_cookie jar MFA_TEMP_COOKIE_NAME.

(** The bodies and queries the routes read. *)
Class RouteBodies : Type := {
  read_register :: JsonBody RegisterDto;
  read_login :: JsonBody LoginDto;
  read_forgot :: JsonBody ForgotPasswordDto;
  read_change :: JsonBody ChangePasswordDto;
  read_reset :: JsonBody ResetPasswordDto;
  read_verify_otp :: JsonBody VerifyOtpDto;
  read_resend_otp :: JsonBody ResendOtpDto;
  read_verify_email :: JsonBody VerifyEmailDto;
  read_resend_verification :: JsonBody ResendVerificationDto;
  read_mfa_setup :: JsonBody MfaSetupDto;
  read_mfa_verify :: JsonBody MfaVerifyDto;
  read_mfa_challenge :: JsonBody MfaChallengeDto;
  read_mfa_disable :: JsonBody MfaDisableDto;
  read_mfa_regenerate :: JsonBody MfaRegenerateRecoveryCodesDto;
  read_platform_login :: JsonBody PlatformLoginDto;
  read_create_invitation :: JsonBody CreateInvitationDto;
  read_change_email :: JsonBody ChangeEmailDto;
  read_confirm_email :: JsonBody ConfirmEmailChangeDto;
  read_revoke_invitation :: JsonBody RevokeInvitationDto;
  read_accept_invitation :: JsonBody AcceptInvitationDto;
  read_oauth_initiate :: QueryText OAuthInitiateQuery;
  read_oauth_callback :: QueryText OAuthCallbackQuery;
  read_json :: JsonText;
}.

Section routes.
Context `{CookieLib, HttpLib, GardeLib, RouteBodies}.
Context `{Crypto, Host, !DigitSource, Base64, HeaderJson, UnicodeText, PasswordHashLib, Base32, UnicodeChars, Aes256Gcm, Base64Std, MfaJson}.
Context `{ClaimsJson DashboardClaims, ClaimsJson PlatformClaims, ClaimsJson MfaTempClaims, Json OAuthStatePayload}.
Context {S U : Type}.
Context `{SessionStore S, MfaStore S, BruteForceStore S, OtpStore S, PasswordResetStore S, UserStatusCacheStore S, InvitationStore S, OAuthStateStore S, WsTicketStore S, RateLimitStore S}.
Context `{UserRepository U, PlatformUserRepository U, AuthHooks U, OAuthHooks U, KdfRuntime U, PasswordBreachChecker U, EmailProvider U, InvitationMail U}.
Context (be : BuiltEngine U) (config : AdapterConfig).

Abbreviation en := (be_engine be).
Abbreviation Handler := (M (Conn S U) (Response SetCookie) (Response SetCookie)).
Abbreviation Step := (M (Conn S U) (Response SetCookie)).
Abbreviation RawBody := (result Z string).

(** A guard or an engine call whose failure is rendered as it is. *)
Definition or_reject {A} (m : M (Conn S U) AuthError A) : Step A :=
  fun c => let '(r, c') := m c in (map_err error_response r, c').

Definition engine_call {A} (m : E S U A) : Step A := or_reject (call m).

Definition or_refuse {A} (r : result BodyRejection A) : Step A := lift (map_err rejection_response r).
Definition or_invalid {A} (r : result AuthError A) : Step A := lift (map_err error_response r).

Definition json_body {T} `{Dto T, JsonBody T} (parts : Parts) (body : RawBody) : Step T :=
  or_refuse (validated_json (pt_headers parts) body).

(** The refresh token of a request, from the channel the delivery mode names. *)
Definition refresh_token_of (body_token : option string) : Step string :=
  jar ← the_jar;
  mret (source_refresh_token (ad_delivery config) jar (rk_refresh_name (ad_cookies config)) body_token).

Definition refresh_body (body : RawBody) : Step (option string) :=
  bytes ← or_refuse (request_bytes body);
  or_refuse (parse_refresh_body bytes (reads_body (ad_delivery config))).

Definition deliver (domains : list string) (result : AuthResult) (status : Z) : Step (Response SetCookie) :=
  on_jar (deliver_auth config domains result status).

Definition deliver_login (domains : list string) (result : LoginResult) (success_status : Z) : Step (Response SetCookie) :=
  match result with
  | LoginSuccess auth => deliver domains auth success_status
  | LoginMfaChallenge challenge => mret (deliver_mfa_challenge challenge)
  end.

(** ** auth *)

Definition h_register (parts : Parts) (body : RawBody) : Handler :=
  dto ← json_body parts body;
  result ← engine_call (register en {| gi_email := reg_email dto; gi_name := reg_name dto; gi_password := reg_password dto;
                                       gi_tenant_id := reg_tenant_id dto |} (request_context parts));
  deliver_login (cookie_domains be parts) result 201.

Definition h_login (parts : Parts) (body : RawBody) : Handler :=
  dto ← json_body parts body;
  result ← engine_call (login en {| li_email := lgi_email dto; li_password := lgi_password dto; li_tenant_id := lgi_tenant_id dto |}
                          (request_context parts));
  deliver_login (cookie_domains be parts) result 200.

(** Public: the refresh token authorises it, and nothing is revoked where the body
    is not one. *)
Definition h_logout (parts : Parts) (body : RawBody) : Handler :=
  jar ← the_jar;
  body_token ← refresh_body body;
  refresh ← refresh_token_of body_token;
  _ ← engine_call (logout en (presented_access_token config parts jar) refresh);
  extras ← on_jar (clear_session config (cookie_domains be parts));
  mret (with_extra_cookies extras no_content).

Definition h_refresh (parts : Parts) (body : RawBody) : Handler :=
  body_token ← refresh_body body;
  refresh ← refresh_token_of body_token;
  refreshed ← engine_call (Login.refresh en refresh (rc_ip (request_context parts)) (rc_user_agent (request_context parts)));
  on_jar (deliver_refresh config (cookie_domains be parts)
            {| ar_user := rs_user refreshed; ar_access_token := rt_access_token (rs_tokens refreshed);
               ar_refresh_token := rt_refresh_token (rs_tokens refreshed) |}).

Definition h_me (parts : Parts) (_ : RawBody) : Handler :=
  user ← or_reject (auth_user be config parts);
  safe ← engine_call (me (dc_sub user) (Some (dc_tenant_id user)));
  mret (plain 200 (BProfile safe)).

Definition h_verify_email (parts : Parts) (body : RawBody) : Handler :=
  dto ← json_body parts body;
  _ ← engine_call (verify_email en (vem_tenant_id dto) (vem_email dto) (vem_otp dto) (request_context parts));
  mret no_content.

Definition h_resend_verification (parts : Parts) (body : RawBody) : Handler :=
  dto ← json_body parts body;
  outcome ← or_reject (attempt (call (resend_verification_email en (rsv_tenant_id dto) (rsv_email dto) (request_context parts))));
  mret (anti_enumerating_outcome outcome no_content).

Definition h_ws_ticket (parts : Parts) (_ : RawBody) : Handler :=
  user ← or_reject (auth_user be config parts);
  _ ← or_reject (user_status be config parts);
  _ ← or_reject (mfa_satisfied be config parts);
  issued ← engine_call (issue_ws_ticket be user);
  mret (plain 200 (BTicket (it_ticket issued) (it_expires_in issued))).

(** ** password *)

Definition h_forgot_password (parts : Parts) (body : RawBody) : Handler :=
  dto ← json_body parts body;
  outcome ← or_reject (attempt (call (initiate_reset en {| fp_email := fgt_email dto; fp_tenant_id := fgt_tenant_id dto |}
                                        (request_context parts))));
  mret (anti_enumerating_outcome outcome (plain 200 BEmptyObject)).

Definition h_change_password (parts : Parts) (body : RawBody) : Handler :=
  _ ← or_reject (user_status be config parts);
  user ← or_reject (auth_user be config parts);
  dto ← json_body parts body;
  current_refresh ← refresh_token_of (chg_refresh_token dto);
  _ ← engine_call (change_password en (dc_tenant_id user) (dc_sub user) (chg_current_password dto) (chg_new_password dto)
                     (nonempty (Some current_refresh)));
  mret no_content.

Definition h_reset_password (parts : Parts) (body : RawBody) : Handler :=
  dto ← json_body parts body;
  _ ← engine_call (reset_password en {| ri_email := rst_email dto; ri_tenant_id := rst_tenant_id dto;
                                        ri_new_password := rst_new_password dto; ri_token := rst_token dto; ri_otp := rst_otp dto;
                                        ri_verified_token := rst_verified_token dto |} (request_context parts));
  mret no_content.

Definition h_verify_otp (parts : Parts) (body : RawBody) : Handler :=
  dto ← json_body parts body;
  verified_token ← engine_call (verify_reset_otp en {| vi_email := vot_email dto; vi_tenant_id := vot_tenant_id dto;
                                                       vi_otp := vot_otp dto |} (request_context parts));
  mret (plain 200 (BVerifiedToken verified_token)).

Definition h_resend_otp (parts : Parts) (body : RawBody) : Handler :=
  dto ← json_body parts body;
  outcome ← or_reject (attempt (call (resend_reset_otp en {| ro_email := rso_email dto; ro_tenant_id := rso_tenant_id dto |}
                                        (request_context parts))));
  mret (anti_enumerating_outcome outcome (plain 200 BEmptyObject)).

(** ** mfa *)

Definition h_mfa_setup (parts : Parts) (body : RawBody) : Handler :=
  user ← or_reject (auth_user be config parts);
  _ ← or_reject (verified_user be config parts);
  bytes ← or_refuse (request_bytes body);
  dto ← or_refuse (validate_optional_json MfaSetupDto_default (pt_headers parts) bytes);
  result ← engine_call (mfa_setup be (dc_sub user) McDashboard (Some (dc_tenant_id user)) (mst_password dto));
  mret (plain 201 (BMfaSetup (sr_secret result) (sr_qr_code_uri result) (sr_recovery_codes result))).

Definition h_mfa_verify_enable (parts : Parts) (body : RawBody) : Handler :=
  user ← or_reject (auth_user be config parts);
  _ ← or_reject (verified_user be config parts);
  dto ← json_body parts body;
  _ ← engine_call (mfa_verify_enable be (dc_sub user) (mvf_code dto) (rc_ip (request_context parts))
                     (rc_user_agent (request_context parts)) McDashboard (Some (dc_tenant_id user)));
  mret no_content.

(** The body's token wins over the cookie; the cookie is dropped once its token is
    spent or dead, and kept for another try otherwise. *)
Definition h_mfa_challenge (parts : Parts) (body : RawBody) : Handler :=
  dto ← json_body parts body;
  jar ← the_jar;
  let cookie_token := mfa_temp_cookie jar in
  let clear := if bool_decide (is_Some cookie_token) then on_jar (fun j => (tt, clear_mfa_temp_cookie config j)) else mret tt in
  match (match mch_mfa_temp_token dto with Some token => Some token | None => cookie_token end) with
  | None => mret (error_response MfaTempTokenInvalid)
  | Some temp_token =>
      outcome ← or_reject (attempt (call (mfa_challenge be temp_token (mch_code dto) (rc_ip (request_context parts))
                                            (rc_user_agent (request_context parts)))));
      match outcome with
      | Ok outcome =>
          _ ← clear;
          match outcome with
          | LrDashboard auth => deliver (cookie_domains be parts) auth 200
          | LrPlatform admin => mret (deliver_platform_auth admin 200)
          end
      | Err error =>
          _ ← (if bool_decide (error = MfaTempTokenInvalid) then clear else mret tt);
          mret (error_response error)
      end
  end.

Definition h_mfa_disable (parts : Parts) (body : RawBody) : Handler :=
  user ← or_reject (auth_user be config parts);
  _ ← or_reject (verified_user be config parts);
  dto ← json_body parts body;
  _ ← engine_call (mfa_disable be (dc_sub user) (mds_code dto) (rc_ip (request_context parts))
                     (rc_user_agent (request_context parts)) McDashboard (Some (dc_tenant_id user)));
  mret no_content.

Definition h_mfa_recovery_codes (parts : Parts) (body : RawBody) : Handler :=
  user ← or_reject (auth_user be config parts);
  _ ← or_reject (verified_user be config parts);
  dto ← json_body parts body;
  codes ← engine_call (mfa_regenerate_recovery_codes be (dc_sub user) (mrg_code dto) (rc_ip (request_context parts))
                         (rc_user_agent (request_context parts)) McDashboard (Some (dc_tenant_id user)));
  mret (plain 200 (BRecoveryCodes codes)).

(** ** sessions *)

Definition h_list_sessions (parts : Parts) (_ : RawBody) : Handler :=
  _ ← or_reject (user_status be config parts);
  user ← or_reject (auth_user be config parts);
  refresh ← refresh_token_of None;
  sessions ← engine_call (list_user_sessions be (dc_tenant_id user) (dc_sub user) (nonempty (Some refresh)));
  mret (plain 200 (BSessions (session_to_json <$> sessions))).

Definition h_revoke_all_sessions (parts : Parts) (body : RawBody) : Handler :=
  _ ← or_reject (user_status be config parts);
  user ← or_reject (auth_user be config parts);
  body_token ← refresh_body body;
  refresh ← refresh_token_of body_token;
  _ ← engine_call (revoke_other_user_sessions be (dc_tenant_id user) (dc_sub user) (nonempty (Some refresh)));
  mret no_content.

Definition h_revoke_session (parts : Parts) (_ : RawBody) : Handler :=
  _ ← or_reject (user_status be config parts);
  user ← or_reject (auth_user be config parts);
  id ← or_refuse (path_param parts);
  _ ← engine_call (revoke_user_session be (dc_tenant_id user) (dc_sub user) id);
  mret no_content.

(** ** oauth *)

Definition oauth_failure : Response SetCookie :=
  match oauth_error_redirect_url (be_oauth be) OAUTH_ERROR_SHORT_CODE with
  | Some url => found url
  | None => error_response OauthFailed
  end.

Definition h_oauth_initiate (parts : Parts) (_ : RawBody) : Handler :=
  provider ← or_refuse (path_param parts);
  query ← or_invalid (validated_query parts);
  redirect ← engine_call (oauth_initiate en (be_oauth be) provider (oin_tenant_id query) (request_context parts));
  _ ← on_jar (fun j => (tt, set_oauth_state_cookie config (or_state redirect) j));
  mret (found (or_authorize_url redirect)).

(** The state cookie is spent whatever comes of the callback. *)
Definition h_oauth_callback (parts : Parts) (_ : RawBody) : Handler :=
  provider ← or_refuse (path_param parts);
  query ← or_invalid (validated_query parts);
  jar ← the_jar;
  let state_cookie := jar_get jar OAUTH_STATE_COOKIE_NAME in
  _ ← on_jar (fun j => (tt, clear_oauth_state_cookie config j));
  match (if bool_decide (is_Some (ocb_error query)) then None else ocb_code query) with
  | None => mret oauth_failure
  | Some code =>
      outcome ← or_reject (attempt (call (oauth_callback en (be_oauth be) provider code (ocb_state query) state_cookie
                                            (request_context parts))));
      match outcome with
      | Ok (OoAuthenticated result) =>
          match oc_success_redirect_url (be_oauth be) with
          | Some url =>
              extras ← on_jar (set_auth_cookies config (cookie_domains be parts) (ar_access_token result) (ar_refresh_token result));
              mret (with_extra_cookies extras (found url))
          | None => deliver (cookie_domains be parts) result 200
          end
      | Ok (OoMfaChallenge challenge) =>
          _ ← on_jar (fun j => (tt, set_mfa_temp_cookie config (ch_mfa_temp_token challenge) j));
          mret match oc_mfa_redirect_url (be_oauth be) with
               | Some url => found url
               | None => deliver_mfa_challenge challenge
               end
      | Err OauthFailed => mret oauth_failure
      | Err error => mret (error_response error)
      end
  end.

(** ** invitations and e-mail change *)

Definition h_create_invitation (parts : Parts) (body : RawBody) : Handler :=
  user ← or_reject (auth_user be config parts);
  _ ← or_reject (user_status be config parts);
  dto ← json_body parts body;
  _ ← engine_call (invite en (be_invitations be) (dc_sub user) (civ_email dto) (civ_role dto) (dc_tenant_id user)
                     (civ_tenant_name dto));
  mret no_content.

Definition h_revoke_invitation (parts : Parts) (body : RawBody) : Handler :=
  user ← or_reject (auth_user be config parts);
  _ ← or_reject (user_status be config parts);
  dto ← json_body parts body;
  _ ← engine_call (revoke_invitation en (be_invitations be) (dc_sub user) (riv_email dto) (dc_tenant_id user));
  mret no_content.

Definition h_accept_invitation (parts : Parts) (body : RawBody) : Handler :=
  dto ← json_body parts body;
  result ← engine_call (accept_invitation en (be_invitations be)
                          {| ai_token := aiv_token dto; ai_name := aiv_name dto; ai_password := aiv_password dto |}
                          (rc_ip (request_context parts)) (rc_user_agent (request_context parts))
                          (rc_sanitized_headers (request_context parts)));
  deliver (cookie_domains be parts) result 201.

Definition h_request_email_change (parts : Parts) (body : RawBody) : Handler :=
  user ← or_reject (auth_user be config parts);
  _ ← or_reject (user_status be config parts);
  dto ← json_body parts body;
  _ ← engine_call (request_email_change en (dc_tenant_id user) (dc_sub user) (cem_new_email dto) (cem_current_password dto));
  mret no_content.

Definition h_confirm_email_change (parts : Parts) (body : RawBody) : Handler :=
  dto ← json_body parts body;
  _ ← engine_call (confirm_email_change en (cce_token dto));
  mret no_content.

(** ** platform *)

Definition h_platform_login (parts : Parts) (body : RawBody) : Handler :=
  dto ← json_body parts body;
  result ← engine_call (platform_login be (plg_email dto) (plg_password dto) (rc_ip (request_context parts))
                          (rc_user_agent (request_context parts)));
  mret match result with
       | PlatformLoginSuccess result => deliver_platform_auth result 200
       | PlatformLoginMfaChallenge challenge => deliver_mfa_challenge challenge
       end.

Definition h_platform_mfa_challenge (parts : Parts) (body : RawBody) : Handler :=
  dto ← json_body parts body;
  match mch_mfa_temp_token dto with
  | None => mret (error_response MfaTempTokenInvalid)
  | Some temp_token =>
      auth ← engine_call (platform_mfa_challenge be temp_token (mch_code dto) (rc_ip (request_context parts))
                            (rc_user_agent (request_context parts)));
      mret (deliver_platform_auth auth 200)
  end.

Definition h_platform_me (parts : Parts) (_ : RawBody) : Handler :=
  user ← or_reject (platform_user be parts);
  safe ← engine_call (platform_me be (pc_sub user));
  mret (plain 200 (BAdminProfile safe)).

Definition platform_refresh_body (body : RawBody) : Step string :=
  bytes ← or_refuse (request_bytes body);
  token ← or_refuse (parse_refresh_body bytes true);
  mret (default "" token).

Definition h_platform_logout (parts : Parts) (body : RawBody) : Handler :=
  refresh ← platform_refresh_body body;
  _ ← engine_call (platform_logout be (presented_platform_access_token parts) refresh);
  mret no_content.

Definition rotated_into_platform_result (tokens : RotatedTokens) : E S U PlatformAuthResult :=
  claims ← verify_platform_token be (rt_access_token tokens);
  admin ← platform_me be (pc_sub claims);
  mret {| pr_admin := admin; pr_access_token := rt_access_token tokens; pr_refresh_token := rt_refresh_token tokens |}.

Definition rotate_platform_session (refresh : string) (ctx : RequestContext) : E S U PlatformAuthResult :=
  tokens ← platform_refresh be refresh (rc_ip ctx) (rc_user_agent ctx);
  rotated_into_platform_result tokens.

Definition h_platform_refresh (parts : Parts) (body : RawBody) : Handler :=
  refresh ← platform_refresh_body body;
  result ← engine_call (rotate_platform_session refresh (request_context parts));
  mret (deliver_platform_auth result 200).

Definition h_platform_revoke_all (parts : Parts) (_ : RawBody) : Handler :=
  user ← or_reject (platform_user be parts);
  _ ← engine_call (platform_revoke_all be (pc_sub user));
  mret no_content.

(** ** platform/mfa *)

Definition h_platform_mfa_setup (parts : Parts) (body : RawBody) : Handler :=
  user ← or_reject (platform_user be parts);
  bytes ← or_refuse (request_bytes body);
  dto ← or_refuse (validate_optional_json MfaSetupDto_default (pt_headers parts) bytes);
  result ← engine_call (mfa_setup be (pc_sub user) McPlatform None (mst_password dto));
  mret (plain 201 (BMfaSetup (sr_secret result) (sr_qr_code_uri result) (sr_recovery_codes result))).

Definition h_platform_mfa_verify_enable (parts : Parts) (body : RawBody) : Handler :=
  user ← or_reject (platform_user be parts);
  dto ← json_body parts body;
  _ ← engine_call (mfa_verify_enable be (pc_sub user) (mvf_code dto) (rc_ip (request_context parts))
                     (rc_user_agent (request_context parts)) McPlatform None);
  mret no_content.

Definition h_platform_mfa_disable (parts : Parts) (body : RawBody) : Handler :=
  user ← or_reject (platform_user be parts);
  dto ← json_body parts body;
  _ ← engine_call (mfa_disable be (pc_sub user) (mds_code dto) (rc_ip (request_context parts))
                     (rc_user_agent (request_context parts)) McPlatform None);
  mret no_content.

Definition h_platform_mfa_recovery_codes (parts : Parts) (body : RawBody) : Handler :=
  user ← or_reject (platform_user be parts);
  dto ← json_body parts body;
  codes ← engine_call (mfa_regenerate_recovery_codes be (pc_sub user) (mrg_code dto) (rc_ip (request_context parts))
                         (rc_user_agent (request_context parts)) McPlatform None);
  mret (plain 200 (BRecoveryCodes codes)).

(** ** The table *)

Record Route : Type := {
  ro_method : Method;
  ro_path : string;
  ro_limit : option RateLimit;
  ro_handler : Parts -> RawBody -> Handler;
}.

Definition route (method : Method) (path : string) (limit : option RateLimit) (handler : Parts -> RawBody -> Handler) : Route :=
  {| ro_method := method; ro_path := path; ro_limit := limit; ro_handler := handler |}.

Definition auth_routes (limits : RateLimitConfig) : list Route := [
  route mPOST "/register" (lm_register limits) h_register;
  route mPOST "/login" (lm_login limits) h_login;
  route mPOST "/logout" (lm_logout limits) h_logout;
  route mPOST "/refresh" (lm_refresh limits) h_refresh;
  route mGET "/me" None h_me;
  route mPOST "/verify-email" (lm_verify_email limits) h_verify_email;
  route mPOST "/resend-verification" (lm_resend_verification limits) h_resend_verification;
  route mPOST "/ws-ticket" (lm_ws_ticket limits) h_ws_ticket
].

Definition password_reset_routes (limits : RateLimitConfig) : list Route := [
  route mPOST "/password/forgot-password" (lm_forgot_password limits) h_forgot_password;
  route mPOST "/password/reset-password" (lm_reset_password limits) h_reset_password;
  route mPOST "/password/verify-otp" (lm_verify_otp limits) h_verify_otp;
  route mPOST "/password/resend-otp" (lm_resend_password_otp limits) h_resend_otp;
  route mPOST "/password/change" (lm_change_password limits) h_change_password
].

Definition mfa_routes (limits : RateLimitConfig) : list Route := [
  route mPOST "/mfa/setup" (lm_mfa_setup limits) h_mfa_setup;
  route mPOST "/mfa/verify-enable" (lm_mfa_verify_enable limits) h_mfa_verify_enable;
  route mPOST "/mfa/challenge" (lm_mfa_challenge limits) h_mfa_challenge;
  route mPOST "/mfa/disable" (lm_mfa_disable limits) h_mfa_disable;
  route mPOST "/mfa/recovery-codes" (lm_mfa_disable limits) h_mfa_recovery_codes
].

Definition sessions_routes (limits : RateLimitConfig) : list Route := [
  route mGET "/sessions" (lm_list_sessions limits) h_list_sessions;
  route mPOST "/sessions/revoke-all" (lm_revoke_all_sessions limits) h_revoke_all_sessions;
  route mDELETE "/sessions/{id}" (lm_revoke_session limits) h_revoke_session
].

Definition platform_routes (limits : RateLimitConfig) : list Route := [
  route mPOST "/platform/login" (lm_platform_login limits) h_platform_login;
  route mPOST "/platform/mfa/challenge" (lm_mfa_challenge limits) h_platform_mfa_challenge;
  route mGET "/platform/me" None h_platform_me;
  route mPOST "/platform/logout" (lm_logout limits) h_platform_logout;
  route mPOST "/platform/refresh" (lm_refresh limits) h_platform_refresh;
  route mDELETE "/platform/sessions" (lm_revoke_all_sessions limits) h_platform_revoke_all
].

Definition platform_mfa_routes (limits : RateLimitConfig) : list Route := [
  route mPOST "/platform/mfa/setup" (lm_mfa_setup limits) h_platform_mfa_setup;
  route mPOST "/platform/mfa/verify-enable" (lm_mfa_verify_enable limits) h_platform_mfa_verify_enable;
  route mPOST "/platform/mfa/disable" (lm_mfa_disable limits) h_platform_mfa_disable;
  route mPOST "/platform/mfa/recovery-codes" (lm_mfa_disable limits) h_platform_mfa_recovery_codes
].

Definition oauth_routes (limits : RateLimitConfig) : list Route := [
  route mGET "/oauth/{provider}" (lm_oauth_initiate limits) h_oauth_initiate;
  route mGET "/oauth/{provider}/callback" (lm_oauth_callback limits) h_oauth_callback
].

Definition invitations_routes (limits : RateLimitConfig) : list Route := [
  route mPOST "/invitations" (lm_invitation_create limits) h_create_invitation;
  route mPOST "/invitations/accept" (lm_invitation_accept limits) h_accept_invitation;
  route mPOST "/invitations/revoke" (lm_invitation_revoke limits) h_revoke_invitation
].

Definition email_change_routes (limits : RateLimitConfig) : list Route := [
  route mPOST "/email/change" (lm_email_change_request limits) h_request_email_change;
  route mPOST "/email/change/confirm" (lm_email_change_confirm limits) h_confirm_email_change
].

(** Static segments win over a capture, so the order of the groups is immaterial. *)
Definition mounted (groups : RouteGroups) (limits : RateLimitConfig) : list Route :=
  (if rg_auth groups then auth_routes limits else [])
  ++ (if rg_password_reset groups then password_reset_routes limits else [])
  ++ (if rg_mfa groups then mfa_routes limits else [])
  ++ (if rg_sessions groups then sessions_routes limits else [])
  ++ (if rg_platform groups then platform_routes limits else [])
  ++ (if rg_platform_mfa groups then platform_mfa_routes limits else [])
  ++ (if rg_oauth groups then oauth_routes limits else [])
  ++ (if rg_invitations groups then invitations_routes limits else [])
  ++ (if rg_email_change groups then email_change_routes limits else []).

(** [get] answers HEAD too. *)
Definition serves (r : Route) (method : Method) : bool :=
  bool_decide (method = ro_method r) || (bool_decide (ro_method r = mGET) && bool_decide (method = mHEAD)).

(** The router has matched the path of the request to one of the mounted ones. *)
Definition routed_to (routes : list Route) (prefix : string) (parts : Parts) : option Route :=
  List.find (fun r => bool_decide (pt_matched_path parts = Some (prefix +:+ ro_path r)) && serves r (pt_method parts)) routes.

Context (governor : string -> Z -> Z -> IpAddr -> M (Conn S U) GovernorError unit).
Context (declares_more_than : HeaderMap -> Z -> bool) (jar_of : HeaderMap -> Jar).
Context (unrouted : Parts -> Response SetCookie).

Definition mount_prefix (route_prefix : string) : string := "/" +:+ trim_matches is_slash route_prefix.

Definition dispatch (routes : list Route) (prefix : string) (body : RawBody) (parts : Parts) :
    Conn S U -> Response SetCookie * Conn S U :=
  match routed_to routes prefix parts with
  | Some r => throttled be governor (ro_limit r) parts (finish (ro_handler r parts body))
  | None => fun c => (unrouted parts, c)
  end.

Definition serve (ax : AxumAuthConfig) (parts : Parts) (body : RawBody) : World S U -> Answer * World S U :=
  let prefix := mount_prefix (ax_route_prefix ax) in
  let groups := from_toggles (ac_controllers (rv_config (be_config be))) in
  apply_middleware config declares_more_than jar_of
    {| cp_source := ax_client_ip_source ax; cp_is_trusted_proxy := ax_is_trusted_proxy ax |}
    (new_encoding_policy prefix) (ax_max_body_bytes ax) parts
    (dispatch (mounted groups (ax_rate_limits ax)) prefix body).
End routes.

(** ** The router *)

(** The router of an engine, or the refusal to trust forwarded addresses from
    anyone. *)
Definition from_engine {U R} (be : BuiltEngine U) (ax : AxumAuthConfig) (router : AdapterConfig -> R) : result ConfigError R :=
  if bool_decide (ax_client_ip_source ax = TrustedForwardedFor) && negb (bool_decide (is_Some (ax_is_trusted_proxy ax)))
  then Err TrustedForwardedForRequiresPredicate else
  Ok (router (resolve_config (be_config be) (ax_route_prefix ax) (ax_client_ip_source ax))).
