(* ===== verification/RouteClaims.v ===== *)
(** * What the edge and the routes guarantee

    The headers a host is shown, the requests of other sites, the limits counted
    in Redis; which routes answer without a token, and whom the rest act for. *)

From S2P Require Import Prelude Errors Types Crypto Jwt Redis SessionSpec SessionStore RedisStores StoreClaims MfaStore Engine Repository Password Totp SideStores OtpService TokenManager TokenVerify Sessions AuthCore Login PasswordReset Account MfaService Platform OAuth Invitation Config Validate Builder Facade Net Http ClientIp Delivery Bodies Guards Edge Routes.
From stdpp Require Import list.
#[local] Open Scope Z_scope.

Import Settings.

(** ** Headers *)

Section headers.
Context `{HttpLib}.

(** The readable values of the entries named [key], in the order of arrival. *)
Definition values_of (key : string) (entries : list (string * option string)) : list string :=
  omap (fun '(name, value) => if bool_decide (to_ascii_lowercase name = key) then value else None) entries.

Lemma sanitize_lookup (key : string) (entries : list (string * option string)) (m : gmap string string) :
  foldl (fun map '(name, value) =>
    let key := to_ascii_lowercase name in
    if is_sensitive_header key then map else
    match value with Some text => <[key := text]> map | None => map end) m entries !! key =
  if is_sensitive_header key then m !! key else
  match last (values_of key entries) with Some text => Some text | None => m !! key end.
Proof.
  revert m. induction entries as [|[name value] entries IH]; intros m; [by cbn; destruct (is_sensitive_header key)|].
  cbn [foldl]. rewrite IH. unfold values_of. cbn [omap list_omap]. cbv zeta.
  destruct (decide (to_ascii_lowercase name = key)) as [<-|Hne].
  - rewrite bool_decide_eq_true_2 by done. destruct (is_sensitive_header _); [done|]. destruct value as [text|]; [|done].
    rewrite lookup_insert_eq. rewrite last_cons. by destruct (last _).
  - rewrite bool_decide_eq_false_2 by done. destruct (is_sensitive_header (to_ascii_lowercase name)); [done|].
    destruct value as [text|]; [|done]. by rewrite lookup_insert_ne.
Qed.

(** The headers a host is shown.  The request context handed to the host's
    hooks and resolvers holds, under each name in lower case, the last readable
    value the request carried for it, and holds nothing under the name of a
    credential or of a forwarded identity: neither a listed one, in any spelling,
    nor an [x-] header named after a secret. *)
Theorem context_headers_exact (parts : Parts) (key : string) :
  rc_sanitized_headers (request_context parts) !! key =
  if is_sensitive_header key then None else last (values_of key (header_iter (pt_headers parts))).
Proof.
  cbn. unfold sanitize_headers. rewrite sanitize_lookup, lookup_empty. destruct (is_sensitive_header key); [done|]. by destruct (last _).
Qed.
End headers.

(** ** Requests of other sites *)

Lemma resolve_client_ip_keeps `{HttpLib, UnicodeText} (policy : ClientIpPolicy) (parts : Parts) :
  pt_headers (resolve_client_ip policy parts) = pt_headers parts /\ pt_method (resolve_client_ip policy parts) = pt_method parts.
Proof. unfold resolve_client_ip. by destruct (resolve _ _ _). Qed.

(** Another site's: the browser says so, or the request names an origin and the
    deployment lists its own; and the origin is not a listed one. *)
Definition from_elsewhere `{HttpLib} (trusted : list string) (parts : Parts) : Prop :=
  is_safe (pt_method parts) = false /\
  (match header_get (pt_headers parts) "sec-fetch-site" with
   | Some site => site ∉ SAFE_FETCH_SITES
   | None => is_Some (header_get (pt_headers parts) "origin") /\ trusted <> []
   end) /\
  (forall origin, header_get (pt_headers parts) "origin" = Some origin ->
     Forall (fun allowed => to_ascii_lowercase allowed <> to_ascii_lowercase origin) trusted).

Lemma unlisted (trusted : list string) (origin : string) :
  Forall (fun allowed => to_ascii_lowercase allowed <> to_ascii_lowercase origin) trusted ->
  existsb (fun allowed => eq_ignore_ascii_case allowed origin) trusted = false.
Proof.
  induction 1 as [|allowed trusted Ha _ IH]; [done|]. cbn. rewrite IH. unfold eq_ignore_ascii_case.
  by rewrite bool_decide_eq_false_2.
Qed.

Lemma elsewhere_refused `{HttpLib} (trusted : list string) (parts : Parts) :
  from_elsewhere trusted parts ->
  origin_allowed trusted (header_get (pt_headers parts) "sec-fetch-site") (header_get (pt_headers parts) "origin") = false.
Proof.
  intros (_ & Hsite & Horigin). unfold origin_allowed. destruct (header_get _ "origin") as [origin|] eqn:Ho.
  - rewrite unlisted by by apply Horigin. destruct (header_get _ "sec-fetch-site") as [site|].
    + by rewrite bool_decide_eq_false_2.
    + destruct Hsite as [_ Hne]. cbn. by rewrite bool_decide_eq_false_2.
  - destruct (header_get _ "sec-fetch-site") as [site|]; [by rewrite bool_decide_eq_false_2|]. by destruct Hsite as [[? [=]] _].
Qed.

Section served.
Context `{CookieLib, HttpLib, GardeLib, RouteBodies}.
Context `{Crypto, Host, !DigitSource, Base64, HeaderJson, UnicodeText, PasswordHashLib, Base32, UnicodeChars, Aes256Gcm, Base64Std, MfaJson}.
Context `{ClaimsJson DashboardClaims, ClaimsJson PlatformClaims, ClaimsJson MfaTempClaims, Json OAuthStatePayload}.
Context {S U : Type}.
Context `{SessionStore S, MfaStore S, BruteForceStore S, OtpStore S, PasswordResetStore S, UserStatusCacheStore S, InvitationStore S, OAuthStateStore S, WsTicketStore S, RateLimitStore S}.
Context `{UserRepository U, PlatformUserRepository U, AuthHooks U, OAuthHooks U, KdfRuntime U, PasswordBreachChecker U, EmailProvider U, InvitationMail U}.
Context (be : BuiltEngine U) (config : AdapterConfig).
Context (governor : string -> Z -> Z -> IpAddr -> M (Conn S U) GovernorError unit).
Context (declares_more_than : HeaderMap -> Z -> bool) (jar_of : HeaderMap -> Jar).
Context (unrouted : Parts -> Response SetCookie).

(** The refusals that come before any route. *)
Definition refused_at_the_edge (response : Response SetCookie) : Prop :=
  response = error_response UntrustedOrigin \/ response = transport_response TooLarge \/
  response = transport_response UnsupportedMedia.

(** C18. A request another site makes changes nothing.  Whatever route it names and
    whatever it carries (a session cookie, credentials of its own), a
    state-changing request the browser marks as another site's, or that names its
    origin where the deployment lists its own, is refused unless that origin is
    listed: it reaches no handler and no limit, leaves the engine's world as it
    was and sets no cookie.  So no page logs a visitor in or out, or acts in their
    name. *)
Theorem cross_site_changes_nothing (ax : AxumAuthConfig) (parts : Parts) (body : result Z string) (w : World S U) :
  jar_changes (jar_of (pt_headers parts)) = [] -> from_elsewhere (rk_trusted_origins (ad_cookies config)) parts ->
  let '(answer, w') := serve be config governor declares_more_than jar_of unrouted ax parts body w in
  w' = w /\ refused_at_the_edge (an_response answer) /\ an_set_cookie answer = [] /\ an_cache_control answer = "no-store".
Proof.
  intros Hj Helse. unfold serve, apply_middleware. destruct (refuses _ _); [cbn; unfold refused_at_the_edge; auto|].
  destruct (declares_more_than _ _); [cbn; unfold refused_at_the_edge; auto|]. cbv zeta.
  match goal with |- context [resolve_client_ip ?p ?q] => destruct (resolve_client_ip_keeps p q) as [Hh Hm] end.
  unfold enforce_trusted_origin. rewrite Hh, Hm. rewrite elsewhere_refused by done. destruct Helse as [-> _].
  cbn. rewrite Hj. unfold refused_at_the_edge. auto.
Qed.
End served.

(** ** Limits counted in Redis *)

Section hits.
Context (ns route bucket : string).

Notation k := (rate_limit_key ns route bucket).

(** The counter of the route and bucket, and when its window ends. *)
Definition hits (r : Redis) (n e : Z) : Prop := counter_at r k n e.

Lemma first_hit (r : Redis) (window : Z) :
  r_pool r = [] -> rlookup r k = None -> 0 < window ->
  exists r', hit ns route bucket window r = (Ok 1, r') /\ r_pool r' = [] /\ r_now r' = r_now r /\
    hits r' 1 (r_now r + window * 1000).
Proof.
  intros Hp Hn Hw. destruct (incr_first r k window Hn Hw) as (r' & Hrun & Hp' & Hrest).
  exists r'. split; [by apply served_call | by rewrite Hp'].
Qed.

Lemma next_hit (r : Redis) (window n e : Z) :
  r_pool r = [] -> hits r n e -> 1 <= n < i64_max ->
  exists r', hit ns route bucket window r = (Ok (n + 1), r') /\ r_pool r' = [] /\ r_now r' = r_now r /\ hits r' (n + 1) e.
Proof.
  intros Hp Hc Hn. destruct (incr_next r k window n e Hc Hn) as (r' & Hrun & Hp' & Hrest).
  exists r'. split; [by apply served_call | by rewrite Hp'].
Qed.

Lemma hits_advance (r : Redis) (n e ms : Z) : hits r n e -> 0 <= ms -> r_now r + ms <= e -> hits (advance ms r) n e.
Proof. unfold hits, counter_at. intros Hc Hms He. rewrite rlookup_advance, Hc. cbn. by rewrite bool_decide_eq_false_2 by lia. Qed.
End hits.

Section throttle.
Context `{CookieLib, HttpLib, Crypto} {U : Type} (be : BuiltEngine U) (ns : string) (limit : RateLimit).
Context (jar_of : HeaderMap -> Jar) (next : Conn Redis U -> Response SetCookie * Conn Redis U).

#[local] Instance counter : RateLimitStore Redis := redis_rate_limit_store ns.

Definition elapsed (ms : Z) (w : World Redis U) : World Redis U := with_store (advance ms (w_store w)) w.

(** The answers to a sequence of requests, each after a delay. *)
Fixpoint arrivals (requests : list (Z * Parts)) (w : World Redis U) : list (Response SetCookie) :=
  match requests with
  | [] => []
  | (ms, parts) :: rest =>
      let '(response, c) := shared_limit be limit parts next (MkConn (elapsed ms w) None None (jar_of (pt_headers parts))) in
      response :: arrivals rest (cn_world c)
  end.

Abbreviation burst := (Z.max 1 (rt_burst limit)).
Abbreviation window := (Z.max 1 (rt_per_seconds limit)).

Definition admitted (responses : list (Response SetCookie)) : Z :=
  Z.of_nat (length (filter (fun r => rs_status r <> 429) responses)).

Context (route bucket : string).

Abbreviation bucket_key := (rate_limit_key ns route (to_hex (hmac_sha256 (rv_hmac_key (be_config be)) bucket))).

(** The handler: it answers otherwise, and leaves the counter alone. *)
Definition leaves_counter : Prop := forall c,
  r_pool (w_store (cn_world c)) = [] ->
  rs_status (next c).1 <> 429 /\
  r_pool (w_store (cn_world (next c).2)) = [] /\ r_now (w_store (cn_world (next c).2)) = r_now (w_store (cn_world c)) /\
  rlookup (w_store (cn_world (next c).2)) bucket_key = rlookup (w_store (cn_world c)) bucket_key.

Definition charged (request : Z * Parts) : Prop :=
  0 <= request.1 /\ route_label request.2 = route /\ client_bucket request.2 = bucket.

Section counted.
Context (Hstore : be_rate_limit_store be = true) (Hnext : leaves_counter).

Lemma shared_limit_counts (parts : Parts) (w : World Redis U) (jar : Jar) (n : Z) (r' : Redis) :
  route_label parts = route -> client_bucket parts = bucket ->
  hit ns route (to_hex (hmac_sha256 (rv_hmac_key (be_config be)) bucket)) window (w_store w) = (Ok n, r') ->
  shared_limit be limit parts next (MkConn w None None jar) =
    if bool_decide (burst < n) then (error_response (TooManyRequests (Some window)), MkConn (with_store r' w) None None jar)
    else next (MkConn (with_store r' w) None None jar).
Proof.
  intros Hr Hb Hh. unfold shared_limit, call, count_rate_limited_request. rewrite Hr, Hb, Hstore. cbn [negb]. mrun.
  unfold on_store. cbn [rl_hit counter redis_rate_limit_store cn_world]. by rewrite Hh.
Qed.

Lemma admitted_cons (r : Response SetCookie) (rs : list (Response SetCookie)) :
  admitted (r :: rs) = (if bool_decide (rs_status r = 429) then 0 else 1) + admitted rs.
Proof. unfold admitted. rewrite filter_cons. case_decide; case_bool_decide; try done; cbn [length]; lia. Qed.

Lemma arrivals_counted (requests : list (Z * Parts)) (w : World Redis U) (n e : Z) :
  Forall charged requests -> r_pool (w_store w) = [] -> counter_at (w_store w) bucket_key n e -> 1 <= n ->
  n + Z.of_nat (length requests) <= i64_max -> r_now (w_store w) + StoreClaims.total requests.*1 <= e ->
  admitted (arrivals requests w) = Z.max 0 (Z.min (Z.of_nat (length requests)) (burst - n)).
Proof.
  revert w n. induction requests as [|[ms parts] rest IH]; intros w n Hall Hp Hc Hn Hmax He; [unfold admitted; cbn; lia|].
  apply list.Forall_cons in Hall as [(Hms & Hr & Hb) Hall]. cbn [fst snd] in *. cbn [fmap list_fmap StoreClaims.total fst length] in He, Hmax.
  assert (Htot : 0 <= StoreClaims.total rest.*1).
  { clear -Hall. induction Hall as [|[m p] rest (Hm & _) _ IH]; cbn in *; lia. }
  assert (Hadv : hits ns route (to_hex (hmac_sha256 (rv_hmac_key (be_config be)) bucket)) (advance ms (w_store w)) n e).
  { apply hits_advance; [done | done | lia]. }
  destruct (next_hit ns route (to_hex (hmac_sha256 (rv_hmac_key (be_config be)) bucket)) (advance ms (w_store w)) window n e) as (r' & Hh & Hp' & Hnow & Hc'); [done | done | lia |].
  cbn [arrivals]. rewrite (shared_limit_counts parts (elapsed ms w) _ (n + 1) r' Hr Hb Hh).
  assert (Hclock : r_now (advance ms (w_store w)) = r_now (w_store w) + ms) by (cbn; lia).
  case_bool_decide as Hover.
  - rewrite admitted_cons. rewrite bool_decide_eq_true_2 by done. cbn [cn_world]. rewrite (IH _ (n + 1)); [|try done; cbn; lia ..].
    cbn [length]. lia.
  - destruct (Hnext (MkConn (with_store r' (elapsed ms w)) None None (jar_of (pt_headers parts))) Hp') as (Hst & Hp2 & Hnow2 & Hk2).
    cbn [cn_world w_store with_store] in Hnow2, Hk2.
    destruct (next _) as [response c2]. cbn [fst snd] in *. rewrite admitted_cons, bool_decide_eq_false_2 by done.
    rewrite (IH _ (n + 1)); [cbn [length]; lia | done | done | | lia | lia | lia].
    unfold counter_at. rewrite Hk2. exact Hc'.
Qed.
End counted.

End throttle.

(** * What the routes guarantee

    Which routes answer without a token, and whom the rest act for. *)

Import Settings.

Section routes.
Context `{CookieLib, HttpLib, GardeLib, RouteBodies}.
Context `{Crypto, Host, !DigitSource, Base64, HeaderJson, UnicodeText, PasswordHashLib, Base32, UnicodeChars, Aes256Gcm, Base64Std, MfaJson}.
Context `{ClaimsJson DashboardClaims, ClaimsJson PlatformClaims, ClaimsJson MfaTempClaims, Json OAuthStatePayload}.
Context {S U : Type}.
Context `{SessionStore S, MfaStore S, BruteForceStore S, OtpStore S, PasswordResetStore S, UserStatusCacheStore S, InvitationStore S, OAuthStateStore S, WsTicketStore S, RateLimitStore S}.
Context `{UserRepository U, PlatformUserRepository U, AuthHooks U, OAuthHooks U, KdfRuntime U, PasswordBreachChecker U, EmailProvider U, InvitationMail U}.
Context (be : BuiltEngine U) (config : AdapterConfig).

Abbreviation en := (be_engine be).

(** ** Routes without a token *)

(** Signing in and out, recovery by mail, and the links mailed to somebody. *)
Definition public_routes : list string :=
  ["/register"; "/login"; "/logout"; "/refresh"; "/verify-email"; "/resend-verification";
   "/password/forgot-password"; "/password/reset-password"; "/password/verify-otp"; "/password/resend-otp";
   "/mfa/challenge"; "/platform/login"; "/platform/mfa/challenge"; "/platform/logout"; "/platform/refresh";
   "/oauth/{provider}"; "/oauth/{provider}/callback"; "/invitations/accept"; "/email/change/confirm"].

Definition no_token (parts : Parts) (c : Conn S U) : Prop :=
  source_access_token config parts (cn_jar c) = None /\ source_platform_access_token parts = None /\
  cn_claims c = None /\ cn_admin c = None.

Lemma reject_first {A} (g : M (Conn S U) AuthError A) (k : A -> M (Conn S U) (Response SetCookie) (Response SetCookie))
    (c : Conn S U) (e : AuthError) :
  g c = (Err e, c) -> finish (or_reject g ≫= k) c = (error_response e, c).
Proof. intros Hg. unfold finish, or_reject. rewrite bind_run. by rewrite Hg. Qed.

Lemma claims_missing (parts : Parts) (c : Conn S U) :
  no_token parts c -> verified_dashboard_claims be config parts c = (Err TokenMissing, c).
Proof. intros (Hs & _ & Hc & _). unfold verified_dashboard_claims, cached_claims, the_jar. mrun. rewrite Hc. mrun. by rewrite Hs. Qed.

Lemma admin_missing (parts : Parts) (c : Conn S U) :
  no_token parts c -> verified_platform_claims be parts c = (Err PlatformAuthRequired, c).
Proof. intros (_ & Hs & _ & Hc). unfold verified_platform_claims, cached_admin. mrun. rewrite Hc. mrun. by rewrite Hs. Qed.

Lemma status_missing (parts : Parts) (c : Conn S U) :
  no_token parts c -> user_status be config parts c = (Err TokenMissing, c).
Proof. intros Hn. unfold user_status. mrun. by rewrite (claims_missing _ _ Hn). Qed.

Definition refuses_strangers (r : Route (S := S) (U := U)) : Prop :=
  ro_path r ∈ public_routes \/
  forall parts body c, no_token parts c ->
    exists e, finish (ro_handler r parts body) c = (error_response e, c) /\ e ∈ [TokenMissing; PlatformAuthRequired].

Ltac stranger :=
  first [ left; cbn [ro_path route]; apply list_elem_of_In; cbn; tauto
        | right; intros parts body c Hn; eexists; split;
          [cbn [ro_handler route];
           first [ exact (reject_first _ _ _ _ (claims_missing parts c Hn)) | exact (reject_first _ _ _ _ (status_missing parts c Hn))
                 | exact (reject_first _ _ _ _ (admin_missing parts c Hn)) ]
          | first [by left | by right; left]] ].

Lemma group_refuses (b : bool) (l : list Route) : Forall refuses_strangers l -> Forall refuses_strangers (if b then l else []).
Proof. by destruct b. Qed.

Lemma mounted_refuse (groups : RouteGroups) (limits : RateLimitConfig) :
  Forall refuses_strangers (mounted be config groups limits).
Proof.
  unfold mounted. rewrite !Forall_app. split_and!; apply group_refuses;
    unfold auth_routes, password_reset_routes, mfa_routes, sessions_routes, platform_routes, platform_mfa_routes, oauth_routes, invitations_routes, email_change_routes;
    repeat first [apply list.Forall_cons; split; [stranger|] | apply list.Forall_nil; exact I].
Qed.


(** ** Guards *)

Inductive GuardKind : Set :=
| GkAuth | GkStatus | GkVerified | GkMfa | GkRole (name : string) | GkSelf (admin_name : string).

Definition run_guard (k : GuardKind) (parts : Parts) : M (Conn S U) AuthError DashboardClaims :=
  match k with
  | GkAuth => auth_user be config parts
  | GkStatus => user_status be config parts
  | GkVerified => verified_user be config parts
  | GkMfa => mfa_satisfied be config parts
  | GkRole name => require_role be config name parts
  | GkSelf admin_name => self_or_admin be config admin_name parts
  end.

(** The guards a handler names, in the order it names them. *)
Fixpoint run_guards (ks : list GuardKind) (parts : Parts) : M (Conn S U) AuthError (list DashboardClaims) :=
  match ks with
  | [] => mret []
  | k :: ks => claims ← run_guard k parts; others ← run_guards ks parts; mret (claims :: others)
  end.

(** What a guard promises of the claims it answers. *)
Definition granted (k : GuardKind) (parts : Parts) (claims : DashboardClaims) : Prop :=
  match k with
  | GkAuth => True
  | GkStatus | GkVerified => account_usable (S := S) be (dc_sub claims) (dc_tenant_id claims)
  | GkMfa => dc_mfa_enabled claims = true -> dc_mfa_verified claims = true
  | GkRole name => engine_role_satisfies be (dc_role claims) name = true
  | GkSelf admin_name => pt_param parts = Ok (dc_sub claims) \/ engine_role_satisfies be (dc_role claims) admin_name = true
  end.

Lemma call_inv {A} (m : E S U A) (c c' : Conn S U) (a : A) :
  call m c = (Ok a, c') -> m (cn_world c) = (Ok a, cn_world c') /\ cn_claims c' = cn_claims c.
Proof. unfold call. destruct (m (cn_world c)) as [r w]. by intros [= -> <-]. Qed.

Lemma claims_cached (parts : Parts) (c : Conn S U) (claims : DashboardClaims) :
  cn_claims c = Some claims -> verified_dashboard_claims be config parts c = (Ok claims, c).
Proof. intros Hc. unfold verified_dashboard_claims, cached_claims. mrun. by rewrite Hc. Qed.

Lemma claims_fresh (parts : Parts) (c c' : Conn S U) (claims : DashboardClaims) :
  cn_claims c = None -> verified_dashboard_claims be config parts c = (Ok claims, c') ->
  cn_claims c' = Some claims /\
  exists token w1, source_access_token config parts (cn_jar c) = Some token /\
    verify_access_token be token (cn_world c) = (Ok claims, w1) /\
    assert_tenant_binding en (dc_tenant_id claims) (request_context parts) w1 = (Ok tt, cn_world c').
Proof.
  intros Hc. unfold verified_dashboard_claims, cached_claims, the_jar. mrun. rewrite Hc. mrun.
  destruct (source_access_token config parts (cn_jar c)) as [token|]; [|done]. cbn [ok_or lift].
  destruct (call (verify_access_token be token) c) as [[cl|e] c1] eqn:Hv; [|done]. apply call_inv in Hv as [Hv _].
  destruct (call _ c1) as [[[]|e] c2] eqn:Hb; [|done]. apply call_inv in Hb as [Hb _]. cbn. intros [= <- <-].
  split; [done|]. exists token, (cn_world c1). by split_and!.
Qed.

Lemma guard_inv (k : GuardKind) (parts : Parts) (c c' : Conn S U) (claims : DashboardClaims) :
  run_guard k parts c = (Ok claims, c') ->
  (exists c1, verified_dashboard_claims be config parts c = (Ok claims, c1) /\ cn_claims c' = cn_claims c1) /\
  granted k parts claims.
Proof.
  intros Hrun. destruct k as [| | | |name|name]; cbn [run_guard granted] in *.
  - split; [by exists c' | done].
  - apply bind_ok_inv in Hrun as (cl & c1 & Hv & Hrun). apply bind_ok_inv in Hrun as ([] & c2 & Hu & Hrun).
    apply call_inv in Hu as [Hu Hk]. apply ret_inv in Hrun as [-> ->]. split; [by exists c1 | by eapply usable_sound].
  - apply bind_ok_inv in Hrun as (cl & c1 & Hv & Hrun). apply bind_ok_inv in Hrun as ([] & c2 & Hu & Hrun).
    apply call_inv in Hu as [Hu Hk]. apply ret_inv in Hrun as [-> ->]. split; [by exists c1 | by eapply usable_sound].
  - apply bind_ok_inv in Hrun as (cl & c1 & Hv & Hrun). destruct (dc_mfa_enabled cl) eqn:He, (dc_mfa_verified cl) eqn:Hm; cbn [andb negb] in Hrun;
      try (apply ret_inv in Hrun as [-> ->]; split; [by exists c1 | congruence]).
    by apply bind_ok_inv in Hrun as ([] & c2 & _ & Hrun).
  - apply bind_ok_inv in Hrun as (cl & c1 & Hv & Hrun). destruct (engine_role_satisfies be (dc_role cl) name) eqn:Hr; [|done].
    apply ret_inv in Hrun as [-> ->]. split; [by exists c1 | done].
  - apply bind_ok_inv in Hrun as (cl & c1 & Hv & Hrun). apply bind_ok_inv in Hrun as (user_id & c2 & Hp & Hrun).
    apply lift_inv in Hp as [Hp ->]. destruct (pt_param parts) as [p|]; [|done]. injection Hp as ->. cbv zeta in Hrun.
    destruct (bool_decide (user_id = dc_sub cl)) eqn:Hs, (engine_role_satisfies be (dc_role cl) name) eqn:Hr; cbn [orb] in Hrun;
      try done; apply ret_inv in Hrun as [-> ->]; (split; [by exists c1 | first [by right | left; apply bool_decide_eq_true_1 in Hs; by subst]]).
Qed.

Lemma guards_cached (ks : list GuardKind) (parts : Parts) (c c' : Conn S U) (claims : DashboardClaims) (answers : list DashboardClaims) :
  cn_claims c = Some claims -> run_guards ks parts c = (Ok answers, c') ->
  answers = replicate (length ks) claims /\ Forall (fun k => granted k parts claims) ks.
Proof.
  revert c answers. induction ks as [|k ks IH]; intros c answers Hc Hrun; [apply ret_inv in Hrun as [-> _]; by split|].
  apply bind_ok_inv in Hrun as (cl & c1 & Hk & Hrun). apply bind_ok_inv in Hrun as (rest & c2 & Hks & Hrun).
  apply ret_inv in Hrun as [-> ->]. apply guard_inv in Hk as ((c0 & Hv & Hcl) & Hg).
  rewrite (claims_cached _ _ _ Hc) in Hv. injection Hv as <- <-. rewrite Hc in Hcl.
  destruct (IH _ _ Hcl Hks) as [-> Hall]. split; [done | by constructor].
Qed.

Context `{!StoreView S, !SessionStoreLaws S}.

(** C16. One request, one account.  Whatever guards a handler names and in whatever
    order, if none refuses they all answer the same claims: those of the token the
    request carries on the channel the delivery mode names, which verifies under a
    configured key, is neither denylisted nor superseded and is bound to the
    tenant of the request where that is enforced.  And each guard's own promise
    holds of them: an account that is neither blocked nor unverified, a cleared
    second factor, a sufficient role, or the account the path names.  So the
    account a gate judges is the account the handler acts on. *)
Theorem guards_speak_of_one_account (k : GuardKind) (ks : list GuardKind) (parts : Parts) (c c' : Conn S U)
    (answers : list DashboardClaims) :
  ready (w_store (cn_world c)) -> cn_claims c = None -> run_guards (k :: ks) parts c = (Ok answers, c') ->
  exists token claims, source_access_token config parts (cn_jar c) = Some token /\
    answers = replicate (length (k :: ks)) claims /\
    token_stands be token (cn_world c) claims /\ bound_to be (dc_tenant_id claims) (request_context parts) /\
    Forall (fun k => granted k parts claims) (k :: ks).
Proof.
  intros Hr Hc Hrun. apply bind_ok_inv in Hrun as (claims & c1 & Hk & Hrun). apply bind_ok_inv in Hrun as (rest & c2 & Hks & Hrun).
  apply ret_inv in Hrun as [-> ->]. apply guard_inv in Hk as ((c0 & Hv & Hcl) & Hg).
  destruct (claims_fresh _ _ _ _ Hc Hv) as (Hcached & token & w1 & Hs & Hver & Hb). rewrite Hcached in Hcl.
  destruct (guards_cached _ _ _ _ _ _ Hcl Hks) as [-> Hall]. exists token, claims. split_and!; [done | done | | | by constructor].
  - by eapply verify_access_stands.
  - eapply (bind_to_request_sound be _ (Some (request_context parts)) w1 (cn_world c0)); [|done].
    unfold bind_to_request, map_error. rewrite bind_run. unfold attempt. by rewrite Hb.
Qed.
End routes.
