(* ===== verification/Utf8.v ===== *)
(** * UTF-8 texts

    The standard library's reading of bytes as text: what it accepts, and how it
    repairs the rest. *)

From S2P Require Import Prelude Types Crypto.
From stdpp Require Import list.
#[local] Open Scope Z_scope.

(** [String::from_utf8_lossy]: the longest prefix of a sequence that could have
    been continued is replaced as a whole. *)
Definition REPLACEMENT : string := String (z_byte 239) (String (z_byte 191) (String (z_byte 189) "")).

Definition in_range (lo hi : Z) (c : ascii) : bool := bool_decide (lo <= byte_z c <= hi).
Definition continues (c : ascii) : bool := in_range 128 191 c.

(** The bytes that may follow a leading byte, and how many more come after. *)
Definition second_byte (lead : ascii) : option (Z * Z * nat) :=
  let b := byte_z lead in
  if in_range 194 223 lead then Some (128, 191, 0%nat) else
  if bool_decide (b = 224) then Some (160, 191, 1%nat) else
  if bool_decide (b = 237) then Some (128, 159, 1%nat) else
  if in_range 225 239 lead then Some (128, 191, 1%nat) else
  if bool_decide (b = 240) then Some (144, 191, 2%nat) else
  if in_range 241 243 lead then Some (128, 191, 2%nat) else
  if bool_decide (b = 244) then Some (128, 143, 2%nat) else None.

Fixpoint from_utf8_lossy (s : string) : string :=
  match s with
  | EmptyString => EmptyString
  | String a s1 =>
      if in_range 0 127 a then String a (from_utf8_lossy s1) else
      match second_byte a, s1 with
      | Some (lo, hi, more), String b s2 =>
          if negb (in_range lo hi b) then REPLACEMENT +:+ from_utf8_lossy s1 else
          match more, s2 with
          | 0%nat, _ => String a (String b (from_utf8_lossy s2))
          | S more', String c s3 =>
              if negb (continues c) then REPLACEMENT +:+ from_utf8_lossy s2 else
              match more', s3 with
              | 0%nat, _ => String a (String b (String c (from_utf8_lossy s3)))
              | S _, String d s4 =>
                  if continues d then String a (String b (String c (String d (from_utf8_lossy s4))))
                  else REPLACEMENT +:+ from_utf8_lossy s3
              | S _, EmptyString => REPLACEMENT
              end
          | S _, EmptyString => REPLACEMENT
          end
      | _, _ => REPLACEMENT +:+ from_utf8_lossy s1
      end
  end.

(** [String::from_utf8]: the bytes are text as they are. *)
Fixpoint is_utf8 (s : string) : bool :=
  match s with
  | EmptyString => true
  | String a s1 =>
      if in_range 0 127 a then is_utf8 s1 else
      match second_byte a, s1 with
      | Some (lo, hi, more), String b s2 =>
          in_range lo hi b &&
          match more, s2 with
          | 0%nat, _ => is_utf8 s2
          | S more', String c s3 =>
              continues c &&
              match more', s3 with
              | 0%nat, _ => is_utf8 s3
              | S _, String d s4 => continues d && is_utf8 s4
              | S _, EmptyString => false
              end
          | S _, EmptyString => false
          end
      | _, _ => false
      end
  end.

Definition from_utf8 (bytes : string) : option string := if is_utf8 bytes then Some bytes else None.

Definition NEWLINE : ascii := z_byte 10.

(** [str::lines]: each ended by a line feed, which takes the carriage return
    before it along; the last need not be ended. *)
Definition without_cr (line : string) : string :=
  match last (String.list_ascii_of_string line) with
  | Some c => if bool_decide (c = z_byte 13) then String.substring 0 (String.length line - 1) line else line
  | None => line
  end.

Definition lines (s : string) : list string :=
  let pieces := split_on NEWLINE s in
  (without_cr <$> take (length pieces - 1) pieces) ++
  match last pieces with Some rest => if string_is_empty rest then [] else [rest] | None => [] end.

(** Text is left alone. *)
Lemma lossy_text (s : string) : is_utf8 s = true -> from_utf8_lossy s = s.
Proof.
  remember (String.length s) as n eqn:Hn. assert (Hle : (String.length s <= n)%nat) by lia. clear Hn.
  revert s Hle. induction n as [|n IH]; intros s Hle; [by destruct s; [|cbn in Hle; lia]|].
  destruct s as [|a s1]; [done|]. cbn [is_utf8 from_utf8_lossy]. cbn in Hle.
  destruct (in_range 0 127 a); [intros Hs; rewrite IH; [done | lia | done]|].
  destruct (second_byte a) as [[[lo hi] more]|]; [|done]. destruct s1 as [|b s2]; [done|]. cbn in Hle.
  destruct (in_range lo hi b); [|done]. cbn [andb negb].
  destruct more as [|more']; [intros Hs; rewrite IH; [done | lia | done]|].
  destruct s2 as [|c s3]; [done|]. cbn in Hle. destruct (continues c); [|done]. cbn [andb negb].
  destruct more' as [|more'']; [intros Hs; rewrite IH; [done | lia | done]|].
  destruct s3 as [|d s4]; [done|]. cbn in Hle. destruct (continues d); [|done]. cbn [andb].
  intros Hs. rewrite IH; [done | lia | done].
Qed.

(** A truncated sequence is one replacement; a stray byte is another. *)
Example lossy_repairs :
  from_utf8_lossy (String "a" (String (z_byte 226) (String (z_byte 130) (String "b" (String (z_byte 255) ""))))) =
  "a" +:+ REPLACEMENT +:+ "b" +:+ REPLACEMENT.
Proof. vm_compute. reflexivity. Qed.
