(* ===== verification/Client.v ===== *)
(** * The HTTP client

    Models [crates/bymax-auth-client/src/lib.rs]: the requests each operation
    sends, what it makes of an answer, the token pair it holds, and the lock that
    serializes its refreshes.

    An operation is a program over the steps other tasks can come between: a
    reading or a writing of the held pair (each under a lock of its own), taking
    and dropping the refresh lock, and a request whose answer arrives later.
    [run] executes one operation alone; [step] interleaves many on one client,
    with answers of any kind and tasks dropped while they wait. *)

From S2P Require Import Prelude Errors Types Crypto Utf8 UrlText Bodies.
#[local] Open Scope Z_scope.

(** ** Requests and answers *)

Record Request : Set := {
  rq_method : string;
  rq_url : string;
  rq_bearer : option string;
  rq_content_type : option string;
  rq_body : option string;
}.

#[export] Instance Request_eq_dec : EqDecision Request.
Proof. solve_decision. Defined.

(** What the transport answers: a failure's text, or a status with the bytes. *)
Definition Reply : Set := result string (Z * string).

(** The JSON package: the text of an object of strings, which is ordered by key,
    and the derived readers, whose failure has a text. *)
Class ClientJson : Type := {
  Value : Type;
  object_text : gmap string string -> string;
  read_login_result : string -> result string LoginResult;
  read_auth_result : string -> result string AuthResult;
  read_rotated_tokens : string -> result string RotatedTokens;
  read_safe_user : string -> result string SafeAuthUser;
  read_envelope : string -> option (Code.AuthErrorCode * string * option Value);
}.

Record SessionTokens : Set := { st_access : string; st_refresh : string }.

#[export] Instance SessionTokens_eq_dec : EqDecision SessionTokens.
Proof. solve_decision. Defined.

Inductive AuthOutcome : Set := AoAuthenticated (result : AuthResult) | AoMfaRequired (challenge : MfaChallengeResult).

Record RegisterRequest : Set := {
  rr_email : string;
  rr_password : string;
  rr_name : string;
  rr_tenant_id : option string;
}.

Record LoginRequest : Set := { lr_email : string; lr_password : string; lr_tenant_id : option string }.

Inductive ResetPasswordProof : Set := RpToken (token : string) | RpOtp (otp : string) | RpVerifiedToken (token : string).

Record ResetPasswordRequest : Set := {
  rp_email : string;
  rp_new_password : string;
  rp_proof : ResetPasswordProof;
  rp_tenant_id : option string;
}.

Section errors.
Context `{ClientJson}.

Inductive AuthClientError : Type :=
| AceApi (status : Z) (code : Code.AuthErrorCode) (message : string) (details : option Value)
| AceUnexpectedStatus (status : Z) (body : string)
| AceTransport (text : string)
| AceDecode (text : string)
| AceNoSession.

Definition is_success (status : Z) : bool := bool_decide (200 <= status < 300).

Definition parse_api_error (status : Z) (bytes : string) : AuthClientError :=
  match read_envelope bytes with
  | Some (code, message, details) => AceApi status code message details
  | None => AceUnexpectedStatus status (from_utf8_lossy bytes)
  end.

Definition UNAUTHORIZED : Z := 401.

(** ** Operations *)

Inductive Prog (A : Type) : Type :=
| Done (r : result AuthClientError A)
| Snapshot (k : option SessionTokens -> Prog A)
| Put (tokens : option SessionTokens) (k : Prog A)
| Send (request : Request) (k : Reply -> Prog A)
| Acquire (k : Prog A)
| Release (k : Prog A).
Arguments Done {A} r.
Arguments Snapshot {A} k.
Arguments Put {A} tokens k.
Arguments Send {A} request k.
Arguments Acquire {A} k.
Arguments Release {A} k.

(** Go on with the [Result] of an operation. *)
Fixpoint next {A B} (p : Prog A) (f : result AuthClientError A -> Prog B) : Prog B :=
  match p with
  | Done r => f r
  | Snapshot k => Snapshot (fun tokens => next (k tokens) f)
  | Put tokens k => Put tokens (next k f)
  | Send request k => Send request (fun reply => next (k reply) f)
  | Acquire k => Acquire (next k f)
  | Release k => Release (next k f)
  end.

#[global] Instance Prog_ret : MRet Prog := fun _ a => Done (Ok a).
#[global] Instance Prog_bind : MBind Prog :=
  fun _ _ f p => next p (fun r => match r with Ok a => f a | Err e => Done (Err e) end).

Definition fails {A} (e : AuthClientError) : Prog A := Done (Err e).

Section client.
Context (base : string).

(** The origin is kept without a slash at its end. *)
Definition with_http_client (base_url : string) : string := trim_end_matches (fun c => bool_decide (c = 47)) base_url.

Definition post (path : string) : Request :=
  {| rq_method := "POST"; rq_url := base +:+ path; rq_bearer := None; rq_content_type := Some "application/json"; rq_body := None |}.

Definition with_body (fields : gmap string string) (request : Request) : Request :=
  {| rq_method := rq_method request; rq_url := rq_url request; rq_bearer := rq_bearer request;
     rq_content_type := rq_content_type request; rq_body := Some (object_text fields) |}.

Definition with_bearer (access : string) (request : Request) : Request :=
  {| rq_method := rq_method request; rq_url := rq_url request; rq_bearer := Some access;
     rq_content_type := rq_content_type request; rq_body := rq_body request |}.

Definition with_tenant (body : gmap string string) (tenant_id : option string) : gmap string string :=
  match tenant_id with Some tenant_id => <["tenantId" := tenant_id]> body | None => body end.

(** *** Sending *)

Definition send (request : Request) : Prog (Z * string) :=
  Send request (fun reply => Done (map_err AceTransport reply)).

Definition send_json {T} (read : string -> result string T) (request : Request) : Prog T :=
  answer ← send request;
  if is_success answer.1 then Done (map_err AceDecode (read answer.2)) else fails (parse_api_error answer.1 answer.2).

Definition send_no_content (request : Request) : Prog unit :=
  answer ← send request;
  if is_success answer.1 then mret tt else fails (parse_api_error answer.1 answer.2).

(** *** The held pair *)

Definition snapshot : Prog (option SessionTokens) := Snapshot (fun tokens => mret tokens).
Definition access_token : Prog (option string) := Snapshot (fun tokens => mret (st_access <$> tokens)).
Definition refresh_token : Prog (option string) := Snapshot (fun tokens => mret (st_refresh <$> tokens)).

Definition store_tokens (access refresh : string) : Prog unit :=
  Put (Some {| st_access := access; st_refresh := refresh |}) (mret tt).
Definition clear_tokens : Prog unit := Put None (mret tt).

Definition has_session : Prog bool := Snapshot (fun tokens => mret (bool_decide (is_Some tokens))).

Definition or_no_session {A} (o : option A) : Prog A :=
  match o with Some a => mret a | None => fails AceNoSession end.

(** *** Signing in *)

Definition complete_login (request : Request) : Prog AuthOutcome :=
  answer ← send_json read_login_result request;
  match answer with
  | LoginSuccess auth =>
      _ ← store_tokens (ar_access_token auth) (ar_refresh_token auth);
      mret (AoAuthenticated auth)
  | LoginMfaChallenge challenge => mret (AoMfaRequired challenge)
  end.

Definition register (input : RegisterRequest) : Prog AuthOutcome :=
  complete_login (with_body (with_tenant {["email" := rr_email input; "password" := rr_password input; "name" := rr_name input]}
                                         (rr_tenant_id input)) (post "/auth/register")).

Definition login (input : LoginRequest) : Prog AuthOutcome :=
  complete_login (with_body (with_tenant {["email" := lr_email input; "password" := lr_password input]} (lr_tenant_id input))
                            (post "/auth/login")).

Definition mfa_challenge (mfa_temp_token code : string) : Prog AuthResult :=
  auth ← send_json read_auth_result (with_body {["mfaTempToken" := mfa_temp_token; "code" := code]} (post "/auth/mfa/challenge"));
  _ ← store_tokens (ar_access_token auth) (ar_refresh_token auth);
  mret auth.

(** *** The session *)

Definition refresh_request (token : string) : Request := with_body {["refreshToken" := token]} (post "/auth/refresh").

(** It does not take the refresh lock. *)
Definition refresh : Prog RotatedTokens :=
  token ← refresh_token;
  token ← or_no_session token;
  tokens ← send_json read_rotated_tokens (refresh_request token);
  _ ← store_tokens (rt_access_token tokens) (rt_refresh_token tokens);
  mret tokens.

(** The guard is dropped on every way out. *)
Definition refresh_single_flight (stale_access : string) : Prog unit :=
  Acquire
    (next (current ← access_token;
           if match current with Some current => negb (bool_decide (current = stale_access)) | None => false end
           then mret tt else _ ← refresh; mret tt)
       (fun r => Release (Done r))).

Definition me_request (access : string) : Request :=
  {| rq_method := "GET"; rq_url := base +:+ "/auth/me"; rq_bearer := Some access; rq_content_type := None; rq_body := None |}.

Definition fetch_me (access : string) : Prog SafeAuthUser := send_json read_safe_user (me_request access).

Definition unauthorized (e : AuthClientError) : bool :=
  match e with AceApi status _ _ _ => bool_decide (status = UNAUTHORIZED) | _ => false end.

Definition me : Prog SafeAuthUser :=
  access ← access_token;
  access ← or_no_session access;
  next (fetch_me access) (fun answer =>
    match answer with
    | Err error =>
        if unauthorized error then
          _ ← refresh_single_flight access;
          access ← access_token;
          access ← or_no_session access;
          fetch_me access
        else Done answer
    | Ok _ => Done answer
    end).

Definition logout : Prog unit :=
  access ← access_token;
  access ← or_no_session access;
  token ← refresh_token;
  let request := with_bearer access (post "/auth/logout") in
  _ ← send_no_content match token with
                      | Some token => with_body {["refreshToken" := token]} request
                      | None => request
                      end;
  clear_tokens.

(** *** Recovery *)

Definition forgot_password (email : string) (tenant_id : option string) : Prog unit :=
  send_no_content (with_body (with_tenant {["email" := email]} tenant_id) (post "/auth/password/forgot-password")).

Definition proof_field (proof : ResetPasswordProof) : string * string :=
  match proof with
  | RpToken token => ("token", token)
  | RpOtp otp => ("otp", otp)
  | RpVerifiedToken token => ("verifiedToken", token)
  end.

Definition reset_password (input : ResetPasswordRequest) : Prog unit :=
  let body := with_tenant {["email" := rp_email input; "newPassword" := rp_new_password input]} (rp_tenant_id input) in
  let '(key, value) := proof_field (rp_proof input) in
  send_no_content (with_body (<[key := value]> body) (post "/auth/password/reset-password")).
End client.

(** ** One operation alone *)

(** Against a server: what it answers, and what it becomes. *)
Fixpoint run {A S} (server : Request -> S -> Reply * S) (p : Prog A) (tokens : option SessionTokens) (s : S) :
    result AuthClientError A * option SessionTokens * S :=
  match p with
  | Done r => (r, tokens, s)
  | Snapshot k => run server (k tokens) tokens s
  | Put tokens k => run server k tokens s
  | Send request k => let '(reply, s) := server request s in run server (k reply) tokens s
  | Acquire k => run server k tokens s
  | Release k => run server k tokens s
  end.

(** ** Many operations on one client *)

Inductive Task (A : Type) : Type :=
| Running (p : Prog A)
| Waiting (request : Request) (k : Reply -> Prog A)
| Dropped.
Arguments Running {A} p.
Arguments Waiting {A} request k.
Arguments Dropped {A}.

(** What an observer of the network sees. *)
Inductive Event : Set := EvSent (request : Request) | EvAnswered (request : Request) (reply : Reply) | EvDropped (request : Request).

Record Client (A : Type) : Type := MkClient {
  cl_tokens : option SessionTokens;
  cl_refresh_lock : option nat;
  cl_tasks : list (Task A);
  cl_log : list Event;
}.
Arguments MkClient {A} _ _ _ _.
Arguments cl_tokens {A} _.
Arguments cl_refresh_lock {A} _.
Arguments cl_tasks {A} _.
Arguments cl_log {A} _.

(** One step of task [i]: the shared state before and after, and what is logged. *)
Inductive task_step {A} (i : nat) :
    Task A -> option SessionTokens -> option nat -> Task A -> option SessionTokens -> option nat -> list Event -> Prop :=
| StSnapshot k t l : task_step i (Running (Snapshot k)) t l (Running (k t)) t l []
| StPut t' k t l : task_step i (Running (Put t' k)) t l (Running k) t' l []
| StSend rq k t l : task_step i (Running (Send rq k)) t l (Waiting rq k) t l [EvSent rq]
| StAnswer rq k reply t l : task_step i (Waiting rq k) t l (Running (k reply)) t l [EvAnswered rq reply]
| StAcquire k t : task_step i (Running (Acquire k)) t None (Running k) t (Some i) []
| StRelease k t l : task_step i (Running (Release k)) t l (Running k) t None []
| StDropWaiting rq k t l :
    task_step i (Waiting rq k) t l Dropped t (if bool_decide (l = Some i) then None else l) [EvDropped rq]
| StDropAcquire k t l :
    task_step i (Running (Acquire k)) t l Dropped t (if bool_decide (l = Some i) then None else l) [].

Inductive step {A} : Client A -> Client A -> Prop :=
| Step i task task' t t' l l' evs tasks log :
    tasks !! i = Some task -> task_step i task t l task' t' l' evs ->
    step (MkClient t l tasks log) (MkClient t' l' (<[i := task']> tasks) (log ++ evs)).

Definition started {A} (tokens : option SessionTokens) (operations : list (Prog A)) : Client A :=
  MkClient tokens None (Running <$> operations) [].

Inductive reachable {A} (c0 : Client A) : Client A -> Prop :=
| ReachStart : reachable c0 c0
| ReachStep c c' : reachable c0 c -> step c c' -> reachable c0 c'.

(** *** A schedule *)

(** What happens next: task [i] goes on, its request is answered, or it is
    dropped. *)
Inductive Turn : Set := TnGoOn (i : nat) | TnAnswer (i : nat) (reply : Reply) | TnDrop (i : nat).

Definition turn {A} (c : Client A) (n : Turn) : option (Client A) :=
  let '(MkClient t l tasks log) := c in
  let unlock i := if bool_decide (l = Some i) then None else l in
  match n with
  | TnGoOn i =>
      match tasks !! i with
      | Some (Running (Snapshot k)) => Some (MkClient t l (<[i := Running (k t)]> tasks) (log ++ []))
      | Some (Running (Put t' k)) => Some (MkClient t' l (<[i := Running k]> tasks) (log ++ []))
      | Some (Running (Send rq k)) => Some (MkClient t l (<[i := Waiting rq k]> tasks) (log ++ [EvSent rq]))
      | Some (Running (Acquire k)) =>
          match l with None => Some (MkClient t (Some i) (<[i := Running k]> tasks) (log ++ [])) | Some _ => None end
      | Some (Running (Release k)) => Some (MkClient t None (<[i := Running k]> tasks) (log ++ []))
      | _ => None
      end
  | TnAnswer i reply =>
      match tasks !! i with
      | Some (Waiting rq k) => Some (MkClient t l (<[i := Running (k reply)]> tasks) (log ++ [EvAnswered rq reply]))
      | _ => None
      end
  | TnDrop i =>
      match tasks !! i with
      | Some (Waiting rq k) => Some (MkClient t (unlock i) (<[i := Dropped]> tasks) (log ++ [EvDropped rq]))
      | Some (Running (Acquire k)) => Some (MkClient t (unlock i) (<[i := Dropped]> tasks) (log ++ []))
      | _ => None
      end
  end.

Definition schedule {A} (c : Client A) (turns : list Turn) : option (Client A) :=
  foldl (fun c n => c ≫= (fun c => turn c n)) (Some c) turns.

Lemma turn_step {A} (c c' : Client A) (n : Turn) : turn c n = Some c' -> step c c'.
Proof.
  destruct c as [t l tasks log], n as [i|i reply|i]; cbn; destruct (tasks !! i) as [[[| | | | |]| |]|] eqn:Hi; try done;
    try (intros [= <-]; econstructor; [exact Hi | constructor]).
  destruct l; [done|]. intros [= <-]. econstructor; [exact Hi | constructor].
Qed.

Lemma schedule_reachable {A} (c c' : Client A) (turns : list Turn) : schedule c turns = Some c' -> reachable c c'.
Proof.
  unfold schedule. revert c'. induction turns as [|n turns IH] using rev_ind; intros c'; [intros [= <-]; constructor|].
  rewrite foldl_app. cbn. destruct (foldl _ _ _) as [c1|] eqn:Hc; [|done]. intros Ht.
  eapply ReachStep; [by apply IH | by eapply turn_step].
Qed.
End errors.
Arguments Done {_ A} r.
Arguments Snapshot {_ A} k.
Arguments Put {_ A} tokens k.
Arguments Send {_ A} request k.
Arguments Acquire {_ A} k.
Arguments Release {_ A} k.
Arguments Running {_ A} p.
Arguments Waiting {_ A} request k.
Arguments Dropped {_ A}.
Arguments MkClient {_ A} _ _ _ _.
Arguments cl_tokens {_ A} _.
Arguments cl_refresh_lock {_ A} _.
Arguments cl_tasks {_ A} _.
Arguments cl_log {_ A} _.
