(* ===== verification/ClientClaims.v ===== *)
(** * What the client guarantees

    Any number of profile reads running on one client refresh one after another:
    their program is followed point by point, and what leaves on the wire is what
    a client that does one thing at a time would send. *)

From S2P Require Import Prelude Errors Types Crypto UrlText Bodies Client.
From stdpp Require Import list.
#[local] Open Scope Z_scope.

Section client.
Context `{ClientJson} (base : string).

(** ** Where a profile read is *)

Inductive Point : Type :=
| PtStart
| PtAsk (access : string)
| PtAsking (access : string)
| PtQueued (stale : string)
| PtCheck (stale : string)
| PtRead (stale : string)
| PtPresent (stale token : string)
| PtPresenting (stale token : string)
| PtKeep (stale : string) (tokens : RotatedTokens)
| PtLeave (outcome : result AuthClientError unit)
| PtAgain
| PtRetry (access : string)
| PtRetrying (access : string)
| PtDone (outcome : result AuthClientError SafeAuthUser)
| PtDropped.

Definition retry : Prog SafeAuthUser :=
  access ← access_token; access ← or_no_session access; fetch_me base access.

Definition go_on (r : result AuthClientError unit) : Prog SafeAuthUser :=
  match r with Ok _ => retry | Err e => Done (Err e) end.

(** Under the lock, and what follows. *)
Definition locked (p : Prog unit) : Prog SafeAuthUser := next (next p (fun r => Release (Done r))) go_on.

Definition judge (stale : string) (answer : result AuthClientError SafeAuthUser) : Prog SafeAuthUser :=
  match answer with
  | Err error =>
      if unauthorized error then _ ← refresh_single_flight base stale; retry else Done answer
  | Ok _ => Done answer
  end.

Definition rotate (token : string) : Prog unit :=
  _ ← (tokens ← send_json read_rotated_tokens (refresh_request base token);
       _ ← store_tokens (rt_access_token tokens) (rt_refresh_token tokens);
       mret tokens);
  mret tt.

Definition in_flight {A} (p : Prog A) : Task A :=
  match p with Send request k => Waiting request k | _ => Running p end.

(** The task at a point. *)
Definition at_point (pt : Point) : Task SafeAuthUser :=
  match pt with
  | PtStart => Running (me base)
  | PtAsk access => Running (next (fetch_me base access) (judge access))
  | PtAsking access => in_flight (next (fetch_me base access) (judge access))
  | PtQueued stale => Running (_ ← refresh_single_flight base stale; retry)
  | PtCheck stale =>
      Running (locked (current ← access_token;
                       if match current with Some current => negb (bool_decide (current = stale)) | None => false end
                       then mret tt else _ ← refresh base; mret tt))
  | PtRead _ => Running (locked (_ ← refresh base; mret tt))
  | PtPresent _ token => Running (locked (rotate token))
  | PtPresenting _ token => in_flight (locked (rotate token))
  | PtKeep _ tokens =>
      Running (locked (_ ← (_ ← store_tokens (rt_access_token tokens) (rt_refresh_token tokens); mret tokens); mret tt))
  | PtLeave outcome => Running (locked (Done outcome))
  | PtAgain => Running retry
  | PtRetry access => Running (fetch_me base access)
  | PtRetrying access => in_flight (fetch_me base access)
  | PtDone outcome => Running (Done outcome)
  | PtDropped => Dropped
  end.

(** What an answer is read as. *)
Definition read_answer {T} (read : string -> result string T) (reply : Reply) : result AuthClientError T :=
  match reply with
  | Err text => Err (AceTransport text)
  | Ok (status, bytes) => if is_success status then map_err AceDecode (read bytes) else Err (parse_api_error status bytes)
  end.

Definition pair_of (tokens : RotatedTokens) : SessionTokens :=
  {| st_access := rt_access_token tokens; st_refresh := rt_refresh_token tokens |}.

(** The moves of task [i] between its points. *)
Inductive moves (i : nat) :
    Point -> option SessionTokens -> option nat -> Point -> option SessionTokens -> option nat -> list Event -> Prop :=
| MvStart p l : moves i PtStart (Some p) l (PtAsk (st_access p)) (Some p) l []
| MvNoSession l : moves i PtStart None l (PtDone (Err AceNoSession)) None l []
| MvAsk a t l : moves i (PtAsk a) t l (PtAsking a) t l [EvSent (me_request base a)]
| MvUnauthorized a t l reply e :
    read_answer read_safe_user reply = Err e -> unauthorized e = true ->
    moves i (PtAsking a) t l (PtQueued a) t l [EvAnswered (me_request base a) reply]
| MvAnswered a t l reply :
    (forall e, read_answer read_safe_user reply = Err e -> unauthorized e = false) ->
    moves i (PtAsking a) t l (PtDone (read_answer read_safe_user reply)) t l [EvAnswered (me_request base a) reply]
| MvDropAsking a t l :
    moves i (PtAsking a) t l PtDropped t (if bool_decide (l = Some i) then None else l) [EvDropped (me_request base a)]
| MvAcquire a t : moves i (PtQueued a) t None (PtCheck a) t (Some i) []
| MvDropQueued a t l : moves i (PtQueued a) t l PtDropped t (if bool_decide (l = Some i) then None else l) []
| MvRotatedAlready a p l : st_access p <> a -> moves i (PtCheck a) (Some p) l (PtLeave (Ok tt)) (Some p) l []
| MvStillStale a t l : (forall p, t = Some p -> st_access p = a) -> moves i (PtCheck a) t l (PtRead a) t l []
| MvRead a p l : moves i (PtRead a) (Some p) l (PtPresent a (st_refresh p)) (Some p) l []
| MvReadNothing a l : moves i (PtRead a) None l (PtLeave (Err AceNoSession)) None l []
| MvPresent a r t l : moves i (PtPresent a r) t l (PtPresenting a r) t l [EvSent (refresh_request base r)]
| MvRotated a r t l reply tokens :
    read_answer read_rotated_tokens reply = Ok tokens ->
    moves i (PtPresenting a r) t l (PtKeep a tokens) t l [EvAnswered (refresh_request base r) reply]
| MvRefused a r t l reply e :
    read_answer read_rotated_tokens reply = Err e ->
    moves i (PtPresenting a r) t l (PtLeave (Err e)) t l [EvAnswered (refresh_request base r) reply]
| MvDropPresenting a r t l :
    moves i (PtPresenting a r) t l PtDropped t (if bool_decide (l = Some i) then None else l)
      [EvDropped (refresh_request base r)]
| MvKeep a tokens t l : moves i (PtKeep a tokens) t l (PtLeave (Ok tt)) (Some (pair_of tokens)) l []
| MvLeaveOk t l : moves i (PtLeave (Ok tt)) t l PtAgain t None []
| MvLeaveErr e t l : moves i (PtLeave (Err e)) t l (PtDone (Err e)) t None []
| MvAgain p l : moves i PtAgain (Some p) l (PtRetry (st_access p)) (Some p) l []
| MvAgainNoSession l : moves i PtAgain None l (PtDone (Err AceNoSession)) None l []
| MvRetry a t l : moves i (PtRetry a) t l (PtRetrying a) t l [EvSent (me_request base a)]
| MvRetried a t l reply :
    moves i (PtRetrying a) t l (PtDone (read_answer read_safe_user reply)) t l [EvAnswered (me_request base a) reply]
| MvDropRetrying a t l :
    moves i (PtRetrying a) t l PtDropped t (if bool_decide (l = Some i) then None else l) [EvDropped (me_request base a)].

(** What the answer to a request is handed to. *)
Definition received {T B} (read : string -> result string T) (f : result AuthClientError T -> Prog B) (reply : Reply) : Prog B :=
  next match map_err AceTransport reply with
       | Ok answer => if is_success answer.1 then Done (map_err AceDecode (read answer.2)) else fails (parse_api_error answer.1 answer.2)
       | Err e => Done (Err e)
       end f.

Lemma answered {T B} (read : string -> result string T) (request : Request) (f : result AuthClientError T -> Prog B) :
  in_flight (next (send_json read request) f) = Waiting request (received read f).
Proof. reflexivity. Qed.

Lemma read_on {T B} (read : string -> result string T) (reply : Reply) (f : result AuthClientError T -> Prog B) :
  received read f reply = f (read_answer read reply).
Proof. unfold received. destruct reply as [[status bytes]|text]; cbn; [by destruct (is_success status) | done]. Qed.

(** What follows an answer to a profile request, or to a refresh. *)
Lemma judged (i : nat) (a : string) (t : option SessionTokens) (l : option nat) (reply : Reply) :
  exists pt, Running (judge a (read_answer read_safe_user reply)) = at_point pt /\
    moves i (PtAsking a) t l pt t l [EvAnswered (me_request base a) reply].
Proof.
  destruct (read_answer read_safe_user reply) as [user|e] eqn:Hr.
  - exists (PtDone (Ok user)). split; [done|]. rewrite <- Hr. constructor. rewrite Hr. done.
  - destruct (unauthorized e) eqn:Hu.
    + exists (PtQueued a). split; [cbn; by rewrite Hu | by econstructor].
    + exists (PtDone (Err e)). split; [cbn; by rewrite Hu|]. rewrite <- Hr. constructor. rewrite Hr. by intros ? [= <-].
Qed.

Lemma rotated (i : nat) (a token : string) (t : option SessionTokens) (l : option nat) (reply : Reply) :
  exists pt, Running (locked (_ ← (next (Done (read_answer read_rotated_tokens reply)) (fun r =>
      match r with
      | Ok tokens => _ ← store_tokens (rt_access_token tokens) (rt_refresh_token tokens); mret tokens
      | Err e => Done (Err e)
      end)); mret tt)) = at_point pt /\
    moves i (PtPresenting a token) t l pt t l [EvAnswered (refresh_request base token) reply].
Proof.
  destruct (read_answer read_rotated_tokens reply) as [tokens|e] eqn:Hr.
  - exists (PtKeep a tokens). split; [done | by constructor].
  - exists (PtLeave (Err e)). split; [done | by constructor].
Qed.

(** The program of a profile read takes these moves and no others. *)
Lemma point_step (i : nat) (pt : Point) (t t' : option SessionTokens) (l l' : option nat) (task' : Task SafeAuthUser) (evs : list Event) :
  task_step i (at_point pt) t l task' t' l' evs -> exists pt', task' = at_point pt' /\ moves i pt t l pt' t' l' evs.
Proof.
  destruct pt; cbn [at_point]; intros Hs.
  - inversion Hs; subst. destruct t' as [p|]; [exists (PtAsk (st_access p)) | exists (PtDone (Err AceNoSession))]; (split; [done | constructor]).
  - inversion Hs; subst. exists (PtAsking access). split; [done | constructor].
  - unfold fetch_me in Hs. rewrite answered in Hs. inversion Hs; subst.
    + rewrite read_on. apply judged.
    + exists PtDropped. split; [done | constructor].
  - inversion Hs; subst; [exists (PtCheck stale) | exists PtDropped]; (split; [done | constructor]).
  - inversion Hs; subst. destruct t' as [p|].
    + destruct (decide (st_access p = stale)) as [Heq|Hne].
      * exists (PtRead stale). split; [cbn; by rewrite bool_decide_eq_true_2 | constructor; by intros ? [= <-]].
      * exists (PtLeave (Ok tt)). split; [cbn; by rewrite bool_decide_eq_false_2 | by constructor].
    + exists (PtRead stale). split; [done | by constructor].
  - inversion Hs; subst. destruct t' as [p|]; [exists (PtPresent stale (st_refresh p)) | exists (PtLeave (Err AceNoSession))]; (split; [done | constructor]).
  - inversion Hs; subst. exists (PtPresenting stale token). split; [done | constructor].
  - inversion Hs; subst.
    + pose proof (rotated i stale token t' l' reply) as (pt & Heq & Hmv). exists pt. split; [|exact Hmv]. rewrite <- Heq.
      f_equal. unfold read_answer. destruct reply as [[status bytes]|text]; cbn; [|done].
      destruct (is_success status); [|done]. cbn. by destruct (read_rotated_tokens bytes).
    + exists PtDropped. split; [done | constructor].
  - inversion Hs; subst. exists (PtLeave (Ok tt)). split; [done | constructor].
  - destruct outcome as [[]|e]; inversion Hs; subst; [exists PtAgain | exists (PtDone (Err e))]; (split; [done | constructor]).
  - inversion Hs; subst. destruct t' as [p|]; [exists (PtRetry (st_access p)) | exists (PtDone (Err AceNoSession))]; (split; [done | constructor]).
  - inversion Hs; subst. exists (PtRetrying access). split; [done | constructor].
  - inversion Hs; subst; [|exists PtDropped; split; [done | constructor]].
    exists (PtDone (read_answer read_safe_user reply)). split; [|constructor]. cbn. f_equal.
    destruct reply as [[status bytes]|text]; cbn; [by destruct (is_success status) | done].
  - inversion Hs.
  - inversion Hs.
Qed.

(** ** The protocol *)

Record Protocol : Type := MkProtocol {
  pr_tokens : option SessionTokens;
  pr_lock : option nat;
  pr_points : list Point;
  pr_log : list Event;
}.

Inductive protocol_step : Protocol -> Protocol -> Prop :=
| ProtocolStep i pt pt' t t' l l' evs pts log :
    pts !! i = Some pt -> moves i pt t l pt' t' l' evs ->
    protocol_step (MkProtocol t l pts log) (MkProtocol t' l' (<[i := pt']> pts) (log ++ evs)).

Inductive protocol_reachable (p0 : Protocol) : Protocol -> Prop :=
| ProtocolStart : protocol_reachable p0 p0
| ProtocolMore p p' : protocol_reachable p0 p -> protocol_step p p' -> protocol_reachable p0 p'.

Definition as_client (p : Protocol) : Client SafeAuthUser :=
  MkClient (pr_tokens p) (pr_lock p) (at_point <$> pr_points p) (pr_log p).

Definition reading (n : nat) (tokens : option SessionTokens) : Protocol := MkProtocol tokens None (replicate n PtStart) [].

Lemma started_reading (n : nat) (tokens : option SessionTokens) :
  started tokens (replicate n (me base)) = as_client (reading n tokens).
Proof. unfold started, as_client, reading. cbn. by rewrite !fmap_replicate. Qed.

(** The client follows the protocol. *)
Lemma follows_protocol (n : nat) (tokens : option SessionTokens) (c : Client SafeAuthUser) :
  reachable (started tokens (replicate n (me base))) c ->
  exists p, c = as_client p /\ protocol_reachable (reading n tokens) p.
Proof.
  rewrite started_reading. induction 1 as [|c c' _ (p & -> & Hp) Hs]; [exists (reading n tokens); split; [done | constructor]|].
  destruct p as [t l pts log]. inversion Hs as [i task task' t0 t' l0 l' evs tasks log0 Hi Hstep]; subst.
  cbn in Hi. rewrite list_lookup_fmap in Hi. destruct (pts !! i) as [pt|] eqn:Hpt; [|done]. injection Hi as <-.
  destruct (point_step _ _ _ _ _ _ _ _ Hstep) as (pt' & -> & Hmv).
  exists (MkProtocol t' l' (<[i := pt']> pts) (log ++ evs)). split; [unfold as_client; cbn; by rewrite list_fmap_insert|].
  econstructor; [exact Hp | by econstructor].
Qed.

(** The points between taking the refresh lock and dropping it. *)
Definition holds (pt : Point) : bool :=
  match pt with
  | PtCheck _ | PtRead _ | PtPresent _ _ | PtPresenting _ _ | PtKeep _ _ | PtLeave _ => true
  | _ => false
  end.

Definition owned (p : Protocol) : Prop :=
  (forall i pt, pr_points p !! i = Some pt -> holds pt = true -> pr_lock p = Some i) /\
  (forall i, pr_lock p = Some i -> exists pt, pr_points p !! i = Some pt /\ holds pt = true).

(** What a move does to the lock. *)
Lemma moves_lock (i : nat) (pt pt' : Point) (t t' : option SessionTokens) (l l' : option nat) (evs : list Event) :
  moves i pt t l pt' t' l' evs -> (holds pt = true <-> l = Some i) ->
  match holds pt, holds pt' with
  | true, true | false, false => l' = l
  | false, true => l = None /\ l' = Some i
  | true, false => l' = None
  end.
Proof.
  destruct 1; cbn; intros Hl; try done; try (rewrite bool_decide_eq_true_2; [done | by apply Hl]);
    (rewrite bool_decide_eq_false_2; [done | by intros Hx; apply Hl in Hx]).
Qed.

Lemma owned_iff (p : Protocol) (i : nat) (pt : Point) :
  owned p -> pr_points p !! i = Some pt -> (holds pt = true <-> pr_lock p = Some i).
Proof.
  intros [Ho Hi] Hpt. split; [by apply Ho|]. intros Hl. destruct (Hi i Hl) as (pt' & Hpt' & Hh). congruence.
Qed.

Lemma owned_step (p p' : Protocol) : owned p -> protocol_step p p' -> owned p'.
Proof.
  intros Hown Hs. destruct Hs as [i pt pt' t t' l l' evs pts log Hpt Hmv].
  pose proof (owned_iff _ _ _ Hown Hpt) as Hiff. cbn in Hiff. pose proof (moves_lock _ _ _ _ _ _ _ _ Hmv Hiff) as Hl.
  destruct Hown as [Ho Hi]. cbn in *. assert (Hlen : (i < length pts)%nat) by by eapply lookup_lt_Some.
  split; cbn.
  - intros j ptj Hj Hh. destruct (decide (i = j)) as [<-|Hne].
    + rewrite list_lookup_insert_eq in Hj by done. injection Hj as <-. rewrite Hh in Hl.
      destruct (holds pt); [rewrite Hl; by apply Hiff | by destruct Hl].
    + rewrite list_lookup_insert_ne in Hj by done. pose proof (Ho j ptj Hj Hh) as ->.
      destruct (holds pt) eqn:Hp; [destruct Hiff as [Hiff _]; specialize (Hiff eq_refl); congruence|].
      destruct (holds pt'); [by destruct Hl | done].
  - intros j ->. destruct (decide (i = j)) as [<-|Hne].
    + exists pt'. rewrite list_lookup_insert_eq by done. split; [done|]. destruct (holds pt) eqn:Hp, (holds pt') eqn:Hp'; try done.
      symmetry in Hl. by apply Hiff in Hl.
    + destruct (holds pt) eqn:Hp, (holds pt') eqn:Hp'; [|done| |].
      * destruct Hiff as [Hiff _]. specialize (Hiff eq_refl). congruence.
      * destruct Hl as [_ [= ->]]. done.
      * destruct (Hi j (eq_sym Hl)) as (ptj & Hj & Hh). exists ptj. by rewrite list_lookup_insert_ne.
Qed.

Lemma owned_reading (n : nat) (tokens : option SessionTokens) : owned (reading n tokens).
Proof. split; cbn; [|done]. by intros i pt [-> _]%lookup_replicate Hh. Qed.

(** ** One refresh after another *)

(** The books of a client that does one thing at a time: the pair the last refresh
    returned, and whether one is under way. *)
Record Ledger : Set := { lg_tokens : option SessionTokens; lg_presenting : bool }.

Definition is_refresh (request : Request) : bool := bool_decide (rq_url request = base +:+ "/auth/refresh").

(** An entry the books have no place for ends them. *)
Definition account (s : option Ledger) (e : Event) : option Ledger :=
  s ← s;
  match e with
  | EvSent request =>
      if negb (is_refresh request) then Some s else
      match lg_tokens s, lg_presenting s with
      | Some p, false =>
          if bool_decide (request = refresh_request base (st_refresh p))
          then Some {| lg_tokens := lg_tokens s; lg_presenting := true |} else None
      | _, _ => None
      end
  | EvAnswered request reply =>
      if negb (is_refresh request) then Some s else
      if lg_presenting s
      then Some {| lg_tokens := match read_answer read_rotated_tokens reply with
                                | Ok tokens => Some (pair_of tokens)
                                | Err _ => lg_tokens s
                                end; lg_presenting := false |}
      else None
  | EvDropped request =>
      if negb (is_refresh request) then Some s else
      if lg_presenting s then Some {| lg_tokens := lg_tokens s; lg_presenting := false |} else None
  end.

Definition opened (tokens : option SessionTokens) : Ledger := {| lg_tokens := tokens; lg_presenting := false |}.

Definition booked (tokens : option SessionTokens) (log : list Event) : option Ledger := foldl account (Some (opened tokens)) log.

Lemma refresh_is_refresh (token : string) : is_refresh (refresh_request base token) = true.
Proof. by apply bool_decide_eq_true_2. Qed.

Lemma me_is_no_refresh (access : string) : is_refresh (me_request base access) = false.
Proof. apply bool_decide_eq_false_2. cbn. by intros [=]%(inj (String.append base)). Qed.

(** What the books say while the lock is held at a point. *)
Definition books (pt : Point) (tokens : option SessionTokens) (s : Ledger) : Prop :=
  match pt with
  | PtPresent _ token => s = opened tokens /\ exists p, tokens = Some p /\ st_refresh p = token
  | PtPresenting _ token =>
      s = {| lg_tokens := tokens; lg_presenting := true |} /\ exists p, tokens = Some p /\ st_refresh p = token
  | PtKeep _ rotated => s = opened (Some (pair_of rotated))
  | _ => s = opened tokens
  end.

Definition agrees (p : Protocol) (s : Ledger) : Prop :=
  match pr_lock p with
  | None => s = opened (pr_tokens p)
  | Some i => forall pt, pr_points p !! i = Some pt -> books pt (pr_tokens p) s
  end.

(** One move keeps the books: for the task that holds the lock, and for another. *)
Lemma holder_books (i : nat) (pt pt' : Point) (t t' : option SessionTokens) (l l' : option nat) (evs : list Event) (s : Ledger) :
  moves i pt t l pt' t' l' evs -> holds pt = true -> books pt t s ->
  exists s', foldl account (Some s) evs = Some s' /\ (if holds pt' then books pt' t' s' else s' = opened t').
Proof.
  destruct 1; cbn [holds]; try done; intros _; cbn [books]; intros Hb.
  all: try (exists s; split; [done | exact Hb]).
  - subst s. eexists. split; [done|]. cbn. split; [done|]. by exists p.
  - destruct Hb as (-> & p & -> & <-). eexists. cbn [foldl account mbind option_bind opened lg_tokens lg_presenting].
    rewrite refresh_is_refresh, bool_decide_eq_true_2 by done. cbn. split; [done|]. split; [done|]. by exists p.
  - destruct Hb as (-> & p & -> & <-). cbn [foldl account mbind option_bind lg_presenting]. rewrite refresh_is_refresh. cbn.
    rewrite H0. by eexists.
  - destruct Hb as (-> & p & -> & <-). cbn [foldl account mbind option_bind lg_presenting]. rewrite refresh_is_refresh. cbn.
    rewrite H0. by eexists.
  - destruct Hb as (-> & p & -> & <-). cbn [foldl account mbind option_bind lg_presenting]. rewrite refresh_is_refresh. cbn.
    by eexists.
Qed.

Lemma bystander_books (i : nat) (pt pt' : Point) (t t' : option SessionTokens) (l l' : option nat) (evs : list Event) (s : Ledger) :
  moves i pt t l pt' t' l' evs -> holds pt = false ->
  foldl account (Some s) evs = Some s /\ t' = t /\ (holds pt' = true -> forall s', books pt' t' s' <-> s' = opened t').
Proof.
  destruct 1; cbn [holds]; try done; intros _; cbn [foldl account mbind option_bind];
    rewrite ?me_is_no_refresh; cbn; (split; [done | split; [done|]]); by intros.
Qed.

Lemma agrees_step (p p' : Protocol) (s : Ledger) :
  owned p -> agrees p s -> protocol_step p p' ->
  exists evs s', pr_log p' = pr_log p ++ evs /\ foldl account (Some s) evs = Some s' /\ agrees p' s'.
Proof.
  intros Hown Hag Hs. pose proof (owned_step _ _ Hown Hs) as Hown'. destruct Hs as [i pt pt' t t' l l' evs pts log Hpt Hmv].
  pose proof (owned_iff _ _ _ Hown Hpt) as Hiff. cbn in Hiff. pose proof (moves_lock _ _ _ _ _ _ _ _ Hmv Hiff) as Hl.
  assert (Hlen : (i < length pts)%nat) by by eapply lookup_lt_Some.
  unfold agrees in Hag |- *. cbn in *. destruct (holds pt) eqn:Hp.
  - destruct Hiff as [Hiff _]. specialize (Hiff eq_refl) as ->.
    destruct (holder_books _ _ _ _ _ _ _ _ _ Hmv Hp (Hag pt Hpt)) as (s' & Hfold & Hb). exists evs, s'.
    split_and!; [done | done|]. destruct (holds pt'); rewrite Hl; [|done]. intros ptj. rewrite list_lookup_insert_eq by done.
    by intros [= <-].
  - destruct (bystander_books _ _ _ _ _ _ _ _ s Hmv Hp) as (Hfold & -> & Hb). exists evs, s. split_and!; [done | done|].
    destruct (holds pt') eqn:Hp'.
    + destruct Hl as [-> ->]. intros ptj. rewrite list_lookup_insert_eq by done. intros [= <-]. by apply Hb.
    + rewrite Hl. destruct l as [j|]; [|done]. intros ptj Hj. destruct (decide (i = j)) as [<-|Hne].
      * destruct Hiff as [_ Hiff]. by specialize (Hiff eq_refl).
      * rewrite list_lookup_insert_ne in Hj by done. by apply Hag.
Qed.

Lemma kept_books (n : nat) (tokens : option SessionTokens) (p : Protocol) :
  protocol_reachable (reading n tokens) p ->
  owned p /\ exists s, booked tokens (pr_log p) = Some s /\ agrees p s.
Proof.
  induction 1 as [|p p' _ (Hown & s & Hb & Hag) Hs]; [split; [apply owned_reading | by exists (opened tokens)]|].
  split; [by eapply owned_step|]. destruct (agrees_step _ _ _ Hown Hag Hs) as (evs & s' & -> & Hf & Hag').
  exists s'. split; [|done]. unfold booked in *. by rewrite foldl_app, Hb.
Qed.

(** C33. Refreshes go out one after another.  However many profile reads run on one
    client, however their steps interleave, whatever the server answers and
    whichever of them are dropped while they wait, the refreshes on the wire are
    those of a client that makes one at a time: none starts while another is
    under way, and each presents the refresh token of the pair the last successful
    one returned.  Between refreshes, that pair is the one the client holds. *)
Theorem refreshes_one_after_another (n : nat) (tokens : option SessionTokens) (c : Client SafeAuthUser) :
  reachable (started tokens (replicate n (me base))) c ->
  exists s, booked tokens (cl_log c) = Some s /\
    (cl_refresh_lock c = None -> lg_presenting s = false /\ lg_tokens s = cl_tokens c).
Proof.
  intros (p & -> & Hp)%follows_protocol. destruct (kept_books _ _ _ Hp) as (_ & s & Hb & Hag).
  exists s. split; [done|]. cbn. intros Hl. unfold agrees in Hag. rewrite Hl in Hag. by subst s.
Qed.

(** ** One refresh for a burst *)

Section burst.
Context (stale : string).

(** The refreshes go through and change the access token, and the access tokens
    that replace the stale one are honoured. *)
Definition goes_well (e : Event) : Prop :=
  match e with
  | EvAnswered request reply =>
      (forall token, request = refresh_request base token ->
         exists tokens, read_answer read_rotated_tokens reply = Ok tokens /\ rt_access_token tokens <> stale) /\
      (forall access, request = me_request base access -> access <> stale ->
         forall e, read_answer read_safe_user reply = Err e -> unauthorized e = false)
  | EvDropped request => is_refresh request = false
  | EvSent _ => True
  end.

Definition starts_refresh (e : Event) : bool := match e with EvSent request => is_refresh request | _ => false end.

Definition refreshes_sent (log : list Event) : nat := length (filter (fun e => starts_refresh e = true) log).

Definition rotated_to (tokens : option SessionTokens) : Prop := exists p, tokens = Some p /\ st_access p <> stale.
Definition unrotated (tokens : option SessionTokens) : Prop := exists p, tokens = Some p /\ st_access p = stale.

(** What a task knows at a point. *)
Definition knows (pt : Point) (tokens : option SessionTokens) : Prop :=
  match pt with
  | PtQueued a | PtCheck a => a = stale
  | PtAgain => rotated_to tokens
  | PtRetry a | PtRetrying a => a <> stale
  | PtDone outcome => forall e, outcome = Err e -> unauthorized e = false /\ e <> AceNoSession
  | _ => True
  end.

(** How many refreshes have gone out while the lock is held at a point. *)
Definition spent (pt : Point) (tokens : option SessionTokens) (sent : nat) : Prop :=
  match pt with
  | PtRead _ | PtPresent _ _ => unrotated tokens /\ sent = 0%nat
  | PtPresenting _ _ => unrotated tokens /\ sent = 1%nat
  | PtKeep _ rotated => rt_access_token rotated <> stale /\ unrotated tokens /\ sent = 1%nat
  | PtLeave outcome => outcome = Ok tt /\ rotated_to tokens /\ sent = 1%nat
  | _ => unrotated tokens /\ sent = 0%nat \/ rotated_to tokens /\ sent = 1%nat
  end.

Definition on_course (p : Protocol) : Prop :=
  (forall i pt, pr_points p !! i = Some pt -> knows pt (pr_tokens p)) /\
  match pr_lock p with
  | None => spent PtStart (pr_tokens p) (refreshes_sent (pr_log p))
  | Some i => forall pt, pr_points p !! i = Some pt -> spent pt (pr_tokens p) (refreshes_sent (pr_log p))
  end.

Lemma refreshes_sent_app (log evs : list Event) : refreshes_sent (log ++ evs) = (refreshes_sent log + refreshes_sent evs)%nat.
Proof. unfold refreshes_sent. by rewrite filter_app, length_app. Qed.

Lemma refreshes_sent_one (request : Request) : refreshes_sent [EvSent request] = if is_refresh request then 1%nat else 0%nat.
Proof. unfold refreshes_sent. rewrite filter_cons. cbn. by destruct (is_refresh request). Qed.

Lemma rotated_not (tokens : option SessionTokens) : rotated_to tokens -> unrotated tokens -> False.
Proof. intros (p & -> & Hp) (q & [= <-] & Hq). done. Qed.

Lemma no_session_read {T} (read : string -> result string T) (reply : Reply) : read_answer read reply = Err AceNoSession -> False.
Proof.
  unfold read_answer, parse_api_error. destruct reply as [[status bytes]|text]; [|done].
  destruct (is_success status); [by destruct (read bytes)|]. by destruct (read_envelope bytes) as [[[? ?] ?]|].
Qed.

(** What the mover knows, what the others go on knowing, and the count. *)
Lemma holder_course (i : nat) (pt pt' : Point) (t t' : option SessionTokens) (l l' : option nat) (evs : list Event) (sent : nat) :
  moves i pt t l pt' t' l' evs -> Forall goes_well evs -> holds pt = true -> knows pt t -> spent pt t sent ->
  knows pt' t' /\ (rotated_to t -> rotated_to t') /\
  spent (if holds pt' then pt' else PtStart) t' (sent + refreshes_sent evs).
Proof.
  destruct 1; cbn [holds]; try done; intros Hw _ Hk Hsp; cbn [knows spent] in *; rewrite ?refreshes_sent_one, ?refresh_is_refresh;
    repeat match goal with |- context [refreshes_sent ?evs] => change (refreshes_sent evs) with 0%nat end; rewrite ?Nat.add_0_r.
  - destruct Hsp as [[(q & [= <-] & Hq) _]|[Hr ->]]; [congruence | by split_and!].
  - split; [done|]. split; [done|]. destruct Hsp as [Hsp|[(q & -> & Hq) _]]; [done|]. exfalso. apply Hq. rewrite <- Hk. by apply H0.
  - destruct Hsp as [Hu ->]. by split_and!.
  - by destruct Hsp as [(q & [=] & _) _].
  - destruct Hsp as [Hu ->]. by split_and!.
  - apply list.Forall_cons in Hw as [[Hw _] _]. destruct (Hw r eq_refl) as (tk & Hok & Hne). rewrite H0 in Hok. injection Hok as ->.
    destruct Hsp as [Hu ->]. by split_and!.
  - apply list.Forall_cons in Hw as [[Hw _] _]. destruct (Hw r eq_refl) as (tk & Hok & Hne). congruence.
  - apply list.Forall_cons in Hw as [Hw _]. cbn in Hw. by rewrite refresh_is_refresh in Hw.
  - destruct Hsp as (Hne & Hu & ->). split_and!; [done | intros Hr; by destruct (rotated_not _ Hr Hu) | done | by exists (pair_of tokens) | done].
  - destruct Hsp as (_ & Hr & ->). split; [done|]. split; [done|]. by right.
  - by destruct Hsp as ([=] & _).
Qed.

Lemma bystander_course (i : nat) (pt pt' : Point) (t t' : option SessionTokens) (l l' : option nat) (evs : list Event) (sent : nat) :
  moves i pt t l pt' t' l' evs -> Forall goes_well evs -> holds pt = false -> knows pt t -> is_Some t ->
  knows pt' t' /\ t' = t /\ refreshes_sent evs = 0%nat /\ (holds pt' = true -> spent PtStart t sent -> spent pt' t' sent).
Proof.
  destruct 1; cbn [holds]; try done; intros Hw _ Hk [q Ht]; cbn [knows spent] in *;
    rewrite ?refreshes_sent_one, ?me_is_no_refresh; try congruence.
  all: try (split_and!; done).
  - (* refused with the stale token *)
    split_and!; [|done|done|done]. apply list.Forall_cons in Hw as [[_ Hw] _]. destruct (decide (a = stale)) as [|Hne]; [done|].
    rewrite (Hw a eq_refl Hne e H0) in H1. done.
  - split_and!; [|done|done|done]. intros e He. split; [by apply H0|]. intros ->. apply no_session_read in He. done.
  - split_and!; [|done|done|done]. destruct Hk as (p' & [= <-] & Hne). done.
  - split_and!; [|done|done|done]. apply list.Forall_cons in Hw as [[_ Hw] _]. intros e He.
    split; [by apply (Hw a eq_refl Hk)|]. intros ->. apply no_session_read in He. done.
Qed.

Lemma spent_some (pt : Point) (tokens : option SessionTokens) (sent : nat) : spent pt tokens sent -> is_Some tokens.
Proof.
  assert (Hu : unrotated tokens -> is_Some tokens) by (intros (p & -> & _); by eexists).
  assert (Hr : rotated_to tokens -> is_Some tokens) by (intros (p & -> & _); by eexists).
  destruct pt; cbn; tauto.
Qed.

Lemma knows_on (pt : Point) (t t' : option SessionTokens) : (rotated_to t -> rotated_to t') -> knows pt t -> knows pt t'.
Proof. destruct pt; cbn; auto. Qed.

Lemma course_some (p : Protocol) : owned p -> on_course p -> is_Some (pr_tokens p).
Proof.
  intros [_ Hi] [_ Hsp]. destruct (pr_lock p) as [i|]; [|by eapply spent_some].
  destruct (Hi i eq_refl) as (pt & Hpt & _). eapply spent_some. by apply Hsp.
Qed.

Lemma course_step (p p' : Protocol) :
  owned p -> on_course p -> protocol_step p p' -> Forall goes_well (pr_log p') -> on_course p'.
Proof.
  intros Hown Hc Hs Hw. pose proof (course_some _ Hown Hc) as Hsome. destruct Hc as [Hk Hsp].
  destruct Hs as [i pt pt' t t' l l' evs pts log Hpt Hmv].
  pose proof (owned_iff _ _ _ Hown Hpt) as Hiff. cbn in Hiff. pose proof (moves_lock _ _ _ _ _ _ _ _ Hmv Hiff) as Hl.
  assert (Hlen : (i < length pts)%nat) by by eapply lookup_lt_Some.
  cbn [pr_tokens pr_lock pr_points pr_log] in *. apply Forall_app in Hw as [_ Hw].
  assert (Hothers : knows pt' t' -> (rotated_to t -> rotated_to t') -> forall j ptj, <[i := pt']> pts !! j = Some ptj -> knows ptj t').
  { intros Hk' Hr j ptj Hj. destruct (decide (i = j)) as [<-|Hne].
    - rewrite list_lookup_insert_eq in Hj by done. by injection Hj as <-.
    - rewrite list_lookup_insert_ne in Hj by done. eapply knows_on; [exact Hr | by eapply Hk]. }
  unfold on_course. cbn [pr_tokens pr_lock pr_points pr_log]. rewrite refreshes_sent_app. destruct (holds pt) eqn:Hp.
  - destruct Hiff as [Hiff _]. specialize (Hiff eq_refl) as ->.
    destruct (holder_course _ _ _ _ _ _ _ _ _ Hmv Hw Hp (Hk i pt Hpt) (Hsp pt Hpt)) as (Hk' & Hr & Hsp').
    split; [by apply Hothers|]. destruct (holds pt'); rewrite Hl; [|exact Hsp']. intros ptj.
    rewrite list_lookup_insert_eq by done. by intros [= <-].
  - destruct (bystander_course _ _ _ _ _ _ _ _ (refreshes_sent log) Hmv Hw Hp (Hk i pt Hpt) Hsome) as (Hk' & -> & -> & Hsp').
    rewrite Nat.add_0_r. split; [by apply Hothers|]. destruct (holds pt') eqn:Hp'.
    + destruct Hl as [-> ->]. intros ptj. rewrite list_lookup_insert_eq by done. intros [= <-]. by apply Hsp'.
    + rewrite Hl. destruct l as [j|]; [|done]. intros ptj Hj. destruct (decide (i = j)) as [<-|Hne].
      * destruct Hiff as [_ Hiff]. by specialize (Hiff eq_refl).
      * rewrite list_lookup_insert_ne in Hj by done. by apply Hsp.
Qed.

Lemma done_point (pt : Point) (r : result AuthClientError SafeAuthUser) : at_point pt = Running (Done r) -> pt = PtDone r.
Proof. destruct pt as [| | | | | | | | |[]| | | | |]; cbn; try done. by intros [= ->]. Qed.

(** C28. One refresh for a burst.  When any number of profile reads find the same
    access token expired, and the server takes the refresh and honours what it
    returned, at most one refresh is sent, whatever the interleaving; and no read
    that finishes fails for the want of a valid token. *)
Theorem burst_refreshes_once (n : nat) (held : SessionTokens) (c : Client SafeAuthUser) :
  st_access held = stale -> reachable (started (Some held) (replicate n (me base))) c -> Forall goes_well (cl_log c) ->
  (refreshes_sent (cl_log c) <= 1)%nat /\
  forall i e, cl_tasks c !! i = Some (Running (Done (Err e))) -> unauthorized e = false /\ e <> AceNoSession.
Proof.
  intros Hst (p & -> & Hp)%follows_protocol Hw. assert (Hc : owned p /\ on_course p).
  { cbn in Hw. induction Hp as [|p p' Hp IH Hs].
    - split; [apply owned_reading|]. split; cbn; [|by left; split; [exists held|]]. by intros i pt [-> _]%lookup_replicate.
    - assert (Hw' : Forall goes_well (pr_log p)) by (destruct Hs; cbn in *; by apply Forall_app in Hw as [? _]).
      destruct (IH Hw') as [Hown Hc]. split; [by eapply owned_step | by eapply course_step]. }
  destruct Hc as [Hown [Hk Hsp]]. split.
  - cbn [as_client cl_log]. assert (Hone : forall pt, spent pt (pr_tokens p) (refreshes_sent (pr_log p)) -> (refreshes_sent (pr_log p) <= 1)%nat).
    { intros pt Hx. destruct pt; cbn [spent] in Hx; destruct_or?; destruct_and?; lia. }
    destruct (pr_lock p) as [i|] eqn:Hl; [|by apply (Hone PtStart)].
    destruct Hown as [_ Hi]. destruct (Hi i Hl) as (pt & Hpt & _). by eapply Hone, Hsp.
  - intros i e. cbn. rewrite list_lookup_fmap. destruct (pr_points p !! i) as [pt|] eqn:Hpt; [|done]. intros [= Hd].
    apply done_point in Hd as ->. by apply (Hk i _ Hpt e).
Qed.
End burst.
End client.
