(* ===== verification/ApiKey.v ===== *)
(** * Service API keys

    Models [crates/bymax-auth-crypto/src/api_key.rs]: the grammar of a key, its
    secret and how it is drawn, and the digest that is stored and compared. *)

From S2P Require Import Prelude Types Crypto.
#[local] Open Scope Z_scope.

Definition SEPARATOR : string := "_".
Definition DEFAULT_PREFIX : string := "bak".
Definition KEY_ID_LEN : nat := 36.
Definition SECRET_LEN : nat := 43.
Definition DIGEST_LEN : nat := 32.
Definition SECRET_BYTES : nat := 32.
Definition DIGEST_HEX_LEN : nat := DIGEST_LEN * 2.
Definition DUMMY_KEY_ID : string := "00000000-0000-4000-8000-000000000000".
Definition DUMMY_SECRET : string := "AAAAAAAAAAAAAAAAAAAAAAAAAAAAAAAAAAAAAAAAAAA".
Definition DUMMY_DIGEST : string := "0000000000000000000000000000000000000000000000000000000000000000".
Definition BASE64URL : string := "ABCDEFGHIJKLMNOPQRSTUVWXYZabcdefghijklmnopqrstuvwxyz0123456789-_".

Record ParsedApiKey : Set := { ak_key_id : string; ak_secret : string }.

(** ** The secret *)

Definition base64url_char (index : Z) : ascii := default "A"%char (String.get (Z.to_nat index) BASE64URL).

(** Three bytes are one group of 24 bits, read as four indices of six. *)
Definition group_char (n shift : Z) : ascii := base64url_char ((n / shift) mod 64).
Definition group (b0 b1 b2 : Z) : Z := b0 * 65536 + b1 * 256 + b2.

Fixpoint encode_base64url (bytes : string) : string :=
  match bytes with
  | EmptyString => EmptyString
  | String b0 EmptyString =>
      let n := group (byte_z b0) 0 0 in
      String (group_char n 262144) (String (group_char n 4096) EmptyString)
  | String b0 (String b1 EmptyString) =>
      let n := group (byte_z b0) (byte_z b1) 0 in
      String (group_char n 262144) (String (group_char n 4096) (String (group_char n 64) EmptyString))
  | String b0 (String b1 (String b2 rest)) =>
      let n := group (byte_z b0) (byte_z b1) (byte_z b2) in
      String (group_char n 262144) (String (group_char n 4096) (String (group_char n 64) (String (group_char n 1) (encode_base64url rest))))
  end.

Definition generate_secret `{Host} (draw : nat) : string := encode_base64url (entropy draw SECRET_BYTES).

(** ** The grammar *)

Definition format (prefix key_id secret : string) : string := prefix +:+ SEPARATOR +:+ key_id +:+ SEPARATOR +:+ secret.

(** [str::is_char_boundary], and the slices that answer nothing off a boundary. *)
Definition is_char_boundary (s : string) (i : nat) : bool :=
  Nat.eqb i 0 || Nat.eqb i (String.length s) ||
  match String.get i s with Some b => negb (bool_decide (128 <= byte_z b <= 191)) | None => false end.

Definition str_to (i : nat) (s : string) : option string :=
  if is_char_boundary s i then Some (String.substring 0 i s) else None.
Definition str_from (i : nat) (s : string) : option string :=
  if is_char_boundary s i then Some (String.substring i (String.length s - i) s) else None.

Definition is_hyphen_position (i : nat) : bool := bool_decide (i ∈ [8; 13; 18; 23]%nat).

Fixpoint uuid_from (i : nat) (s : string) : bool :=
  match s with
  | EmptyString => true
  | String b s' => (if is_hyphen_position i then bool_decide (b = "-"%char) else is_lower_hex b) && uuid_from (S i) s'
  end.

Definition is_key_id (s : string) : bool := Nat.eqb (String.length s) KEY_ID_LEN && uuid_from 0 s.

Definition is_base64url (b : ascii) : bool := contains_char b BASE64URL.

Definition is_secret (s : string) : bool := Nat.eqb (String.length s) SECRET_LEN && string_all is_base64url s.

Definition parse (raw prefix : string) : option ParsedApiKey :=
  rest ← strip_prefix prefix raw;
  rest ← strip_prefix SEPARATOR rest;
  key_id ← str_to KEY_ID_LEN rest;
  if negb (bool_decide (String.get KEY_ID_LEN rest = Some "_"%char)) then None else
  secret ← str_from (S KEY_ID_LEN) rest;
  if is_key_id key_id && is_secret secret then Some {| ak_key_id := key_id; ak_secret := secret |} else None.

(** ** The digest *)

Definition digest `{Crypto} (secret pepper : string) : string := to_hex (hmac_sha256 pepper secret).

Definition nibble (b : ascii) : Z := if is_ascii_digit b then byte_z b - 48 else byte_z b - 97 + 10.

Fixpoint pair_nibbles (hex : string) : string :=
  match hex with
  | String h (String l rest) => String (z_byte (nibble h * 16 + nibble l)) (pair_nibbles rest)
  | _ => EmptyString
  end.

Fixpoint zeros (n : nat) : string := match n with O => EmptyString | S n => String (z_byte 0) (zeros n) end.

Definition decode_digest (hex : string) : string * bool :=
  let well_formed := Nat.eqb (String.length hex) DIGEST_HEX_LEN && string_all is_lower_hex hex in
  (if well_formed then pair_nibbles hex else zeros DIGEST_LEN, well_formed).

Definition digests_match (computed stored : string) : bool :=
  let '(computed, left_ok) := decode_digest computed in
  let '(stored, right_ok) := decode_digest stored in
  let equal := constant_time_eq computed stored in
  equal && left_ok && right_ok.

(** ** The grammar is exact *)

Lemma substring_all (s : string) : String.substring 0 (String.length s) s = s.
Proof. induction s as [|b s IH]; [done|]. cbn. by rewrite IH. Qed.

Lemma substring_cut (i : nat) (s : string) :
  (i <= String.length s)%nat -> s = String.substring 0 i s +:+ String.substring i (String.length s - i) s.
Proof.
  revert s. induction i as [|i IH]; intros s Hi.
  - rewrite Nat.sub_0_r, substring_all. by destruct s.
  - destruct s as [|b s]; [cbn in Hi; lia|]. cbn [String.substring String.length Nat.sub]. rewrite string_app_cons. f_equal.
    apply IH. cbn in Hi. lia.
Qed.

Lemma substring_app_left (a b : string) : String.substring 0 (String.length a) (a +:+ b) = a.
Proof. induction a as [|x a IH]; [by destruct b|]. rewrite string_app_cons. cbn. by rewrite IH. Qed.

Lemma substring_app_right (a b : string) : String.substring (String.length a) (String.length (a +:+ b) - String.length a) (a +:+ b) = b.
Proof.
  induction a as [|x a IH]; [|rewrite string_app_cons; exact IH]. cbn [String.length]. rewrite string_app_nil_l. rewrite Nat.sub_0_r. apply substring_all.
Qed.

Lemma get_app_right (a b : string) : String.get (String.length a) (a +:+ b) = String.get 0 b.
Proof. induction a as [|x a IH]; [done | rewrite string_app_cons; exact IH]. Qed.

Lemma substring_succ (i : nat) (s : string) (b : ascii) :
  String.get i s = Some b -> String.substring i (String.length s - i) s = String b (String.substring (S i) (String.length s - S i) s).
Proof.
  revert s. induction i as [|i IH]; intros [|c s]; cbn [String.get]; try done.
  - intros [= ->]. cbn [String.length String.substring Nat.sub]. rewrite Nat.sub_0_r. done.
  - intros Hg. exact (IH s Hg).
Qed.

Lemma get_some_length (i : nat) (s : string) (b : ascii) : String.get i s = Some b -> (i < String.length s)%nat.
Proof. revert s. induction i as [|i IH]; intros [|c s]; cbn; try done; [lia | intros Hg; apply IH in Hg; lia]. Qed.

Lemma not_continuation (b : ascii) : is_base64url b = true -> negb (bool_decide (128 <= byte_z b <= 191)) = true.
Proof. destruct b as [[] [] [] [] [] [] [] []]; by vm_compute. Qed.

Lemma is_key_id_length (s : string) : is_key_id s = true -> String.length s = KEY_ID_LEN.
Proof. unfold is_key_id. rewrite andb_true_iff. intros [?%Nat.eqb_eq _]. done. Qed.

(** The grammar of a key.  A presented key is split into an identifier and a
    secret exactly when it is the prefix, the identifier and the secret joined by
    the separator, the identifier a canonical lowercase UUID and the secret 43
    base64url characters, which may hold separators of their own.  So no string
    is read in two ways, and every key that was formatted is read back. *)
Theorem parse_exact (raw prefix : string) (key : ParsedApiKey) :
  parse raw prefix = Some key <->
  raw = format prefix (ak_key_id key) (ak_secret key) /\ is_key_id (ak_key_id key) = true /\ is_secret (ak_secret key) = true.
Proof.
  unfold parse, format. split.
  - destruct (strip_prefix prefix raw) as [rest|] eqn:Hp; [|done]. cbn [mbind option_bind].
    apply strip_prefix_Some in Hp as ->. destruct (strip_prefix SEPARATOR rest) as [rest'|] eqn:Hs; [|done]. cbn [mbind option_bind].
    apply strip_prefix_Some in Hs as ->. unfold str_to. destruct (is_char_boundary rest' KEY_ID_LEN); [|done]. cbn [mbind option_bind].
    case_bool_decide as Hg; [|done]. cbn [negb]. unfold str_from. destruct (is_char_boundary rest' (S KEY_ID_LEN)); [|done].
    cbn [mbind option_bind]. destruct (is_key_id _) eqn:Hk; [|done]. destruct (is_secret _) eqn:Hsec; [|done]. cbn [andb].
    intros [= <-]. cbn [ak_key_id ak_secret]. split_and!; [|done|done]. do 2 f_equal.
    rewrite (substring_cut KEY_ID_LEN rest') at 1 by (apply get_some_length in Hg; lia). f_equal.
    by rewrite (substring_succ _ _ _ Hg).
  - intros (-> & Hk & Hs). rewrite strip_prefix_app. cbn [mbind option_bind]. rewrite strip_prefix_app. cbn [mbind option_bind].
    pose proof (is_key_id_length _ Hk) as Hl. destruct key as [key_id secret]. cbn [ak_key_id ak_secret] in *.
    unfold str_to, str_from. assert (Hget : String.get KEY_ID_LEN (key_id +:+ SEPARATOR +:+ secret) = Some "_"%char)
      by (rewrite <- Hl, get_app_right; done).
    assert (Hb1 : is_char_boundary (key_id +:+ SEPARATOR +:+ secret) KEY_ID_LEN = true)
      by (unfold is_char_boundary; rewrite Hget; apply orb_true_r).
    rewrite Hb1. cbn [mbind option_bind]. rewrite bool_decide_eq_true_2 by done. cbn [negb].
    assert (Hl' : S KEY_ID_LEN = String.length (key_id +:+ SEPARATOR)) by (rewrite string_length_app, Hl; done).
    assert (Hb2 : is_char_boundary (key_id +:+ SEPARATOR +:+ secret) (S KEY_ID_LEN) = true).
    { unfold is_char_boundary. rewrite <- string_app_assoc, Hl', get_app_right. unfold is_secret in Hs.
      apply andb_true_iff in Hs as [Hsl Hsa]. destruct secret as [|b secret]; [done|]. cbn [String.get]. cbn in Hsa.
      apply andb_true_iff in Hsa as [Hb _]. by rewrite (not_continuation _ Hb), !orb_true_r. }
    rewrite Hb2. cbn [mbind option_bind].
    assert (H1 : String.substring 0 KEY_ID_LEN (key_id +:+ SEPARATOR +:+ secret) = key_id)
      by (rewrite <- Hl; apply substring_app_left).
    assert (H2 : String.substring (S KEY_ID_LEN) (String.length (key_id +:+ SEPARATOR +:+ secret) - S KEY_ID_LEN)
                   (key_id +:+ SEPARATOR +:+ secret) = secret)
      by (rewrite Hl', <- string_app_assoc; apply substring_app_right).
    rewrite H1, H2, Hk, Hs. done.
Qed.

(** ** Digests *)

Lemma z_byte_inj (x y : Z) : 0 <= x < 256 -> 0 <= y < 256 -> z_byte x = z_byte y -> x = y.
Proof.
  intros Hx Hy Heq. assert (Hb : byte_z (z_byte x) = byte_z (z_byte y)) by by rewrite Heq.
  unfold byte_z, z_byte in Hb. rewrite !N_ascii_embedding in Hb; lia.
Qed.

Lemma nibble_inj (a b : ascii) : is_lower_hex a = true -> is_lower_hex b = true -> nibble a = nibble b -> a = b.
Proof.
  assert (Hdec : forall c, is_lower_hex c = true -> c = hex_digit (nibble c))
    by (intros [[] [] [] [] [] [] [] []]; by vm_compute).
  intros Ha Hb Heq. by rewrite (Hdec a Ha), (Hdec b Hb), Heq.
Qed.

Lemma nibble_range (a : ascii) : is_lower_hex a = true -> 0 <= nibble a < 16.
Proof.
  unfold nibble, is_lower_hex. destruct (is_ascii_digit a) eqn:Hd; unfold is_ascii_digit in Hd.
  - apply bool_decide_eq_true in Hd. lia.
  - cbn [orb]. intros Ha%bool_decide_eq_true. lia.
Qed.

Lemma string_pair_ind (P : string -> Prop) :
  P "" -> (forall a, P (String a "")) -> (forall a b s, P s -> P (String a (String b s))) -> forall s, P s.
Proof.
  intros H0 H1 H2. assert (Hboth : forall s, P s /\ forall a, P (String a s)); [|by intros s; apply Hboth].
  induction s as [|b s [IH IH']]; [by split|]. split; [apply IH' | intros a; by apply H2].
Qed.

Lemma pair_nibbles_inj (a b : string) :
  String.length a = String.length b -> Nat.even (String.length a) = true ->
  string_all is_lower_hex a = true -> string_all is_lower_hex b = true -> pair_nibbles a = pair_nibbles b -> a = b.
Proof.
  revert b. induction a as [|x|x y a IH] using string_pair_ind; intros b Hl He Ha Hb Heq.
  - by destruct b.
  - done.
  - destruct b as [|x' [|y' b]]; try discriminate Hl. cbn [string_all] in Ha, Hb. rewrite !andb_true_iff in Ha, Hb.
    destruct Ha as (Hx & Hy & Ha), Hb as (Hx' & Hy' & Hb). cbn [pair_nibbles] in Heq. injection Heq as H0 H1.
    pose proof (nibble_range _ Hx). pose proof (nibble_range _ Hy). pose proof (nibble_range _ Hx'). pose proof (nibble_range _ Hy').
    apply z_byte_inj in H0; [|lia ..].
    rewrite (nibble_inj x x'), (nibble_inj y y') by (first [done | lia]). do 2 f_equal.
    apply IH; try done. cbn in Hl. lia.
Qed.

Lemma decode_digest_ok (hex : string) : (decode_digest hex).2 = is_hex_token_shape hex.
Proof. reflexivity. Qed.

Lemma digests_match_exact (a b : string) : digests_match a b = true <-> a = b /\ is_hex_token_shape a = true.
Proof.
  unfold digests_match. pose proof (decode_digest_ok a) as Ha. pose proof (decode_digest_ok b) as Hb.
  destruct (decode_digest a) as [left ok] eqn:Hda, (decode_digest b) as [right ok'] eqn:Hdb. cbn in Ha, Hb. subst ok ok'.
  rewrite !andb_true_iff. unfold constant_time_eq. rewrite bool_decide_eq_true. split.
  - intros [[-> Hsa] Hsb]. split; [|done]. unfold decode_digest in Hda, Hdb.
    change (Nat.eqb (String.length a) DIGEST_HEX_LEN && string_all is_lower_hex a) with (is_hex_token_shape a) in Hda.
    change (Nat.eqb (String.length b) DIGEST_HEX_LEN && string_all is_lower_hex b) with (is_hex_token_shape b) in Hdb.
    rewrite Hsa in Hda. rewrite Hsb in Hdb. injection Hda as Hda. injection Hdb as Hdb.
    unfold is_hex_token_shape in Hsa, Hsb. apply andb_true_iff in Hsa as [Hla%Nat.eqb_eq Hha], Hsb as [Hlb%Nat.eqb_eq Hhb].
    apply pair_nibbles_inj; [by rewrite Hla, Hlb | by rewrite Hla | done | done | by rewrite Hda, Hdb].
  - intros [-> Hs]. rewrite Hda in Hdb. injection Hdb as ->. done.
Qed.

(** ** Issued keys *)

Lemma base64url_char_in (index : Z) : is_base64url (base64url_char index) = true.
Proof.
  unfold base64url_char. destruct (String.get (Z.to_nat index) BASE64URL) as [c|] eqn:Hg; [|reflexivity]. cbn [default].
  assert (Hin : forall s i c, String.get i s = Some c -> contains_char c s = true).
  { clear. induction s as [|x s IH]; intros [|i] c; cbn; try done.
    - intros [= ->]. unfold contains_char. cbn. by rewrite bool_decide_eq_true_2.
    - intros Hg%IH. unfold contains_char in *. cbn. rewrite negb_true_iff in *. by rewrite Hg, andb_false_r. }
  by eapply Hin.
Qed.

Lemma string_triple_ind (P : string -> Prop) :
  P "" -> (forall a, P (String a "")) -> (forall a b, P (String a (String b ""))) ->
  (forall a b c s, P s -> P (String a (String b (String c s)))) -> forall s, P s.
Proof.
  intros H0 H1 H2 H3. assert (Hall : forall s, P s /\ (forall a, P (String a s)) /\ forall a b, P (String a (String b s))); [|by intros s; apply Hall].
  induction s as [|c s (IH & IH1 & IH2)]; [by split_and!|]. split_and!; [apply IH1 | intros a; apply IH2 | intros a b; by apply H3].
Qed.

Lemma encode_alphabet (bytes : string) : string_all is_base64url (encode_base64url bytes) = true.
Proof.
  induction bytes as [|a|a b|a b c s IH] using string_triple_ind; cbn [encode_base64url string_all]; unfold group_char;
    by rewrite ?base64url_char_in.
Qed.

Lemma encode_length (bytes : string) : String.length (encode_base64url bytes) = ((4 * String.length bytes + 2) / 3)%nat.
Proof.
  induction bytes as [|a|a b|a b c s IH] using string_triple_ind; try reflexivity.
  cbn [encode_base64url String.length]. rewrite IH.
  replace (4 * S (S (S (String.length s))) + 2)%nat with (4 * 3 + (4 * String.length s + 2))%nat by lia.
  rewrite Nat.div_add_l by lia. lia.
Qed.

Lemma base64url_char_inj (x y : Z) : 0 <= x < 64 -> 0 <= y < 64 -> base64url_char x = base64url_char y -> x = y.
Proof.
  assert (Hdec : forall i, (i < 64)%nat ->
    String.index 0 (String (base64url_char (Z.of_nat i)) "") BASE64URL = Some i).
  { intros i Hi. do 64 (destruct i as [|i]; [reflexivity|]). lia. }
  intros Hx Hy Heq. pose proof (Hdec (Z.to_nat x) ltac:(lia)) as H1. pose proof (Hdec (Z.to_nat y) ltac:(lia)) as H2.
  rewrite Z2Nat.id in H1, H2 by lia. rewrite Heq, H2 in H1. injection H1 as H1. lia.
Qed.

Lemma group_char_inj (n m shift : Z) : group_char n shift = group_char m shift -> (n / shift) mod 64 = (m / shift) mod 64.
Proof. intros Heq. apply base64url_char_inj in Heq; [done | apply Z.mod_pos_bound; lia ..]. Qed.

Lemma byte_z_range (b : ascii) : 0 <= byte_z b < 256.
Proof. unfold byte_z. pose proof (N_ascii_bounded b). lia. Qed.

Lemma byte_z_inj (a b : ascii) : byte_z a = byte_z b -> a = b.
Proof. unfold byte_z. intros H%N2Z.inj. by rewrite <- (ascii_N_embedding a), <- (ascii_N_embedding b), H. Qed.

(** The four indices give the group back. *)
Lemma group_indices (n : Z) :
  0 <= n < 16777216 -> n = (n / 262144) mod 64 * 262144 + (n / 4096) mod 64 * 4096 + (n / 64) mod 64 * 64 + (n / 1) mod 64.
Proof. intros Hn. Z.to_euclidean_division_equations. lia. Qed.

Lemma group_inj (a b c a' b' c' : Z) :
  0 <= a < 256 -> 0 <= b < 256 -> 0 <= c < 256 -> 0 <= a' < 256 -> 0 <= b' < 256 -> 0 <= c' < 256 ->
  group a b c = group a' b' c' -> a = a' /\ b = b' /\ c = c'.
Proof. unfold group. lia. Qed.

(** Different random bytes make different secrets: none of the entropy is lost. *)
Lemma encode_inj (a b : string) : String.length a = String.length b -> encode_base64url a = encode_base64url b -> a = b.
Proof.
  revert b. induction a as [|x|x y|x y z a IH] using string_triple_ind; intros b Hl Heq.
  - by destruct b.
  - destruct b as [|x' [|? ?]]; try discriminate Hl. cbn [encode_base64url] in Heq. injection Heq as H0 H1.
    apply group_char_inj in H0, H1. f_equal. apply byte_z_inj. pose proof (byte_z_range x). pose proof (byte_z_range x').
    unfold group in *. Z.to_euclidean_division_equations. lia.
  - destruct b as [|x' [|y' [|? ?]]]; try discriminate Hl. cbn [encode_base64url] in Heq. injection Heq as H0 H1 H2.
    apply group_char_inj in H0, H1, H2. pose proof (byte_z_range x). pose proof (byte_z_range x'). pose proof (byte_z_range y). pose proof (byte_z_range y').
    assert (Hg : group (byte_z x) (byte_z y) 0 = group (byte_z x') (byte_z y') 0).
    { rewrite (group_indices (group (byte_z x) (byte_z y) 0)), (group_indices (group (byte_z x') (byte_z y') 0)) by (unfold group; lia).
      rewrite H0, H1, H2. f_equal. unfold group. Z.to_euclidean_division_equations. lia. }
    apply group_inj in Hg as (Hx & Hy & _); [|lia ..]. by rewrite (byte_z_inj _ _ Hx), (byte_z_inj _ _ Hy).
  - destruct b as [|x' [|y' [|z' b]]]; try discriminate Hl. cbn [encode_base64url] in Heq. injection Heq as H0 H1 H2 H3 Heq.
    apply group_char_inj in H0, H1, H2, H3. pose proof (byte_z_range x). pose proof (byte_z_range x'). pose proof (byte_z_range y).
    pose proof (byte_z_range y'). pose proof (byte_z_range z). pose proof (byte_z_range z').
    assert (Hg : group (byte_z x) (byte_z y) (byte_z z) = group (byte_z x') (byte_z y') (byte_z z')).
    { rewrite (group_indices (group (byte_z x) (byte_z y) (byte_z z))), (group_indices (group (byte_z x') (byte_z y') (byte_z z'))) by (unfold group; lia).
      by rewrite H0, H1, H2, H3. }
    apply group_inj in Hg as (Hx & Hy & Hz); [|lia ..].
    rewrite (byte_z_inj _ _ Hx), (byte_z_inj _ _ Hy), (byte_z_inj _ _ Hz). do 3 f_equal. apply IH; [|done]. cbn in Hl. lia.
Qed.

Lemma update_byte_length (i : nat) (f : Z -> Z) (s : string) : String.length (update_byte i f s) = String.length s.
Proof.
  assert (Hl : forall l, String.length (String.string_of_list_ascii l) = length l)
    by (induction l as [|c l IH]; [done | cbn; by rewrite IH]).
  unfold update_byte. rewrite Hl, length_alter. clear. induction s as [|b s IH]; [done | cbn; by rewrite IH].
Qed.

Lemma uuid_text (s : string) :
  String.length s = 16%nat ->
  let hex := to_hex s in
  is_key_id (String.substring 0 8 hex +:+ "-" +:+ String.substring 8 4 hex +:+ "-" +:+ String.substring 12 4 hex +:+ "-" +:+
             String.substring 16 4 hex +:+ "-" +:+ String.substring 20 12 hex) = true.
Proof.
  intros Hl. do 16 (destruct s as [|? s]; [discriminate Hl|]). destruct s; [|discriminate Hl]. clear Hl.
  cbn [to_hex]. cbn [String.substring]. rewrite ?string_app_cons, ?string_app_nil_l.
  unfold is_key_id. cbn [String.length]. change (Nat.eqb _ KEY_ID_LEN) with true. cbn [andb uuid_from].
  repeat match goal with |- context [is_hyphen_position ?i] =>
    let v := eval vm_compute in (is_hyphen_position i) in change (is_hyphen_position i) with v end.
  cbv iota. rewrite ?string_app_cons, ?string_app_nil_l.
  repeat match goal with |- context [is_lower_hex (hex_digit (Z.shiftr (byte_z ?b) 4))] => rewrite (proj1 (to_hex_byte_lower b)) end.
  repeat match goal with |- context [is_lower_hex (hex_digit (Z.land (byte_z ?b) 15))] => rewrite (proj2 (to_hex_byte_lower b)) end.
  reflexivity.
Qed.

Lemma new_uuid_is_key_id `{HostLaws} (draw : nat) : is_key_id (new_uuid_v4 draw) = true.
Proof. apply uuid_text. by rewrite !update_byte_length, entropy_length. Qed.

Lemma generate_secret_is_secret `{HostLaws} (draw : nat) : is_secret (generate_secret draw) = true.
Proof. unfold is_secret, generate_secret. by rewrite encode_length, entropy_length, encode_alphabet. Qed.

(** An issued key verifies.  Whatever prefix a deployment uses, a key made of a
    fresh identifier and a drawn secret is read back into the two, the digest of
    its secret matches the stored one, and a key whose digest matches has a
    secret with the same HMAC under the pepper; a stored value that is not a
    digest matches nothing. *)
Theorem issued_key_verifies `{HostLaws, CryptoLaws} (id_draw secret_draw : nat) (prefix pepper : string) :
  let key := {| ak_key_id := new_uuid_v4 id_draw; ak_secret := generate_secret secret_draw |} in
  parse (format prefix (ak_key_id key) (ak_secret key)) prefix = Some key /\
  digests_match (digest (ak_secret key) pepper) (digest (ak_secret key) pepper) = true /\
  (forall secret stored, digests_match (digest secret pepper) stored = true <-> stored = to_hex (hmac_sha256 pepper secret)).
Proof.
  intros key. assert (Hshape : forall secret, is_hex_token_shape (digest secret pepper) = true).
  { intros secret. unfold is_hex_token_shape, digest. by rewrite to_hex_length, hmac_sha256_length, to_hex_lower. }
  split_and!.
  - apply parse_exact. split_and!; [done | apply new_uuid_is_key_id | apply generate_secret_is_secret].
  - by apply digests_match_exact.
  - intros secret stored. rewrite digests_match_exact. split; [by intros [<- _] | intros ->; by split].
Qed.

(** A secret may hold the separator. *)
Example separator_in_secret :
  parse ("bak_00000000-0000-4000-8000-000000000000_" +:+ "a_b_AAAAAAAAAAAAAAAAAAAAAAAAAAAAAAAAAAAAAAA") "bak" =
  Some {| ak_key_id := DUMMY_KEY_ID; ak_secret := "a_b_AAAAAAAAAAAAAAAAAAAAAAAAAAAAAAAAAAAAAAA" |}.
Proof. vm_compute. reflexivity. Qed.
