(* ===== verification/CommonPassword.v ===== *)
(** * The default password screen

    Models [crates/bymax-auth-core/src/traits/common_password.rs]: the word a
    password is reduced to, and the shapes that are refused. *)

From S2P Require Import Prelude Errors Types Crypto Engine Repository AuthCore Totp.
From stdpp Require Import list.
#[local] Open Scope Z_scope.

(** The tables behind [char::is_alphabetic] and [char::is_alphanumeric]. *)
Class UnicodeLetters : Type := {
  char_is_alphabetic : string -> bool;
  char_is_alphanumeric : string -> bool;
}.

Definition is_ascii_letter (c : ascii) : bool := bool_decide (65 <= byte_z c <= 90) || bool_decide (97 <= byte_z c <= 122).

Class UnicodeLettersLaws `{UnicodeText, UnicodeLetters} : Prop := {
  lowercase_ascii (s : string) : string_all is_ascii s = true -> str_to_lowercase s = to_ascii_lowercase s;
  alphabetic_ascii (c : ascii) : is_ascii c = true -> char_is_alphabetic (String c "") = is_ascii_letter c;
  alphanumeric_ascii (c : ascii) : is_ascii c = true -> char_is_alphanumeric (String c "") = is_ascii_alphanumeric c;
}.

Definition COMMON_BASE_WORDS : list string :=
  ["password"; "passwort"; "passwd"; "senha"; "contrasena"; "motdepasse"; "welcome"; "letmein"; "changeme";
   "secret"; "default"; "temporary"; "temppassword"; "admin"; "administrator"; "root"; "toor"; "guest"; "test";
   "testing"; "demo"; "sample"; "login"; "user"; "username"; "account"; "access"; "private"; "security"; "secure";
   "qwerty"; "qwertyui"; "qwertyuiop"; "azerty"; "qwertz"; "asdfgh"; "asdfghjk"; "asdfghjkl"; "zxcvbn"; "zxcvbnm";
   "qazwsx"; "qazwsxedc"; "wsxedc"; "qweasd"; "qweasdzxc"; "poiuytrewq"; "iloveyou"; "ilovegod"; "loveyou";
   "lovely"; "sweetheart"; "darling"; "princess"; "prince"; "sunshine"; "baby"; "angel"; "honey"; "butterfly";
   "flower"; "kisses"; "football"; "baseball"; "basketball"; "softball"; "soccer"; "hockey"; "liverpool";
   "arsenal"; "chelsea"; "barcelona"; "realmadrid"; "juventus"; "manutd"; "manchester"; "superman"; "batman";
   "spiderman"; "starwars"; "pokemon"; "minecraft"; "fortnite"; "thomas"; "harley"; "ferrari"; "porsche";
   "mercedes"; "corvette"; "mustang"; "michael"; "jennifer"; "jessica"; "ashley"; "daniel"; "charlie"; "matthew";
   "joshua"; "andrew"; "robert"; "william"; "nicole"; "hunter"; "jordan"; "taylor"; "george"; "maggie"; "buster";
   "shadow"; "ginger"; "tigger"; "pepper"; "cookie"; "peanut"; "snoopy"; "dragon"; "monkey"; "master"; "freedom";
   "whatever"; "trustno"; "nothing"; "anything"; "computer"; "internet"; "samsung"; "google"; "facebook"; "apple";
   "microsoft"; "windows"; "letmeinnow"; "iamgod"; "ihateyou"; "fuckyou"; "fuckoff"; "bullshit"; "asshole";
   "summer"; "winter"; "spring"; "autumn"; "january"; "february"; "october"; "november"; "december"; "september";
   "monday"; "friday"; "sunday"; "money"; "business"; "company"; "office"; "manager"; "director"; "service";
   "support"; "chocolate"; "cheese"; "orange"; "purple"; "yellow"; "silver"; "golden"; "diamond"; "phoenix";
   "thunder"; "lightning"; "warrior"; "ranger"; "killer"; "legend"; "forever"; "together"; "nevermind"; "whatsup";
   "blessed"; "jesus"; "jesuschrist"].

Definition SEQUENCE_ALPHABETS : list string := ["abcdefghijklmnopqrstuvwxyz"; "01234567890"; "qwertyuiopasdfghjklzxcvbnm"].

Definition MIN_BASE_LENGTH : nat := 4.

(** ** Reduction *)

Definition undo_leet (c : string) : string :=
  match c with
  | "0" => "o"
  | "1" => "i"
  | "3" => "e"
  | "4" => "a"
  | "5" => "s"
  | "7" => "t"
  | "8" => "b"
  | "9" => "g"
  | "@" => "a"
  | "$" => "s"
  | "!" | "|" => "i"
  | "+" => "t"
  | other => other
  end%string.

Fixpoint drop_matching (f : string -> bool) (cs : list string) : list string :=
  match cs with [] => [] | c :: cs' => if f c then drop_matching f cs' else cs end.

(** [str::trim_end_matches] with a predicate on characters. *)
Definition trim_end_chars (f : string -> bool) (cs : list string) : list string := reverse (drop_matching f (reverse cs)).

Section screen.
Context `{UnicodeText, UnicodeLetters}.

Definition reduce_to_base_word (password : string) : string :=
  let undecorated := trim_end_chars (fun c => negb (char_is_alphabetic c)) (chars (str_to_lowercase password)) in
  String.concat "" (filter (fun c => char_is_alphanumeric c = true) (undo_leet <$> undecorated)).

(** ** Shapes *)

Definition is_sequential (value : string) : bool :=
  existsb (fun alphabet =>
    let reversed := String.concat "" (reverse (chars alphabet)) in
    str_contains value alphabet || str_contains value reversed) SEQUENCE_ALPHABETS.

(** [slice::chunks]. *)
Fixpoint chunks_within {A} (fuel unit : nat) (l : list A) : list (list A) :=
  match fuel, l with
  | S fuel, _ :: _ => take unit l :: chunks_within fuel unit (drop unit l)
  | _, _ => []
  end.
Definition chunks {A} (unit : nat) (l : list A) : list (list A) := chunks_within (length l) unit l.

Definition is_padded_repeat (value : string) : bool :=
  let cs := chars value in
  existsb (fun unit =>
    Nat.ltb (unit * 2) (length cs) && Nat.eqb (length cs mod unit) 0
    && forallb (fun chunk => bool_decide (chunk = take unit cs)) (chunks unit cs)) [1; 2; 3; 4]%nat.

(** ** The screen *)

Record CommonPasswordChecker : Type := { cc_blocked : gset string }.

Definition new_checker : CommonPasswordChecker := {| cc_blocked := list_to_set COMMON_BASE_WORDS |}.

Definition with_extra_words (extra : list string) : CommonPasswordChecker :=
  {| cc_blocked := cc_blocked new_checker ∪ list_to_set (reduce_to_base_word <$> extra) |}.

Definition refuses (checker : CommonPasswordChecker) (password : string) : bool :=
  let base := reduce_to_base_word password in
  if Nat.ltb (length (chars base)) MIN_BASE_LENGTH then true else
  if bool_decide (base ∈ cc_blocked checker) then true else
  if match chars base with first :: rest => forallb (fun c => bool_decide (c = first)) rest | [] => false end then true else
  is_sequential base || is_padded_repeat base.

(** It leaves the host as it was. *)
Definition common_password_checker {U} (checker : CommonPasswordChecker) : PasswordBreachChecker U := {|
  Repository.is_breached password users := (refuses checker password, users);
|}.

(** ** What is refused *)

Lemma str_contains_spec (needle s : string) : str_contains needle s = true <-> exists pre post, s = pre +:+ needle +:+ post.
Proof.
  induction s as [|c s IH]; cbn [str_contains]; rewrite orb_true_iff; unfold starts_with.
  - split.
    + intros [Hs|[=]]. destruct (Prelude.strip_prefix needle "") as [r|] eqn:Hr; [|done]. apply strip_prefix_Some in Hr. exists "", r. done.
    + intros (pre & post & Heq). left. destruct pre; [|done]. rewrite string_app_nil_l in Heq. by rewrite Heq, strip_prefix_app.
  - rewrite IH. split.
    + intros [Hs|(pre & post & ->)].
      * destruct (Prelude.strip_prefix needle (String c s)) as [r|] eqn:Hr; [|done]. apply strip_prefix_Some in Hr. by exists "", r.
      * exists (String c pre), post. done.
    + intros ([|x pre] & post & Heq).
      * left. rewrite string_app_nil_l in Heq. by rewrite Heq, strip_prefix_app.
      * right. injection Heq as -> ->. by exists pre, post.
Qed.

(** A run along one of the alphabets, forwards or backwards. *)
Definition sequential (value : string) : Prop :=
  exists alphabet pre post, alphabet ∈ SEQUENCE_ALPHABETS /\
    (alphabet = pre +:+ value +:+ post \/ String.concat "" (reverse (chars alphabet)) = pre +:+ value +:+ post).

Lemma is_sequential_spec (value : string) : is_sequential value = true <-> sequential value.
Proof.
  unfold is_sequential, sequential. rewrite existsb_exists. split.
  - intros (alphabet & Hin & Hc). apply list_elem_of_In in Hin. apply orb_true_iff in Hc as [Hc|Hc];
      apply str_contains_spec in Hc as (pre & post & Heq); exists alphabet, pre, post; auto.
  - intros (alphabet & pre & post & Hin & Heq). exists alphabet. split; [by apply list_elem_of_In|]. apply orb_true_iff.
    destruct Heq as [Heq|Heq]; [left | right]; apply str_contains_spec; by exists pre, post.
Qed.

(** A unit of one to four characters, three times or more. *)
Definition padded_repeat {A} (cs : list A) : Prop :=
  exists unit n, (1 <= length unit <= 4)%nat /\ (3 <= n)%nat /\ cs = mjoin (replicate n unit).

Lemma repeated_S {A} (n : nat) (unit : list A) : mjoin (replicate (S n) unit) = unit ++ mjoin (replicate n unit).
Proof. reflexivity. Qed.

Lemma length_repeated {A} (n : nat) (unit : list A) : length (mjoin (replicate n unit)) = (n * length unit)%nat.
Proof. induction n as [|n IH]; [done|]. rewrite repeated_S, length_app, IH. lia. Qed.

Lemma chunks_within_all {A} (unit l : list A) (fuel : nat) :
  (0 < length unit)%nat -> (length l <= fuel)%nat -> (length l mod length unit = 0)%nat ->
  Forall (fun chunk => chunk = unit) (chunks_within fuel (length unit) l) <-> exists n, l = mjoin (replicate n unit).
Proof.
  intros Hu. revert l. induction fuel as [|fuel IH]; intros l Hf Hm.
  - destruct l; [|cbn in Hf; lia]. split; [by exists 0%nat | constructor].
  - destruct l as [|x l]; [split; [by exists 0%nat | constructor]|]. cbn [chunks_within].
    assert (Hge : (length unit <= length (x :: l))%nat).
    { apply Nat.Div0.mod_divides in Hm as [[|k] Hk]; [cbn in Hk; lia | rewrite Hk; lia]. }
    assert (Hd : length (drop (length unit) (x :: l)) = (length (x :: l) - length unit)%nat) by apply length_drop.
    rewrite list.Forall_cons, IH; [|rewrite Hd; cbn in *; lia|].
    + split.
      * intros [Ht [n Hn]]. exists (S n). rewrite repeated_S, <- Hn, <- Ht at 1. by rewrite take_drop.
      * intros [[|n] Hn]; [done|]. rewrite repeated_S in Hn. rewrite Hn. rewrite take_app_length. split; [done|]. exists n.
        by rewrite drop_app_length.
    + rewrite Hd. apply Nat.Div0.mod_divides in Hm as [k Hk]. apply Nat.Div0.mod_divides. exists (k - 1)%nat. rewrite Hk. nia.
Qed.

Lemma is_padded_repeat_spec (value : string) : is_padded_repeat value = true <-> padded_repeat (chars value).
Proof.
  unfold is_padded_repeat, padded_repeat. rewrite existsb_exists. generalize (chars value). intros cs. split.
  - intros (unit & Hin & Hc). rewrite !andb_true_iff in Hc. destruct Hc as [[Hl%Nat.ltb_lt Hm%Nat.eqb_eq] Hall].
    assert (Hu : (1 <= unit <= 4)%nat) by (cbn in Hin; lia).
    assert (Ht : length (take unit cs) = unit) by (rewrite length_take; lia).
    assert (Hf : Forall (fun chunk => chunk = take unit cs) (chunks (length (take unit cs)) cs)).
    { rewrite Ht. apply list.Forall_forall. intros chunk Hchunk. rewrite forallb_forall in Hall.
      apply list_elem_of_In, Hall in Hchunk. by apply bool_decide_eq_true in Hchunk. }
    apply chunks_within_all in Hf as [n Hn]; [|rewrite Ht; lia | lia | by rewrite Ht].
    exists (take unit cs), n. rewrite Ht. split_and!; [lia | lia | | done].
    rewrite Hn in Hl. rewrite length_repeated, Ht in Hl. nia.
  - intros (unit & n & Hu & Hn & ->). exists (length unit). split; [cbn; lia|]. rewrite length_repeated.
    assert (Htake : take (length unit) (mjoin (replicate n unit)) = unit).
    { destruct n as [|n]; [lia|]. by rewrite repeated_S, take_app_length. }
    rewrite Htake, !andb_true_iff. split_and!; [apply Nat.ltb_lt; nia | apply Nat.eqb_eq, Nat.Div0.mod_mul|].
    apply forallb_forall. intros chunk Hin. apply bool_decide_eq_true. apply list_elem_of_In in Hin. revert chunk Hin.
    apply list.Forall_forall. apply chunks_within_all; [lia | done | | by exists n]. rewrite length_repeated. apply Nat.Div0.mod_mul.
Qed.

Lemma one_character (cs : list string) :
  match cs with first :: rest => forallb (fun c => bool_decide (c = first)) rest | [] => false end = true <->
  exists c n, (0 < n)%nat /\ cs = replicate n c.
Proof.
  destruct cs as [|first rest].
  - split; [done|]. intros (c & [|n] & Hn & Heq); [lia | done].
  - split.
    + intros Hall. exists first, (S (length rest)). split; [lia|]. cbn. f_equal. rewrite forallb_forall in Hall.
      symmetry. apply replicate_as_elem_of. split; [done|]. intros c Hc. apply list_elem_of_In, Hall in Hc. by apply bool_decide_eq_true in Hc.
    + intros (c & [|n] & Hn & Heq); [lia|]. injection Heq as -> ->. apply forallb_forall. intros c' Hin.
      apply list_elem_of_In, elem_of_replicate in Hin as [-> _]. by apply bool_decide_eq_true.
Qed.

(** What the screen refuses.  A password is refused exactly when the word it
    reduces to has fewer than four characters, is a blocked word, is one
    character repeated, is a run along an alphabet or a keyboard in either
    direction, or is a unit of at most four characters repeated three times or
    more. *)
Theorem screen_exact (checker : CommonPasswordChecker) (password : string) :
  let base := reduce_to_base_word password in
  refuses checker password = true <->
  (length (chars base) < 4)%nat \/ base ∈ cc_blocked checker \/
  (exists c n, (0 < n)%nat /\ chars base = replicate n c) \/ sequential base \/ padded_repeat (chars base).
Proof.
  cbv zeta. unfold refuses. cbv zeta. rewrite <- is_sequential_spec, <- is_padded_repeat_spec, <- one_character.
  generalize (reduce_to_base_word password). intros base. unfold MIN_BASE_LENGTH. destruct (Nat.ltb_spec (length (chars base)) 4) as [Hl|Hl].
  - split; [by left | done].
  - case_bool_decide as Hb; [split; [by right; left | done]|].
    destruct (match chars base with first :: rest => _ | [] => false end) eqn:Hone.
    + split; [intros _; by right; right; left | done].
    + rewrite orb_true_iff. split; [tauto|]. intros [?|[?|[?|?]]]; [lia | done | done | done].
Qed.

(** ** Decorations *)

Section decorated.
Context `{!UnicodeLettersLaws}.

(** The characters of an ASCII string. *)
Fixpoint singles (s : string) : list string :=
  match s with EmptyString => [] | String c s' => String c "" :: singles s' end.

Lemma chars_singles (s : string) : string_all is_ascii s = true -> chars s = singles s.
Proof.
  induction s as [|c s IH]; [done|]. cbn [string_all singles]. intros [Hc Hs]%andb_true_iff. by rewrite chars_ascii, IH.
Qed.

Lemma singles_app (a b : string) : singles (a +:+ b) = singles a ++ singles b.
Proof. induction a as [|c a IH]; [done|]. rewrite string_app_cons. cbn. by rewrite IH. Qed.

Lemma concat_singles (s : string) : String.concat "" (singles s) = s.
Proof.
  induction s as [|c s IH]; [done|]. cbn [singles]. destruct s as [|d s]; [done|]. cbn [singles] in *.
  cbn [String.concat]. cbn [String.concat] in IH. rewrite IH. done.
Qed.

Lemma lowercase_keeps (s : string) : string_all is_ascii s = true -> string_all is_ascii (to_ascii_lowercase s) = true.
Proof.
  induction s as [|c s IH]; [done|]. cbn [string_all to_ascii_lowercase]. intros [Hc Hs]%andb_true_iff. rewrite IH by done.
  rewrite andb_true_r. revert Hc. destruct c as [[] [] [] [] [] [] [] []]; by vm_compute.
Qed.

Lemma lowercase_app (a b : string) : to_ascii_lowercase (a +:+ b) = to_ascii_lowercase a +:+ to_ascii_lowercase b.
Proof. induction a as [|c a IH]; [done|]. rewrite !string_app_cons. cbn [to_ascii_lowercase]. rewrite IH. done. Qed.

Lemma drop_matching_app (f : string -> bool) (l1 l2 : list string) :
  Forall (fun c => f c = true) l1 -> drop_matching f (l1 ++ l2) = drop_matching f l2.
Proof. induction 1 as [|c l1 Hc _ IH]; [done|]. cbn. by rewrite Hc. Qed.

Lemma trim_end_app (f : string -> bool) (l1 l2 : list string) :
  Forall (fun c => f c = true) l2 -> trim_end_chars f (l1 ++ l2) = trim_end_chars f l1.
Proof. intros Hl. unfold trim_end_chars. rewrite reverse_app. f_equal. apply drop_matching_app. by apply Forall_reverse. Qed.

Lemma trim_end_kept (f : string -> bool) (l : list string) (c : string) : f c = false -> trim_end_chars f (l ++ [c]) = l ++ [c].
Proof. intros Hc. unfold trim_end_chars. rewrite reverse_snoc. cbn [drop_matching]. rewrite Hc. by rewrite reverse_cons, reverse_involutive. Qed.

Lemma trim_end_none (f : string -> bool) (l : list string) : Forall (fun c => f c = false) l -> trim_end_chars f l = l.
Proof.
  intros Hl. unfold trim_end_chars. apply Forall_reverse in Hl. rewrite <- (reverse_involutive l) at 2. f_equal.
  destruct (reverse l) as [|c cs]; [done|]. apply list.Forall_cons in Hl as [Hc _]. cbn [drop_matching]. by rewrite Hc.
Qed.

Definition no_letter (s : string) : bool := string_all (fun c => negb (is_ascii_letter c)) s.

Lemma no_letter_lower (s : string) :
  string_all is_ascii s = true -> no_letter s = true ->
  Forall (fun c => negb (char_is_alphabetic c) = true) (singles (to_ascii_lowercase s)).
Proof.
  induction s as [|c s IH]; [constructor|]. unfold no_letter. cbn [string_all to_ascii_lowercase singles].
  intros [Hc Hs]%andb_true_iff [Hn Hns]%andb_true_iff. constructor; [|by apply IH].
  assert (Hlow : is_ascii (ascii_lower c) = true /\ is_ascii_letter (ascii_lower c) = false).
  { revert Hc Hn. destruct c as [[] [] [] [] [] [] [] []]; by vm_compute. }
  destruct Hlow as [Ha Hl]. by rewrite alphabetic_ascii, Hl.
Qed.

(** What follows the last letter is not seen. *)
Lemma decoration_stripped (v suffix : string) :
  string_all is_ascii v = true -> string_all is_ascii suffix = true -> no_letter suffix = true ->
  reduce_to_base_word (v +:+ suffix) = reduce_to_base_word v.
Proof.
  intros Hv Hs Hn. unfold reduce_to_base_word. rewrite !lowercase_ascii by (by rewrite ?string_all_app, ?Hv, ?Hs).
  rewrite !chars_singles by (apply lowercase_keeps; by rewrite ?string_all_app, ?Hv, ?Hs). rewrite lowercase_app, singles_app, trim_end_app; [done|].
  by apply no_letter_lower.
Qed.

(** Letter for letter, in either case, or a character that stands in for one. *)
Fixpoint disguises (v w : string) : bool :=
  match v, w with
  | EmptyString, EmptyString => true
  | String c v', String l w' => bool_decide (undo_leet (String (ascii_lower c) "") = String l "") && disguises v' w'
  | _, _ => false
  end.

Definition is_lower_letter (c : ascii) : bool := bool_decide (97 <= byte_z c <= 122).

Lemma disguised_chars (v w : string) :
  disguises v w = true -> undo_leet <$> singles (to_ascii_lowercase v) = singles w.
Proof.
  revert w. induction v as [|c v IH]; intros [|l w]; try done. cbn [disguises to_ascii_lowercase singles].
  intros [Hc Hv]%andb_true_iff. apply bool_decide_eq_true in Hc. cbn [fmap list_fmap]. rewrite Hc. f_equal. by apply IH.
Qed.

Lemma letters_kept (w : string) :
  string_all is_lower_letter w = true -> filter (fun c => char_is_alphanumeric c = true) (singles w) = singles w.
Proof.
  induction w as [|c w IH]; [done|]. cbn [string_all singles]. intros [Hc Hw]%andb_true_iff. rewrite filter_cons_True; [by rewrite IH|].
  assert (Ha : is_ascii c = true /\ is_ascii_alphanumeric c = true).
  { revert Hc. destruct c as [[] [] [] [] [] [] [] []]; by vm_compute. }
  destruct Ha as [Ha Han]. by rewrite alphanumeric_ascii.
Qed.

Lemma word_reduces (w : string) : string_all is_lower_letter w = true -> reduce_to_base_word w = w.
Proof.
  intros Hw. assert (Ha : string_all is_ascii w = true /\ to_ascii_lowercase w = w /\ undo_leet <$> singles w = singles w /\
    Forall (fun c => negb (char_is_alphabetic c) = false) (singles w)).
  { induction w as [|c w IH]; [done|]. cbn [string_all] in Hw. apply andb_true_iff in Hw as [Hc Hw].
    destruct (IH Hw) as (Ha & Hl & Hu & Hall).
    assert (Hp : is_ascii c = true /\ ascii_lower c = c /\ undo_leet (String c "") = String c "" /\ is_ascii_letter c = true).
    { revert Hc. clear. destruct c as [[] [] [] [] [] [] [] []]; by vm_compute. }
    destruct Hp as (Hpa & Hpl & Hpu & Hpt). cbn [string_all to_ascii_lowercase singles fmap list_fmap]. rewrite Hpa, Ha, Hpl, Hl, Hpu.
    split_and!; [done | done | by rewrite <- Hu at 2|]. constructor; [by rewrite alphabetic_ascii, Hpt | done]. }
  destruct Ha as (Ha & Hl & Hu & Hall). unfold reduce_to_base_word.
  rewrite lowercase_ascii, Hl, chars_singles, trim_end_none, Hu, letters_kept by done. apply concat_singles.
Qed.

(** The screen sees through decoration.  However a blocked word is written, in
    either case, with digits and signs standing in for its letters, and whatever
    digits, punctuation and blanks are put after its last letter, the password is
    refused: for every word the screen ships with and for every such word a
    deployment adds. *)
Theorem decorated_words_refused (extra : list string) (word v : string) (c : ascii) (suffix : string) :
  word ∈ COMMON_BASE_WORDS \/ word ∈ extra /\ string_all is_lower_letter word = true ->
  disguises (v +:+ String c "") word = true -> string_all is_ascii (v +:+ String c "") = true -> is_ascii_letter c = true ->
  string_all is_ascii suffix = true -> no_letter suffix = true ->
  refuses (with_extra_words extra) (v +:+ String c suffix) = true.
Proof.
  intros Hw Hd Hv Hc Hs Hn. assert (Hlow : string_all is_lower_letter word = true).
  { destruct Hw as [Hw|[_ Hw]]; [|done].
    assert (Hall : forallb (string_all is_lower_letter) COMMON_BASE_WORDS = true) by (vm_compute; reflexivity).
    rewrite forallb_forall in Hall. by apply Hall, list_elem_of_In. }
  assert (Hreduce : forall s u, string_all is_ascii s = true -> disguises s word = true -> s = u +:+ String c "" ->
    is_ascii_letter c = true -> reduce_to_base_word s = word).
  { intros s u Ha Hdis -> Hlet. unfold reduce_to_base_word.
    rewrite lowercase_ascii, chars_singles by (first [done | by apply lowercase_keeps]).
    pose proof (disguised_chars _ _ Hdis) as Hch. rewrite lowercase_app, singles_app in Hch |- *. cbn [to_ascii_lowercase singles] in Hch |- *.
    rewrite trim_end_kept; [rewrite Hch, letters_kept by done; apply concat_singles|].
    assert (Hl : is_ascii (ascii_lower c) = true /\ is_ascii_letter (ascii_lower c) = true).
    { revert Hlet. clear. destruct c as [[] [] [] [] [] [] [] []]; by vm_compute. }
    destruct Hl as [Hla Hll]. by rewrite alphabetic_ascii, Hll. }
  replace (v +:+ String c suffix) with ((v +:+ String c "") +:+ suffix) by (by rewrite string_app_assoc).
  apply screen_exact. rewrite decoration_stripped by done. rewrite (Hreduce (v +:+ String c "") v) by done. right. left.
  unfold with_extra_words. cbn [cc_blocked new_checker]. apply elem_of_union. destruct Hw as [Hw|[Hw _]].
  - left. by apply elem_of_list_to_set.
  - right. apply elem_of_list_to_set, list_elem_of_fmap. exists word. split; [|done].
    by rewrite word_reduces.
Qed.
End decorated.
End screen.
