(* ===== verification/Providers.v ===== *)
(** * The shipped HTTP collaborators

    Models [crates/bymax-auth-core/src/traits/http.rs] (the transport a host
    supplies), [traits/breach.rs] (the breach-corpus query) and
    [providers/google.rs] (the identity provider), which [OAuth.v] and the password
    flows take as parameters. *)

From S2P Require Import Prelude Errors Types Crypto Utf8 Jwt Redis RedisStores Engine Repository AuthCore Totp OAuth Config.
#[local] Open Scope Z_scope.

(** ** The transport *)

Inductive HttpMethod : Set := HmGet | HmPost.

Record HttpRequest : Set := {
  hq_method : HttpMethod;
  hq_url : string;
  hq_headers : list (string * string);
  hq_body : option string;
}.

Record HttpResponse : Set := {
  hr_status : Z;
  hr_headers : list (string * string);
  hr_body : string;
}.

Inductive HttpError : Set := HeTimeout | HeConnect (cause : string) | HeTransport (cause : string).

Definition http_error_text (error : HttpError) : string :=
  match error with
  | HeTimeout => "http transport timeout"
  | HeConnect cause => "http connect error: " +:+ cause
  | HeTransport cause => "http transport error: " +:+ cause
  end.

(** It acts on the host's state, which holds whatever it has seen. *)
Class HttpClient (U : Type) : Type := { http_send : HttpRequest -> M U HttpError HttpResponse }.

Definition is_success (status : Z) : bool := bool_decide (200 <= status < 300).

(** ** The breach corpus *)

Class Sha1 : Type := { sha1 : string -> string }.

Definition allow_all {U} : PasswordBreachChecker U := {| is_breached _ users := (false, users) |}.

Definition HIBP_RANGE_URL : string := "https://api.pwnedpasswords.com/range/".
Definition PREFIX_LENGTH : nat := 5.

Fixpoint to_ascii_uppercase (s : string) : string :=
  match s with EmptyString => EmptyString | String c s' => String (ascii_upper c) (to_ascii_uppercase s') end.

Section breach.
Context `{Sha1, UnicodeText} {U : Type} `{HttpClient U}.

(** A digest's hexadecimal is ASCII, and so is its upper case. *)
Definition corpus_index (password : string) : string := to_ascii_uppercase (to_hex (sha1 password)).
Definition index_prefix (password : string) : string := String.substring 0 PREFIX_LENGTH (corpus_index password).
Definition index_suffix (password : string) : string :=
  String.substring PREFIX_LENGTH (String.length (corpus_index password) - PREFIX_LENGTH) (corpus_index password).

Definition range_request (prefix : string) : HttpRequest := {|
  hq_method := HmGet;
  hq_url := HIBP_RANGE_URL +:+ prefix;
  hq_headers := [("Add-Padding", "true")];
  hq_body := None;
|}.

Definition names_suffix (suffix line : string) : bool :=
  match head (split_on ":" line) with
  | Some candidate => eq_ignore_ascii_case (str_trim candidate) suffix
  | None => false
  end.

Definition hibp_is_breached (password : string) (users : U) : bool * U :=
  let prefix := index_prefix password in
  let suffix := index_suffix password in
  let '(answer, users) := http_send (range_request prefix) users in
  match answer with
  | Err _ => (false, users)
  | Ok response =>
      if negb (is_success (hr_status response)) then (false, users) else
      match from_utf8 (hr_body response) with
      | None => (false, users)
      | Some body => (existsb (names_suffix suffix) (lines body), users)
      end
  end.

Definition hibp_checker : PasswordBreachChecker U := {| is_breached := hibp_is_breached |}.
End breach.

(** ** Google *)

Definition AUTHORIZE_ENDPOINT : string := "https://accounts.google.com/o/oauth2/v2/auth".
Definition TOKEN_ENDPOINT : string := "https://oauth2.googleapis.com/token".
Definition USERINFO_ENDPOINT : string := "https://www.googleapis.com/oauth2/v2/userinfo".
Definition DEFAULT_SCOPES : list string := ["openid"; "email"; "profile"].

Record GoogleTokenResponse : Set := {
  gt_access_token : string;
  gt_token_type : string;
  gt_expires_in : option Z;
  gt_scope : option string;
  gt_id_token : option string;
  gt_refresh_token : option string;
}.

Record GoogleUserInfo : Set := {
  gu_id : string;
  gu_email : string;
  gu_verified_email : option bool;
  gu_name : option string;
  gu_picture : option string;
}.

(** The derived readers of the two answers. *)
Class GoogleJson : Type := {
  read_token_response : string -> option GoogleTokenResponse;
  read_user_info : string -> option GoogleUserInfo;
}.

Fixpoint form_urlencode (pairs : list (string * string)) : string :=
  match pairs with
  | [] => ""
  | (key, value) :: rest =>
      let pair := percent_encode key +:+ "=" +:+ percent_encode value in
      match rest with [] => pair | _ => pair +:+ "&" +:+ form_urlencode rest end
  end.

Definition map_http_error (error : HttpError) : OAuthProviderError := OpeTransport (http_error_text error).

Record GoogleOAuthProvider : Set := {
  gp_client_id : string;
  gp_client_secret : string;
  gp_callback_url : string;
  gp_scope : list string;
}.

Definition new_google (config : Settings.GoogleOAuthConfig) : GoogleOAuthProvider := {|
  gp_client_id := Settings.go_client_id config;
  gp_client_secret := Settings.go_client_secret config;
  gp_callback_url := Settings.go_callback_url config;
  gp_scope := match Settings.go_scope config with [] => DEFAULT_SCOPES | scope => scope end;
|}.

Section google.
Context `{GoogleJson} {U : Type} `{HttpClient U} (provider : GoogleOAuthProvider).

Definition google_send (request : HttpRequest) : M U OAuthProviderError HttpResponse := catch_map map_http_error (http_send request).

Definition authorize_pairs (state : string) (code_challenge : option string) : list (string * string) :=
  [("response_type", "code"); ("client_id", gp_client_id provider); ("redirect_uri", gp_callback_url provider);
   ("scope", String.concat " " (gp_scope provider)); ("state", state)] ++
  match code_challenge with
  | Some challenge => [("code_challenge", challenge); ("code_challenge_method", "S256")]
  | None => []
  end.

Definition authorize_url (state : string) (code_challenge : option string) : string :=
  AUTHORIZE_ENDPOINT +:+ "?" +:+ form_urlencode (authorize_pairs state code_challenge).

Definition exchange_pairs (code : string) (code_verifier : option string) : list (string * string) :=
  [("code", code); ("client_id", gp_client_id provider); ("client_secret", gp_client_secret provider);
   ("redirect_uri", gp_callback_url provider); ("grant_type", "authorization_code")] ++
  match code_verifier with Some verifier => [("code_verifier", verifier)] | None => [] end.

Definition exchange_code (code : string) (code_verifier : option string) : M U OAuthProviderError OAuthTokens :=
  response ← google_send {|
    hq_method := HmPost;
    hq_url := TOKEN_ENDPOINT;
    hq_headers := [("content-type", "application/x-www-form-urlencoded"); ("accept", "application/json")];
    hq_body := Some (form_urlencode (exchange_pairs code code_verifier)) |};
  if negb (is_success (hr_status response)) then throw (OpeHttp (hr_status response)) else
  parsed ← lift (ok_or (OpeDecode "token response") (read_token_response (hr_body response)));
  if negb (eq_ignore_ascii_case (gt_token_type parsed) "bearer") then throw (OpeUnexpectedTokenType (gt_token_type parsed)) else
  mret {| ot_access_token := gt_access_token parsed; ot_token_type := gt_token_type parsed; ot_expires_in := gt_expires_in parsed;
          ot_scope := gt_scope parsed; ot_id_token := gt_id_token parsed; ot_refresh_token := gt_refresh_token parsed |}.

Definition fetch_profile (access_token : string) : M U OAuthProviderError OAuthProfile :=
  response ← google_send {|
    hq_method := HmGet;
    hq_url := USERINFO_ENDPOINT;
    hq_headers := [("authorization", "Bearer " +:+ access_token); ("accept", "application/json")];
    hq_body := None |};
  if negb (is_success (hr_status response)) then throw (OpeHttp (hr_status response)) else
  parsed ← lift (ok_or (OpeDecode "userinfo response") (read_user_info (hr_body response)));
  if negb (bool_decide (gu_verified_email parsed = Some true)) then throw OpeEmailNotVerified else
  mret {| op_provider := "google"; op_provider_id := gu_id parsed; op_email := gu_email parsed; op_email_verified := true;
          op_name := gu_name parsed; op_avatar := gu_picture parsed |}.

Definition google : OAuthProvider U := {|
  pv_name := "google";
  pv_authorize_url := authorize_url;
  pv_exchange_code := exchange_code;
  pv_fetch_profile := fetch_profile;
|}.
End google.

(** ** What the corpus learns *)

Section range.
Context `{Sha1, UnicodeText} {U : Type} `{HttpClient U}.

(** The breach query gives away five characters and fails open.  Two passwords
    whose digests begin alike leave the transport, and whoever it talks to, in the
    same state; one request is sent; a password is refused only for a line of a
    well-formed successful answer that names the rest of its digest, and whatever
    goes wrong on the way lets it pass. *)
Theorem range_query_reveals_prefix (password other : string) (users : U) :
  index_prefix other = index_prefix password ->
  (hibp_is_breached other users).2 = (hibp_is_breached password users).2 /\
  (hibp_is_breached password users).2 = (http_send (range_request (index_prefix password)) users).2 /\
  ((hibp_is_breached password users).1 = true <->
   exists response body line,
     (http_send (range_request (index_prefix password)) users).1 = Ok response /\ 200 <= hr_status response < 300 /\
     from_utf8 (hr_body response) = Some body /\ line ∈ lines body /\ names_suffix (index_suffix password) line = true).
Proof.
  intros Hp. unfold hibp_is_breached. rewrite Hp.
  destruct (http_send _ users) as [[response|e] users'] eqn:Hs; cbn [fst snd]; [|split_and!; [done | done |]; split; [done|]; by intros (? & ? & ? & [=] & _)].
  unfold is_success. case_bool_decide as Hst; cbn [negb]; [|split_and!; [done | done |]; split; [done|]; by intros (? & ? & ? & [= <-] & ? & _)].
  destruct (from_utf8 (hr_body response)) as [body|] eqn:Hu; [|split_and!; [done | done |]; split; [done|]; intros (? & ? & ? & [= <-] & _ & Hb & _); congruence].
  cbn [fst snd]. split_and!; [done | done |]. rewrite existsb_exists. split.
  - intros (line & Hin & Hn). exists response, body, line. by rewrite list_elem_of_In.
  - intros (? & ? & line & [= <-] & _ & Hb & Hin & Hn). rewrite Hu in Hb. injection Hb as <-. exists line. by rewrite <- list_elem_of_In.
Qed.
End range.

(** ** What Google reads *)

(** A form reader: pairs between [&], a key and a value around [=], each
    percent-decoded. *)
Definition unhex (c : ascii) : option Z :=
  if is_ascii_digit c then Some (byte_z c - 48)
  else if bool_decide (65 <= byte_z c <= 70) then Some (byte_z c - 55) else None.

Fixpoint percent_decode (s : string) : option string :=
  match s with
  | EmptyString => Some EmptyString
  | String c s' =>
      if bool_decide (c = "%"%char) then
        match s' with
        | String h (String l rest) =>
            high ← unhex h; low ← unhex l; decoded ← percent_decode rest; Some (String (z_byte (high * 16 + low)) decoded)
        | _ => None
        end
      else decoded ← percent_decode s'; Some (String c decoded)
  end.

Definition read_pair (piece : string) : option (string * string) :=
  '(key, value) ← split_once "=" piece; key ← percent_decode key; value ← percent_decode value; Some (key, value).

Definition parse_form (s : string) : option (list (string * string)) :=
  if string_is_empty s then Some [] else mapM read_pair (split_on "&" s).

Lemma percent_byte (b : ascii) :
  unhex (hex_upper (Z.shiftr (byte_z b) 4)) = Some (Z.shiftr (byte_z b) 4) /\
  unhex (hex_upper (Z.land (byte_z b) 15)) = Some (Z.land (byte_z b) 15) /\
  z_byte (Z.shiftr (byte_z b) 4 * 16 + Z.land (byte_z b) 15) = b.
Proof. destruct b as [[] [] [] [] [] [] [] []]; by vm_compute. Qed.

Lemma unreserved_plain (c : ascii) : unreserved c = true -> c <> "%"%char /\ c <> "&"%char /\ c <> "="%char.
Proof. destruct c as [[] [] [] [] [] [] [] []]; vm_compute; done. Qed.

Lemma percent_decode_encode (s : string) : percent_decode (percent_encode s) = Some s.
Proof.
  induction s as [|b s IH]; [done|]. cbn [percent_encode]. destruct (unreserved b) eqn:Hu.
  - destruct (unreserved_plain _ Hu) as (Hp & _ & _). cbn [percent_decode]. rewrite bool_decide_eq_false_2 by done. by rewrite IH.
  - cbn [percent_decode]. rewrite bool_decide_eq_true_2 by done. destruct (percent_byte b) as (-> & -> & Hb).
    cbn [mbind option_bind]. rewrite IH. cbn [mbind option_bind]. by rewrite Hb.
Qed.

Lemma hex_upper_plain (b : ascii) :
  Forall (fun c => c <> "&"%char /\ c <> "="%char) [hex_upper (Z.shiftr (byte_z b) 4); hex_upper (Z.land (byte_z b) 15)].
Proof. destruct b as [[] [] [] [] [] [] [] []]; vm_compute; repeat constructor; done. Qed.

Lemma contains_cons (x c : ascii) (s : string) : x <> c -> contains_char x s = false -> contains_char x (String c s) = false.
Proof. unfold contains_char. cbn [string_all]. rewrite !negb_false_iff. intros Hc ->. by rewrite bool_decide_eq_false_2. Qed.

Lemma percent_encode_plain (s : string) :
  contains_char "&" (percent_encode s) = false /\ contains_char "=" (percent_encode s) = false.
Proof.
  induction s as [|b s [IHa IHe]]; [done|]. cbn [percent_encode]. destruct (unreserved b) eqn:Hu.
  - destruct (unreserved_plain _ Hu) as (_ & Ha & He). split; by apply contains_cons.
  - pose proof (hex_upper_plain b) as Hh. apply list.Forall_cons in Hh as [[Ha1 He1] Hh]. apply list.Forall_cons in Hh as [[Ha2 He2] _].
    split; repeat (apply contains_cons; [done|]); done.
Qed.

Lemma read_encoded_pair (key value : string) : read_pair (percent_encode key +:+ "=" +:+ percent_encode value) = Some (key, value).
Proof.
  unfold read_pair. change ("=" +:+ percent_encode value) with (String "=" (percent_encode value)). rewrite split_once_app by apply percent_encode_plain. cbn [mbind option_bind]. by rewrite !percent_decode_encode.
Qed.

Lemma pair_plain (key value : string) : contains_char "&" (percent_encode key +:+ "=" +:+ percent_encode value) = false.
Proof.
  pose proof (proj1 (percent_encode_plain key)) as Hk. pose proof (proj1 (percent_encode_plain value)) as Hv. revert Hk.
  generalize (percent_encode key). intros k. induction k as [|c k IH]; intros Hk.
  - rewrite string_app_nil_l. by apply contains_cons.
  - unfold contains_char in Hk. cbn [string_all] in Hk. rewrite negb_false_iff, andb_true_iff, negb_true_iff, bool_decide_eq_false in Hk.
    destruct Hk as [Hc Hk]. rewrite string_app_cons. apply contains_cons; [done|]. apply IH. unfold contains_char. by rewrite Hk.
Qed.

Lemma parse_form_urlencode (pairs : list (string * string)) : parse_form (form_urlencode pairs) = Some pairs.
Proof.
  assert (Hne : forall key value rest, string_is_empty (form_urlencode ((key, value) :: rest)) = false).
  { intros key value rest. cbn [form_urlencode]. destruct rest; destruct (percent_encode key); done. }
  destruct pairs as [|[key value] rest]; [done|]. unfold parse_form. rewrite Hne. clear Hne.
  revert key value. induction rest as [|[key' value'] rest IH]; intros key value; cbn [form_urlencode].
  - rewrite split_on_no_sep by apply pair_plain. cbn [mapM]. by rewrite read_encoded_pair.
  - match goal with |- context [?p +:+ "&" +:+ ?r] => change (p +:+ "&" +:+ r) with (p +:+ String "&" r) end.
    rewrite split_on_app by apply pair_plain. cbn [mapM]. rewrite read_encoded_pair. specialize (IH key' value').
    cbn [form_urlencode] in IH. cbn [mbind option_bind]. by rewrite IH.
Qed.


(** A profile is Google's only where Google says the address is verified. *)
Lemma google_profile_verified `{GoogleJson} {U : Type} `{HttpClient U} (provider : GoogleOAuthProvider) (token : string)
    (users users' : U) (profile : OAuthProfile) :
  pv_fetch_profile (google provider) token users = (Ok profile, users') ->
  exists response info, 200 <= hr_status response < 300 /\ read_user_info (hr_body response) = Some info /\
    gu_verified_email info = Some true /\ op_provider_id profile = gu_id info /\ op_email profile = gu_email info.
Proof.
  cbn [google pv_fetch_profile]. unfold fetch_profile, google_send. rewrite bind_run. unfold catch_map.
  destruct (http_send _ users) as [[response|e] u1]; [|done]. cbn [map_err]. unfold is_success.
  case_bool_decide as Hst; [|done]. cbn [negb]. rewrite bind_run. unfold lift. destruct (read_user_info _) as [info|] eqn:Hr; [|done].
  cbn [ok_or]. case_bool_decide as Hv; [|done]. cbn [negb]. intros [= <- _]. by exists response, info.
Qed.
