(* ===== verification/EdgeJwt.v ===== *)
(** * The edge verifier

    Models [bindings/bymax-auth-wasm/src/jwt_edge.rs] and the entry points of its
    [lib.rs]: verification of a token without the stores, on the codec of [Jwt.v],
    and the two unverified views of one. *)

From S2P Require Import Prelude Types Crypto Jwt.
#[local] Open Scope Z_scope.

Inductive EdgeError : Set := EeJwt (error : JwtError) | EeMalformed | EeUnknownType.

Definition DEFAULT_EDGE_LEEWAY_SECS : Z := 30.
Definition MAX_EDGE_LEEWAY_SECS : Z := 300.

Inductive TokenKind : Set := TkDashboard | TkPlatform | TkMfaTemp.

Definition kind_as_str (kind : TokenKind) : string :=
  match kind with TkDashboard => "dashboard" | TkPlatform => "platform" | TkMfaTemp => "mfa_challenge" end.

(** The discriminator alone. *)
Record TypePeek : Set := { tp_token_type : string }.

(** A JSON document as the package holds it: read, and written beside another
    under the names [header] and [payload]. *)
Class JsonView : Type := {
  JsonValue : Type;
  read_value : string -> option JsonValue;
  write_header_payload : JsonValue -> JsonValue -> option string;
}.

Section edge.
Context `{Crypto, Base64, HeaderJson}.
Context `{ClaimsJson DashboardClaims, ClaimsJson PlatformClaims, ClaimsJson MfaTempClaims, ClaimsJson TypePeek, JsonView}.

Definition map_jwt {A} (r : result JwtError A) : result EdgeError A := map_err EeJwt r.

Definition edge_bind {A B} (r : result EdgeError A) (f : A -> result EdgeError B) : result EdgeError B :=
  match r with Ok a => f a | Err e => Err e end.

Definition peek_kind (token : string) : result EdgeError TokenKind :=
  edge_bind (map_jwt (decode_unverified token)) (fun peek =>
    if bool_decide (tp_token_type peek = "dashboard") then Ok TkDashboard else
    if bool_decide (tp_token_type peek = "platform") then Ok TkPlatform else
    if bool_decide (tp_token_type peek = "mfa_challenge") then Ok TkMfaTemp else Err EeUnknownType).

Definition to_json {C} `{ClaimsJson C} (claims : C) : result EdgeError string := ok_or EeMalformed (to_vec claims).

Definition verified_json (C : Type) `{JwtClaims C, ClaimsJson C} (token secret : string) (opts : VerifyOptions) : result EdgeError string :=
  edge_bind (map_jwt (verify (C := C) token secret opts 0)) to_json.

(** The time is the caller's, so the codec reads no clock. *)
Definition verify_claims_json (token secret : string) (leeway now : Z) (expected_iss expected_aud expected_type : option string) :
    result EdgeError string :=
  let opts := {| leeway_secs := leeway; validate_exp := true; validate_iat := true; now_unix := Some now;
                 Jwt.expected_iss := expected_iss; Jwt.expected_aud := expected_aud |} in
  let kind := peek_kind token in
  if match expected_type, kind with
     | Some expected, Ok actual => negb (bool_decide (kind_as_str actual = expected))
     | _, _ => false
     end
  then Err EeMalformed else
  match kind with
  | Ok TkDashboard => verified_json DashboardClaims token secret opts
  | Ok TkPlatform => verified_json PlatformClaims token secret opts
  | Ok TkMfaTemp => verified_json MfaTempClaims token secret opts
  | Err error => Err error
  end.

Definition extract_claims_json (token : string) : result EdgeError string :=
  edge_bind (peek_kind token) (fun kind =>
    match kind with
    | TkDashboard => edge_bind (map_jwt (decode_unverified (C := DashboardClaims) token)) to_json
    | TkPlatform => edge_bind (map_jwt (decode_unverified (C := PlatformClaims) token)) to_json
    | TkMfaTemp => edge_bind (map_jwt (decode_unverified (C := MfaTempClaims) token)) to_json
    end).

Definition split_header_payload (token : string) : result EdgeError (string * string) :=
  match split_on "." token with [header; payload; _] => Ok (header, payload) | _ => Err EeMalformed end.

Definition decode_segment_json (segment : string) : result EdgeError JsonValue :=
  edge_bind (ok_or EeMalformed (b64_decode segment)) (fun bytes => ok_or EeMalformed (read_value bytes)).

Definition decode_header_payload (token : string) : result EdgeError string :=
  edge_bind (split_header_payload token) (fun '(header_b64, payload_b64) =>
    edge_bind (decode_segment_json header_b64) (fun header =>
      edge_bind (decode_segment_json payload_b64) (fun payload => ok_or EeMalformed (write_header_payload header payload)))).

(** ** The entry points *)

Definition ok {A} (r : result EdgeError A) : option A := match r with Ok a => Some a | Err _ => None end.

Definition edge_leeway (leeway_secs : option Z) : Z := Z.min (default DEFAULT_EDGE_LEEWAY_SECS leeway_secs) MAX_EDGE_LEEWAY_SECS.

Definition verify_jwt_hs256 (now : Z) (token secret : string) (leeway_secs : option Z)
    (expected_iss expected_aud expected_type : option string) : option string :=
  ok (verify_claims_json token secret (edge_leeway leeway_secs) now expected_iss expected_aud expected_type).

Definition decode_jwt (token : string) : option string := ok (decode_header_payload token).
Definition extract_claims (token : string) : option string := ok (extract_claims_json token).

(** ** The edge and the server *)

Inductive EdgeClaims : Set := EcDashboard (claims : DashboardClaims) | EcPlatform (claims : PlatformClaims) | EcMfaTemp (claims : MfaTempClaims).

Definition claims_kind (claims : EdgeClaims) : TokenKind :=
  match claims with EcDashboard _ => TkDashboard | EcPlatform _ => TkPlatform | EcMfaTemp _ => TkMfaTemp end.

Definition claims_text (claims : EdgeClaims) : option string :=
  match claims with EcDashboard c => to_vec c | EcPlatform c => to_vec c | EcMfaTemp c => to_vec c end.

(** The times of validity, which are 64-bit. *)
Definition claims_times (claims : EdgeClaims) : Z * Z :=
  match claims with
  | EcDashboard c => (dc_iat c, dc_exp c)
  | EcPlatform c => (pc_iat c, pc_exp c)
  | EcMfaTemp c => (mc_iat c, mc_exp c)
  end.

(** The server's codec answers these claims. *)
Definition server_verifies (token secret : string) (opts : VerifyOptions) (claims : EdgeClaims) : Prop :=
  match claims with
  | EcDashboard c => verify token secret opts 0 = Ok c
  | EcPlatform c => verify token secret opts 0 = Ok c
  | EcMfaTemp c => verify token secret opts 0 = Ok c
  end.

Definition edge_options (leeway now : Z) (iss aud : option string) : VerifyOptions :=
  {| leeway_secs := leeway; validate_exp := true; validate_iat := true; now_unix := Some now; Jwt.expected_iss := iss; Jwt.expected_aud := aud |}.

(** The readers agree on the discriminator: each claim shape has one of its own. *)
Class TaggedClaims : Prop := {
  dashboard_tag (bytes : string) (c : DashboardClaims) :
    from_slice bytes = Some c -> from_slice bytes = Some {| tp_token_type := "dashboard" |};
  platform_tag (bytes : string) (c : PlatformClaims) :
    from_slice bytes = Some c -> from_slice bytes = Some {| tp_token_type := "platform" |};
  mfa_tag (bytes : string) (c : MfaTempClaims) :
    from_slice bytes = Some c -> from_slice bytes = Some {| tp_token_type := "mfa_challenge" |};
}.

Lemma verified_json_ok (C : Type) `{JwtClaims C, ClaimsJson C} (token secret : string) (opts : VerifyOptions) (json : string) :
  verified_json C token secret opts = Ok json <-> exists c : C, verify token secret opts 0 = Ok c /\ to_vec c = Some json.
Proof.
  unfold verified_json, to_json. destruct (verify token secret opts 0) as [c|e]; cbn.
  - destruct (to_vec c) as [text|] eqn:Ht; cbn; (split; [intros [= <-] | intros (c' & [= <-] & Hc)]); [by exists c | congruence.. ].
  - split; [done|]. by intros (c & [=] & _).
Qed.

Lemma verify_claims_json_ok (token secret : string) (leeway now : Z) (iss aud ty : option string) (json : string) :
  verify_claims_json token secret leeway now iss aud ty = Ok json <->
  exists claims, peek_kind token = Ok (claims_kind claims) /\ (forall t, ty = Some t -> kind_as_str (claims_kind claims) = t) /\
    server_verifies token secret (edge_options leeway now iss aud) claims /\ claims_text claims = Some json.
Proof.
  unfold verify_claims_json. destruct (peek_kind token) as [kind|e]; [|split; [by destruct ty | by intros (c & [=] & _)]].
  assert (Hgate : (match ty with Some expected => negb (bool_decide (kind_as_str kind = expected)) | None => false end) = false <->
                  forall t, ty = Some t -> kind_as_str kind = t).
  { destruct ty as [t|]; [|by split]. rewrite negb_false_iff, bool_decide_eq_true. split; [by intros ? ? [= <-] | by intros Ht; apply Ht]. }
  assert (Hkind : match kind with
                  | TkDashboard => verified_json DashboardClaims token secret (edge_options leeway now iss aud)
                  | TkPlatform => verified_json PlatformClaims token secret (edge_options leeway now iss aud)
                  | TkMfaTemp => verified_json MfaTempClaims token secret (edge_options leeway now iss aud)
                  end = Ok json <->
    exists claims, claims_kind claims = kind /\ server_verifies token secret (edge_options leeway now iss aud) claims /\ claims_text claims = Some json).
  { destruct kind; rewrite verified_json_ok; (split; [intros (c & Hv & Ht) | intros ([c|c|c] & Hk & Hv & Ht); try discriminate Hk; by exists c]);
      [by exists (EcDashboard c) | by exists (EcPlatform c) | by exists (EcMfaTemp c)]. }
  destruct (match ty with Some expected => negb (bool_decide (kind_as_str kind = expected)) | None => false end) eqn:Hg.
  - split; [done|]. intros (c & [= ->] & Ht & _). by apply Hgate in Ht.
  - assert (Hty : forall t, ty = Some t -> kind_as_str kind = t) by by apply Hgate.
    etrans; [exact Hkind|]. (split; [intros (c & <- & Hv & Ht); exists c; by split_and! | intros (c & [= ->] & _ & Hv & Ht); by exists c]).
Qed.

Lemma peek_of_claims `{!TaggedClaims} (token secret : string) (opts : VerifyOptions) (claims : EdgeClaims) :
  server_verifies token secret opts claims -> peek_kind token = Ok (claims_kind claims).
Proof.
  intros Hv. assert (Hd : exists tag, decode_unverified (C := TypePeek) token = Ok {| tp_token_type := tag |} /\ tag = kind_as_str (claims_kind claims)).
  { destruct claims as [c|c|c]; cbn [server_verifies] in Hv; apply verify_ok_iff in Hv as [(h & p & s & hb & pb & Hs & _ & _ & _ & Hp & Hc) _];
      unfold decode_unverified, split_segments; rewrite Hs, Hp;
      [apply dashboard_tag in Hc | apply platform_tag in Hc | apply mfa_tag in Hc]; rewrite Hc; by eexists. }
  destruct Hd as (tag & Hd & ->). unfold peek_kind. rewrite Hd. by destruct claims.
Qed.

(** The tolerance on either side of the times, within the width of the clock. *)
Lemma tolerance_bounds (l now iat exp : Z) :
  0 <= l <= 300 -> i64_min <= now <= i64_max ->
  now < sat_add exp (u64_to_i64_sat l) -> iat <= sat_add now (u64_to_i64_sat l) -> iat - 300 <= now < exp + 300.
Proof. unfold u64_to_i64_sat, sat_add, i64_max, i64_min. lia. Qed.

Lemma tolerance_widens (l now iat exp : Z) :
  0 <= l <= 300 -> i64_min <= now <= i64_max -> i64_min <= iat <= i64_max -> i64_min <= exp <= i64_max ->
  now < sat_add exp (u64_to_i64_sat 0) -> iat <= sat_add now (u64_to_i64_sat 0) ->
  now < sat_add exp (u64_to_i64_sat l) /\ iat <= sat_add now (u64_to_i64_sat l).
Proof. unfold u64_to_i64_sat, sat_add, i64_max, i64_min. lia. Qed.

Lemma server_timely (token secret : string) (l now : Z) (iss aud : option string) (claims : EdgeClaims) :
  server_verifies token secret (edge_options l now iss aud) claims ->
  now < sat_add (claims_times claims).2 (u64_to_i64_sat l) /\ (claims_times claims).1 <= sat_add now (u64_to_i64_sat l).
Proof.
  destruct claims as [c|c|c]; intros Hv; apply verify_ok_iff in Hv as (_ & [He Hi] & _); exact (conj (He eq_refl) (Hi eq_refl)).
Qed.

Lemma server_at (token secret : string) (l l' now : Z) (iss aud : option string) (claims : EdgeClaims) :
  server_verifies token secret (edge_options l now iss aud) claims ->
  now < sat_add (claims_times claims).2 (u64_to_i64_sat l') -> (claims_times claims).1 <= sat_add now (u64_to_i64_sat l') ->
  server_verifies token secret (edge_options l' now iss aud) claims.
Proof.
  destruct claims as [c|c|c]; intros Hv Ht1 Ht2; apply verify_ok_iff in Hv as (Ha & _ & Hb); apply verify_ok_iff;
    exact (conj Ha (conj (conj (fun _ => Ht1) (fun _ => Ht2)) Hb)).
Qed.

(** C38. The edge is the server's codec with a bounded tolerance.  What it accepts,
    under any leeway a caller passes, is a token the server's codec verifies under
    the same secret, issuer and audience at a tolerance of at most five minutes,
    of the type the caller names; so it is never accepted more than five minutes
    outside its times.  And whatever the server's codec verifies now the edge
    accepts, with the same claims, unless another type was named. *)
Theorem edge_agrees_with_server `{!TaggedClaims} (now : Z) (token secret : string) (leeway : option Z) (iss aud ty : option string) :
  (forall l, leeway = Some l -> 0 <= l) -> i64_min <= now <= i64_max ->
  (forall json, verify_jwt_hs256 now token secret leeway iss aud ty = Some json ->
     exists claims tolerance, 0 <= tolerance <= 300 /\ server_verifies token secret (edge_options tolerance now iss aud) claims /\
       claims_text claims = Some json /\ (forall t, ty = Some t -> kind_as_str (claims_kind claims) = t) /\
       (claims_times claims).1 - 300 <= now < (claims_times claims).2 + 300) /\
  (forall claims, server_verifies token secret (edge_options 0 now iss aud) claims ->
     i64_min <= (claims_times claims).1 <= i64_max -> i64_min <= (claims_times claims).2 <= i64_max ->
     (forall t, ty = Some t -> kind_as_str (claims_kind claims) = t) ->
     verify_jwt_hs256 now token secret leeway iss aud ty = claims_text claims).
Proof.
  intros Hl Hnow. assert (Htol : 0 <= edge_leeway leeway <= 300).
  { unfold edge_leeway, MAX_EDGE_LEEWAY_SECS, DEFAULT_EDGE_LEEWAY_SECS. destruct leeway as [l|]; cbn; [specialize (Hl l eq_refl)|]; lia. }
  unfold verify_jwt_hs256. generalize dependent (edge_leeway leeway). intros tolerance Htol. split.
  - intros json Hv. destruct (verify_claims_json _ _ _ _ _ _ _) as [text|] eqn:Hj; [|done]. injection Hv as ->.
    apply verify_claims_json_ok in Hj as (claims & _ & Hty & Hv & Ht). exists claims, tolerance.
    destruct (server_timely _ _ _ _ _ _ _ Hv) as [He Hi]. pose proof (tolerance_bounds _ _ _ _ Htol Hnow He Hi) as Hb.
    exact (conj Htol (conj Hv (conj Ht (conj Hty Hb)))).
  - intros claims Hv Hiat Hexp Hty. pose proof (peek_of_claims _ _ _ _ Hv) as Hk.
    destruct (server_timely _ _ _ _ _ _ _ Hv) as [He Hi].
    destruct (tolerance_widens tolerance now _ _ Htol Hnow Hiat Hexp He Hi) as [He' Hi'].
    pose proof (server_at _ _ _ tolerance _ _ _ _ Hv He' Hi') as Hv'.
    destruct (claims_text claims) as [json|] eqn:Ht.
    + assert (Hj : verify_claims_json token secret tolerance now iss aud ty = Ok json) by (apply verify_claims_json_ok; by exists claims).
      by rewrite Hj.
    + destruct (verify_claims_json _ _ _ _ _ _ _) as [json|] eqn:Hj; [|done]. exfalso.
      apply verify_claims_json_ok in Hj as (claims' & Hk' & _ & Hs & Ht'). rewrite Hk in Hk'. injection Hk' as Hk'.
      assert (Heq : claims' = claims); [|by rewrite Heq, Ht in Ht'].
      destruct claims as [c|c|c], claims' as [c'|c'|c']; try discriminate Hk'; cbn [server_verifies] in *; congruence.
Qed.
End edge.
