(* ===== verification/Mail.v ===== *)
(** * The bundled e-mail provider

    Models [crates/bymax-auth-core/src/traits/default_email.rs] and its
    [catalogue.rs]: the copy of every message, its rendering as HTML, the subject
    as one header, and what a failed delivery answers; with the two maskings of
    [normalize.rs] that a record of a message goes through. *)

From S2P Require Import Prelude Errors Types Crypto Jwt Engine Repository Totp Bodies Utf8 MfaService Invitation.
From stdpp Require Import list.
#[local] Open Scope Z_scope.

(** ** Messages *)

(** A rendered message, before it has a recipient; [am_html] overrides the
    rendering of the text. *)
Record AuthEmailMessage : Set := { am_subject : string; am_text : string; am_html : option string }.

Definition plain (subject text : string) : AuthEmailMessage := {| am_subject := subject; am_text := text; am_html := None |}.

Record OutgoingEmail : Set := {
  oe_tenant_id : string;
  oe_to : string;
  oe_subject : string;
  oe_html : string;
  oe_text : string;
}.

Record AuthEmailContext : Set := { ec_tenant_id : string; ec_email : string; ec_locale : option string }.

Inductive DeliveryErrorPolicy : Set := Swallow | Rethrow.

(** ** Rendering *)

(** The components of an instant in UTC, as the time package has them. *)
Record Civil : Set := { cv_year : Z; cv_month : Z; cv_day : Z; cv_hour : Z; cv_minute : Z; cv_second : Z }.
Class Calendar : Type := { utc : OffsetDateTime -> Civil }.

(** [{:0width$}] of an integer: the sign counts towards the width. *)
Fixpoint zeros (n : nat) : string := match n with O => "" | S n => String "0" (zeros n) end.

Definition padded (width : nat) (z : Z) : string :=
  let digits := z_to_string (Z.abs z) in
  if bool_decide (z < 0) then "-" +:+ zeros (width - 1 - String.length digits) +:+ digits
  else zeros (width - String.length digits) +:+ digits.

Definition render_utc_instant `{Calendar} (at_ : OffsetDateTime) : string :=
  let c := utc at_ in
  padded 4 (cv_year c) +:+ "-" +:+ padded 2 (cv_month c) +:+ "-" +:+ padded 2 (cv_day c) +:+ "T" +:+
  padded 2 (cv_hour c) +:+ ":" +:+ padded 2 (cv_minute c) +:+ ":" +:+ padded 2 (cv_second c) +:+ "Z".

(** A byte above 127 belongs to a longer character and is none of the five. *)
Definition escape_char (c : ascii) : string :=
  if bool_decide (c = "&"%char) then "&amp;" else
  if bool_decide (c = "<"%char) then "&lt;" else
  if bool_decide (c = ">"%char) then "&gt;" else
  if bool_decide (c = z_byte 34) then "&quot;" else
  if bool_decide (c = "'"%char) then "&#39;" else String c "".

Fixpoint escape_html (value : string) : string :=
  match value with EmptyString => "" | String c value' => escape_char c +:+ escape_html value' end.

Definition NL : string := String NEWLINE "".

(** [str::split] at a blank line. *)
Fixpoint split_blank (text : string) : list string :=
  match text with
  | EmptyString => [""]
  | String c text' =>
      let more := match split_blank text' with w :: ws => String c w :: ws | [] => [String c ""] end in
      match text' with
      | String d text'' => if bool_decide (c = NEWLINE /\ d = NEWLINE) then "" :: split_blank text'' else more
      | EmptyString => more
      end
  end.

Fixpoint break_lines (s : string) : string :=
  match s with
  | EmptyString => ""
  | String c s' => if bool_decide (c = NEWLINE) then "<br>" +:+ break_lines s' else String c (break_lines s')
  end.

Definition paragraph (text : string) : string := "<p>" +:+ break_lines (escape_html text) +:+ "</p>".

Definition to_html (text : string) : string := String.concat NL (paragraph <$> split_blank text).

Definition is_break (c : ascii) : bool := bool_decide (c = z_byte 13) || bool_decide (c = NEWLINE).

Fixpoint without_breaks (in_break : bool) (subject : string) : string :=
  match subject with
  | EmptyString => ""
  | String c rest =>
      if is_break c then (if in_break then without_breaks true rest else String " " (without_breaks true rest))
      else String c (without_breaks false rest)
  end.

Definition sanitize_subject (subject : string) : string := without_breaks false subject.

(** ** The copy *)

Definition CODE_VALIDITY_TEXT : string := "It expires shortly, so use it soon.".
Definition UNEXPECTED_CHANGE_TEXT : string :=
  "If this was not you, secure your account immediately: change your password and sign out of every session.".

Record AuthEmailCatalogue : Type := {
  ct_password_reset_token : AuthEmailContext -> string -> AuthEmailMessage;
  ct_password_reset_otp : AuthEmailContext -> string -> AuthEmailMessage;
  ct_email_verification_otp : AuthEmailContext -> string -> AuthEmailMessage;
  ct_password_changed : AuthEmailContext -> AuthEmailMessage;
  ct_email_change_verification : AuthEmailContext -> string -> AuthEmailMessage;
  ct_email_changed : AuthEmailContext -> string -> string -> AuthEmailMessage;
  ct_mfa_enabled : AuthEmailContext -> AuthEmailMessage;
  ct_mfa_disabled : AuthEmailContext -> AuthEmailMessage;
  ct_new_session_alert : AuthEmailContext -> HookSession -> AuthEmailMessage;
  ct_invitation : AuthEmailContext -> InviteData -> AuthEmailMessage;
}.

Definition BLANK : string := NL +:+ NL.

Definition DefaultAuthEmailCatalogue `{Calendar} : AuthEmailCatalogue := {|
  ct_password_reset_token _ token := plain "Reset your password"
    ("Use this token to reset your password: " +:+ token +:+ BLANK +:+ CODE_VALIDITY_TEXT +:+ BLANK +:+
     "If you did not ask to reset your password, ignore this message and nothing will change.");
  ct_password_reset_otp _ otp := plain "Your password reset code"
    ("Your password reset code is " +:+ otp +:+ "." +:+ BLANK +:+ CODE_VALIDITY_TEXT +:+ BLANK +:+
     "If you did not ask to reset your password, ignore this message and nothing will change.");
  ct_email_verification_otp _ otp := plain "Verify your email address"
    ("Your verification code is " +:+ otp +:+ "." +:+ BLANK +:+ CODE_VALIDITY_TEXT +:+ BLANK +:+
     "If you did not create an account, ignore this message.");
  ct_password_changed _ := plain "Your password was changed"
    ("The password on your account was changed." +:+ BLANK +:+ UNEXPECTED_CHANGE_TEXT);
  ct_email_change_verification _ token := plain "Confirm your new email address"
    ("Your confirmation code is " +:+ token +:+ "." +:+ BLANK +:+ CODE_VALIDITY_TEXT +:+ BLANK +:+
     "If you did not ask to change your email address, ignore this message.");
  ct_email_changed _ old_email new_email := plain "Your email address was changed"
    ("The email address on your account was changed to " +:+ new_email +:+
     ", and this address no longer signs in to it." +:+ BLANK +:+ UNEXPECTED_CHANGE_TEXT);
  ct_mfa_enabled _ := plain "Two-factor authentication is on"
    ("Two-factor authentication was enabled on your account." +:+ BLANK +:+ UNEXPECTED_CHANGE_TEXT);
  ct_mfa_disabled _ := plain "Two-factor authentication is off"
    ("Two-factor authentication was disabled on your account." +:+ BLANK +:+ UNEXPECTED_CHANGE_TEXT);
  ct_new_session_alert _ session := plain "New sign-in to your account"
    ("A new session was started on your account." +:+ BLANK +:+ "Device: " +:+ hs_device session +:+ NL +:+ "IP: " +:+ hs_ip session +:+
     NL +:+ "Session: " +:+ hs_session_hash session +:+ BLANK +:+ UNEXPECTED_CHANGE_TEXT);
  ct_invitation _ invite := plain
    (iv_inviter_name invite +:+ " invited you to " +:+ iv_tenant_name invite)
    (iv_inviter_name invite +:+ " invited you to join " +:+ iv_tenant_name invite +:+ "." +:+ BLANK +:+
     "Use this token to accept: " +:+ iv_invite_token invite +:+ BLANK +:+
     "It expires on " +:+ render_utc_instant (iv_expires_at invite) +:+ "." +:+ BLANK +:+
     "If you were not expecting this invitation, ignore this message.");
|}.

(** ** The provider *)

(** The channel, a host trait; its failure has a cause. *)
Class AuthEmailSink (U : Type) : Type := { sink_send : OutgoingEmail -> M U string unit }.

Record DefaultAuthEmailProvider : Type := {
  ap_messages : AuthEmailCatalogue;
  ap_on_delivery_error : DeliveryErrorPolicy;
}.

Definition new_provider `{Calendar} : DefaultAuthEmailProvider :=
  {| ap_messages := DefaultAuthEmailCatalogue; ap_on_delivery_error := Swallow |}.

Definition with_catalogue (messages : AuthEmailCatalogue) (p : DefaultAuthEmailProvider) : DefaultAuthEmailProvider :=
  {| ap_messages := messages; ap_on_delivery_error := ap_on_delivery_error p |}.

Definition with_delivery_error_policy (policy : DeliveryErrorPolicy) (p : DefaultAuthEmailProvider) : DefaultAuthEmailProvider :=
  {| ap_messages := ap_messages p; ap_on_delivery_error := policy |}.

Section provider.
Context {U : Type} `{AuthEmailSink U} (p : DefaultAuthEmailProvider).

Definition outgoing (tenant_id to : string) (message : AuthEmailMessage) : OutgoingEmail := {|
  oe_tenant_id := tenant_id;
  oe_to := to;
  oe_subject := sanitize_subject (am_subject message);
  oe_html := match am_html message with Some html => html | None => to_html (am_text message) end;
  oe_text := am_text message;
|}.

Definition deliver (tenant_id to : string) (message : AuthEmailMessage) : M U string unit :=
  outcome ← attempt (sink_send (outgoing tenant_id to message));
  match outcome with
  | Ok _ => mret tt
  | Err error => match ap_on_delivery_error p with Swallow => mret tt | Rethrow => throw error end
  end.

Definition context (tenant_id email : string) (locale : option string) : AuthEmailContext :=
  {| ec_tenant_id := tenant_id; ec_email := email; ec_locale := locale |}.

Definition mail_password_reset_token (tenant_id email token : string) (locale : option string) : M U string unit :=
  deliver tenant_id email (ct_password_reset_token (ap_messages p) (context tenant_id email locale) token).

Definition mail_password_reset_otp (tenant_id email otp : string) (locale : option string) : M U string unit :=
  deliver tenant_id email (ct_password_reset_otp (ap_messages p) (context tenant_id email locale) otp).

Definition mail_email_verification_otp (tenant_id email otp : string) (locale : option string) : M U string unit :=
  deliver tenant_id email (ct_email_verification_otp (ap_messages p) (context tenant_id email locale) otp).

Definition mail_password_changed (tenant_id email : string) (locale : option string) : M U string unit :=
  deliver tenant_id email (ct_password_changed (ap_messages p) (context tenant_id email locale)).

Definition mail_email_change_verification (tenant_id new_email token : string) (locale : option string) : M U string unit :=
  deliver tenant_id new_email (ct_email_change_verification (ap_messages p) (context tenant_id new_email locale) token).

(** The notice goes to the address that is being left. *)
Definition mail_email_changed_notification (tenant_id old_email new_email : string) (locale : option string) : M U string unit :=
  deliver tenant_id old_email (ct_email_changed (ap_messages p) (context tenant_id old_email locale) old_email new_email).

Definition mail_mfa_enabled (tenant_id email : string) (locale : option string) : M U string unit :=
  deliver tenant_id email (ct_mfa_enabled (ap_messages p) (context tenant_id email locale)).

Definition mail_mfa_disabled (tenant_id email : string) (locale : option string) : M U string unit :=
  deliver tenant_id email (ct_mfa_disabled (ap_messages p) (context tenant_id email locale)).

Definition mail_new_session_alert (tenant_id email : string) (session : HookSession) (locale : option string) : M U string unit :=
  deliver tenant_id email (ct_new_session_alert (ap_messages p) (context tenant_id email locale) session).

Definition mail_invitation (tenant_id email : string) (invite : InviteData) (locale : option string) : M U string unit :=
  deliver tenant_id email (ct_invitation (ap_messages p) (context tenant_id email locale) invite).
End provider.

(** The engine's waits for delivery go through it where the host picks it.  No
    flow names a locale. *)
Definition default_email_provider {U} `{AuthEmailSink U} (p : DefaultAuthEmailProvider) : EmailProvider U := {|
  send_password_reset_token tenant_id email token := mail_password_reset_token p tenant_id email token None;
  send_email_change_verification tenant_id email token := mail_email_change_verification p tenant_id email token None;
  send_email_changed_notification tenant_id old_email new_email := mail_email_changed_notification p tenant_id old_email new_email None;
|}.

Definition default_invitation_mail {U} `{AuthEmailSink U} (p : DefaultAuthEmailProvider) : InvitationMail U :=
  {| send_invitation tenant_id email invite := mail_invitation p tenant_id email invite None |}.

(** Without one: nothing is sent, and nothing fails. *)
Definition no_op_email_provider {U} : EmailProvider U := {|
  send_password_reset_token _ _ _ := mret tt;
  send_email_change_verification _ _ _ := mret tt;
  send_email_changed_notification _ _ _ := mret tt;
|}.

Definition no_op_invitation_mail {U} : InvitationMail U := {| send_invitation _ _ _ := mret tt |}.

(** ** What a record of a message says *)

Definition mask_email (email : string) : string :=
  match split_once "@" email with
  | Some (local, domain) =>
      match chars local with
      | first :: _ => first +:+ "***" +:+ String "@" domain
      | [] => "***"
      end
  | None => "***"
  end.

Definition log_safe (value : string) : string :=
  if existsb (fun c => Bodies.is_control (code_point c)) (chars value) then "<malformed>" else value.

(** ** A reader of HTML *)

(** What a mail client makes of a body: tags, and characters with the references
    decoded. *)
Inductive Token : Set := Tag (name : string) | Shown (c : ascii).

Inductive Mode : Set := InText | InTag (name : string) | InReference (name : string).

Definition reference (name : string) : option ascii :=
  match name with
  | "amp" => Some "&"%char
  | "lt" => Some "<"%char
  | "gt" => Some ">"%char
  | "quot" => Some (z_byte 34)
  | "#39" => Some "'"%char
  | _ => None
  end.

Fixpoint read_html (m : Mode) (s : string) : option (list Token) :=
  match s, m with
  | EmptyString, InText => Some []
  | EmptyString, _ => None
  | String c s', InText =>
      if bool_decide (c = "<"%char) then read_html (InTag "") s' else
      if bool_decide (c = "&"%char) then read_html (InReference "") s' else
      cons (Shown c) <$> read_html InText s'
  | String c s', InTag name =>
      if bool_decide (c = ">"%char) then cons (Tag name) <$> read_html InText s' else read_html (InTag (name +:+ String c "")) s'
  | String c s', InReference name =>
      if bool_decide (c = ";"%char) then d ← reference name; cons (Shown d) <$> read_html InText s'
      else read_html (InReference (name +:+ String c "")) s'
  end.

(** The tags that only lay the text out. *)
Definition lays_out (t : Token) : Prop :=
  match t with Tag name => name ∈ ["p"; "br"; "/p"] | Shown _ => True end.

(** What a reader of the page sees: a break and the end of a paragraph each end a
    line. *)
Fixpoint displayed (tokens : list Token) : string :=
  match tokens with
  | [] => ""
  | Tag name :: tokens => if bool_decide (name = "p") then displayed tokens else String NEWLINE (displayed tokens)
  | Shown c :: tokens => String c (displayed tokens)
  end.

(** A text as the tokens of the paragraphs it is broken into. *)
Definition line_tokens (s : string) : list Token :=
  (fun c => if bool_decide (c = NEWLINE) then Tag "br" else Shown c) <$> String.list_ascii_of_string s.

Definition paragraph_tokens (s : string) : list Token := Tag "p" :: line_tokens s ++ [Tag "/p"].

Fixpoint page_tokens (paragraphs : list string) : list Token :=
  match paragraphs with
  | [] => []
  | [last] => paragraph_tokens last
  | s :: rest => paragraph_tokens s ++ Shown NEWLINE :: page_tokens rest
  end.

Lemma break_lines_app (a b : string) : break_lines (a +:+ b) = break_lines a +:+ break_lines b.
Proof.
  induction a as [|c a IH]; [done|]. rewrite string_app_cons. cbn [break_lines]. rewrite IH.
  by case_bool_decide; rewrite ?string_app_assoc, ?string_app_cons.
Qed.

(** An escaped character is read back as itself, or as the break it stands for. *)
Lemma read_escaped (c : ascii) (rest : string) :
  read_html InText (break_lines (escape_char c) +:+ rest) =
  cons (if bool_decide (c = NEWLINE) then Tag "br" else Shown c) <$> read_html InText rest.
Proof.
  destruct c as [[] [] [] [] [] [] [] []]; reflexivity.
Qed.

Lemma read_lines (s rest : string) :
  read_html InText (break_lines (escape_html s) +:+ rest) = app (line_tokens s) <$> read_html InText rest.
Proof.
  induction s as [|c s IH].
  - cbn [escape_html break_lines]. rewrite string_app_nil_l. by destruct (read_html InText rest).
  - cbn [escape_html]. rewrite break_lines_app, string_app_assoc, read_escaped, IH. by destruct (read_html InText rest).
Qed.

Lemma read_paragraph (s rest : string) :
  read_html InText (paragraph s +:+ rest) = app (paragraph_tokens s) <$> read_html InText rest.
Proof.
  unfold paragraph. rewrite !string_app_assoc.
  change (read_html InText ("<p>" +:+ ?x)) with (cons (Tag "p") <$> read_html InText x).
  rewrite read_lines. change (read_html InText ("</p>" +:+ rest)) with (cons (Tag "/p") <$> read_html InText rest).
  destruct (read_html InText rest); [|done]. cbn. by rewrite <- app_assoc.
Qed.

Lemma read_page (paragraphs : list string) :
  read_html InText (String.concat NL (paragraph <$> paragraphs)) = Some (page_tokens paragraphs).
Proof.
  induction paragraphs as [|s [|s' rest] IH]; [done| |].
  - cbn [fmap list_fmap String.concat page_tokens]. rewrite <- (string_app_nil_r (paragraph s)), read_paragraph. cbn. by rewrite app_nil_r.
  - change (String.concat NL (paragraph <$> (s :: s' :: rest)))
      with (paragraph s +:+ (NL +:+ String.concat NL (paragraph <$> (s' :: rest)))).
    rewrite read_paragraph. change (read_html InText (NL +:+ ?x)) with (cons (Shown NEWLINE) <$> read_html InText x). by rewrite IH.
Qed.

(** Every tag is one of the layout. *)
Lemma page_lays_out (paragraphs : list string) : Forall lays_out (page_tokens paragraphs).
Proof.
  assert (Hp : forall s, Forall lays_out (paragraph_tokens s)).
  { intros s. apply list.Forall_cons. split; [cbn; set_solver|]. apply Forall_app. split; [|apply list.Forall_cons; split; [cbn; set_solver | done]].
    unfold line_tokens. apply Forall_fmap. apply Forall_true. intros c. cbn. case_bool_decide; cbn; [set_solver | done]. }
  induction paragraphs as [|s [|s' rest] IH]; [done | apply Hp|].
  change (Forall lays_out (paragraph_tokens s ++ Shown NEWLINE :: page_tokens (s' :: rest))).
  apply Forall_app. split; [apply Hp|]. by apply list.Forall_cons.
Qed.

(** The page displays the paragraphs, with the blank lines that were between them. *)
Lemma displayed_lines (s : string) (tokens : list Token) : displayed (line_tokens s ++ tokens) = s +:+ displayed tokens.
Proof.
  induction s as [|c s IH]; [done|].
  change (line_tokens (String c s) ++ tokens) with ((if bool_decide (c = NEWLINE) then Tag "br" else Shown c) :: line_tokens s ++ tokens).
  rewrite string_app_cons. case_bool_decide as Hc; cbn [displayed]; rewrite IH; [by subst | done].
Qed.

Lemma displayed_paragraph (s : string) (tokens : list Token) :
  displayed (paragraph_tokens s ++ tokens) = s +:+ NL +:+ displayed tokens.
Proof. unfold paragraph_tokens. cbn. rewrite <- app_assoc. by rewrite displayed_lines. Qed.

Lemma displayed_page (s : string) (rest : list string) :
  displayed (page_tokens (s :: rest)) = String.concat BLANK (s :: rest) +:+ NL.
Proof.
  revert s. induction rest as [|s' rest IH]; intros s.
  - cbn [page_tokens String.concat]. rewrite <- (app_nil_r (paragraph_tokens s)), displayed_paragraph. done.
  - change (page_tokens (s :: s' :: rest)) with (paragraph_tokens s ++ Shown NEWLINE :: page_tokens (s' :: rest)).
    rewrite displayed_paragraph. change (displayed (Shown NEWLINE :: ?x)) with (NL +:+ displayed x). rewrite IH.
    change (String.concat BLANK (s :: s' :: rest)) with (s +:+ BLANK +:+ String.concat BLANK (s' :: rest)).
    unfold BLANK. by rewrite !string_app_assoc.
Qed.

Lemma concat_cons (sep s : string) (c : ascii) (rest : list string) :
  String.concat sep (String c s :: rest) = String c (String.concat sep (s :: rest)).
Proof. by destruct rest. Qed.

Lemma split_blank_joins (text : string) : exists s rest, split_blank text = s :: rest /\ String.concat BLANK (s :: rest) = text.
Proof.
  remember (String.length text) as n eqn:Hn. assert (Hle : (String.length text <= n)%nat) by lia. clear Hn.
  revert text Hle. induction n as [|n IH]; intros [|c text'] Hle; try (by exists "", []); cbn in Hle; [lia|].
  destruct (IH text') as (s & rest & Hs & Hc); [lia|].
  assert (Hmore : exists s rest, match split_blank text' with w :: ws => String c w :: ws | [] => [String c ""] end = s :: rest /\
                                 String.concat BLANK (s :: rest) = String c text').
  { exists (String c s), rest. rewrite Hs. split; [done|]. by rewrite concat_cons, Hc. }
  cbn [split_blank]. destruct text' as [|d text'']; [exact Hmore|]. case_bool_decide as Hb; [|exact Hmore].
  destruct Hb as [-> ->]. cbn in Hle. destruct (IH text'') as (s2 & rest2 & Hs2 & Hc2); [lia|].
  exists "", (s2 :: rest2). rewrite Hs2. split; [done|].
  change (BLANK +:+ String.concat BLANK (s2 :: rest2) = String NEWLINE (String NEWLINE text'')). by rewrite Hc2.
Qed.

(** The rendered page, read by a mail client. *)
Lemma html_reads_back (text : string) :
  exists tokens, read_html InText (to_html text) = Some tokens /\ Forall lays_out tokens /\ displayed tokens = text +:+ NL.
Proof.
  destruct (split_blank_joins text) as (s & rest & Hs & Hc). exists (page_tokens (s :: rest)). unfold to_html. rewrite Hs.
  split_and!; [apply read_page | apply page_lays_out | by rewrite displayed_page, Hc].
Qed.

(** ** The subject *)

Definition one_line (s : string) : bool := string_all (fun c => negb (is_break c)) s.

Lemma without_breaks_one_line (subject : string) : forall in_break, one_line (without_breaks in_break subject) = true.
Proof.
  unfold one_line. induction subject as [|c rest IH]; intros in_break; [done|]. cbn [without_breaks].
  destruct (is_break c) eqn:Hc; [destruct in_break; cbn [string_all]; by rewrite IH|]. cbn [string_all]. by rewrite Hc, IH.
Qed.

(** A subject of one line is left as it is. *)
Lemma sanitize_keeps (subject : string) : one_line subject = true -> sanitize_subject subject = subject.
Proof.
  unfold one_line, sanitize_subject. generalize false. induction subject as [|c rest IH]; intros in_break; [done|].
  cbn [string_all without_breaks]. intros [Hc%negb_true_iff Hr]%andb_true_iff. by rewrite Hc, IH.
Qed.

(** ** Every message of the provider *)

Inductive AuthEmail : Set :=
| PasswordResetToken (token : string)
| PasswordResetOtp (otp : string)
| EmailVerificationOtp (otp : string)
| PasswordChanged
| EmailChangeVerification (token : string)
| EmailChanged (new_email : string)
| MfaEnabled
| MfaDisabled
| NewSessionAlert (session : HookSession)
| Invitation (invite : InviteData).

Section messages.
Context {U : Type} `{AuthEmailSink U}.

(** The method of the port that sends it. *)
Definition mail (p : DefaultAuthEmailProvider) (tenant_id to : string) (locale : option string) (email : AuthEmail) : M U string unit :=
  match email with
  | PasswordResetToken token => mail_password_reset_token p tenant_id to token locale
  | PasswordResetOtp otp => mail_password_reset_otp p tenant_id to otp locale
  | EmailVerificationOtp otp => mail_email_verification_otp p tenant_id to otp locale
  | PasswordChanged => mail_password_changed p tenant_id to locale
  | EmailChangeVerification token => mail_email_change_verification p tenant_id to token locale
  | EmailChanged new_email => mail_email_changed_notification p tenant_id to new_email locale
  | MfaEnabled => mail_mfa_enabled p tenant_id to locale
  | MfaDisabled => mail_mfa_disabled p tenant_id to locale
  | NewSessionAlert session => mail_new_session_alert p tenant_id to session locale
  | Invitation invite => mail_invitation p tenant_id to invite locale
  end.

(** What its text has to say: the credential it carries, or what to do about a
    change the reader may not have made. *)
Definition must_say (email : AuthEmail) : string :=
  match email with
  | PasswordResetToken token | EmailChangeVerification token => token
  | PasswordResetOtp otp | EmailVerificationOtp otp => otp
  | Invitation invite => iv_invite_token invite
  | _ => UNEXPECTED_CHANGE_TEXT
  end.

Definition says (text part : string) : Prop := exists before after, text = before +:+ part +:+ after.

Lemma says_here (before part after : string) : says (before +:+ part +:+ after) part.
Proof. by exists before, after. Qed.

Lemma says_last (before part : string) : says (before +:+ part) part.
Proof. exists before, "". by rewrite string_app_nil_r. Qed.

Lemma says_later (before text part : string) : says text part -> says (before +:+ text) part.
Proof. intros (b & a & ->). exists (before +:+ b), a. by rewrite string_app_assoc. Qed.

Lemma deliver_run (p : DefaultAuthEmailProvider) (tenant_id to : string) (message : AuthEmailMessage) (users : U) :
  (deliver p tenant_id to message users).2 = (sink_send (outgoing tenant_id to message) users).2 /\
  (deliver p tenant_id to message users).1 =
    match (sink_send (outgoing tenant_id to message) users).1 with
    | Ok _ => Ok tt
    | Err error => match ap_on_delivery_error p with Swallow => Ok tt | Rethrow => Err error end
    end.
Proof.
  unfold deliver. rewrite bind_run. unfold attempt. destruct (sink_send _ users) as [[[]|error] users']; [done|].
  by destruct (ap_on_delivery_error p).
Qed.

(** The bundled copy says what it has to, and leaves the HTML to the provider. *)
Lemma catalogue_says `{Calendar} (p : DefaultAuthEmailProvider) (tenant_id to : string) (locale : option string) (email : AuthEmail) :
  ap_messages p = DefaultAuthEmailCatalogue ->
  exists message, mail p tenant_id to locale email = deliver p tenant_id to message /\
    am_html message = None /\ says (am_text message) (must_say email).
Proof.
  intros Hp. destruct email; cbn [mail]; unfold mail_password_reset_token, mail_password_reset_otp, mail_email_verification_otp,
    mail_password_changed, mail_email_change_verification, mail_email_changed_notification, mail_mfa_enabled, mail_mfa_disabled,
    mail_new_session_alert, mail_invitation; rewrite Hp; eexists; (split; [reflexivity|]); (split; [reflexivity|]); cbn [am_text plain must_say];
    repeat first [apply says_here | apply says_last | apply says_later].
Qed.

(** C39. Mail is inert.  Whatever the values put into a message hold (names, tenants,
    addresses, devices, codes), the bundled provider hands the channel one message,
    with the tenant and the recipient it was asked for; its subject is one line; a
    mail client reads of its HTML no tag but those of the layout and displays the
    plain text, line for line; the text states the credential, or what to do about
    an unexpected change; and a channel that fails fails the call only under
    [Rethrow]. *)
Theorem mail_is_inert `{Calendar} (policy : DeliveryErrorPolicy) (tenant_id to : string) (locale : option string) (email : AuthEmail) (users : U) :
  let provider := with_delivery_error_policy policy new_provider in
  let sent := mail provider tenant_id to locale email users in
  exists message tokens,
    sent.2 = (sink_send message users).2 /\
    oe_tenant_id message = tenant_id /\ oe_to message = to /\ one_line (oe_subject message) = true /\
    read_html InText (oe_html message) = Some tokens /\ Forall lays_out tokens /\ displayed tokens = oe_text message +:+ NL /\
    says (oe_text message) (must_say email) /\
    (sent.1 <> Ok tt <-> policy = Rethrow /\ exists error, (sink_send message users).1 = Err error).
Proof.
  cbv zeta. destruct (catalogue_says (with_delivery_error_policy policy new_provider) tenant_id to locale email eq_refl)
    as (m & -> & Hh & Hs). destruct (deliver_run (with_delivery_error_policy policy new_provider) tenant_id to m users) as [-> ->].
  destruct (html_reads_back (am_text m)) as (tokens & Hr & Hl & Hd). exists (outgoing tenant_id to m), tokens.
  cbn [outgoing oe_tenant_id oe_to oe_subject oe_html oe_text]. rewrite Hh. split_and!; try done; [apply without_breaks_one_line|].
  cbn [with_delivery_error_policy ap_on_delivery_error].
  destruct (sink_send _ users).1 as [[]|error]; destruct policy; (split; [intros Hne | intros [Hp [e He]]]); try done; by eauto.
Qed.

End messages.

(** ** Masking *)

(** A record of an address gives away its first character and its domain. *)
Lemma mask_email_reveals (first : ascii) (rest domain : string) :
  contains_char "@" (String first rest) = false -> Totp.continues rest = false ->
  mask_email (String first rest +:+ String "@" domain) = String first "" +:+ "***" +:+ String "@" domain.
Proof.
  intros Hat Hc. unfold mask_email. rewrite split_once_app by done. cbn [chars]. rewrite Hc. by destruct (chars rest).
Qed.

(** A value in a record starts no other record. *)
Lemma log_safe_one_record (value : string) :
  forallb (fun c => negb (Bodies.is_control (code_point c))) (chars (log_safe value)) = true.
Proof.
  unfold log_safe. destruct (existsb _ (chars value)) eqn:He; [by vm_compute|]. apply forallb_forall. intros c Hc.
  apply negb_true_iff. destruct (Bodies.is_control (code_point c)) eqn:Hcc; [|done].
  assert (Ht : existsb (fun c => Bodies.is_control (code_point c)) (chars value) = true) by (apply existsb_exists; by exists c).
  congruence.
Qed.
