(* ===== verification/InMemoryRepository.v ===== *)
(** * The in-memory repositories and the mocks

    The rest of [crates/bymax-auth-core/src/testing/mod.rs]: the two account
    repositories over maps with what a test can arrange, the fixed HTTP client and
    the canned OAuth provider, as instances of the traits of [Repository],
    [Providers] and [OAuth].

    The file ends with what the tests rely on: a new account is new and no
    address is taken twice by creation, a write that names a tenant changes no row
    of another, a lookup answers a row of the tenant it names. *)

From S2P Require Import Prelude Errors Types Engine Repository AuthCore Providers OAuth.
From stdpp Require Import list.
#[local] Open Scope Z_scope.

(** The order a hash map's values are walked in. *)
Class RowOrder : Type := { row_order {A : Set} : gmap string A -> list A }.
Class RowOrderLaws `{RowOrder} : Prop := { row_order_perm {A : Set} (rows : gmap string A) : row_order rows ≡ₚ (map_to_list rows).*2 }.

(** ** Dashboard accounts *)

Record InMemoryUserRepository : Set := MkInMemoryUserRepository {
  iu_users : gmap string AuthUser;
  iu_next_id : Z;
  iu_ignore_tenant_on_email_lookup : bool;
  iu_ignore_tenant_on_id_lookup : bool;
  (** The flag a test shares with the transition lock, when there is one. *)
  iu_mfa_gone_flag : option bool;
  iu_forced_read_failures : nat;
}.

Definition new_repository : InMemoryUserRepository := MkInMemoryUserRepository ∅ 0 false false None 0.

Abbreviation Users A := (M InMemoryUserRepository RepositoryError A).

Definition on_rows (f : gmap string AuthUser -> gmap string AuthUser) (s : InMemoryUserRepository) : InMemoryUserRepository :=
  MkInMemoryUserRepository (f (iu_users s)) (iu_next_id s) (iu_ignore_tenant_on_email_lookup s) (iu_ignore_tenant_on_id_lookup s)
    (iu_mfa_gone_flag s) (iu_forced_read_failures s).

(** What a test arranges. *)
Definition replace_mfa_secret (user_id secret : string) : InMemoryUserRepository -> InMemoryUserRepository :=
  on_rows (alter (fun '(Build_AuthUser id email name hash role status tenant verified enabled _ codes provider provider_id last created) =>
    Build_AuthUser id email name hash role status tenant verified enabled (Some secret) codes provider provider_id last created) user_id).
Definition ignore_tenant_on_email (s : InMemoryUserRepository) : InMemoryUserRepository :=
  MkInMemoryUserRepository (iu_users s) (iu_next_id s) true (iu_ignore_tenant_on_id_lookup s) (iu_mfa_gone_flag s) (iu_forced_read_failures s).
Definition ignore_tenant_on_id (s : InMemoryUserRepository) : InMemoryUserRepository :=
  MkInMemoryUserRepository (iu_users s) (iu_next_id s) (iu_ignore_tenant_on_email_lookup s) true (iu_mfa_gone_flag s) (iu_forced_read_failures s).
Definition report_mfa_gone_when (flag : bool) (s : InMemoryUserRepository) : InMemoryUserRepository :=
  MkInMemoryUserRepository (iu_users s) (iu_next_id s) (iu_ignore_tenant_on_email_lookup s) (iu_ignore_tenant_on_id_lookup s) (Some flag)
    (iu_forced_read_failures s).
Definition fail_next_reads (count : nat) (s : InMemoryUserRepository) : InMemoryUserRepository :=
  MkInMemoryUserRepository (iu_users s) (iu_next_id s) (iu_ignore_tenant_on_email_lookup s) (iu_ignore_tenant_on_id_lookup s)
    (iu_mfa_gone_flag s) count.
Definition mfa_reported_gone (s : InMemoryUserRepository) : bool := default false (iu_mfa_gone_flag s).

Definition remove_user (id : string) (s : InMemoryUserRepository) : bool * InMemoryUserRepository :=
  (bool_decide (is_Some (iu_users s !! id)), on_rows (delete id) s).

Definition set_authority (id : string) (role tenant_id : option string) (s : InMemoryUserRepository) : bool * InMemoryUserRepository :=
  (bool_decide (is_Some (iu_users s !! id)),
   on_rows (alter (fun '(Build_AuthUser id email name hash role0 status tenant verified enabled secret codes provider provider_id last created) =>
     Build_AuthUser id email name hash (default role0 role) status (default tenant tenant_id) verified enabled secret codes provider provider_id
       last created) id) s).

(** A 64-bit counter. *)
Definition user_id_of (n : Z) : string := "user-" +:+ z_to_string n.
Definition allocate_id : Users string :=
  n ← gets iu_next_id;
  _ ← modify (fun s => MkInMemoryUserRepository (iu_users s) ((n + 1) mod 2 ^ 64) (iu_ignore_tenant_on_email_lookup s)
                (iu_ignore_tenant_on_id_lookup s) (iu_mfa_gone_flag s) (iu_forced_read_failures s));
  mret (user_id_of n).

Definition mfa_gone (u : AuthUser) : AuthUser :=
  let '(Build_AuthUser id email name hash role status tenant verified _ _ _ provider provider_id last created) := u in
  Build_AuthUser id email name hash role status tenant verified false None None provider provider_id last created.

Section repository.
Context `{RowOrder}.

Definition mem_find_by_id (id : string) (tenant_id : option string) : Users (option AuthUser) :=
  armed ← gets iu_forced_read_failures;
  match armed with
  | Datatypes.S rest => _ ← modify (fail_next_reads rest); throw (Backend "forced read failure")
  | O =>
      s ← gets (fun s => s);
      let scoped := negb (iu_ignore_tenant_on_id_lookup s) in
      let in_scope u := match tenant_id with Some scope => negb scoped || bool_decide (au_tenant_id u = scope) | None => true end in
      let answer := (iu_users s !! id) ≫= (fun u => if in_scope u then Some u else None) in
      if mfa_reported_gone s then mret (mfa_gone <$> answer) else mret answer
  end.

Definition mem_find_by_email (email tenant_id : string) : Users (option AuthUser) :=
  s ← gets (fun s => s);
  let scoped := negb (iu_ignore_tenant_on_email_lookup s) in
  mret (List.find (fun u => eq_ignore_ascii_case (au_email u) email && (negb scoped || bool_decide (au_tenant_id u = tenant_id)))
                  (row_order (iu_users s))).

Definition takes_address (email tenant_id : string) (u : AuthUser) : bool :=
  eq_ignore_ascii_case (au_email u) email && bool_decide (au_tenant_id u = tenant_id).

Definition insert_row (id : string) (user : AuthUser) : Users AuthUser := _ ← modify (on_rows <[id := user]>); mret user.

Definition mem_create (data : CreateUserData) : Users AuthUser :=
  users ← gets iu_users;
  if existsb (takes_address (cu_email data) (cu_tenant_id data)) (row_order users) then throw (Conflict "email already exists") else
  id ← allocate_id;
  insert_row id {|
    au_id := id; au_email := cu_email data; au_name := cu_name data; au_password_hash := cu_password_hash data;
    au_role := default "USER" (cu_role data); au_status := default "pending" (cu_status data); au_tenant_id := cu_tenant_id data;
    au_email_verified := default false (cu_email_verified data); au_mfa_enabled := false; au_mfa_secret := None;
    au_mfa_recovery_codes := None; au_oauth_provider := None; au_oauth_provider_id := None; au_last_login_at := None;
    au_created_at := 0 |}.

Definition mem_create_with_oauth (data : CreateWithOAuthData) : Users AuthUser :=
  users ← gets iu_users;
  if existsb (takes_address (co_email data) (co_tenant_id data)) (row_order users) then throw (Conflict "email already exists") else
  id ← allocate_id;
  insert_row id {|
    au_id := id; au_email := co_email data; au_name := co_name data; au_password_hash := None;
    au_role := default "USER" (co_role data); au_status := default "active" (co_status data); au_tenant_id := co_tenant_id data;
    au_email_verified := default false (co_email_verified data); au_mfa_enabled := false; au_mfa_secret := None;
    au_mfa_recovery_codes := None; au_oauth_provider := Some (co_oauth_provider data);
    au_oauth_provider_id := Some (co_oauth_provider_id data); au_last_login_at := None; au_created_at := 0 |}.

(** A write to the row of that id in that tenant, and to no other. *)
Definition scoped_write (f : AuthUser -> AuthUser) (id tenant_id : string) : Users unit :=
  modify (on_rows (alter (fun user => if bool_decide (au_tenant_id user = tenant_id) then f user else user) id)).

Definition mem_update_password (id tenant_id password_hash : string) : Users unit :=
  scoped_write (fun '(Build_AuthUser id email name _ role status tenant verified enabled secret codes provider provider_id last created) =>
    Build_AuthUser id email name (Some password_hash) role status tenant verified enabled secret codes provider provider_id last created) id tenant_id.
Definition mem_update_mfa (id tenant_id : string) (data : UpdateMfaData) : Users unit :=
  scoped_write (fun '(Build_AuthUser id email name hash role status tenant verified _ _ _ provider provider_id last created) =>
    Build_AuthUser id email name hash role status tenant verified (um_mfa_enabled data) (um_mfa_secret data) (um_mfa_recovery_codes data)
      provider provider_id last created) id tenant_id.
Definition mem_update_last_login (id tenant_id : string) : Users unit :=
  scoped_write (fun '(Build_AuthUser id email name hash role status tenant verified enabled secret codes provider provider_id _ created) =>
    Build_AuthUser id email name hash role status tenant verified enabled secret codes provider provider_id (Some 0) created) id tenant_id.
Definition mem_update_status (id tenant_id status : string) : Users unit :=
  scoped_write (fun '(Build_AuthUser id email name hash role _ tenant verified enabled secret codes provider provider_id last created) =>
    Build_AuthUser id email name hash role status tenant verified enabled secret codes provider provider_id last created) id tenant_id.
Definition mem_update_email_verified (id tenant_id : string) (verified : bool) : Users unit :=
  scoped_write (fun '(Build_AuthUser id email name hash role status tenant _ enabled secret codes provider provider_id last created) =>
    Build_AuthUser id email name hash role status tenant verified enabled secret codes provider provider_id last created) id tenant_id.
Definition mem_update_email (id tenant_id email : string) : Users unit :=
  scoped_write (fun '(Build_AuthUser id _ name hash role status tenant verified enabled secret codes provider provider_id last created) =>
    Build_AuthUser id email name hash role status tenant verified enabled secret codes provider provider_id last created) id tenant_id.

Definition mem_find_by_oauth_id (provider provider_id tenant_id : string) : Users (option AuthUser) :=
  gets (fun s => List.find (fun u => bool_decide (au_tenant_id u = tenant_id) && bool_decide (au_oauth_provider u = Some provider)
                                     && bool_decide (au_oauth_provider_id u = Some provider_id)) (row_order (iu_users s))).
Definition mem_link_oauth (user_id provider provider_id : string) : Users unit :=
  modify (on_rows (alter (fun '(Build_AuthUser id email name hash role status tenant verified enabled secret codes _ _ last created) =>
    Build_AuthUser id email name hash role status tenant verified enabled secret codes (Some provider) (Some provider_id) last created) user_id)).

#[export] Instance mem_user_repository : UserRepository InMemoryUserRepository := {|
  repo_find_by_id := mem_find_by_id;
  repo_find_by_email := mem_find_by_email;
  repo_create := mem_create;
  repo_update_password := mem_update_password;
  repo_update_mfa := mem_update_mfa;
  repo_update_last_login := mem_update_last_login;
  repo_update_status := mem_update_status;
  repo_update_email_verified := mem_update_email_verified;
  repo_update_email := mem_update_email;
  repo_find_by_oauth_id := mem_find_by_oauth_id;
  repo_link_oauth := mem_link_oauth;
  repo_create_with_oauth := mem_create_with_oauth;
|}.
End repository.

(** ** Platform accounts *)

Record InMemoryPlatformUserRepository : Set := MkInMemoryPlatformUserRepository {
  ip_users : gmap string AuthPlatformUser;
  ip_mfa_gone_flag : option bool;
}.

Abbreviation Admins A := (M InMemoryPlatformUserRepository RepositoryError A).

Definition new_platform_repository : InMemoryPlatformUserRepository := MkInMemoryPlatformUserRepository ∅ None.

Definition on_admins (f : gmap string AuthPlatformUser -> gmap string AuthPlatformUser) (s : InMemoryPlatformUserRepository) :
    InMemoryPlatformUserRepository :=
  MkInMemoryPlatformUserRepository (f (ip_users s)) (ip_mfa_gone_flag s).

Definition platform_report_mfa_gone_when (flag : bool) (s : InMemoryPlatformUserRepository) : InMemoryPlatformUserRepository :=
  MkInMemoryPlatformUserRepository (ip_users s) (Some flag).
Definition insert_admin (user : AuthPlatformUser) : InMemoryPlatformUserRepository -> InMemoryPlatformUserRepository :=
  on_admins <[ap_id user := user]>.
Definition remove_admin (id : string) (s : InMemoryPlatformUserRepository) : bool * InMemoryPlatformUserRepository :=
  (bool_decide (is_Some (ip_users s !! id)), on_admins (delete id) s).

Definition admin_mfa_gone (u : AuthPlatformUser) : AuthPlatformUser :=
  let '(Build_AuthPlatformUser id email name hash role status _ _ _ platform last updated created) := u in
  Build_AuthPlatformUser id email name hash role status false None None platform last updated created.

Section platform_repository.
Context `{RowOrder}.

Definition mem_admin_find_by_id (id : string) : Admins (option AuthPlatformUser) :=
  s ← gets (fun s => s);
  let answer := ip_users s !! id in
  if default false (ip_mfa_gone_flag s) then mret (admin_mfa_gone <$> answer) else mret answer.

Definition mem_admin_find_by_email (email : string) : Admins (option AuthPlatformUser) :=
  gets (fun s => List.find (fun u => eq_ignore_ascii_case (ap_email u) email) (row_order (ip_users s))).

Definition admin_write (f : AuthPlatformUser -> AuthPlatformUser) (id : string) : Admins unit := modify (on_admins (alter f id)).

Definition mem_admin_update_last_login (id : string) : Admins unit :=
  admin_write (fun '(Build_AuthPlatformUser id email name hash role status enabled secret codes platform _ updated created) =>
    Build_AuthPlatformUser id email name hash role status enabled secret codes platform (Some 0) updated created) id.
Definition mem_admin_update_mfa (id : string) (data : UpdateMfaData) : Admins unit :=
  admin_write (fun '(Build_AuthPlatformUser id email name hash role status _ _ _ platform last updated created) =>
    Build_AuthPlatformUser id email name hash role status (um_mfa_enabled data) (um_mfa_secret data) (um_mfa_recovery_codes data)
      platform last updated created) id.
Definition mem_admin_update_password (id password_hash : string) : Admins unit :=
  admin_write (fun '(Build_AuthPlatformUser id email name _ role status enabled secret codes platform last updated created) =>
    Build_AuthPlatformUser id email name password_hash role status enabled secret codes platform last updated created) id.
Definition mem_admin_update_status (id status : string) : Admins unit :=
  admin_write (fun '(Build_AuthPlatformUser id email name hash role _ enabled secret codes platform last updated created) =>
    Build_AuthPlatformUser id email name hash role status enabled secret codes platform last updated created) id.

#[export] Instance mem_platform_user_repository : PlatformUserRepository InMemoryPlatformUserRepository := {|
  admin_find_by_id := mem_admin_find_by_id;
  admin_find_by_email := mem_admin_find_by_email;
  admin_update_last_login := mem_admin_update_last_login;
  admin_update_mfa := mem_admin_update_mfa;
  admin_update_password := mem_admin_update_password;
  admin_update_status := mem_admin_update_status;
|}.
End platform_repository.

(** ** The mocks *)

Record MockHttpClient : Set := { mh_status : Z; mh_body : string }.

Definition mock_ok : MockHttpClient := {| mh_status := 200; mh_body := "" |}.

Definition mock_http_client {U : Type} (client : MockHttpClient) : HttpClient U :=
  {| http_send _ := mret {| hr_status := mh_status client; hr_headers := []; hr_body := mh_body client |} |}.

Record MockOAuthProvider : Set := { mp_name : string; mp_email_verified : bool }.

Definition mock_provider (name : string) : MockOAuthProvider := {| mp_name := name; mp_email_verified := true |}.
Definition mock_unverified (name : string) : MockOAuthProvider := {| mp_name := name; mp_email_verified := false |}.

Definition mock_authorize_url (state : string) (code_challenge : option string) : string :=
  match code_challenge with
  | Some challenge => "https://mock.test/auth?state=" +:+ state +:+ "&code_challenge=" +:+ challenge
  | None => "https://mock.test/auth?state=" +:+ state
  end.

Definition mock_tokens : OAuthTokens := {|
  ot_access_token := "mock-access"; ot_token_type := "bearer"; ot_expires_in := Some 3600; ot_scope := Some "openid email";
  ot_id_token := None; ot_refresh_token := None |}.

Definition mock_profile (provider : MockOAuthProvider) : OAuthProfile := {|
  op_provider := mp_name provider; op_provider_id := "mock-123"; op_email := "mock@example.com";
  op_email_verified := mp_email_verified provider; op_name := Some "Mock User"; op_avatar := None |}.

Definition mock_oauth_provider {U : Type} (provider : MockOAuthProvider) : OAuthProvider U := {|
  pv_name := mp_name provider;
  pv_authorize_url := mock_authorize_url;
  pv_exchange_code _ _ := mret mock_tokens;
  pv_fetch_profile _ := mret (mock_profile provider);
|}.

(** ** What the tests rely on *)

(** The calls of a test, on the trait and beside it. *)
Inductive AccountCall : Set :=
| AcFindById (id : string) (tenant_id : option string)
| AcFindByEmail (email tenant_id : string)
| AcFindByOAuthId (provider provider_id tenant_id : string)
| AcCreate (data : CreateUserData)
| AcCreateWithOAuth (data : CreateWithOAuthData)
| AcUpdatePassword (id tenant_id password_hash : string)
| AcUpdateMfa (id tenant_id : string) (data : UpdateMfaData)
| AcUpdateLastLogin (id tenant_id : string)
| AcUpdateStatus (id tenant_id status : string)
| AcUpdateEmailVerified (id tenant_id : string) (verified : bool)
| AcUpdateEmail (id tenant_id email : string)
| AcLinkOAuth (id provider provider_id : string)
| AcReplaceSecret (id secret : string)
| AcFailReads (count : nat)
| AcMfaGone (flag : bool)
| AcRemove (id : string)
| AcSetAuthority (id : string) (role tenant_id : option string).

#[local] Arguments Z.modulo : simpl never.

Section accounts.
Context `{RowOrder, !RowOrderLaws}.
Implicit Types (s : InMemoryUserRepository) (u : AuthUser).

Definition account_step (c : AccountCall) (s : InMemoryUserRepository) : InMemoryUserRepository :=
  match c with
  | AcFindById id tenant_id => (repo_find_by_id id tenant_id s).2
  | AcFindByEmail email tenant_id => (repo_find_by_email email tenant_id s).2
  | AcFindByOAuthId provider provider_id tenant_id => (repo_find_by_oauth_id provider provider_id tenant_id s).2
  | AcCreate data => (repo_create data s).2
  | AcCreateWithOAuth data => (repo_create_with_oauth data s).2
  | AcUpdatePassword id tenant_id password_hash => (repo_update_password id tenant_id password_hash s).2
  | AcUpdateMfa id tenant_id data => (repo_update_mfa id tenant_id data s).2
  | AcUpdateLastLogin id tenant_id => (repo_update_last_login id tenant_id s).2
  | AcUpdateStatus id tenant_id status => (repo_update_status id tenant_id status s).2
  | AcUpdateEmailVerified id tenant_id verified => (repo_update_email_verified id tenant_id verified s).2
  | AcUpdateEmail id tenant_id email => (repo_update_email id tenant_id email s).2
  | AcLinkOAuth id provider provider_id => (repo_link_oauth id provider provider_id s).2
  | AcReplaceSecret id secret => replace_mfa_secret id secret s
  | AcFailReads count => fail_next_reads count s
  | AcMfaGone flag => report_mfa_gone_when flag s
  | AcRemove id => (remove_user id s).2
  | AcSetAuthority id role tenant_id => (set_authority id role tenant_id s).2
  end.

(** Every row is filed under its own id, which the counter gave out. *)
Definition keyed s : Prop :=
  0 <= iu_next_id s < 2 ^ 64 /\
  forall id u, iu_users s !! id = Some u -> au_id u = id /\ exists n, 0 <= n < iu_next_id s /\ id = user_id_of n.

Lemma row_in (rows : gmap string AuthUser) u : u ∈ row_order rows <-> exists id, rows !! id = Some u.
Proof.
  rewrite row_order_perm, list_elem_of_fmap. split.
  - intros ([id u'] & -> & Hx%elem_of_map_to_list). by exists id.
  - intros [id Hx]. exists (id, u). split; [done | by apply elem_of_map_to_list].
Qed.

Lemma found_row (p : AuthUser -> bool) (rows : gmap string AuthUser) u :
  List.find p (row_order rows) = Some u -> p u = true /\ exists id, rows !! id = Some u.
Proof. intros [Hin Hp]%List.find_some. split; [done|]. apply row_in. by apply list_elem_of_In. Qed.

Lemma taken_row (email tenant_id : string) (rows : gmap string AuthUser) :
  existsb (takes_address email tenant_id) (row_order rows) = false ->
  forall id u, rows !! id = Some u -> takes_address email tenant_id u = false.
Proof.
  intros He id u Hu. destruct (takes_address email tenant_id u) eqn:Ht; [|done]. rewrite <- He. symmetry. apply existsb_exists.
  exists u. split; [|done]. apply list_elem_of_In, row_in. by exists id.
Qed.

Lemma user_id_inj (n k : Z) : user_id_of n = user_id_of k -> n = k.
Proof. unfold user_id_of. cbn. intros [= Hs]. by apply z_to_string_inj. Qed.

(** The next id is free. *)
Lemma next_free s : keyed s -> iu_users s !! user_id_of (iu_next_id s) = None.
Proof.
  intros [_ Hk]. destruct (iu_users s !! user_id_of (iu_next_id s)) as [u|] eqn:Hu; [|done].
  destruct (Hk _ _ Hu) as (_ & n & Hn & Hid%user_id_inj). lia.
Qed.

Lemma altered_keyed s (f : AuthUser -> AuthUser) (id : string) : (forall u, au_id (f u) = au_id u) -> keyed s -> keyed (on_rows (alter f id) s).
Proof.
  intros Hf [Hn Hk]. split; [done|]. intros id' u. cbn. rewrite lookup_alter. case_decide as Hd; [subst id'|apply Hk].
  intros (u' & Hu & ->)%fmap_Some. rewrite Hf. by apply Hk.
Qed.

Lemma inserted_keyed s (k : AuthUser) : keyed s -> iu_next_id s + 1 < 2 ^ 64 -> au_id k = user_id_of (iu_next_id s) ->
  keyed (on_rows <[user_id_of (iu_next_id s) := k]> (allocate_id s).2).
Proof.
  intros [Hn Hk] Hlt Hid. unfold allocate_id. mrun.
  split; cbn [on_rows iu_next_id iu_users snd]; rewrite Z.mod_small by lia; [lia|]. intros id u. rewrite lookup_insert. case_decide as Hd.
  - intros [= <-]. split; [by rewrite Hid|]. exists (iu_next_id s). split; [lia | done].
  - intros Hu. destruct (Hk _ _ Hu) as (? & n & ? & ?). split; [done|]. exists n. split; [lia | done].
Qed.

Lemma step_keyed (c : AccountCall) s :
  keyed s -> iu_next_id s + 1 < 2 ^ 64 -> keyed (account_step c s) /\ iu_next_id (account_step c s) <= iu_next_id s + 1.
Proof.
  intros Hk Hn. pose proof Hk as [Hb Hu].
  assert (Hsame : keyed s /\ iu_next_id s <= iu_next_id s + 1) by (split; [done | lia]).
  assert (Hscoped : forall f id tenant_id, (forall u, au_id (f u) = au_id u) ->
    keyed (scoped_write f id tenant_id s).2 /\ iu_next_id (scoped_write f id tenant_id s).2 <= iu_next_id s + 1).
  { intros f id tenant_id Hf. split; [|cbn; lia]. apply altered_keyed; [|done]. intros u. by case_bool_decide. }
  assert (Hfree : forall f id, (forall u, au_id (f u) = au_id u) ->
    keyed (on_rows (alter f id) s) /\ iu_next_id (on_rows (alter f id) s) <= iu_next_id s + 1).
  { intros f id Hf. split; [by apply altered_keyed | cbn; lia]. }
  destruct c; cbn [account_step].
  all: try (apply Hscoped; by intros []). all: try (apply Hfree; by intros []). all: try done.
  - cbn. unfold mem_find_by_id. mrun. destruct (iu_forced_read_failures s); cbn; [|by split; [|lia]]. by destruct (mfa_reported_gone s).
  - cbn. unfold mem_create, insert_row, allocate_id. mrun. destruct (existsb _ _); [done|]. cbn. split; [by apply inserted_keyed | rewrite Z.mod_small; lia].
  - cbn. unfold mem_create_with_oauth, insert_row, allocate_id. mrun. destruct (existsb _ _); [done|]. cbn. split; [by apply inserted_keyed | rewrite Z.mod_small; lia].
  - split; [|cbn; lia]. split; [done|]. intros id' u. cbn. rewrite lookup_delete_Some. intros [_ ?]. by apply Hu.
Qed.

Definition after_calls (calls : list AccountCall) (s : InMemoryUserRepository) : InMemoryUserRepository :=
  foldl (fun s c => account_step c s) s calls.

Lemma calls_keyed (calls : list AccountCall) s :
  keyed s -> iu_next_id s + Z.of_nat (length calls) < 2 ^ 64 ->
  keyed (after_calls calls s) /\ iu_next_id (after_calls calls s) <= iu_next_id s + Z.of_nat (length calls).
Proof.
  revert s. induction calls as [|c calls IH]; intros s Hk Hn; [by split; [|cbn; lia]|]. cbn [length] in Hn |- *. unfold after_calls. cbn [foldl].
  destruct (step_keyed c s Hk) as [Hk' Hn']; [lia|]. destruct (IH (account_step c s) Hk') as [Hk'' Hn'']; [lia|].
  split; [done|]. unfold after_calls in Hn''. lia.
Qed.

Lemma new_keyed : keyed new_repository.
Proof. split; [cbn; lia|]. intros id u. cbn. by rewrite lookup_empty. Qed.

(** The test repository keeps accounts and tenants apart.  After any test of
    fewer than 2^64 - 1 calls: a created account has an id no row has, answers
    exactly the row it adds, with the e-mail and tenant it was given, and no row
    of that tenant had the address in any case of its letters, which is the only
    ground it is refused on; a scoped write changes no row but that of the id and
    tenant it names. *)
Theorem double_keeps_accounts_apart (calls : list AccountCall) (data : CreateUserData) :
  Z.of_nat (length calls) < 2 ^ 64 - 1 ->
  let s := after_calls calls new_repository in
  match repo_create data s with
  | (Ok u, s') =>
      iu_users s !! au_id u = None /\ iu_users s' = <[au_id u := u]> (iu_users s) /\
      au_email u = cu_email data /\ au_tenant_id u = cu_tenant_id data /\
      forall id u', iu_users s !! id = Some u' -> takes_address (cu_email data) (cu_tenant_id data) u' = false
  | (Err _, s') =>
      s' = s /\ exists id u', iu_users s !! id = Some u' /\ takes_address (cu_email data) (cu_tenant_id data) u' = true
  end /\
  forall (f : AuthUser -> AuthUser) (id tenant_id id' : string) (u : AuthUser),
    iu_users s !! id' = Some u -> id' <> id \/ au_tenant_id u <> tenant_id ->
    iu_users (scoped_write f id tenant_id s).2 !! id' = Some u.
Proof.
  intros Hlen s. destruct (calls_keyed calls new_repository new_keyed) as [Hk Hn]; [cbn; lia|]. fold s in Hk, Hn. cbn in Hn.
  split.
  - cbn. unfold mem_create, insert_row, allocate_id. mrun. destruct (existsb _ _) eqn:He; cbn.
    + split; [done|]. apply existsb_exists in He as (u & Hu & Ht). apply list_elem_of_In, row_in in Hu as [id Hid]. by exists id, u.
    + split_and!; [by apply next_free | done | done | done | by apply taken_row].
  - intros f id tenant_id id' u Hu Hd. cbn. rewrite lookup_alter. case_decide as He; [subst id'|done]. rewrite Hu. cbn.
    destruct Hd as [?|Hd]; [done|]. by rewrite bool_decide_eq_false_2.
Qed.

(** A lookup by address answers a row of the tenant it names, unless the test
    told the repository to ignore it. *)
Lemma found_in_tenant s (email tenant_id : string) u :
  iu_ignore_tenant_on_email_lookup s = false -> (repo_find_by_email email tenant_id s).1 = Ok (Some u) ->
  (exists id, iu_users s !! id = Some u) /\ takes_address email tenant_id u = true.
Proof. cbn. unfold mem_find_by_email. mrun. cbn. intros -> [= [Hp Hid]%found_row]. split; [done|]. exact Hp. Qed.
End accounts.

Module RepositorySample.
#[export] Instance listed_rows : RowOrder := {| row_order A rows := (map_to_list rows).*2 |}.
#[export] Instance listed_rows_laws : RowOrderLaws.
Proof. by split. Qed.

Definition newcomer (email tenant : string) : CreateUserData := {|
  cu_email := email; cu_name := "Ann"; cu_password_hash := None; cu_role := None; cu_status := None; cu_tenant_id := tenant;
  cu_email_verified := None |}.

Definition tested : InMemoryUserRepository :=
  after_calls [AcCreate (newcomer "ann@example.com" "acme"); AcUpdateStatus "user-0" "globex" "banned"] new_repository.

(** The same address in other letters is taken in its tenant and free in another; a
    write that names another tenant did nothing. *)
Example tested_rows :
  (repo_create (newcomer "ANN@example.com" "acme") tested).1 = Err (Conflict "email already exists") /\
  match (repo_create (newcomer "ANN@example.com" "globex") tested).1 with Ok u => au_id u = "user-1" | Err _ => False end /\
  match (repo_find_by_email "Ann@Example.com" "acme" tested).1 with Ok (Some u) => au_status u = "pending" | _ => False end.
Proof. vm_compute. by split_and!. Qed.
End RepositorySample.
