(* ===== verification/HostSample.v ===== *)
(** * A concrete host

    A host application whose state is its list of accounts, that lets every
    attempt through and whose key derivations always run; and an engine over
    Redis for it.  The worlds the witnesses of the flows run in. *)

From S2P Require Import Prelude Errors Types Crypto Concrete Jwt Redis RedisSession SessionSpec RedisRefine RefineRevoke SessionStore Lineage RedisLife RedisContract RedisStores StoreClaims MfaStore Engine Repository Password SideStores TokenManager TokenVerify TokenRotate RotationClaims EngineLife Sessions EngineSample AuthCore IssueServed Login LoginSound LoginLockout SessionOps.

Module HostSample.
Import Concrete JwtConcrete Sample EngineSample PasswordSample.

Abbreviation Accounts := (list AuthUser).

Definition find_account (p : AuthUser -> bool) (users : Accounts) : option AuthUser := List.find p users.

Definition update_account (p : AuthUser -> bool) (f : AuthUser -> AuthUser) (users : Accounts) : Accounts :=
  (fun u => if p u then f u else u) <$> users.

Definition by_id (id : string) (u : AuthUser) : bool := bool_decide (au_id u = id).

Definition with_hash (phc : string) (u : AuthUser) : AuthUser := {|
  au_id := au_id u; au_email := au_email u; au_name := au_name u; au_password_hash := Some phc; au_role := au_role u;
  au_status := au_status u; au_tenant_id := au_tenant_id u; au_email_verified := au_email_verified u;
  au_mfa_enabled := au_mfa_enabled u; au_mfa_secret := au_mfa_secret u; au_mfa_recovery_codes := au_mfa_recovery_codes u;
  au_oauth_provider := au_oauth_provider u; au_oauth_provider_id := au_oauth_provider_id u;
  au_last_login_at := au_last_login_at u; au_created_at := au_created_at u |}.

(** A new row: the repository picks the id. *)
Definition new_account (email name role tenant : string) (hash : option string) (verified : bool) : AuthUser := {|
  au_id := "u9"; au_email := email; au_name := name; au_password_hash := hash; au_role := role; au_status := "active";
  au_tenant_id := tenant; au_email_verified := verified; au_mfa_enabled := false; au_mfa_secret := None;
  au_mfa_recovery_codes := None; au_oauth_provider := None; au_oauth_provider_id := None; au_last_login_at := None;
  au_created_at := 0 |}.

Definition add_account (u : AuthUser) (users : Accounts) : result RepositoryError AuthUser * Accounts := (Ok u, u :: users).

#[export] Instance accounts : UserRepository Accounts := {|
  repo_find_by_id id tenant users :=
    (Ok (find_account (fun u => by_id id u && match tenant with Some t => bool_decide (au_tenant_id u = t) | None => true end) users), users);
  repo_find_by_email email tenant users :=
    (Ok (find_account (fun u => bool_decide (au_email u = email) && bool_decide (au_tenant_id u = tenant)) users), users);
  repo_create d := add_account (new_account (cu_email d) (cu_name d) (default "USER" (cu_role d)) (cu_tenant_id d) (cu_password_hash d)
                                  (default false (cu_email_verified d)));
  repo_update_password id tenant phc users := (Ok tt, update_account (by_id id) (with_hash phc) users);
  repo_update_mfa _ _ _ users := (Ok tt, users); repo_update_last_login _ _ users := (Ok tt, users);
  repo_update_status _ _ _ users := (Ok tt, users); repo_update_email_verified _ _ _ users := (Ok tt, users);
  repo_update_email _ _ _ users := (Ok tt, users); repo_find_by_oauth_id _ _ _ users := (Ok None, users);
  repo_link_oauth _ _ _ users := (Ok tt, users); 
  repo_create_with_oauth d := add_account (new_account (co_email d) (co_name d) (default "USER" (co_role d)) (co_tenant_id d) None
                                             (default false (co_email_verified d)))
|}.

#[export] Instance hooks : AuthHooks Accounts := {|
  before_register _ _ users := (Ok (Allow {| ov_role := None; ov_status := None; ov_email_verified := None |}), users);
  before_login _ _ _ users := (Ok tt, users)
|}.

#[export] Instance runtime : KdfRuntime Accounts := {| kdf_permit users := (true, users); kdf_join users := (true, users) |}.
#[export] Instance breaches : PasswordBreachChecker Accounts := {| is_breached _ users := (false, users) |}.

(** ASCII text: no address of the samples has spaces or capitals. *)
#[export] Instance text : UnicodeText := {| str_trim s := s; str_to_lowercase := to_ascii_lowercase |}.

#[export] Instance brute : BruteForceStore Redis := redis_brute_force_store ns.
#[export] Instance brute_laws : BruteForceStoreLaws Redis := redis_brute_force_laws ns.
#[export] Instance mfa_quiet : MfaQuietLaws Redis := redis_mfa_quiet ns.

Definition stored_hash (password : string) : string :=
  match pw_hash 0 password (params (2 ^ 17)) with Ok phc => phc | Err _ => "" end.

Definition ann : AuthUser := {|
  au_id := "u1"; au_email := "ann@acme.test"; au_name := "Ann"; au_password_hash := Some (stored_hash "hunter22");
  au_role := "USER"; au_status := "active"; au_tenant_id := "acme"; au_email_verified := true; au_mfa_enabled := false;
  au_mfa_secret := None; au_mfa_recovery_codes := None; au_oauth_provider := None; au_oauth_provider_id := None;
  au_last_login_at := None; au_created_at := 0 |}.

Definition engine : AuthEngine Accounts := {|
  en_config := {| cf_hmac_key := "idkey"; cf_blocked_statuses := ["BANNED"]; cf_verification_required := true;
    cf_verification_otp_ttl := 600; cf_tenant_id_resolver := None; cf_enforce_tenant_binding := false;
    cf_sessions_enabled := true; cf_reset_method := RmToken; cf_reset_otp_length := 6; cf_reset_otp_ttl := 600;
    cf_reset_token_ttl := 3600; cf_email_change_token_ttl := 3600; cf_user_status_cache_ttl := 60 |};
  en_tokens := tm; en_sessions := svc; en_brute_force := {| bf_max_attempts := 2; bf_window_secs := 900 |};
  en_passwords := {| ps_params := params (2 ^ 17); ps_rehash_on_verify := true; ps_min_length := 8;
                     ps_sentinel := stored_hash SENTINEL_PLAINTEXT |};
  en_password_reset_store := true; en_user_status_cache := false |}.

Definition request : RequestContext := {| rc_ip := "203.0.113.9"; rc_user_agent := "Chrome Linux"; rc_sanitized_headers := ∅ |}.

Definition world (users : Accounts) : World Redis Accounts := MkWorld (fresh 0) users 0 0 0 [].

Lemma world_ready (users : Accounts) : ready (w_store (world users)).
Proof. apply fresh_ready. Qed.

Definition attempt_of (password : string) : LoginInput :=
  {| li_email := "Ann@acme.test"; li_password := password; li_tenant_id := Some "acme" |}.

(** ** Sign-in *)

(** A wrong password, and an address the host does not know. *)
Lemma wrong_password : attempt_refused engine (attempt_of "letmein1") request "acme" (world [ann]).
Proof.
  exists [ann], [ann]. split_and!; [done..|]. exists (Some ann), [ann], [ann], [ann]. by split_and!.
Qed.

Lemma unknown_address : attempt_refused engine (attempt_of "hunter22") request "acme" (world []).
Proof. exists [], []. split_and!; [done..|]. by exists None, [], [], []. Qed.


Lemma granted : login_granted engine (attempt_of "hunter22") request "acme" ann (world [ann]).
Proof.
  split; [|done| |].
  - exists [ann], (world [ann]), [ann], [ann], [ann], [ann]. split_and!; try done; vm_compute; reflexivity.
  - eexists. split; [done|]. vm_compute. reflexivity.
  - split; [vm_compute; reflexivity | done].
Qed.


(** The same account with a second factor. *)
Definition ann_mfa : AuthUser := {|
  au_id := "u1"; au_email := "ann@acme.test"; au_name := "Ann"; au_password_hash := Some (stored_hash "hunter22");
  au_role := "USER"; au_status := "active"; au_tenant_id := "acme"; au_email_verified := true; au_mfa_enabled := true;
  au_mfa_secret := None; au_mfa_recovery_codes := None; au_oauth_provider := None; au_oauth_provider_id := None;
  au_last_login_at := None; au_created_at := 0 |}.

Definition mfa_run := login engine (attempt_of "hunter22") request (world [ann_mfa]).

Definition no_result : LoginResult := LoginMfaChallenge {| ch_mfa_required := false; ch_mfa_temp_token := "" |}.

Lemma mfa_run_ok : mfa_run = (Ok (result_of no_result mfa_run.1), mfa_run.2).
Proof. apply run_ok. vm_compute. reflexivity. Qed.

Lemma login_admits_only_proved_witness :
  exists user phc, au_password_hash user = Some phc /\ verify_phc "hunter22" phc = true.
Proof.
  destruct (login_admits_only_proved engine (attempt_of "hunter22") request (result_of no_result mfa_run.1) (world [ann_mfa])
    mfa_run.2 (world_ready _) mfa_run_ok) as (tenant & w1 & u2 & user & phc & _ & _ & _ & _ & _ & Hphc & Hver & _).
  exists user, phc. exact (conj Hphc Hver).
Defined.

(** ** Lockout *)

Definition failed_once : World Redis Accounts := (login engine (attempt_of "letmein1") request (world [ann])).2.
Definition failed_twice : World Redis Accounts :=
  let w := with_store (advance 1000 (w_store failed_once)) failed_once in (login engine (attempt_of "letmein2") request w).2.
Definition locked_world : World Redis Accounts := with_store (advance 2000 (w_store failed_twice)) failed_twice.

Lemma two_failures : refused_run ns engine "ann@acme.test" "acme" [1000; 2000] (world [ann]) locked_world.
Proof.
  apply rr_cons with (attempt_of "letmein1") request; [done | exact wrong_password |].
  apply rr_cons with (attempt_of "letmein2") request; [done | | apply rr_nil].
  exists [ann], [ann]. split_and!; [vm_compute; reflexivity | vm_compute; reflexivity |].
  exists (Some ann), [ann], [ann], [ann]. split_and!; vm_compute; reflexivity.
Qed.

Lemma resolve_body (w : World Redis Accounts) :
  resolve_tenant engine (Some "acme") request w = (Ok "acme", with_users (w_users w) w).
Proof. by destruct w. Qed.

Lemma failed_logins_lock_witness :
  exists secs w2, login_over ns engine (attempt_of "hunter22") request locked_world = (Err (AccountLocked (Some secs)), w2) /\ secs = 897.
Proof.
  destruct (failed_logins_lock ns engine "acme" [1000; 2000] (attempt_of "hunter22") request (world [ann]) locked_world
    (w_users locked_world)) as (secs & w2 & Hrun & Hs & _).
  - cbn. lia.
  - reflexivity.
  - unfold i64_max. cbn. lia.
  - repeat constructor; lia.
  - cbn. lia.
  - reflexivity.
  - reflexivity.
  - exact two_failures.
  - apply resolve_body.
  - exists secs, w2. split; [exact Hrun|]. rewrite Hs. reflexivity.
Defined.

(** ** Sign-out and refresh *)

(** Ann's session of [EngineSample], with the accounts the host has by now. *)
Definition signed_in (users : Accounts) : World Redis Accounts := MkWorld (w_store signed_world) users 10 10 0 [].


Definition refresh_of (users : Accounts) := refresh engine signed_refresh "203.0.113.9" "Chrome Linux" (signed_in users).

Definition no_session : RefreshedSession := {| rs_tokens := no_tokens; rs_user := safe_user ann |}.

Lemma refresh_ok : refresh_of [ann] = (Ok (result_of no_session (refresh_of [ann]).1), (refresh_of [ann]).2).
Proof. apply run_ok. vm_compute. reflexivity. Qed.

Lemma refresh_serves_current_account_witness :
  exists user, rs_user (result_of no_session (refresh_of [ann]).1) = safe_user user /\ usable engine user.
Proof.
  destruct (refresh_serves_current_account engine signed_refresh "203.0.113.9" "Chrome Linux" (signed_in [ann])
    (refresh_of [ann]).2 (result_of no_session (refresh_of [ann]).1) refresh_ok)
    as (tokens & claims & w2 & user & _ & _ & Huse & Hu & _).
  exists user. exact (conj Hu Huse).
Defined.

(** The host deleted the account after Ann signed in. *)
Definition gone_rotation := reissue_tokens tm signed_refresh "203.0.113.9" "Chrome Linux" (signed_in []).
Definition gone_tokens : RotatedTokens := result_of no_tokens gone_rotation.1.
Definition gone_check := verify_access tm (rt_access_token gone_tokens) gone_rotation.2.
Definition gone_claims : DashboardClaims := result_of sample_claims gone_check.1.

Lemma gone_rotated :
  rotated_to engine signed_refresh "203.0.113.9" "Chrome Linux" (signed_in []) gone_tokens gone_claims gone_check.2.
Proof. exists gone_rotation.2. split; apply run_ok; vm_compute; reflexivity. Qed.

Lemma refresh_signs_out_unusable_witness :
  exists w', refresh engine signed_refresh "203.0.113.9" "Chrome Linux" (signed_in []) = (Err TokenInvalid, w').
Proof.
  destruct (refresh_signs_out_unusable engine signed_refresh "203.0.113.9" "Chrome Linux" (signed_in []) gone_check.2
    gone_tokens gone_claims None TokenInvalid (dc_tenant_id gone_claims) eq_refl tm_serviceable ltac:(done)
    (proj1 signed_world_sound) (proj2 signed_world_sound) gone_rotated) as (w' & Hrun & _).
  - reflexivity.
  - done.
  - vm_compute. reflexivity.
  - exists w'. exact Hrun.
Defined.

End HostSample.
