(* ===== verification/FlowSample.v ===== *)
(** * Recovery and second-factor flows on the concrete host

    The remaining parameters instantiated, and the witnesses of the password
    reset, password change and MFA theorems. *)

From S2P Require Import Prelude Errors Types Crypto Concrete Jwt Redis RedisSession SessionSpec RedisRefine SessionStore Lineage RedisContract RedisStores StoreClaims MfaStore Engine Repository Password SideStores OtpService TokenManager TokenVerify RotationClaims EngineLife Sessions EngineSample AuthCore Login LoginSound SessionOps PasswordReset ResetOrder Account Totp MfaService MfaSound HostSample.
From Stdlib Require Import DecimalString.

Module FlowSample.
Import Concrete JwtConcrete Sample EngineSample PasswordSample SingleUseSamples HostSample.

(** ** Parameters *)

#[export] Instance EmailChangeContext_text : Text EmailChangeContext.
Proof.
  apply (text_via (fun c => (ec_user_id c, ec_new_email c, ec_tenant_id c, ec_password_fingerprint c))
    (fun '(a, b, c, d) => Build_EmailChangeContext a b c d)).
  by intros [].
Defined.

#[export] Instance otp_store : OtpStore Redis := redis_otp_store ns.
#[export] Instance otp_laws : OtpStoreLaws Redis := redis_otp_laws ns.
#[export] Instance reset_store : PasswordResetStore Redis := redis_password_reset_store ns.
#[export] Instance reset_laws : PasswordResetStoreLaws Redis := redis_password_reset_laws ns.

#[export] Instance mail : EmailProvider Accounts := {|
  send_password_reset_token _ _ _ users := (Ok tt, users);
  send_email_change_verification _ _ _ users := (Ok tt, users);
  send_email_changed_notification _ _ _ users := (Ok tt, users)
|}.

Lemma decimal_ascii (z : Z) : string_all is_ascii (z_to_string z) = true.
Proof.
  assert (Hu : forall d, string_all is_ascii (NilEmpty.string_of_uint d) = true) by (intros d; by induction d).
  assert (Hz : forall d, string_all is_ascii (NilZero.string_of_uint d) = true) by (intros []; try apply (Hu (_ _)); done).
  unfold z_to_string, NilZero.string_of_int. destruct (Z.to_int z) as [d|d]; [apply Hz|].
  cbn [string_all]. by rewrite Hz.
Qed.

#[export] Instance digits : DigitSource.
Proof.
  refine {| redraws := 1 |}. intros i. exists 0%nat. split; [lia|]. unfold drawn_byte. cbn [entropy host host_at].
  pose proof (decimal_ascii (Z.of_nat (i + 0) + 1)) as Ha. destruct (z_to_string _) as [|c s]; [done|].
  cbn [fit]. cbn [string_all] in Ha. apply andb_true_iff in Ha as [Ha _]. unfold is_ascii in Ha. apply bool_decide_eq_true in Ha. lia.
Defined.

(** Two letters per byte: enough for both alphabets. *)
Definition letter (nibble : Z) : ascii := z_byte (65 + nibble).

Fixpoint put_letters (s : string) : string :=
  match s with
  | EmptyString => EmptyString
  | String b s' => String (letter (Z.shiftr (byte_z b) 4)) (String (letter (Z.land (byte_z b) 15)) (put_letters s'))
  end.

Fixpoint take_letters (s : string) : option string :=
  match s with
  | EmptyString => Some EmptyString
  | String hi (String lo s') => String (z_byte ((byte_z hi - 65) * 16 + (byte_z lo - 65))) <$> take_letters s'
  | _ => None
  end.

Lemma byte_letters (b : ascii) :
  z_byte ((byte_z (letter (Z.shiftr (byte_z b) 4)) - 65) * 16 + (byte_z (letter (Z.land (byte_z b) 15)) - 65)) = b /\
  is_base32 (letter (Z.shiftr (byte_z b) 4)) = true /\ is_base32 (letter (Z.land (byte_z b) 15)) = true.
Proof. by destruct b as [[] [] [] [] [] [] [] []]. Qed.

Lemma take_put_letters (s : string) : take_letters (put_letters s) = Some s.
Proof.
  induction s as [|b s IH]; [done|]. cbn [put_letters take_letters]. rewrite IH. cbn [fmap option_fmap option_map].
  by destruct (byte_letters b) as [-> _].
Qed.

Lemma put_letters_base32 (s : string) : string_all is_base32 (put_letters s) = true.
Proof. induction s as [|b s IH]; [done|]. cbn [put_letters string_all]. destruct (byte_letters b) as (_ & -> & ->). done. Qed.

Lemma base32_no_colon (s : string) : string_all is_base32 s = true -> contains_char ":" s = false.
Proof.
  intros Hs. unfold contains_char. rewrite negb_false_iff. induction s as [|b s IH]; [done|]. cbn [string_all] in *.
  apply andb_true_iff in Hs as [Hb Hs]. rewrite (IH Hs), andb_true_r, negb_true_iff, bool_decide_eq_false. by intros ->.
Qed.

#[export] Instance base32 : Base32 := {| b32_encode := put_letters; b32_decode := take_letters |}.
#[export] Instance base32_laws : Base32Laws.
Proof. split; [apply take_put_letters | apply put_letters_base32]. Qed.

#[export] Instance base64_std : Base64Std := {| base64_encode := put_letters; base64_decode := take_letters |}.
#[export] Instance base64_std_laws : Base64StdLaws.
Proof. split; [apply take_put_letters | intros; apply base32_no_colon, put_letters_base32]. Qed.

#[export] Instance chars_table : UnicodeChars := {|
  char_is_whitespace s := match s with String c EmptyString => ascii_whitespace c | _ => false end;
  char_to_uppercase s := match s with String c EmptyString => String (ascii_upper c) "" | _ => s end;
|}.
#[export] Instance chars_table_laws : UnicodeCharsLaws.
Proof. by split. Qed.

(** A cipher in name only: the tag is a digest of the key. *)
Definition key_tag (key : string) : string := fit 16 (z_to_string (mix 17 key)).

#[export] Instance gcm : Aes256Gcm := {|
  gcm_encrypt key nonce plaintext := Some (plaintext +:+ key_tag key);
  gcm_decrypt key nonce combined :=
    let '(ciphertext, tag) := split_at (String.length combined - TAG_LEN) combined in
    if bool_decide (tag = key_tag key) then Some ciphertext else None;
|}.

Lemma split_at_length (a b : string) : split_at (String.length a) (a +:+ b) = (a, b).
Proof. induction a as [|c a IH]; [done|]. cbn [String.length]. rewrite string_app_cons. cbn [split_at]. by rewrite IH. Qed.

#[export] Instance gcm_laws : Aes256GcmLaws.
Proof.
  assert (Hlen : forall a b : string, String.length (a +:+ b) = (String.length a + String.length b)%nat)
    by (intros a b; induction a as [|c a IH]; [done|]; rewrite string_app_cons; cbn [String.length]; lia).
  assert (Hk : forall key, String.length (key_tag key) = TAG_LEN) by (intros; apply fit_length).
  split; intros key nonce plaintext combined [= <-]; [|by rewrite Hlen, Hk].
  cbn [gcm_decrypt gcm]. rewrite Hlen, Hk, Nat.add_sub, split_at_length. by rewrite bool_decide_eq_true_2.
Qed.

#[export] Instance mfa_json : MfaJson := {|
  setup_to_json d := Some (to_text (sd_encrypted_secret d, String.concat "," (sd_hashed_codes d), sd_encrypted_plain_codes d));
  setup_of_json s := '(a, b, c) ← (of_text s : option (string * string * string));
                     Some {| sd_encrypted_secret := a; sd_hashed_codes := split_on "," b; sd_encrypted_plain_codes := c |};
  codes_to_json codes := Some (String.concat "," codes);
  codes_of_json s := Some (split_on "," s);
|}.

(** The deployment has no platform administrators. *)
#[export] Instance no_admins : PlatformUserRepository Accounts := {|
  admin_find_by_id _ users := (Ok None, users);
  admin_find_by_email _ users := (Ok None, users);
  admin_update_last_login _ users := (Ok tt, users);
  admin_update_mfa _ _ users := (Ok tt, users);
  admin_update_password _ _ users := (Ok tt, users);
  admin_update_status _ _ users := (Ok tt, users);
|}.

(** ** Password reset *)

Definition forgot : ForgotPasswordInput := {| fp_email := "ann@acme.test"; fp_tenant_id := Some "acme" |}.

Lemma initiate_reset_uniform_witness : (initiate_reset engine forgot request (signed_in [ann])).1 = Ok tt.
Proof.
  destruct (initiate_reset_uniform engine forgot request "acme" (signed_in [ann]) (signed_in [ann]) true
    (os_try_begin_resend Types.PasswordReset (hashed_identifier engine "acme" "ann@acme.test") RESEND_COOLDOWN_SECS
       (w_store (signed_in [ann]))).2) as [Hok _]; [reflexivity | apply pair_fst; vm_compute; reflexivity | reflexivity | exact Hok].
Defined.

Definition mailed : World Redis Accounts := (initiate_reset engine forgot request (signed_in [ann])).2.

Lemma mailed_at : at_state mailed (stands_for (w_store (signed_in [ann]))).
Proof.
  unfold mailed. eapply (equiet_at (initiate_reset engine forgot request)); [| | apply surjective_pairing].
  - unfold initiate_reset, initiate_reset_inner, find_unblocked, send_reset_otp, send_reset_token. hush;
      first [apply quiet_otp_resend | apply quiet_put_token | apply quiet_delete_token].
  - split; [apply signed_world_sound | reflexivity].
Qed.

Definition reset_input (password : string) : ResetPasswordInput := {|
  ri_email := "ann@acme.test"; ri_tenant_id := Some "acme"; ri_new_password := password;
  ri_token := Some (generate_secure_token 10 RESET_TOKEN_BYTES); ri_otp := None; ri_verified_token := None |}.

Definition reset_run := reset_password engine (reset_input "correct horse") request mailed.

Lemma reset_ok : reset_run = (Ok tt, reset_run.2).
Proof. apply pair_fst. vm_compute. reflexivity. Qed.

Lemma reset_signs_out_everywhere_witness :
  exists context, password_written engine (rc_user_id context) (rc_tenant_id context) "correct horse".
Proof.
  destruct (reset_signs_out_everywhere engine (reset_input "correct horse") request (tm_refresh_ttl_secs tm) mailed reset_run.2)
    as (tenant_id & w1 & proof & context & _ & _ & _ & _ & _ & Hw & _).
  - reflexivity.
  - apply mailed_at.
  - eapply sound_equiv; [|apply signed_world_sound]. apply equiv_same. symmetry. apply mailed_at.
  - exact reset_ok.
  - exists context. exact Hw.
Defined.

Lemma refused_reset_spends_nothing_witness :
  exists e w', reset_password engine (reset_input "short") request mailed = (Err e, w') /\ w_store w' = w_store mailed.
Proof. apply (refused_reset_spends_nothing engine (reset_input "short") request mailed). right. right. left. reflexivity. Defined.

(** ** Password change *)

Definition change_run := change_password engine "acme" "u1" "hunter22" "correct horse" (Some signed_refresh) (signed_in [ann]).

Lemma change_password_keeps_only_current_witness :
  exists user phc, au_password_hash user = Some phc /\ verify_phc "hunter22" phc = true.
Proof.
  destruct (change_password_keeps_only_current engine "acme" "u1" "hunter22" "correct horse" (Some signed_refresh)
    (tm_refresh_ttl_secs tm) (signed_in [ann]) change_run.2) as (user & phc & _ & Hphc & Hver & _).
  - reflexivity.
  - reflexivity.
  - apply signed_world_sound.
  - apply signed_world_sound.
  - vm_compute. reflexivity.
  - apply pair_fst. vm_compute. reflexivity.
  - exists user, phc. exact (conj Hphc Hver).
Defined.

(** ** A rehash that loses its race *)

Definition accepts (password : string) (w : World Redis Accounts) : bool :=
  match find_account (by_id "u1") (w_users w) with
  | Some user => verify_phc password (default "" (au_password_hash user))
  | None => false
  end.

Definition ann_external : AuthUser := {|
  au_id := "u1"; au_email := "ann@acme.test"; au_name := "Ann"; au_password_hash := None;
  au_role := "USER"; au_status := "active"; au_tenant_id := "acme"; au_email_verified := true; au_mfa_enabled := false;
  au_mfa_secret := None; au_mfa_recovery_codes := None; au_oauth_provider := Some "google";
  au_oauth_provider_id := Some "g-1"; au_last_login_at := None; au_created_at := 0 |}.

(** A proof issued while the account had no local password, redeemed after one
    was set; and one bound to the password still in place. *)
Lemma proof_binding_exact_witness :
  assert_proof_still_bound {| rc_user_id := "u1"; rc_email := "ann@acme.test"; rc_tenant_id := "acme";
    rc_password_fingerprint := "" |} (signed_in [ann]) = (Ok tt, signed_in [ann]) /\
  ((assert_proof_still_bound {| rc_user_id := "u1"; rc_email := "ann@acme.test"; rc_tenant_id := "acme";
      rc_password_fingerprint := password_fingerprint ann |} (signed_in [ann])).1 = Ok tt).
Proof.
  split.
  - exact (proof_binding_exact ann_external "ann@acme.test" "acme" (signed_in [ann])).
  - apply (proof_binding_exact ann "ann@acme.test" "acme" (signed_in [ann])).
    exists (Some ann). split; vm_compute; reflexivity.
Defined.

(** The rehash task re-reads the account and finds the verified hash still in
    place; the owner then changes the password; the task's write lands last. *)
Definition raced : World Redis Accounts :=
  let '(hash, w1) := rehash_read (en_passwords engine) "hunter22" "acme" "u1" (stored_hash "hunter22") (signed_in [ann]) in
  let w2 := (change_password engine "acme" "u1" "hunter22" "correct horse" (Some signed_refresh) w1).2 in
  (rehash_write "acme" "u1" (result_of None hash) w2).2.

(** The changed password is gone and the old one works again: the window between
    the re-read and the write loses a password, not only an upgrade. *)
Lemma rehash_race_reinstates_password :
  accepts "correct horse" change_run.2 = true /\ accepts "hunter22" raced = true /\ accepts "correct horse" raced = false.
Proof. split_and!; vm_compute; reflexivity. Qed.

(** ** The second factor *)

Definition service (current : string) (retired : list string) (identifier : string) (previous : list string) : MfaService := {|
  ms_platform_repo := false; ms_tokens := tm; ms_sessions := svc; ms_brute_force := en_brute_force engine;
  ms_passwords := en_passwords engine; ms_encryption_key := current; ms_previous_encryption_keys := retired;
  ms_identifier_key := identifier; ms_previous_identifier_keys := previous; ms_issuer := "Acme"; ms_totp_window := 1;
  ms_recovery_code_count := 2; ms_sessions_enabled := true; ms_blocked_statuses := ["BANNED"] |}.

Definition ms : MfaService := service "enc-1" [] "idkey" [].

(** After both keys were rotated. *)
Definition ms_rotated : MfaService := service "enc-2" ["enc-0"; "enc-1"] "idkey-2" ["idkey"].

Definition codes_run := generate_recovery_codes 2 (world []).
Definition codes : list string := result_of [] codes_run.1.

Lemma printed_code_accepted_witness :
  exists index, verify_recovery_code (map (hash_recovery_code ms) codes) (recovery_code_candidates ms_rotated (default "" (codes !! 1%nat))) = Some index.
Proof.
  destruct (printed_code_accepted ms ms_rotated 2 codes (default "" (codes !! 1%nat)) (world []) codes_run.2)
    as [_ (index & digest & Hv & _)].
  - apply run_ok. vm_compute. reflexivity.
  - vm_compute. right. left.
  - right. left.
  - exists index. exact Hv.
Defined.

Definition raw_secret : string := "12345678901234567890".
Definition sealed_run := reencrypt_secret ms raw_secret (world []).
Definition sealed : string := result_of "" sealed_run.1.

Lemma sealed_secret_opens_witness : decrypt_secret_with_rotation ms_rotated sealed = Some (raw_secret, true).
Proof.
  apply (sealed_secret_opens ms ms_rotated raw_secret sealed ["enc-2"; "enc-0"] [] (world []) sealed_run.2).
  - apply run_ok. vm_compute. reflexivity.
  - reflexivity.
  - intros k Hk. apply elem_of_cons in Hk as [->|Hk]; [|apply list_elem_of_singleton in Hk as ->]; vm_compute; reflexivity.
Defined.

(** Ann with an authenticator and two recovery codes. *)
Definition ann_enrolled : AuthUser := {|
  au_id := "u1"; au_email := "ann@acme.test"; au_name := "Ann"; au_password_hash := Some (stored_hash "hunter22");
  au_role := "USER"; au_status := "active"; au_tenant_id := "acme"; au_email_verified := true; au_mfa_enabled := true;
  au_mfa_secret := Some sealed; au_mfa_recovery_codes := Some (map (hash_recovery_code ms) codes);
  au_oauth_provider := None; au_oauth_provider_id := None; au_last_login_at := None; au_created_at := 0 |}.

Definition totp_code : string := candidate raw_secret (1000000 / 30).

Definition disable_run := disable ms "u1" totp_code "203.0.113.9" "Chrome Linux" McDashboard (Some "acme") (signed_in [ann_enrolled]).


(** Ann signs in with her password and completes the challenge with her second
    recovery code. *)
Definition first_step := login engine (attempt_of "hunter22") request (world [ann_enrolled]).
Definition temp_token : string :=
  match first_step.1 with Ok (LoginMfaChallenge c) => ch_mfa_temp_token c | _ => "" end.
Definition second_step :=
  challenge_expecting ms None temp_token (default "" (codes !! 1%nat)) "203.0.113.9" "Chrome Linux" first_step.2.
Definition no_login : LoginResultMfa := LrDashboard {| ar_user := safe_user ann; ar_access_token := ""; ar_refresh_token := "" |}.


End FlowSample.
