(* ===== verification/PeerSample.v ===== *)
(** * Administrators, invitations and identity providers on the concrete host *)

From S2P Require Import Prelude Errors Types Crypto Concrete Jwt Redis RedisSession SessionSpec RedisRefine SessionStore RedisContract StoreClaims MfaStore Engine Repository Password SideStores OtpService TokenManager Sessions EngineSample AuthCore Login LoginSound Platform OAuth Invitation HostSample FlowSample RedisStores.

Module PeerSample.
Import Concrete JwtConcrete Sample EngineSample PasswordSample SingleUseSamples HostSample.

(** ** Invitations *)

#[export] Instance StoredInvitation_text : Text StoredInvitation.
Proof.
  apply (text_via (fun i => (si_email i, si_role i, si_tenant_id i, si_inviter_user_id i, si_created_at i))
    (fun '(a, b, c, d, e) => Build_StoredInvitation a b c d e)).
  by intros [].
Defined.

#[export] Instance invitations : InvitationStore Redis := redis_invitation_store ns.
#[export] Instance invitation_mail : InvitationMail Accounts := {| send_invitation _ _ _ users := (Ok tt, users) |}.

Definition ranks : InvitationConfig := {|
  ic_store := true; ic_hierarchy := {[ "ADMIN" := ["USER"]; "USER" := [] ]}; ic_token_ttl := 86400 |}.

Definition boss : AuthUser := {|
  au_id := "b1"; au_email := "boss@acme.test"; au_name := "Boss"; au_password_hash := None; au_role := "ADMIN";
  au_status := "active"; au_tenant_id := "acme"; au_email_verified := true; au_mfa_enabled := false; au_mfa_secret := None;
  au_mfa_recovery_codes := None; au_oauth_provider := None; au_oauth_provider_id := None; au_last_login_at := None; au_created_at := 0 |}.

Definition invite_run := invite engine ranks "b1" "New@acme.test" "USER" "acme" None (world [boss]).

Lemma invite_within_rank_witness : exists inviter, may_grant ranks inviter "USER" "acme".
Proof.
  destruct (invite_within_rank engine ranks "b1" "New@acme.test" "USER" "acme" None (world [boss]) invite_run.2)
    as (inviter & raw & approved & invitation & _ & Hg & _).
  - apply pair_fst. vm_compute. reflexivity.
  - exists inviter. exact Hg.
Defined.

Definition acceptance : AcceptInvitationInput :=
  {| ai_token := generate_secure_token 0 INVITE_TOKEN_BYTES; ai_name := "New"; ai_password := "correct horse" |}.
Definition accept_run := accept_invitation engine ranks acceptance "203.0.113.9" "Chrome Linux" ∅ invite_run.2.
Definition no_auth_result : AuthResult := {| ar_user := safe_user boss; ar_access_token := ""; ar_refresh_token := "" |}.

Lemma accept_invitation_grants_invited_witness :
  exists user, ar_user (result_of no_auth_result accept_run.1) = safe_user user.
Proof.
  destruct (accept_invitation_grants_invited engine ranks acceptance "203.0.113.9" "Chrome Linux" ∅
    (result_of no_auth_result accept_run.1) invite_run.2 accept_run.2)
    as (invitation & inviter & data & user & _ & _ & _ & _ & _ & _ & _ & _ & _ & _ & _ & Hu).
  - apply run_ok. vm_compute. reflexivity.
  - exists user. exact Hu.
Defined.

(** The account has the invited role and address; the token does not work twice. *)
Example accepted_once :
  su_role (ar_user (result_of no_auth_result accept_run.1)) = "USER" /\
  su_email (ar_user (result_of no_auth_result accept_run.1)) = "new@acme.test" /\
  (accept_invitation engine ranks acceptance "203.0.113.9" "Chrome Linux" ∅ accept_run.2).1 = Err InvalidInvitationToken.
Proof. split_and!; vm_compute; reflexivity. Qed.

(** ** Identity providers *)

#[export] Instance OAuthStatePayload_text : Text OAuthStatePayload.
Proof.
  apply (text_via (fun p => (op_state_provider p, op_state_tenant_id p, op_code_verifier p))
    (fun '(a, b, c) => Build_OAuthStatePayload a b c)).
  by intros [].
Defined.

#[export] Instance states : OAuthStateStore Redis := redis_oauth_state_store ns.
#[export] Instance create_all : OAuthHooks Accounts := {| on_oauth_login _ _ _ users := (Ok OlCreate, users) |}.

Definition idp : OAuthProvider Accounts := {|
  pv_name := "idp";
  pv_authorize_url state _ := "https://idp.test/authorize?state=" +:+ state;
  pv_exchange_code code verifier users :=
    (Ok {| ot_access_token := code; ot_token_type := "Bearer"; ot_expires_in := None; ot_scope := None; ot_id_token := None;
           ot_refresh_token := None |}, users);
  pv_fetch_profile token users :=
    (Ok {| op_provider := "idp"; op_provider_id := token; op_email := "pat@acme.test"; op_email_verified := true; op_name := None;
           op_avatar := None |}, users) |}.

Definition federation : OAuthConfig Accounts := {|
  oc_providers := {[ "idp" := idp ]}; oc_state_store := true; oc_success_redirect_url := None; oc_mfa_redirect_url := None;
  oc_error_redirect_url := None |}.

Definition initiate_run := oauth_initiate engine federation "idp" (Some "acme") request (world []).
Definition no_redirect : OAuthRedirect := {| or_authorize_url := ""; or_state := "" |}.
Definition state : string := or_state (result_of no_redirect initiate_run.1).
Definition callback_run := oauth_callback engine federation "idp" "code-7" state (Some state) request initiate_run.2.
Definition no_outcome : OAuthOutcome := OoMfaChallenge {| ch_mfa_required := false; ch_mfa_temp_token := "" |}.

Lemma oauth_callback_bound_witness :
  exists (provider : OAuthProvider Accounts) payload profile user, profile_account (pv_name provider) (op_state_tenant_id payload) profile user /\ usable engine user.
Proof.
  destruct (oauth_callback_bound engine federation "idp" "code-7" state (Some state) request (result_of no_outcome callback_run.1)
    initiate_run.2 callback_run.2)
    as (provider & payload & raw & s1 & tokens & profile & u1 & u2 & user & _ & _ & _ & _ & _ & _ & _ & _ & _ & Hacc & Huse & _).
  - apply run_ok. vm_compute. reflexivity.
  - exists provider, payload, profile, user. exact (conj Hacc Huse).
Defined.

(** A replay of the same callback, and one from another browser, fail. *)
Example state_spent :
  (oauth_callback engine federation "idp" "code-7" state (Some state) request callback_run.2).1 = Err OauthFailed /\
  (oauth_callback engine federation "idp" "code-7" state None request initiate_run.2).1 = Err OauthFailed.
Proof. split; vm_compute; reflexivity. Qed.

(** ** Administrators *)

Definition root_admin : AuthPlatformUser := {|
  ap_id := "p1"; ap_email := "root@platform.test"; ap_name := "Root"; ap_password_hash := stored_hash "hunter22";
  ap_role := "SUPER"; ap_status := "active"; ap_mfa_enabled := false; ap_mfa_secret := None; ap_mfa_recovery_codes := None;
  ap_platform_id := None; ap_last_login_at := None; ap_updated_at := 0; ap_created_at := 0 |}.

Abbreviation Admins := (list AuthPlatformUser).

#[export] Instance admins : PlatformUserRepository Admins := {|
  admin_find_by_id id admins := (Ok (List.find (fun a => bool_decide (ap_id a = id)) admins), admins);
  admin_find_by_email email admins := (Ok (List.find (fun a => bool_decide (ap_email a = email)) admins), admins);
  admin_update_last_login _ admins := (Ok tt, admins);
  admin_update_mfa _ _ admins := (Ok tt, admins);
  admin_update_password _ _ admins := (Ok tt, admins);
  admin_update_status _ _ admins := (Ok tt, admins);
|}.

#[export] Instance admin_runtime : KdfRuntime Admins := {| kdf_permit a := (true, a); kdf_join a := (true, a) |}.

Definition platform : PlatformAuthService := {|
  pa_tokens := tm; pa_passwords := en_passwords engine; pa_brute_force := en_brute_force engine; pa_identifier_key := "idkey";
  pa_mfa_enabled_for_build := true; pa_blocked_statuses := ["BANNED"] |}.

Definition admin_world : World Redis Admins := MkWorld (w_store (world [])) [root_admin] 0 0 0 [].
Definition admin_run := PlatformAuth.login platform "Root@platform.test" "hunter22" "203.0.113.9" "Chrome Linux" admin_world.
Definition no_admin_login : PlatformLoginResult := PlatformLoginMfaChallenge {| ch_mfa_required := false; ch_mfa_temp_token := "" |}.

Lemma platform_login_admits_only_proved_witness : exists admin, verify_phc "hunter22" (ap_password_hash admin) = true.
Proof.
  destruct (platform_login_admits_only_proved platform "Root@platform.test" "hunter22" "203.0.113.9" "Chrome Linux"
    (result_of no_admin_login admin_run.1) admin_world admin_run.2) as [_ (admin & _ & Hv & _)].
  - apply run_ok. vm_compute. reflexivity.
  - exists admin. exact Hv.
Defined.

End PeerSample.
