(* ===== verification/ConfigSample.v ===== *)
(** * A deployment from its configuration

    A production configuration with a second factor and an identity provider, the
    engine the builder answers for it, and that engine serving tokens and tickets
    over Redis. *)

From S2P Require Import Prelude Errors Types Crypto Concrete Jwt Redis RedisSession SessionSpec RedisRefine SessionStore RedisLife RedisContract RedisStores StoreClaims MfaStore Engine Repository Password SideStores TokenManager TokenVerify Sessions EngineSample AuthCore Login Totp MfaService Platform OAuth Invitation UrlText Config Validate Builder Facade HostSample FlowSample.
From Stdlib Require Import SpecFloat.

Module ConfigSample.
Import Concrete JwtConcrete Sample EngineSample PasswordSample SingleUseSamples HostSample FlowSample Settings.

(** A logarithm that is exact on powers of two, and a map that yields its values
    in the order it holds them. *)
#[export] Instance platform : EntropyPlatform := {|
  f64_log2 x := match x with
                | S754_finite false m e => binary_normalize 53 1024 (Z.log2 (Zpos m) + e) 0 false
                | _ => S754_nan
                end;
  values_order l := l;
  values_order_perm l := Permutation.Permutation_refl l;
|}.

#[export] Instance variants : Base64Variants := {| url_safe_decode _ := None; standard_no_pad_decode _ := None |}.

#[export] Instance status_cache_store : UserStatusCacheStore Redis := redis_user_status_cache ns.

#[export] Instance WsTicketSnapshot_text : Text WsTicketSnapshot.
Proof.
  apply (text_via (fun s => ((ws_sub s, ws_tenant_id s, ws_role s, ws_status s), (ws_mfa_enabled s, ws_mfa_verified s), (ws_jti s, ws_epoch s)))
    (fun '((a, b, c, d), (e, f), (g, h)) => Build_WsTicketSnapshot a b c d e f g h)).
  by intros [].
Defined.

#[export] Instance tickets : WsTicketStore Redis := redis_ws_ticket_store ns.
#[export] Instance ticket_laws : WsTicketStoreLaws Redis := redis_ws_ticket_laws ns.
#[export] Instance counters : RateLimitStore Redis := redis_rate_limit_store ns.

Definition config : Settings.AuthConfig Accounts := {|
  ac_jwt := {| jc_secret := "0123456789abcdef0123456789abcdef"; jc_previous_secrets := ["fedcba9876543210fedcba9876543210"];
               jc_access_expires_in := 900; jc_access_cookie_max_age := 900; jc_refresh_expires_in_days := 7;
               jc_absolute_session_lifetime_days := 30; jc_algorithm := Hs256; jc_issuer := Some ""; jc_audience := None;
               jc_refresh_grace_window := 30 |};
  ac_identifier_key := None;
  ac_roles := {| rl_hierarchy := {["ADMIN" := ["USER"]; "USER" := []]}; rl_platform_hierarchy := None |};
  ac_password := password_default;
  ac_token_delivery := Cookie;
  ac_secure_cookies := None;
  ac_cookies := cookie_default;
  ac_mfa := Some {| mc_encryption_key := put_letters "0123456789abcdef0123456789abcdef"; mc_previous_encryption_keys := [];
                    mc_issuer := "Acme"; mc_recovery_code_count := 8; mc_totp_window := 1 |};
  ac_sessions := session_default;
  ac_brute_force := brute_force_default;
  ac_password_reset := password_reset_default;
  ac_email_verification := email_verification_default;
  ac_platform := {| pl_enabled := false |};
  ac_invitations := invitation_default;
  ac_email_change := email_change_default;
  ac_oauth := {| oa_success_redirect_url := Some "https://ops@App.Example.com:8443/done"; oa_mfa_redirect_url := Some "/mfa";
                 oa_error_redirect_url := None; oa_redirect_allowlist := ["app.example.com"]; oa_google := None |};
  ac_route_prefix := "auth";
  ac_redis_namespace := "auth";
  ac_blocked_statuses := ["BANNED"; "INACTIVE"; "SUSPENDED"];
  ac_user_status_cache_ttl := 60;
  ac_controllers := controllers_default;
  ac_tenant_id_resolver := None;
  ac_enforce_tenant_binding := false;
|}.

Definition builder : AuthEngineBuilder Accounts := supply CoUserRepository (redis_stores (set_config config new_builder)).

Definition passwords : PasswordService :=
  result_of {| ps_params := to_crypto_params password_default; ps_rehash_on_verify := true; ps_min_length := 0; ps_sentinel := "" |}
    (new_password_service 0 password_default).

Definition be : BuiltEngine Accounts := assemble builder (new_resolved (auto_promote config) Production true) passwords.

Lemma built : build 0 builder = Ok be.
Proof. vm_compute. reflexivity. Qed.

Lemma built_engine_fit_witness : Builder.fit be.
Proof. apply (built_engine_fit builder 0 be); [|exact built]. split; vm_compute; [split; [discriminate | reflexivity] | discriminate]. Defined.

Lemma built_redirects_stay_witness :
  redirect_stays ["app.example.com"] "https://ops@App.Example.com:8443/done" /\ redirect_stays ["app.example.com"] "/mfa".
Proof.
  split.
  - apply (built_redirects_stay builder 0 be _ built eq_refl); [discriminate|]. apply list_elem_of_In. left. reflexivity.
  - apply (built_redirects_stay builder 0 be _ built eq_refl); [discriminate|]. apply list_elem_of_In. right. left. reflexivity.
Defined.

(** A relative target whose query quotes another URL is read as that URL's host. *)
Lemma quoted_url_refused :
  is_same_origin_path "/done?next=https://docs.example.com" = true /\
  host_allowlisted "/done?next=https://docs.example.com" ["app.example.com"] = false.
Proof. split; vm_compute; reflexivity. Qed.

(** ** Serving a sign-in *)

Definition world_at (now : Z) : World Redis Accounts := MkWorld (fresh now) [ann] 0 0 0 [].
Definition issued_run := issue_tokens (en_tokens (be_engine be)) (safe_user ann) "203.0.113.9" "Chrome Linux" false Proved (world_at 1000100000).
Definition access : string := ar_access_token (result_of no_auth issued_run.1).

Lemma issued_serviceable : serviceable (S:=Redis) (en_tokens (be_engine be)).
Proof. split; intros; cbn; by eexists. Qed.

Lemma issued_ready : ready (w_store issued_run.2).
Proof.
  destruct (issued_session_is_served (en_tokens (be_engine be)) (safe_user ann) "203.0.113.9" "Chrome Linux" false Proved
    (world_at 1000100000) issued_serviceable (fresh_ready ns _)) as (res & w' & Hrun & Hr & _).
  unfold issued_run. rewrite Hrun. exact Hr.
Qed.

Definition options : VerifyAccessOptions := new_options PlaneDashboard.
Definition served_run := Facade.verify_access be access options issued_run.2.
Definition no_served : VerifiedAccessToken := VtDashboard sample_claims.

Lemma served_ok : served_run = (Ok (result_of no_served served_run.1), served_run.2).
Proof. apply run_ok. vm_compute. reflexivity. Qed.

Lemma verified_access_sound_witness :
  match result_of no_served served_run.1 with
  | VtDashboard claims => account_usable (S := Redis) be (dc_sub claims) (dc_tenant_id claims)
  | VtPlatform _ => False
  end.
Proof.
  pose proof (verified_access_sound be access options) as Hsound.
  pose proof (Hsound issued_run.2 served_run.2 (result_of no_served served_run.1) issued_ready served_ok) as Hs. clear Hsound.
  revert Hs. generalize (result_of no_served served_run.1). intros [claims|claims] Hs.
  - exact (proj1 (proj2 (proj2 (proj2 (proj2 Hs)))) eq_refl).
  - discriminate (proj1 Hs).
Defined.

(** ** A ticket for it *)

Definition claims : DashboardClaims := result_of sample_claims (verify_access_token be access issued_run.2).1.
Definition ticket_run := issue_ws_ticket be claims issued_run.2.
Definition ticket : string := it_ticket (result_of {| it_ticket := ""; it_expires_in := 0 |} ticket_run.1).
Definition redeemed_run := redeem_ws_ticket be ticket ticket_run.2.

Lemma ticket_ready : ready (w_store ticket_run.2).
Proof.
  exact (proj1 (issue_ws_ticket_quiet be claims issued_run.2 issued_ready)).
Qed.

Lemma redeemed_ok : redeemed_run = (Ok (result_of sample_claims redeemed_run.1), redeemed_run.2).
Proof. apply run_ok. vm_compute. reflexivity. Qed.

Lemma ws_ticket_follows_token_witness : dc_tenant_id (result_of sample_claims redeemed_run.1) <> "".
Proof.
  pose proof (ws_ticket_follows_token be ticket) as Hsound.
  destruct (Hsound ticket_run.2 redeemed_run.2 (result_of sample_claims redeemed_run.1) ticket_ready redeemed_ok)
    as (_ & snapshot & s1 & _ & _ & Hne & _).
  exact Hne.
Defined.

(** ** Revoking it *)

Definition revoked_run := served (bump_epoch_inner ns SkDashboard
  (subject_hash (en_tokens (be_engine be)) SkDashboard (Some "acme") "u1")) (w_store issued_run.2).
Definition revoked_world : World Redis Accounts := MkWorld (advance 5000 revoked_run.2) [ann] 10 10 0 [].
Definition standing : DashboardClaims := result_of sample_claims (rotating_claims (en_tokens (be_engine be)) access revoked_world).

Lemma revocation_outlives_token_witness :
  (TokenManager.verify_access (en_tokens (be_engine be)) access revoked_world).1 = Err TokenRevoked.
Proof.
  apply (revocation_outlives_token builder 0 be ns (subject_hash (en_tokens (be_engine be)) SkDashboard (Some "acme") "u1")
    (w_store issued_run.2) revoked_run.2 1 5000 access standing revoked_world built (proj1 issued_ready) (proj2 issued_ready)).
  - vm_compute. reflexivity.
  - apply pair_fst. vm_compute. reflexivity.
  - vm_compute. discriminate.
  - vm_compute. discriminate.
  - vm_compute. reflexivity.
  - lia.
  - vm_compute. discriminate.
  - reflexivity.
  - vm_compute. reflexivity.
  - vm_compute. reflexivity.
  - vm_compute. discriminate.
Defined.
End ConfigSample.
