(* ===== verification/HttpSample.v ===== *)
(** * Requests to a deployment

    A concrete header map and cookie jar, and the claims about the HTTP adapter
    at concrete requests to the engine of [ConfigSample.v]. *)

From S2P Require Import Prelude Errors Types Crypto Concrete Jwt Redis RedisSession SessionSpec RedisRefine SessionStore RedisLife RedisContract RedisStores StoreClaims MfaStore Engine Repository Password SideStores TokenManager TokenVerify Sessions EngineSample AuthCore OtpService Login PasswordReset Account Totp MfaService Platform OAuth Invitation UrlText Config Validate Builder Facade Net Http ClientIp Delivery Guards Edge Routes RouteClaims Bodies HostSample FlowSample PeerSample ConfigSample.
From stdpp Require Import list.
#[local] Open Scope Z_scope.

Module HttpSample.
Import Concrete JwtConcrete Sample EngineSample PasswordSample SingleUseSamples HostSample FlowSample PeerSample ConfigSample Settings.

(** ** Headers *)

Definition named (name : string) (h : list (string * option string)) : list (option string) :=
  snd <$> filter (fun e => e.1 = name) h.

#[export] Instance http : HttpLib := {|
  HeaderMap := list (string * option string);
  header_get h name := match named name h with value :: _ => value | [] => None end;
  header_get_all h name := named name h;
  header_contains h name := bool_decide (named name h <> []);
  header_iter h := h;
  Method := string;
  mGET := "GET"; mHEAD := "HEAD"; mOPTIONS := "OPTIONS"; mDELETE := "DELETE"; mPOST := "POST";
  is_safe m := bool_decide (m ∈ ["GET"; "HEAD"; "OPTIONS"; "TRACE"]);
  method_text m := m;
  header_value_valid s := string_all (fun c => bool_decide (32 <= byte_z c < 127)) s;
|}.

(** ** Cookies *)

Record SampleJar : Set := { sj_carried : list (string * string); sj_changes : list SetCookie }.

Definition keeps (name : string) (c : SetCookie) : bool := negb (bool_decide (sc_name c = name)).

Definition removal (c : SetCookie) : SetCookie :=
  {| sc_name := sc_name c; sc_value := ""; sc_path := sc_path c; sc_domain := sc_domain c; sc_http_only := sc_http_only c;
     sc_secure := sc_secure c; sc_same_site := sc_same_site c; sc_max_age := Some 0 |}.

Definition carries (j : SampleJar) (name : string) : bool := existsb (fun e => bool_decide (e.1 = name)) (sj_carried j).

#[export] Instance cookies : CookieLib := {|
  Jar := SampleJar;
  jar_get j name :=
    match List.find (fun c => bool_decide (sc_name c = name)) (sj_changes j) with
    | Some c => if expired c then None else Some (sc_value c)
    | None => snd <$> List.find (fun e => bool_decide (e.1 = name)) (sj_carried j)
    end;
  jar_add c j := {| sj_carried := sj_carried j; sj_changes := c :: filter (fun c' => sc_name c' <> sc_name c) (sj_changes j) |};
  jar_remove c j := {| sj_carried := sj_carried j;
                       sj_changes := (if carries j (sc_name c) then [removal c] else []) ++
                                     filter (fun c' => sc_name c' <> sc_name c) (sj_changes j) |};
  jar_carried := carries;
  jar_changes := sj_changes;
  make_removal := removal;
  cookie_text c := sc_name c +:+ "=" +:+ sc_value c;
|}.

#[export] Instance cookie_laws : CookieLaws.
Proof. by split. Qed.

(** ** Addresses *)

Definition proxies : TrustedProxyFn := fun ip => Some (bool_decide (ip = V4 10 0 0 1 \/ ip = V4 10 0 0 2)).

Definition request (method path : string) (headers : list (string * option string)) (peer : IpAddr) : Parts := {|
  pt_method := method;
  pt_path := path;
  pt_query := None;
  pt_headers := headers;
  pt_peer := Some peer;
  pt_resolved_ip := None;
  pt_matched_path := Some path;
  pt_param := Err 500;
|}.

(** The client wrote the first two entries; the outer proxy the third, about it. *)
Definition forwarded : Parts :=
  request "POST" "/auth/login" [("x-forwarded-for", Some "1.2.3.4,10.0.0.9,::ffff:203.0.113.9,10.0.0.2")] (V4 10 0 0 1).

Lemma client_address_unforgeable_witness :
  pt_resolved_ip (resolve_client_ip {| cp_source := TrustedForwardedFor; cp_is_trusted_proxy := Some proxies |} forwarded) =
  Some (V4 203 0 113 9).
Proof.
  destruct (client_address_unforgeable {| cp_source := TrustedForwardedFor; cp_is_trusted_proxy := Some proxies |} forwarded
    (V4 10 0 0 1) eq_refl) as [_ H].
  apply (H proxies (V6 0 0 0 0 0 65535 51968 28937) "1.2.3.4,10.0.0.9" "::ffff:203.0.113.9" ["10.0.0.2"] [V4 10 0 0 2]).
  - reflexivity.
  - reflexivity.
  - vm_compute. reflexivity.
  - vm_compute. reflexivity.
  - split; vm_compute; reflexivity.
  - vm_compute. reflexivity.
  - constructor; [split; vm_compute; reflexivity | constructor].
  - constructor; [vm_compute; reflexivity | constructor].
Defined.

Definition from_ip (ip : IpAddr) : Parts := request "POST" "/auth/login" [] ip.

Lemma budget_per_allocation_witness :
  client_bucket (from_ip (V6 8193 3512 1 2 3 4 5 6)) = client_bucket (from_ip (V6 8193 3512 1 2 9 9 9 9)) /\
  client_bucket (from_ip (V6 8193 3512 1 2 3 4 5 6)) <> client_bucket (from_ip (V6 8193 3512 1 3 3 4 5 6)).
Proof.
  pose proof (budget_per_allocation (from_ip (V6 8193 3512 1 2 3 4 5 6))) as H. split.
  - apply H; [intros ip [= <-]; cbn; unfold segment; repeat constructor; lia .. | reflexivity].
  - intros Heq. apply H in Heq; [by vm_compute in Heq | intros ip [= <-]; cbn; unfold segment; repeat constructor; lia ..].
Defined.

(** ** Delivery *)

Definition adapter : AdapterConfig := resolve_config (be_config be) "auth" PeerAddr.

Definition here (domain : option string) : bool := bool_decide (domain = None).

Definition empty_jar : @Jar cookies := Build_SampleJar [] [].
Definition signed_in : Browser := receives here ∅ (sj_changes (set_auth_cookies adapter [] "acc" "ref" empty_jar).2).
Definition sent : @Jar cookies :=
  Build_SampleJar [("access_token", "acc"); ("refresh_token", "ref"); ("has_session", "1")] [].

Lemma signed_in_holds : signed_in !! ("refresh_token", None, Some "/auth") = Some "ref".
Proof. vm_compute. reflexivity. Qed.

Lemma signed_out_browser_forgets_witness :
  receives here signed_in (sj_changes (clear_session adapter [] sent).2 ++ (clear_session adapter [] sent).1)
    !! ("refresh_token", None, Some "/auth") = None.
Proof.
  pose proof (signed_out_browser_forgets adapter [] here signed_in sent) as H.
  assert (Hnd : NoDup (session_names adapter)) by by vm_compute; repeat constructor; set_solver.
  assert (Hsent : forall c, c ∈ cleared_cookies adapter (default None (head (scopes []))) ->
    is_Some (signed_in !! cookie_key c) -> jar_carried sent (sc_name c) = true).
  { intros c Hc _. unfold cleared_cookies in Hc. rewrite !elem_of_cons, elem_of_nil in Hc.
    destruct Hc as [->|[->|[->|[]]]]; vm_compute; reflexivity. }
  specialize (H Hnd eq_refl Hsent). destruct (clear_session adapter [] sent) as [extras jar] eqn:Hcl.
  apply (H ltac:(intros scope c Hs Hc; apply list_elem_of_singleton in Hs as ->; unfold cleared_cookies in Hc;
                 rewrite !elem_of_cons, elem_of_nil in Hc; destruct Hc as [->|[->|[->|[]]]]; vm_compute; reflexivity)
            None "acc" "ref" (with_domain None (build_refresh_cookie adapter "ref")));
    [left | reflexivity | right; left].
Defined.

Definition delivered : AuthResult :=
  {| ar_user := safe_user ann; ar_access_token := "acc"; ar_refresh_token := "ref" |}.

Definition signing_in : Parts := request "POST" "/auth/login" [] (V4 203 0 113 9).

Lemma planted_cookies_protected_witness :
  let '(response, jar) := deliver_auth adapter (cookie_domains be signing_in) delivered 200 empty_jar in
  Forall (fun c => sc_secure c = Some true) (sj_changes jar) /\ rs_body response = BUser (safe_user ann).
Proof.
  pose proof (planted_cookies_protected builder "auth" PeerAddr 0 be signing_in delivered 200 empty_jar built eq_refl) as H.
  cbv zeta in H. fold adapter in H. destruct (deliver_auth adapter _ delivered 200 empty_jar) as [response jar].
  destruct H as (Hall & _ & Hbody). split; [|exact (Hbody eq_refl)].
  apply list.Forall_forall. intros c Hc. rewrite list.Forall_forall in Hall.
  apply (Hall c); [apply elem_of_app; left; exact Hc | reflexivity].
Defined.

(** ** Bodies *)

#[export] Instance garde : GardeLib := {|
  garde_email s := if contains_char "@" s then None else Some "not an e-mail address";
  garde_units s := Z.of_nat (String.length s);
  garde_length min max s :=
    if bool_decide (min <= Z.of_nat (String.length s) <= max) then None else Some "length out of bounds";
  report_order l := l;
|}.

#[export] Instance garde_laws : GardeLaws.
Proof. split; [|done]. intros min max s. cbn. case_bool_decide; split; done. Qed.

(** A reader that knows one sign-in. *)
#[export] Instance one_login : JsonBody Bodies.LoginDto := {|
  from_slice _ := JsOk {| lgi_email := "ann@acme.test"; lgi_password := "correct horse"; lgi_tenant_id := Some "acme" |}
|}.

Definition unread {T} : JsonBody T := {| from_slice _ := JsData |}.
Definition unread_query {T} : QueryText T := {| query_from_str _ := None |}.

#[export] Instance bodies : RouteBodies.
Proof. split; first [exact one_login | exact unread | exact unread_query | exact {| value_from_slice _ := None |}]. Defined.

Definition json_headers : list (string * option string) := [("content-type", Some "application/json; charset=UTF-8")].

Lemma accepted_bodies_bounded_witness :
  exists d : Bodies.LoginDto, validated_json (json_headers : @HeaderMap http) (Ok "{}") = Ok d /\
    within 1 128 (lgi_password d) /\ clean_tenant (lgi_tenant_id d).
Proof.
  eexists. split; [vm_compute; reflexivity|].
  pose proof accepted_bodies_bounded as H.
  apply (proj1 (proj2 H) json_headers (Ok "{}")). vm_compute. reflexivity.
Defined.

(** ** The edge *)

Definition governor (label : string) (period burst : Z) (key : IpAddr) : M (Conn Redis Accounts) GovernorError unit :=
  fun c => (Ok tt, c).
Definition declares_more_than (headers : @HeaderMap http) (max : Z) : bool := false.
Definition jar_of (headers : @HeaderMap http) : @Jar cookies := empty_jar.
Definition unrouted (parts : Parts) : Response SetCookie := plain 404 BText.

Definition ax : AxumAuthConfig := new_axum_config PeerAddr.

(** A form of another site that posts a sign-in. *)
Definition posted : Parts :=
  request "POST" "/auth/login" [("sec-fetch-site", Some "cross-site"); ("origin", Some "https://evil.example");
                                ("content-type", Some "application/json")] (V4 203 0 113 9).

Lemma cross_site_changes_nothing_witness :
  (serve be adapter governor declares_more_than jar_of unrouted ax posted (Ok "{}") (world_at 1000100000)).2 = world_at 1000100000.
Proof.
  pose proof (cross_site_changes_nothing be adapter governor declares_more_than jar_of unrouted ax posted (Ok "{}")
    (world_at 1000100000) eq_refl) as H.
  assert (Helse : from_elsewhere (rk_trusted_origins (ad_cookies adapter)) posted).
  { split; [reflexivity|]. split; [|intros origin _; constructor].
    change (header_get (pt_headers posted) "sec-fetch-site") with (Some "cross-site"). cbv iota. unfold SAFE_FETCH_SITES. rewrite !elem_of_cons, elem_of_nil.
    intros [?|[?|[]]]; discriminate. }
  specialize (H Helse). destruct (serve _ _ _ _ _ _ _ _ _ _) as [answer w']. exact (proj1 H).
Defined.

(** ** The limits *)

Definition answers (c : Conn Redis Accounts) : Response SetCookie * Conn Redis Accounts := (no_content, c).

Definition tries : list (Z * Parts) := [(0, signing_in); (1000, signing_in); (2000, signing_in)].


(** ** Strangers *)

Definition asking : Parts := request "GET" "/auth/me" [] (V4 203 0 113 9).


(** ** Guards *)

Definition carrying : Conn Redis Accounts := MkConn issued_run.2 None None (Build_SampleJar [("access_token", access)] []).
Definition guarded_run := run_guards be adapter [GkAuth; GkStatus; GkMfa] asking carrying.

Lemma guarded_ok : guarded_run = (Ok (result_of [] guarded_run.1), guarded_run.2).
Proof. apply run_ok. vm_compute. reflexivity. Qed.

Lemma guards_speak_of_one_account_witness :
  length (result_of [] guarded_run.1) = 3%nat /\
  exists claims, result_of [] guarded_run.1 = replicate 3 claims /\ account_usable (S := Redis) be (dc_sub claims) (dc_tenant_id claims).
Proof.
  pose proof (guards_speak_of_one_account be adapter GkAuth [GkStatus; GkMfa] asking carrying) as Hone.
  specialize (Hone guarded_run.2 (result_of [] guarded_run.1) issued_ready).
  specialize (Hone eq_refl guarded_ok) as (token & claims & _ & Heq & _ & _ & Hall).
  split; [rewrite Heq; reflexivity|]. exists claims. split; [exact Heq|].
  apply list.Forall_cons in Hall as [_ Hall]. apply list.Forall_cons in Hall as [Hall _]. exact Hall.
Defined.

(** ** Recovery codes *)

Definition printed_run := generate_recovery_codes 2 (world_at 1000100000).

Lemma printed_ok : printed_run = (Ok (result_of [] printed_run.1), printed_run.2).
Proof. apply run_ok. vm_compute. reflexivity. Qed.

Lemma printed_codes_pass_the_edge_witness :
  result_of [] printed_run.1 <> [] /\ Forall (fun code => totp_or_recovery_code code = None) (result_of [] printed_run.1).
Proof.
  split; [vm_compute; discriminate|]. apply list.Forall_forall. intros code Hc.
  pose proof (printed_codes_pass_the_edge 2 (world_at 1000100000) printed_run.2 (result_of [] printed_run.1) code printed_ok Hc) as H.
  exact (proj1 H).
Defined.
End HttpSample.
