(* ===== verification/ClientSample.v ===== *)
(** * Clients at work

    A concrete JSON package, interleavings of a client's operations, and the
    claims about the client at one of them. *)

From S2P Require Import Prelude Errors Types Crypto UrlText Bodies Client ClientClaims.
From stdpp Require Import list.
#[local] Open Scope Z_scope.

Module ClientSample.

Definition ann : SafeAuthUser := {|
  su_id := "u1"; su_email := "ann@acme.test"; su_name := "Ann"; su_role := "USER"; su_status := "ACTIVE"; su_tenant_id := "acme";
  su_email_verified := true; su_mfa_enabled := false; su_oauth_provider := None;
  su_oauth_provider_id := None; su_last_login_at := None; su_created_at := 0;
|}.

Definition read_pair (s : string) : option (string * string) :=
  match split_on "," s with [a; r] => Some (a, r) | _ => None end.

#[export] Instance json : ClientJson := {|
  Value := unit;
  object_text fields := String.concat "," (snd <$> map_to_list fields);
  read_login_result s := match read_pair s with
                         | Some (a, r) => Ok (LoginSuccess {| ar_user := ann; ar_access_token := a; ar_refresh_token := r |})
                         | None => Err "no sign-in"
                         end;
  read_auth_result s := match read_pair s with
                        | Some (a, r) => Ok {| ar_user := ann; ar_access_token := a; ar_refresh_token := r |}
                        | None => Err "no sign-in"
                        end;
  read_rotated_tokens s := match read_pair s with
                           | Some (a, r) => Ok {| rt_access_token := a; rt_refresh_token := r |}
                           | None => Err "no pair"
                           end;
  read_safe_user s := if bool_decide (s = "ann") then Ok ann else Err "nobody";
  read_envelope s := if bool_decide (s = "expired") then Some (Code.TokenExpired, "expired", None) else None;
|}.

Definition base : string := with_http_client "https://api.example.com/".
Definition held : SessionTokens := {| st_access := "a0"; st_refresh := "r0" |}.

Lemma base_is : base = "https://api.example.com".
Proof. vm_compute. reflexivity. Qed.

(** ** Two reads that find the token expired *)

Definition expired : Reply := Ok (401, "expired").

Definition burst : list Turn :=
  [TnGoOn 0; TnGoOn 1; TnGoOn 0; TnGoOn 1; TnAnswer 1 expired; TnAnswer 0 expired;
   TnGoOn 0; TnGoOn 0; TnGoOn 0; TnGoOn 0; TnAnswer 0 (Ok (200, "a1,r1")); TnGoOn 0; TnGoOn 0;
   TnGoOn 1; TnGoOn 1; TnGoOn 1; TnGoOn 1; TnGoOn 1; TnAnswer 1 (Ok (200, "ann"))].

Definition nobody {A} : Client A := MkClient None None [] [].

(** Where a schedule leads, when each of its turns can be taken. *)
Definition after_turns {A} (c : Client A) (turns : list Turn) : Client A := default nobody (schedule c turns).
Definition runs {A} (c : Client A) (turns : list Turn) : bool := match schedule c turns with Some _ => true | None => false end.

Lemma runs_reachable {A} (c : Client A) (turns : list Turn) : runs c turns = true -> reachable c (after_turns c turns).
Proof. unfold runs, after_turns. destruct (schedule c turns) as [c'|] eqn:Hc; [|done]. intros _. by eapply schedule_reachable. Qed.

Definition after : Client SafeAuthUser := after_turns (started (Some held) (replicate 2 (me base))) burst.

Lemma after_reached : reachable (started (Some held) (replicate 2 (me base))) after.
Proof. apply runs_reachable. vm_compute. reflexivity. Qed.

(** The second read was served with the token the first one's refresh brought. *)
Lemma after_served :
  cl_tokens after = Some {| st_access := "a1"; st_refresh := "r1" |} /\
  cl_tasks after !! 1%nat = Some (Running (Done (Ok ann))).
Proof. split; vm_compute; reflexivity. Qed.

Lemma refreshes_one_after_another_witness :
  booked base (Some held) (cl_log after) = Some (opened (Some {| st_access := "a1"; st_refresh := "r1" |})).
Proof.
  pose proof (refreshes_one_after_another base 2 (Some held) after) as H.
  destruct (H after_reached) as (s & Hb & Hs). rewrite Hb.
  assert (Hl : cl_refresh_lock after = None) by (vm_compute; reflexivity). destruct (Hs Hl) as [Hp Ht].
  destruct s as [t b]. cbn in Hp, Ht. rewrite Hp, Ht. vm_compute. reflexivity.
Defined.

Lemma same_access (a b : string) : me_request base a = me_request base b -> a = b.
Proof. intros Heq. assert (Hx : Some a = Some b) by exact (f_equal rq_bearer Heq). congruence. Qed.

Lemma me_or_refresh (a r : string) : me_request base a = refresh_request base r -> False.
Proof. intros Heq. pose proof (f_equal rq_method Heq) as Hx. discriminate Hx. Qed.

Lemma after_went_well : Forall (goes_well base "a0") (cl_log after).
Proof.
  assert (Hlog : cl_log after =
    [EvSent (me_request base "a0"); EvSent (me_request base "a0"); EvAnswered (me_request base "a0") expired;
     EvAnswered (me_request base "a0") expired; EvSent (refresh_request base "r0");
     EvAnswered (refresh_request base "r0") (Ok (200, "a1,r1")); EvSent (me_request base "a1");
     EvAnswered (me_request base "a1") (Ok (200, "ann"))]) by (vm_compute; reflexivity).
  rewrite Hlog. repeat apply list.Forall_cons_2; try exact I; try apply list.Forall_nil_2; split.
  all: try (intros token Hreq; by destruct (me_or_refresh _ _ Hreq)).
  all: try (intros token Hreq; by destruct (me_or_refresh _ _ (eq_sym Hreq))).
  all: try (intros access Hreq Hne; by destruct (Hne (eq_sym (same_access _ _ Hreq)))).
  - intros token _. eexists. split; [vm_compute; reflexivity | vm_compute; discriminate].
  - intros token _ _ e He. vm_compute in He. discriminate He.
Qed.

Lemma burst_refreshes_once_witness : (refreshes_sent base (cl_log after) <= 1)%nat.
Proof.
  pose proof (burst_refreshes_once base "a0" 2 held after eq_refl) as H.
  exact (proj1 (H after_reached after_went_well)).
Defined.

(** ** Signing out while a refresh is under way *)

Definition quietly {A} (p : Prog A) : Prog unit :=
  next p (fun r => Done (match r with Ok _ => Ok tt | Err e => Err e end)).

Definition race : list Turn :=
  [TnGoOn 0; TnGoOn 0; TnAnswer 0 expired; TnGoOn 0; TnGoOn 0; TnGoOn 0; TnGoOn 0;
   TnGoOn 1; TnGoOn 1; TnGoOn 1; TnAnswer 1 (Ok (204, "")); TnGoOn 1;
   TnAnswer 0 (Ok (200, "a1,r1")); TnGoOn 0].

(** Signing out has succeeded, and the client holds a session again. *)
Lemma sign_out_undone :
  exists c, reachable (started (Some held) [quietly (me base); logout base]) c /\
    cl_tasks c !! 1%nat = Some (Running (Done (Ok tt))) /\
    cl_tokens c = Some {| st_access := "a1"; st_refresh := "r1" |}.
Proof.
  exists (after_turns (started (Some held) [quietly (me base); logout base]) race).
  split; [apply runs_reachable|]; [vm_compute; reflexivity|]. split; vm_compute; reflexivity.
Qed.

(** ** Refreshes asked for by the caller *)

(** They do not wait for each other: both present the same token. *)
Lemma refreshes_side_by_side :
  exists c, reachable (started (Some held) [refresh base; refresh base]) c /\
    cl_log c = [EvSent (refresh_request base "r0"); EvSent (refresh_request base "r0")].
Proof.
  exists (after_turns (started (Some held) [refresh base; refresh base]) [TnGoOn 0; TnGoOn 0; TnGoOn 1; TnGoOn 1]).
  split; [apply runs_reachable|]; vm_compute; reflexivity.
Qed.
(** ** A refresh that fails *)

Definition failing : list Turn :=
  [TnGoOn 0; TnGoOn 1; TnGoOn 0; TnGoOn 1; TnAnswer 0 expired; TnAnswer 1 expired;
   TnGoOn 0; TnGoOn 0; TnGoOn 0; TnGoOn 0; TnAnswer 0 (Ok (503, "")); TnGoOn 0;
   TnGoOn 1; TnGoOn 1; TnGoOn 1; TnGoOn 1].

(** The one that waited for it tries again: two refreshes for one expired token. *)
Lemma failed_refresh_repeated :
  exists c, reachable (started (Some held) (replicate 2 (me base))) c /\ refreshes_sent base (cl_log c) = 2%nat.
Proof.
  exists (after_turns (started (Some held) (replicate 2 (me base))) failing).
  split; [apply runs_reachable|]; vm_compute; reflexivity.
Qed.
End ClientSample.
