(* ===== verification/PrimitiveSample.v ===== *)
(** * Keys, screens and verifiers at work

    The claims about API keys, the password screen, the breach query and the edge
    verifier at concrete inputs. *)

From S2P Require Import Prelude Errors Types Crypto Concrete Jwt Engine Repository AuthCore Totp OAuth Config ApiKey CommonPassword Providers EdgeJwt Utf8 Invitation Mail EngineSample HostSample.
#[local] Open Scope Z_scope.

Module PrimitiveSample.
Import Concrete JwtConcrete EngineSample HostSample.

(** ** An API key *)

Definition key : ParsedApiKey := {| ak_key_id := new_uuid_v4 0; ak_secret := generate_secret 1 |}.

Lemma issued_key_verifies_witness :
  parse (format DEFAULT_PREFIX (ak_key_id key) (ak_secret key)) DEFAULT_PREFIX = Some key /\
  digests_match (digest (ak_secret key) "pepper") (digest (ak_secret key) "pepper") = true.
Proof.
  pose proof (issued_key_verifies 0 1 DEFAULT_PREFIX "pepper") as H. exact (conj (proj1 H) (proj1 (proj2 H))).
Defined.

(** ** A decorated word *)

#[export] Instance letters : UnicodeLetters := {|
  char_is_alphabetic c := match c with String a EmptyString => is_ascii_letter a | _ => true end;
  char_is_alphanumeric c := match c with String a EmptyString => is_ascii_alphanumeric a | _ => true end;
|}.

#[export] Instance letters_laws : UnicodeLettersLaws.
Proof. by split. Qed.

Lemma decorated_words_refused_witness :
  refuses (with_extra_words ["acme"]) "P@ssw0rd2024!" = true /\ refuses (with_extra_words ["acme"]) "@CME #1" = true.
Proof.
  split.
  - pose proof (decorated_words_refused ["acme"] "password" "P@ssw0r" "d" "2024!") as H. apply H.
    + left. apply (bool_decide_unpack _). vm_compute. exact I.
    + vm_compute. reflexivity.
    + vm_compute. reflexivity.
    + vm_compute. reflexivity.
    + vm_compute. reflexivity.
    + vm_compute. reflexivity.
  - pose proof (decorated_words_refused ["acme"] "acme" "@CM" "E" " #1") as H. apply H.
    + right. split; [left | vm_compute; reflexivity].
    + vm_compute. reflexivity.
    + vm_compute. reflexivity.
    + vm_compute. reflexivity.
    + vm_compute. reflexivity.
    + vm_compute. reflexivity.
Defined.

(** Words outside the list, and of other scripts, are admitted. *)
Lemma unusual_words_admitted : refuses new_checker "correct horse battery" = false.
Proof. vm_compute. reflexivity. Qed.

(** ** A breach query *)

(** A digest that keeps a text as it is, so that texts that begin alike have
    digests that do. *)
#[export] Instance digest_of_text : Sha1 := {| sha1 := fit 20 |}.

(** It keeps the URLs it was asked for, and answers with the same lines. *)
#[export] Instance recorder : HttpClient (list string) := {|
  http_send request seen :=
    (Ok {| hr_status := 200; hr_headers := []; hr_body := "30303030303030303030303030303030303:7" |}, hq_url request :: seen);
|}.

Lemma range_query_reveals_prefix_witness :
  (hibp_is_breached "passphrase" []).2 = (hibp_is_breached "password" ([] : list string)).2 /\
  (hibp_is_breached "password" ([] : list string)).2 = ["https://api.pwnedpasswords.com/range/70617"].
Proof.
  assert (Hp : index_prefix "passphrase" = index_prefix "password") by (vm_compute; reflexivity).
  pose proof (range_query_reveals_prefix "password" "passphrase" ([] : list string) Hp) as H.
  split; [exact (proj1 H)|]. rewrite (proj1 (proj2 H)). vm_compute. reflexivity.
Defined.

(** ** A token at the edge *)

(** Claims are tagged with their type, so that one text has one reader. *)
Definition tagged {C} `{Text C} (tag : string) : ClaimsJson C := {|
  to_vec c := Some (tag +:+ "|" +:+ to_text c);
  from_slice s := rest ← strip_prefix (tag +:+ "|") s; of_text rest;
|}.

#[export] Instance tagged_dashboard : ClaimsJson DashboardClaims := tagged "dashboard".
#[export] Instance tagged_platform : ClaimsJson PlatformClaims := tagged "platform".
#[export] Instance tagged_mfa : ClaimsJson MfaTempClaims := tagged "mfa_challenge".
#[export] Instance peek : ClaimsJson TypePeek := {|
  to_vec p := Some (tp_token_type p);
  from_slice s := '(tag, _) ← split_once "|" s; Some {| tp_token_type := tag |};
|}.
#[export] Instance view : JsonView := {| JsonValue := string; read_value := Some; write_header_payload h p := Some (h +:+ p) |}.

Lemma tagged_peek {C} `{Text C} (tag bytes : string) (c : C) :
  contains_char "|" tag = false -> from_slice (ClaimsJson := tagged tag) bytes = Some c ->
  from_slice bytes = Some {| tp_token_type := tag |}.
Proof.
  intros Ht. cbn. destruct (strip_prefix (tag +:+ "|") bytes) as [rest|] eqn:Hs; [|done]. intros _.
  apply strip_prefix_Some in Hs as ->. rewrite string_app_assoc. change ("|" +:+ rest) with (String "|" rest). by rewrite split_once_app.
Qed.

#[export] Instance tags : TaggedClaims.
Proof.
  split; intros bytes c Hc;
    [eapply (tagged_peek (C := DashboardClaims)) | eapply (tagged_peek (C := PlatformClaims)) | eapply (tagged_peek (C := MfaTempClaims))];
    try exact Hc; reflexivity.
Qed.

Definition edge_token : string := match sign sample_claims "k" with Ok t => t | Err _ => "" end.

(** The token was issued for the times from 100 to 1000. *)
Lemma edge_agrees_with_server_witness :
  verify_jwt_hs256 500 edge_token "k" (Some 4294967295) (Some "bymax") None (Some "dashboard") = to_vec sample_claims /\
  forall json, verify_jwt_hs256 500 edge_token "k" (Some 4294967295) (Some "bymax") None (Some "dashboard") = Some json ->
    exists claims tolerance, 0 <= tolerance <= 300 /\
      server_verifies edge_token "k" (edge_options tolerance 500 (Some "bymax") None) claims.
Proof.
  pose proof (edge_agrees_with_server 500 edge_token "k" (Some 4294967295) (Some "bymax") None (Some "dashboard")) as H.
  assert (Hl : forall l, Some 4294967295 = Some l -> 0 <= l) by (intros l [= <-]; lia).
  assert (Hn : i64_min <= 500 <= i64_max) by (unfold i64_min, i64_max; lia).
  specialize (H Hl Hn) as [Hsound Hcomplete]. split.
  - apply (Hcomplete (EcDashboard sample_claims)).
    + vm_compute. reflexivity.
    + vm_compute. split; discriminate.
    + vm_compute. split; discriminate.
    + intros t [= <-]. reflexivity.
  - intros json Hj. destruct (Hsound json Hj) as (claims & tolerance & Ht & Hv & _). exists claims, tolerance. exact (conj Ht Hv).
Defined.

(** ** A hostile invitation *)

#[export] Instance epoch_calendar : Calendar :=
  {| utc _ := {| cv_year := 1970; cv_month := 1; cv_day := 1; cv_hour := 0; cv_minute := 0; cv_second := 7 |} |}.

(** A channel that keeps what it is given. *)
#[export] Instance outbox : AuthEmailSink (list OutgoingEmail) := {| sink_send message sent := (Ok tt, sent ++ [message]) |}.

Definition hostile : InviteData := {|
  iv_inviter_name := "Eve" +:+ String (z_byte 13) (String NEWLINE "Bcc: x@evil.test");
  iv_tenant_name := "<script>";
  iv_invite_token := "0123";
  iv_expires_at := 7000000000;
|}.

Lemma hostile_invitation_sent :
  match mail_invitation new_provider "t1" "a@x.test" hostile None [] with
  | (Ok _, [message]) =>
      oe_subject message = "Eve Bcc: x@evil.test invited you to <script>" /\
      head (split_on NEWLINE (oe_html message)) =
        Some ("<p>Eve" +:+ String (z_byte 13) "<br>Bcc: x@evil.test invited you to join &lt;script&gt;.</p>") /\
      read_html InText "<p>a &lt;b</p>" = Some [Tag "p"; Shown "a"; Shown " "; Shown "<"; Shown "b"; Tag "/p"]
  | _ => False
  end.
Proof. vm_compute. split_and!; reflexivity. Qed.

Lemma masked : mask_email "john.doe@example.test" = "j***@example.test" /\ log_safe ("acme" +:+ NL +:+ "INFO forged") = "<malformed>".
Proof. split; vm_compute; reflexivity. Qed.
End PrimitiveSample.
